(* ===== verification/_CoqProject ===== *)
-Q . S2P
Prelude.v
GoStrings.v
Floats.v
Paths.v
Sha256.v
Md5.v
Manifest.v
Failure.v
Json.v
Utf8.v
JsonText.v
Sse.v
Sessions.v
SessionSteps.v
Lce.v
ToolPolicy.v
Store.v
Effects.v
Triples.v
ClientVersion.v
Leases.v
Base64.v
TenantAssertion.v
LceClient.v
RedisCommands.v
QuotaLimits.v
Quota.v
IndexStatements.v
IndexJobs.v
IndexTool.v
RootDeletion.v
PlatformConfig.v
RootAdmin.v
Admission.v
Auth.v
Console.v
RequestLogs.v
McpServer.v
Router.v
Settings.v
Readers.v
System.v
JobLifecycle.v
Accounting.v
Refinement.v
Guarantees.v
AuthProperties.v
IndexProperties.v
ControlProperties.v
Isolation.v
Requests.v
RequestTrail.v
SessionRefinement.v
Compression.v
Schema.v
Migrations.v
MigrationProperties.v
SchemaTyping.v
Startup.v
IndexBuild.v
Lifecycle.v
Metrics.v
Transport.v
