(* ===== verification/Prelude.v ===== *)
(** * acemcp-relay: a verification development

    ** The program

    acemcp-relay is a multi-tenant relay between coding clients and LCE, the service that
    stores and searches code indexes.  A client synchronises a workspace with the tool
    [codebase_index]: it starts a job with the manifest of its files, the relay compares
    it with the snapshot it last published and answers which files are needed, the client
    uploads them in batches, the relay verifies them, charges their bytes, stages them at
    LCE and finally publishes a revision and replaces its snapshot.  Roots can be deleted,
    at once or by a durable job; a platform administrator can change the model
    configuration, which invalidates every index when the embedding space changes.
    Clients speak MCP over HTTP: they open a session, list tools, call them and may listen to
    an event stream; requests are authenticated by API keys, act for a user or an
    organisation, count against quotas and are logged.  Tools that the relay does not answer
    itself are forwarded to LCE through the relay's own session with it, with a signed tenant.
    Several instances run against one PostgreSQL database and one Redis; in-process maps
    behind mutexes hold rate limits, the key cache, sessions and streams.

    ** Files and sources

    - [Prelude]: results, notations, finite-map statement forms, tactics and hints.
    - [GoStrings], [Floats], [Base64], [Sha256], [Md5], [Json], [JsonText], [Utf8]: what the
      program uses of Go's standard library (strings, strconv with ParseFloat, path, base64,
      sha256, md5, json, utf8); [truncateUTF8] of main.go.
    - [Paths]: path normalisation, exclusion policy, root identifiers (index_jobs.go,
      index_path_policy.go, mcp_index_tool.go, root_admin.go).
    - [Manifest]: manifests, their diff, batch and content checks and the validators of
      tool calls (index_jobs.go, mcp_index_tool.go).
    - [Failure]: failure diagnostics (index_failure.go).
    - [Lce]: arguments and replies of the LCE tools (index_jobs.go, root_deletion_jobs.go,
      main.go).
    - [Store]: the tables of migrateIndexingTables (index_jobs.go) as finite maps.
    - [Effects]: the state and error monad [M] in which handlers run, with the
      environment [Env] that decides clocks, faults, replies and the interleaving.
    - [Leases]: operation leases (index_operations.go).
    - [RedisCommands], [QuotaLimits], [Quota]: limits, caches and the Lua scripts
      (quota.go, swift_quota.go).
    - [ClientVersion]: the minimal client version (client_version_policy.go, the version
      helpers of main.go, metrics.go and mcp_index_tool.go).
    - [IndexStatements], [IndexJobs]: the statements and the handlers of index_jobs.go
      and the start rate limit of mcp_index_tool.go.  [IndexTool]: the tool
      [codebase_index] with its dispatch, heartbeat and envelope (mcp_index_tool.go).
    - [RootDeletion]: root_deletion_jobs.go.  [PlatformConfig]: platform_config_jobs.go
      and the clearing and patch parsing of platform_model_config.go.
      [RootAdmin]: root_admin.go and the clear-index handler of main.go.
      [Console]: the console handlers and the barrier of platform_model_config.go and the
      handlers of client_version_policy.go.
    - [Admission]: the deferred quota and the admission of Swift parts (swift_quota.go,
      quota.go).  [Auth]: keys, organisations, the ban, the console token and the
      middleware (main.go, access_control.go).
    - [Sse], [Sessions], [SessionSteps]: the event-stream format, the session and stream
      tables and their critical sections (main.go, server_lifecycle.go).  [ToolPolicy]: the
      published tools and the checks of their arguments (main.go, mcp_index_status_tool.go).
      [McpServer]: the MCP endpoint, the tool calls, the statistics (main.go) and the user's
      model configuration (modelconfig.go).
    - [TenantAssertion] (tenant_assertion.go) and [LceClient] (the mcpClient of main.go): the
      signed headers and the relay's own session with LCE.
    - [RequestLogs]: request logs, leaderboard, health checks (main.go) and the admission of
      background writes (server_lifecycle.go).  [Settings]: loadConfig and its helpers
      (main.go), log lines (obslog.go), path labels (metrics.go).
    - [Router]: the routes of main and what runs around a handler.
    - [Schema]: a catalog of tables and indexes and the DDL statements on it.  [Migrations]: the
      statements of initDB and the migrate functions (main.go, access_control.go,
      client_version_policy.go, quota.go, modelconfig.go, index_jobs.go).  [Startup]: initDB,
      initRedis and the start of main, with failing calls and several instances at once.
      [IndexBuild]: error_details_migration.go.  [MigrationProperties], [SchemaTyping]: their
      proofs.
    - [Lifecycle]: the goroutines of an instance and its shutdown (main, the schedulers,
      server_lifecycle.go).  [Metrics]: the Prometheus series (metrics.go, quota.go).
      [Compression]: negotiateEncoding and compressResponse (main.go).
    - [Transport]: the handlers over the real client of LCE, with callLCEPlatformConfig
      (platform_model_config.go).
    - [Triples], [Readers], [System], [JobLifecycle], [Accounting], [Refinement],
      [Guarantees], [AuthProperties], [IndexProperties], [ControlProperties], [Isolation],
      [Requests], [RequestTrail], [SessionRefinement]: the proofs.

    ** How the code is rendered

    A Go function that returns an error is a function into [result]; one that reaches the
    database, Redis, a mutex-protected map, LCE or the clock is a function in [M].  A
    transaction under the tenant's advisory lock and a single statement are atomic:
    [atomically] (or [transact], when the transaction also consults an in-process map)
    lets the environment move first ([env_step]: all other requests, workers and
    instances, and the lease renewals), then applies a function on the tables.  A fault
    makes an operation fail before or after it took effect.  Definitions carry the names
    of the source; a definition [f_tx] is the transaction inside the function [f].
    64-bit integers are [Z] with [wrap64] or [in_int64] where a sum could leave the range;
    times are nanoseconds; strings are byte strings.

    ** The theorems

    - The system as a state machine.  [System.step] has one constructor per atomic
      statement, whoever runs it; invariants are instances of the class [StepInvariant].
      [relay_refines_steps]: every handler and worker, against any environment that
      itself only makes steps, ends in a reachable state; a request is one operation
      ([Router.serve]), from the route to the completed log.  [process_refines_steps] says so of
      a whole instance from its start to its end.  [lease_exclusion],
      [control_exclusion], [job_counts_bounded]: what holds in every reachable state.
      [job_lifecycle], [snapshot_provenance]: how a step may change a job or a snapshot.
    - Isolation.  [request_isolation]: a request leaves the rows of all tenants but that of
      its key alone; [tenant_isolation] says so of the single operations.
      [calls_name_tenant]: every tool call that LCE receives for a request names the tenant of
      its key and, if the client chose the tool, passed the policy.
    - The wire.  [wire_calls_signed]: the same of the HTTP requests that leave the relay, down to
      the signature.  [config_calls_guarded]: what the shared secret decides.
    - The start.  A migration statement achieves a [fact] about the catalog and no later one
      undoes it, so [starts_converge]: instances that start together, die and start again end in
      the catalog of one undisturbed start.  [successful_start], [upgrade_completes_schema],
      [error_details_cascade], [schema_well_formed], and [index_build_exclusive] for the build
      that runs outside a transaction.
    - The process.  [graceful_shutdown]: nothing uses the clients after they are closed;
      [shutdown_completes]: the end can always be reached.
    - Metrics.  [request_metrics_exact].  Compression.  [negotiation_best],
      [compression_lossless].
    - Requests.  [every_request_answered], [request_logged] (the log row ends with the status
      of the answer), [error_details_attached], [cleared_logs_exact], [leaderboard_exact].
    - Authentication.  [org_access_rechecked], [auth_cache_transparent] (the key cache is
      equivalent to a fresh lookup), [revocation_delay], [admitted_request], [auth_cache_put].
    - Sessions.  [SessionSteps.mcp_step] has one constructor per critical section of the
      session and stream tables.  [session_limits], [stream_registry], [eviction_oldest] hold
      in every state it reaches, and [sessions_refine_steps] carries them over to the handlers
      as they run.  [sse_round_trip]: what a client reads from a stream.
    - LCE.  [tenant_assertion_round_trip], [tool_call_signed], [lce_sessions_released],
      [tool_call_once]; [published_tools_restricted] for the tools that clients see.
    - The console.  [config_save_guarded], [unsigned_only_on_loopback].
    - The indexing protocol.  [upload_content_verified], [commit_exactly_once],
      [complete_then_unchanged], [heartbeat_prevents_timeout], [tool_start_normalised],
      [starts_are_spaced], [begin_retries_bounded].
    - Deletions and configuration.  [deletion_stops_indexing],
      [unconfirmed_deletion_keeps_index], [deletion_finish_atomic], [stale_worker_fenced],
      [recovery_never_redeletes], [config_commit_atomic], [delete_root_cloud_first],
      [retry_delay_bounds].
    - Quota.  [daily_requests_bounded], [request_reservation_atomic],
      [file_charge_idempotent], [swift_part_charged_once], [org_cache_round_trip],
      [org_limits_fail_closed], [retry_after_exact], [swift_rate_exact],
      [swift_part_canonical].
    - Manifests, paths, text.  [diff_sync_converges], [graft_keeps_unreadable],
      [batch_size_bounds], [validated_manifest_safe], [truncation_keeps_runes],
      [classified_failure_persists], [reported_failure_exact].
    - The client version.  [version_gate_semver], [version_policy_survives_restart].
    - Four counterexamples.  [method_label_unbounded]: the method of a request is a label that
      the client chooses.  [fresh_session_dropped]: a call whose session was lost throws
      away the fresh session of another call.  [policy_sees_untrimmed_path]: an excluded file can be indexed
      through a path that changes when it is normalised twice.  [expired_lease_revived]:
      an expired lease can be renewed while a change of the embedding space is active.

    ** Fuel and bounds

    The waiting loops of the source poll until their context ends; the environment says
    how often ([env_polls], an arbitrary number per loop), which is the fuel of
    [acquire_loop], [drain], the event loop [sse_loop] and the retries.  The eviction of
    sessions recurses on the size of the table, which every round decreases.  [begin_attempts] has the two retries of the
    source, [cut_back] the four bytes of utf8.UTFMax, [rune_count_aux] the length of the
    text; SHA-256 pads and folds over the blocks of the message.  None of them can stop
    short of what the source does.  The step relations ([fleet_step], [build_step],
    [process_step]) have no bound on the number of instances, requests or steps.

    ** What is a parameter

    LCE and its configuration service (arbitrary replies), [uuid.New], [uuid.Parse] and
    [uuid.Validate], strconv.Quote, AES-GCM, the compressors, the errors of url.Parse, the random nonce, the decoders
    of request bodies (what they yield is part of the request) and of LCE's replies, the
    process environment with net.SplitHostPort, net.ParseIP and time.ParseDuration, the choice
    of a ready case of a select, the clock (not assumed monotone), Go's Unicode case tables on
    text that is not ASCII, whether a lock is free and the rows locked by SKIP LOCKED, and the
    fixed offset of the quota time zone.  The writes that the source starts in the background
    run where they are started; the other parties may move before each of them.

    ** What is not modelled

    gin itself (the matching of paths, redirects, the client address), connection pools, the
    text of the Prometheus exposition and the profiles of the debug server, the size of a request
    header.  Timers and time-outs are steps that may come at any time.  The catalog has no rows:
    a migration that fails because of the rows (a validation, a unique index) is a failing call.
    The account tables are written by another program; the relay only reads them.  Left for
    later: a proof that the workers leave the sessions alone. *)
From Stdlib Require Export ZArith Lia.
From stdpp Require Export sorting.
From stdpp Require Export base gmap strings numbers list.

(** ** Results

    A Go function that returns [(T, error)] is modelled by a function into
    [result E T]: either the value or the error, never both. *)

Inductive result (E A : Type) : Type :=
| Ok (a : A)
| Err (e : E).
Arguments Ok {E A} a.
Arguments Err {E A} e.

Declare Scope relay_scope.
Delimit Scope relay_scope with relay.
Open Scope relay_scope.

(** [let? x := c in k] is the pattern [x, err := c; if err != nil {return err}]. *)
Notation "'let?' x := c 'in' k" :=
  (match c with Ok x => k | Err e => Err e end)
  (at level 10, x pattern, c at level 100, k at level 200) : relay_scope.

(** [guard c else e in k] is [if c {return e}; k]: an early error return. *)
Notation "'reject' c 'with' e 'in' k" :=
  (if c then Err e else k)
  (at level 10, c at level 100, e at level 100, k at level 200) : relay_scope.

Definition is_ok {E A} (r : result E A) : bool :=
  match r with Ok _ => true | Err _ => false end.

(** ** Automation shared by the files *)

Create HintDb relay discriminated.
Create Rewrite HintDb relay.
#[export] Hint Constants Opaque : relay.
#[export] Hint Resolve eq_refl I conj : relay.

(** Case analysis on the innermost [if]/[match] scrutinee of the goal or of a
    hypothesis, discarding the branches whose result disagrees. *)
Ltac split_step :=
  match goal with
  | H : Err _ = Ok _ |- _ => discriminate H
  | H : Ok _ = Err _ |- _ => discriminate H
  | H : Ok _ = Ok _ |- _ => injection H; clear H; intros
  | H : Err _ = Err _ |- _ => injection H; clear H; intros
  | H : context [match ?x with _ => _ end] |- _ =>
      lazymatch x with context [match _ with _ => _ end] => fail | _ => idtac end;
      let E := fresh "E" in destruct x eqn:E; simpl in H
  end.
Ltac split_all := repeat split_step; simplify_eq/=.

Ltac split_goal :=
  repeat match goal with
  | |- context [match ?x with _ => _ end] =>
      lazymatch x with context [match _ with _ => _ end] => fail | _ => idtac end;
      let E := fresh "E" in destruct x eqn:E; simpl
  end.

(** Turn boolean facts about [Z] and [bool_decide] into propositions. *)
Ltac reflect_bools :=
  repeat match goal with
  | H : negb _ = true |- _ => apply negb_true_iff in H
  | H : negb _ = false |- _ => apply negb_false_iff in H
  | H : andb _ _ = true |- _ => apply andb_true_iff in H; destruct H
  | H : orb _ _ = false |- _ => apply orb_false_iff in H; destruct H
  | H : orb _ _ = true |- _ => apply orb_true_iff in H
  | H : andb _ _ = false |- _ => apply andb_false_iff in H
  | H : bool_decide _ = true |- _ => apply bool_decide_eq_true in H
  | H : bool_decide _ = false |- _ => apply bool_decide_eq_false in H
  | H : Z.ltb _ _ = true |- _ => apply Z.ltb_lt in H
  | H : Z.ltb _ _ = false |- _ => apply Z.ltb_ge in H
  | H : Z.leb _ _ = true |- _ => apply Z.leb_le in H
  | H : Z.leb _ _ = false |- _ => apply Z.leb_gt in H
  | H : Z.eqb _ _ = true |- _ => apply Z.eqb_eq in H
  | H : Z.eqb _ _ = false |- _ => apply Z.eqb_neq in H
  end.

(** ** Time

    [time.Time] and [time.Duration] are nanosecond counts. *)

Definition Millisecond : Z := 1000000.
Definition Second : Z := 1000 * Millisecond.
Definition Minute : Z := 60 * Second.
Definition Hour : Z := 60 * Minute.

(** ** Machine integers *)

Definition MaxInt64 : Z := 2 ^ 63 - 1.
Definition MinInt64 : Z := - 2 ^ 63.
Definition in_int64 (z : Z) : bool := (MinInt64 <=? z)%Z && (z <=? MaxInt64)%Z.

(** Two's complement wrap-around of a 64-bit [int]. *)
Definition wrap64 (z : Z) : Z := (z + 2 ^ 63) mod 2 ^ 64 - 2 ^ 63.

Lemma wrap64_id z : in_int64 z = true → wrap64 z = z.
Proof.
  unfold in_int64, wrap64, MinInt64, MaxInt64. intros H. reflect_bools.
  rewrite Z.mod_small; lia.
Qed.

(** ** Errors

    The error values the relay distinguishes with [errors.Is]/[errors.As] or by
    equality are constructors; every other error is its text. *)

Inductive error : Type :=
| ErrNoRows                          (* sql.ErrNoRows *)
| ErrDB                              (* any other error of the database or Redis driver *)
| ErrCtx                             (* ctx.Err(): deadline exceeded or cancelled *)
| ErrIndexOperationBusy              (* errIndexOperationBusy *)
| ErrDeletionInProgress              (* wraps errIndexOperationBusy *)
| ErrRootDeletionRateLimited         (* errRootDeletionRateLimited *)
| Errorf (msg : string)              (* fmt.Errorf / errors.New *)
| IndexUpstreamError (code msg : string).  (* indexUpstreamError *)

#[export] Instance error_eq_dec : EqDecision error.
Proof. solve_decision. Defined.

(** [err.Error()]. *)
Definition error_text (e : error) : string :=
  match e with
  | ErrNoRows => "sql: no rows in result set"
  | ErrDB => "driver error"
  | ErrCtx => "context deadline exceeded"
  | ErrIndexOperationBusy => "index operation is busy"
  | ErrDeletionInProgress =>
      "index deletion in progress; retry after deletion completes: index operation is busy"
  | ErrRootDeletionRateLimited => "root deletion rate limited"
  | Errorf msg | IndexUpstreamError _ msg => msg
  end.

(** [errors.Is(err, errIndexOperationBusy)]. *)
Definition is_busy (e : error) : bool :=
  match e with ErrIndexOperationBusy | ErrDeletionInProgress => true | _ => false end.
