(* ===== verification/GoStrings.v ===== *)
(** * Go's string, path and number helpers

    A Go [string] is a sequence of bytes; it is modelled by [string], whose
    characters are bytes.  This file gives the functions of Go's [strings],
    [strconv] and [path] packages that the relay calls, with the laws the
    component files use. *)
From Stdlib Require Import Ascii String.
From Stdlib Require Import Btauto.
From stdpp Require Import pretty.
From S2P Require Import Prelude.
Open Scope Z_scope.

Definition byte_of (n : nat) : ascii := ascii_of_nat n.
Definition NUL : string := String (byte_of 0) "".
Definition DQ : ascii := byte_of 34.

Definition bytes_of (s : string) : list ascii := list_ascii_of_string s.
Definition of_bytes (l : list ascii) : string := string_of_list_ascii l.

Definition len (s : string) : Z := Z.of_nat (String.length s).

(** ** strings.TrimSpace

    Unicode white space in UTF-8: the six ASCII blanks, U+0085, U+00A0,
    U+1680, U+2000..U+200A, U+2028, U+2029, U+202F, U+205F and U+3000. *)

Definition code (c : ascii) : nat := nat_of_ascii c.

Definition space1 (c : ascii) : bool :=
  ((9 <=? code c) && (code c <=? 13) || (code c =? 32))%nat.
Definition space2 (c d : ascii) : bool :=
  ((code c =? 194) && ((code d =? 133) || (code d =? 160)))%nat.
Definition space3 (c d e : ascii) : bool :=
  ( (code c =? 225) && (code d =? 154) && (code e =? 128)
 || (code c =? 226) && (code d =? 128) &&
      ((128 <=? code e) && (code e <=? 138)
       || (code e =? 168) || (code e =? 169) || (code e =? 175))
 || (code c =? 226) && (code d =? 129) && (code e =? 159)
 || (code c =? 227) && (code d =? 128) && (code e =? 128))%nat.

(** Drop white space at the front; [sp2] and [sp3] say which pairs and triples
    of bytes encode one white-space rune. *)
Fixpoint trim_front (sp2 : ascii → ascii → bool) (sp3 : ascii → ascii → ascii → bool)
    (l : list ascii) : list ascii :=
  match l with
  | [] => []
  | c :: l1 =>
      if space1 c then trim_front sp2 sp3 l1 else
      match l1 with
      | [] => l
      | d :: l2 =>
          if sp2 c d then trim_front sp2 sp3 l2 else
          match l2 with
          | [] => l
          | e :: l3 => if sp3 c d e then trim_front sp2 sp3 l3 else l
          end
      end
  end.

Definition trim_left (l : list ascii) : list ascii := trim_front space2 space3 l.
Definition trim_right (l : list ascii) : list ascii :=
  reverse (trim_front (fun c d => space2 d c) (fun c d e => space3 e d c) (reverse l)).

Definition TrimSpace (s : string) : string :=
  of_bytes (trim_right (trim_left (bytes_of s))).

(** PostgreSQL's [BTRIM(s)]: ASCII blanks (0x20) only. *)
Fixpoint drop_blanks (l : list ascii) : list ascii :=
  match l with
  | c :: l1 => if (code c =? 32)%nat then drop_blanks l1 else l
  | [] => []
  end.
Definition BTRIM (s : string) : string :=
  of_bytes (reverse (drop_blanks (reverse (drop_blanks (bytes_of s))))).

(** ** strings.HasPrefix, TrimPrefix, Contains, Split, ... *)

Fixpoint strip_prefix (p s : string) : option string :=
  match p, s with
  | EmptyString, _ => Some s
  | String a p', String b s' => if Ascii.eqb a b then strip_prefix p' s' else None
  | String _ _, EmptyString => None
  end.
Definition HasPrefix (s p : string) : bool :=
  match strip_prefix p s with Some _ => true | None => false end.
Definition TrimPrefix (s p : string) : string :=
  match strip_prefix p s with Some r => r | None => s end.
Definition HasSuffix (s p : string) : bool := HasPrefix (String.rev s) (String.rev p).
Definition TrimSuffix (s p : string) : string :=
  match strip_prefix (String.rev p) (String.rev s) with
  | Some r => String.rev r
  | None => s
  end.

Fixpoint Contains (s sub : string) : bool :=
  HasPrefix s sub ||
  match s with
  | EmptyString => false
  | String _ s' => Contains s' sub
  end.

(** [strings.Split(s, sep)] for a one-byte separator. *)
Fixpoint Split (sep : ascii) (s : string) : list string :=
  match s with
  | EmptyString => [""]
  | String c s' =>
      if Ascii.eqb c sep then "" :: Split sep s'
      else match Split sep s' with
           | [] => [String c ""]
           | w :: ws => String c w :: ws
           end
  end.

Fixpoint Join (sep : string) (ws : list string) : string :=
  match ws with
  | [] => ""
  | [w] => w
  | w :: ws' => w +:+ sep +:+ Join sep ws'
  end.

(** [strings.ReplaceAll] of one byte by another. *)
Fixpoint replace_byte (a b : ascii) (s : string) : string :=
  match s with
  | EmptyString => ""
  | String c s' => String (if Ascii.eqb c a then b else c) (replace_byte a b s')
  end.

(** [strings.Cut(s, sep)] for a one-byte separator: before, after, found. *)
Fixpoint Cut (sep : ascii) (s : string) : string * string * bool :=
  match s with
  | EmptyString => ("", "", false)
  | String c s' =>
      if Ascii.eqb c sep then ("", s', true)
      else let '(b, a, f) := Cut sep s' in (String c b, a, f)
  end.

(** ** strings.ToLower

    ASCII letters are folded here; a string with a byte above 0x7F goes through
    Go's Unicode tables, which are the parameter [unicode_lower]. *)
Definition lower_byte (c : ascii) : ascii :=
  if ((65 <=? code c) && (code c <=? 90))%nat then ascii_of_nat (code c + 32) else c.
Fixpoint is_ascii (s : string) : bool :=
  match s with
  | EmptyString => true
  | String c s' => (code c <? 128)%nat && is_ascii s'
  end.
Fixpoint lower_ascii (s : string) : string :=
  match s with
  | EmptyString => ""
  | String c s' => String (lower_byte c) (lower_ascii s')
  end.
Definition ToLower (unicode_lower : string → string) (s : string) : string :=
  if is_ascii s then lower_ascii s else unicode_lower s.

(** [strings.EqualFold(s, t)] when [s] holds hexadecimal digits only: no byte of
    [s] has a case variant outside ASCII. *)
Definition EqualFold (s t : string) : bool := String.eqb (lower_ascii s) (lower_ascii t).

(** ** strconv: FormatInt, Itoa, ParseInt, Atoi *)

Definition FormatInt (z : Z) : string := pretty z.

Definition digit_value (c : ascii) : option Z :=
  if ((48 <=? code c) && (code c <=? 57))%nat then Some (Z.of_nat (code c) - 48) else None.

Fixpoint parse_digits (acc : Z) (s : string) : option Z :=
  match s with
  | EmptyString => Some acc
  | String c s' =>
      match digit_value c with
      | Some d => parse_digits (acc * 10 + d) s'
      | None => None
      end
  end.

Inductive num_error := ErrSyntax | ErrRange (clamped : Z).

(** [strconv.ParseInt(s, 10, 64)]: an optional sign and at least one digit; a
    value out of range is an error that carries the clamped bound. *)
Definition ParseInt (s : string) : result num_error Z :=
  let '(neg, body) :=
    match s with
    | String "-" r => (true, r)
    | String "+" r => (false, r)
    | _ => (false, s)
    end in
  match body with
  | EmptyString => Err ErrSyntax
  | _ =>
      match parse_digits 0 body with
      | None => Err ErrSyntax
      | Some n =>
          let v := if (neg : bool) then - n else n in
          if v <? MinInt64 then Err (ErrRange MinInt64)
          else if MaxInt64 <? v then Err (ErrRange MaxInt64)
          else Ok v
      end
  end.

(** [n, _ = strconv.Atoi(s)]: the value Go leaves in [n] when the error is
    ignored (0 on a syntax error, the clamped bound on overflow). *)
Definition Atoi_value (s : string) : Z :=
  match ParseInt s with
  | Ok v => v
  | Err ErrSyntax => 0
  | Err (ErrRange b) => b
  end.

Lemma digit_value_pretty (x : N) :
  (x < 10)%N → digit_value (pretty_N_char x) = Some (Z.of_N x).
Proof.
  intros Hx.
  assert (x = 0 ∨ x = 1 ∨ x = 2 ∨ x = 3 ∨ x = 4 ∨ x = 5 ∨ x = 6 ∨ x = 7 ∨ x = 8 ∨ x = 9)%N
    as H by lia.
  repeat destruct H as [->|H]; try reflexivity. subst x. reflexivity.
Qed.

Lemma parse_digits_pretty_go (x : N) (s : string) :
  parse_digits 0 (pretty_N_go x s) = parse_digits (Z.of_N x) s.
Proof.
  revert s. induction (N.lt_wf_0 x) as [x _ IH]; intros s.
  destruct (decide (x = 0)%N) as [->|Hx].
  { by rewrite pretty_N_go_0. }
  rewrite pretty_N_go_step by lia.
  rewrite IH by (apply N.div_lt; lia).
  simpl. rewrite digit_value_pretty by (apply N.mod_lt; lia).
  f_equal. rewrite N2Z.inj_div, N2Z.inj_mod.
  pose proof (Z.div_mod (Z.of_N x) 10). lia.
Qed.

Lemma parse_digits_pretty_pos (p : positive) :
  parse_digits 0 (pretty (Npos p)) = Some (Zpos p).
Proof. apply (parse_digits_pretty_go (Npos p) ""). Qed.

Lemma pretty_pos_head (p : positive) :
  ∃ c s, pretty (Npos p) = String c s ∧ is_Some (digit_value c).
Proof.
  pose proof (parse_digits_pretty_pos p) as H.
  destruct (pretty (N.pos p)) as [|c s]; [done|].
  exists c, s. split; [done|]. simpl in H. by destruct (digit_value c).
Qed.

(** Printing a 64-bit integer in base 10 and parsing it gives it back. *)
Lemma ParseInt_FormatInt z : in_int64 z = true → ParseInt (FormatInt z) = Ok z.
Proof.
  unfold in_int64. intros H. reflect_bools. unfold FormatInt, ParseInt.
  destruct z as [|p|p]; [reflexivity| |].
  - change (pretty (Z.pos p)) with (pretty (Npos p)).
    destruct (pretty_pos_head p) as (c & s & E & Hc).
    pose proof (parse_digits_pretty_pos p) as Hp. rewrite E in Hp |- *.
    assert (c ≠ "-"%char ∧ c ≠ "+"%char) as [??].
    { split; intros ->; by destruct Hc. }
    replace (match c with
             | "-"%char => (true, s) | "+"%char => (false, s)
             | _ => (false, String c s) end) with (false, String c s).
    { rewrite Hp. repeat case_match; reflect_bools; (done || lia). }
    destruct c as [[] [] [] [] [] [] [] []]; try reflexivity; by exfalso.
  - change (pretty (Z.neg p)) with (String "-" (pretty (Npos p))).
    pose proof (parse_digits_pretty_pos p) as Hp.
    destruct (pretty_pos_head p) as (c & s & E & Hc). rewrite E in Hp |- *.
    rewrite Hp. simpl. repeat case_match; reflect_bools; (done || lia).
Qed.

(** ** Laws of TrimSpace *)

Section trim.
Context (sp2 : ascii → ascii → bool) (sp3 : ascii → ascii → ascii → bool).
Abbreviation trim := (trim_front sp2 sp3).

Lemma trim_front_suffix l : ∃ p, l = p ++ trim l.
Proof.
  induction l as [l IH] using (induction_ltof1 _ (@length ascii)). unfold ltof in IH.
  destruct l as [|c l1]; [by exists []|]. simpl.
  destruct (space1 c).
  { destruct (IH l1) as [p Hp]; [simpl; lia|]. exists (c :: p). simpl. by f_equal. }
  destruct l1 as [|d l2]; [by exists []|].
  destruct (sp2 c d).
  { destruct (IH l2) as [p Hp]; [simpl; lia|]. exists (c :: d :: p). simpl. by do 2 f_equal. }
  destruct l2 as [|e l3]; [by exists []|].
  destruct (sp3 c d e); [|by exists []].
  destruct (IH l3) as [p Hp]; [simpl; lia|]. exists (c :: d :: e :: p). simpl. by do 3 f_equal.
Qed.

Lemma trim_front_length l : (length (trim l) ≤ length l)%nat.
Proof.
  destruct (trim_front_suffix l) as [p Hp]. rewrite Hp at 2. rewrite length_app. lia.
Qed.

Lemma trim_front_idemp l : trim (trim l) = trim l.
Proof.
  induction l as [l IH] using (induction_ltof1 _ (@length ascii)). unfold ltof in IH.
  destruct l as [|c l1]; [done|]. simpl.
  destruct (space1 c) eqn:E1; [apply IH; simpl; lia|].
  destruct l1 as [|d l2]; [simpl; by rewrite E1|].
  destruct (sp2 c d) eqn:E2; [apply IH; simpl; lia|].
  destruct l2 as [|e l3]; [simpl; by rewrite E1, E2|].
  destruct (sp3 c d e) eqn:E3; [apply IH; simpl; lia|].
  simpl. by rewrite E1, E2, E3.
Qed.

(** A prefix of a list that starts with no white space starts with none. *)
Lemma trim_front_prefix p q : trim (p ++ q) = p ++ q → trim p = p.
Proof.
  intros H. destruct p as [|c p1]; [done|]. simpl in H |- *.
  destruct (space1 c).
  { apply (f_equal length) in H. pose proof (trim_front_length (p1 ++ q)).
    simpl in H. lia. }
  destruct p1 as [|d p2]; [done|]. simpl in H.
  destruct (sp2 c d).
  { apply (f_equal length) in H. pose proof (trim_front_length (p2 ++ q)).
    simpl in H. lia. }
  destruct p2 as [|e p3]; [done|]. simpl in H.
  destruct (sp3 c d e); [|done].
  apply (f_equal length) in H. pose proof (trim_front_length (p3 ++ q)).
  simpl in H. lia.
Qed.
End trim.

Lemma bytes_of_bytes l : bytes_of (of_bytes l) = l.
Proof. apply list_ascii_of_string_of_list_ascii. Qed.
Lemma of_bytes_of s : of_bytes (bytes_of s) = s.
Proof. apply string_of_list_ascii_of_string. Qed.

Lemma trim_right_idemp l : trim_right (trim_right l) = trim_right l.
Proof. unfold trim_right. by rewrite reverse_involutive, trim_front_idemp. Qed.

Lemma trim_right_prefix l : ∃ q, l = trim_right l ++ q.
Proof.
  unfold trim_right.
  destruct (trim_front_suffix (λ c d, space2 d c) (λ c d e, space3 e d c) (reverse l)) as [p Hp].
  exists (reverse p). apply (f_equal reverse) in Hp.
  by rewrite reverse_involutive, reverse_app in Hp.
Qed.

Lemma TrimSpace_idemp s : TrimSpace (TrimSpace s) = TrimSpace s.
Proof.
  unfold TrimSpace. rewrite bytes_of_bytes. f_equal.
  set (a := trim_left (bytes_of s)).
  assert (trim_left a = a) as Ha by apply trim_front_idemp.
  destruct (trim_right_prefix a) as [q Hq].
  assert (trim_left (trim_right a) = trim_right a) as ->.
  { unfold trim_left in *. rewrite Hq in Ha at 1 2.
    by apply trim_front_prefix in Ha. }
  apply trim_right_idemp.
Qed.
#[export] Hint Rewrite TrimSpace_idemp bytes_of_bytes of_bytes_of : relay.

Lemma TrimSpace_empty : TrimSpace "" = "".
Proof. reflexivity. Qed.

(** ** Laws of Split and Join *)

Fixpoint has_byte (a : ascii) (s : string) : bool :=
  match s with
  | EmptyString => false
  | String c s' => Ascii.eqb c a || has_byte a s'
  end.

Lemma Split_nonempty a s : Split a s ≠ [].
Proof. destruct s as [|c s]; simpl; [done|]. repeat case_match; done. Qed.

Lemma Split_no_sep a s : Forall (λ w, has_byte a w = false) (Split a s).
Proof.
  induction s as [|c s IH]; simpl; [by repeat constructor|].
  destruct (Ascii.eqb c a) eqn:E; [by constructor|].
  destruct (Split a s) as [|w ws]; [by repeat constructor; simpl; rewrite E|].
  inversion IH; subst. constructor; [|done]. simpl. by rewrite E.
Qed.

Lemma Split_sep_free a w : has_byte a w = false → Split a w = [w].
Proof.
  induction w as [|c w IH]; simpl; intros H; [done|]. reflect_bools.
  rewrite H. by rewrite IH.
Qed.

Lemma Split_app_sep a w s :
  has_byte a w = false → Split a (w +:+ String a s) = w :: Split a s.
Proof.
  induction w as [|c w IH]; intros H.
  { change ("" +:+ String a s) with (String a s). simpl. by rewrite Ascii.eqb_refl. }
  change (String c w +:+ String a s) with (String c (w +:+ String a s)).
  simpl in *. reflect_bools. rewrite H. by rewrite IH.
Qed.

Lemma Split_Join a ws :
  ws ≠ [] → Forall (λ w, has_byte a w = false) ws →
  Split a (Join (String a "") ws) = ws.
Proof.
  intros Hne Hws. induction Hws as [|w ws Hw Hws IH]; [done|].
  destruct ws as [|w' ws]; [by apply Split_sep_free|].
  change (Join (String a "") (w :: w' :: ws))
    with (w +:+ String a (Join (String a "") (w' :: ws))).
  rewrite Split_app_sep by done. f_equal. by apply IH.
Qed.

Lemma has_byte_Split b a s w :
  has_byte b s = false → w ∈ Split a s → has_byte b w = false.
Proof.
  revert w. induction s as [|c s IH]; simpl; intros w Hs Hw.
  { by apply list_elem_of_singleton in Hw as ->. }
  reflect_bools. destruct (Ascii.eqb c a).
  { apply elem_of_cons in Hw as [->|?]; auto. }
  destruct (Split a s) as [|w0 ws] eqn:E.
  { apply list_elem_of_singleton in Hw as ->. simpl. by rewrite H. }
  apply elem_of_cons in Hw as [->|?]; [|apply IH; set_solver].
  simpl. rewrite H. simpl. apply IH; set_solver.
Qed.

Lemma has_byte_app a s t : has_byte a (s +:+ t) = has_byte a s || has_byte a t.
Proof.
  induction s as [|c s IH]; [done|].
  change (String c s +:+ t) with (String c (s +:+ t)). simpl. rewrite IH. btauto.
Qed.

Lemma has_byte_Join b sep ws :
  has_byte b sep = false → Forall (λ w, has_byte b w = false) ws →
  has_byte b (Join sep ws) = false.
Proof.
  intros Hsep Hws. induction Hws as [|w ws Hw Hws IH]; [done|].
  destruct ws as [|w' ws]; [done|].
  change (Join sep (w :: w' :: ws)) with (w +:+ sep +:+ Join sep (w' :: ws)).
  rewrite !has_byte_app, Hw, Hsep. done.
Qed.

Lemma replace_byte_gone a b s : a ≠ b → has_byte a (replace_byte a b s) = false.
Proof.
  intros Hab. induction s as [|c s IH]; simpl; [done|]. rewrite IH.
  destruct (Ascii.eqb_spec c a) as [->|Hne].
  - destruct (Ascii.eqb_spec b a); [congruence|done].
  - destruct (Ascii.eqb_spec c a); [done|done].
Qed.

Lemma replace_byte_id a b s : has_byte a s = false → replace_byte a b s = s.
Proof.
  induction s as [|c s IH]; simpl; intros H; [done|]. reflect_bools.
  rewrite H. by rewrite IH.
Qed.

Lemma has_byte_bytes a s : has_byte a s = false ↔ a ∉ bytes_of s.
Proof.
  induction s as [|c s IH]; simpl; [set_solver|].
  rewrite orb_false_iff, IH, not_elem_of_cons, Ascii.eqb_neq. intuition congruence.
Qed.

Lemma TrimSpace_bytes a s : has_byte a s = false → has_byte a (TrimSpace s) = false.
Proof.
  rewrite !has_byte_bytes. unfold TrimSpace. rewrite bytes_of_bytes. intros Hs Hin.
  apply Hs. clear Hs. unfold trim_left, trim_right in *.
  destruct (trim_front_suffix space2 space3 (bytes_of s)) as [p Hp].
  rewrite Hp. apply elem_of_app. right.
  destruct (trim_right_prefix (trim_front space2 space3 (bytes_of s))) as [q Hq].
  rewrite Hq. apply elem_of_app. by left.
Qed.

Lemma TrimPrefix_head c s : TrimPrefix (String c s) (String c "") = s.
Proof.
  unfold TrimPrefix. simpl. by rewrite Ascii.eqb_refl.
Qed.

(** Decimal text holds digits and a sign only. *)
Lemma parse_digits_no_byte a s acc v :
  digit_value a = None → parse_digits acc s = Some v → has_byte a s = false.
Proof.
  intros Ha. revert acc. induction s as [|c s IH]; intros acc Hp; [done|]. simpl in Hp |- *.
  destruct (Ascii.eqb_spec c a) as [->|]; [by rewrite Ha in Hp|].
  destruct (digit_value c); [|done]. simpl. by eapply IH.
Qed.

Lemma has_byte_FormatInt a z :
  digit_value a = None → a ≠ "-"%char → has_byte a (FormatInt z) = false.
Proof.
  intros Ha Hm. unfold FormatInt. destruct z as [|p|p].
  - change (pretty 0%Z) with "0". cbn -[Ascii.eqb].
    destruct (Ascii.eqb_spec "0" a) as [<-|]; [by vm_compute in Ha|done].
  - change (pretty (Z.pos p)) with (pretty (Npos p)).
    eapply parse_digits_no_byte; [done|apply parse_digits_pretty_pos].
  - change (pretty (Z.neg p)) with (String "-" (pretty (Npos p))). cbn -[Ascii.eqb].
    destruct (Ascii.eqb_spec "-" a) as [<-|]; [done|]. simpl.
    eapply parse_digits_no_byte; [done|apply parse_digits_pretty_pos].
Qed.
