(* ===== verification/Floats.v ===== *)
(** * strconv.ParseFloat

    The texts that Go's strconv.ParseFloat(s, 64) reads, and the double it returns: the value
    nearest to the number written, ties to even.  [None] stands for every error, a syntax error
    and a value beyond the range.  Doubles are the [spec_float] of the Standard Library. *)
From Stdlib Require Import Ascii String SpecFloat.
From S2P Require Import Prelude GoStrings.
Open Scope Z_scope.

Definition prec64 : Z := 53.
Definition emax64 : Z := 1024.

(** ** Rounding *)

(** [m * 10 ^ e] *)
Definition decimal_float (neg : bool) (m : Z) (e : Z) : spec_float :=
  match m with
  | Zpos p =>
      if 0 <=? e then binary_round prec64 emax64 neg (p * Z.to_pos (10 ^ e)) 0
      else let '(q, e', l) := SFdiv_core_binary prec64 emax64 m 0 (10 ^ (- e)) 0 in
           binary_round_aux prec64 emax64 neg q e' l
  | _ => S754_zero neg
  end.

(** [m * 2 ^ e] *)
Definition binary_float (neg : bool) (m : Z) (e : Z) : spec_float :=
  match m with Zpos p => binary_round prec64 emax64 neg p e | _ => S754_zero neg end.

Definition in_range (f : spec_float) : option spec_float :=
  match f with S754_infinity _ => None | _ => Some f end.

(** ** Syntax *)

Definition hex_value (c : ascii) : option Z :=
  let n := Z.of_nat (code (lower_byte c)) in
  if (97 <=? n) && (n <=? 102) then Some (n - 87) else digit_value c.
Definition digit_of (hex : bool) (c : ascii) : option Z := if hex then hex_value c else digit_value c.

(** Underscores separate digits; one may follow a base prefix.  [after]: what came before is a
    digit, an underscore, or anything else. *)
Inductive previous := PDigit | PUnderscore | POther.
Fixpoint underscores_ok (hex : bool) (after : previous) (s : string) : bool :=
  match s with
  | EmptyString => match after with PUnderscore => false | _ => true end
  | String c s' =>
      match digit_of hex c with
      | Some _ => underscores_ok hex PDigit s'
      | None =>
          if Ascii.eqb c "_" then match after with PDigit => underscores_ok hex PUnderscore s' | _ => false end
          else match after with PUnderscore => false | _ => underscores_ok hex POther s' end
      end
  end.
(** The text after the sign. *)
Definition underscoreOK (s : string) : bool :=
  match s with
  | String "0" (String b s') =>
      let b := lower_byte b in
      if Ascii.eqb b "x" then underscores_ok true PDigit s'
      else if Ascii.eqb b "b" || Ascii.eqb b "o" then underscores_ok false PDigit s'
      else underscores_ok false POther s
  | _ => underscores_ok false POther s
  end.

(** The digits of the mantissa: its value, the number of digits after the point, whether a point
    and a digit were seen, and the rest. *)
Fixpoint read_mantissa (hex sawdot sawdigits : bool) (m : Z) (after_point : Z) (s : string)
    : Z * Z * bool * string :=
  match s with
  | EmptyString => (m, after_point, sawdigits, "")
  | String c s' =>
      if Ascii.eqb c "_" then read_mantissa hex sawdot sawdigits m after_point s'
      else if Ascii.eqb c "." then
        if sawdot then (m, after_point, sawdigits, s) else read_mantissa hex true sawdigits m after_point s'
      else match digit_of hex c with
           | Some d => read_mantissa hex sawdot true (m * (if hex then 16 else 10) + d)
                         (if sawdot then after_point + 1 else after_point) s'
           | None => (m, after_point, sawdigits, s)
           end
  end.

(** The digits of the exponent, which stops growing at 10000. *)
Fixpoint read_exponent (e : Z) (s : string) : Z * string :=
  match s with
  | EmptyString => (e, "")
  | String c s' =>
      if Ascii.eqb c "_" then read_exponent e s'
      else match digit_value c with
           | Some d => read_exponent (if e <? 10000 then e * 10 + d else e) s'
           | None => (e, s)
           end
  end.

Definition exponent_sign (s : string) : bool * string :=
  match s with
  | String "+" s' => (false, s')
  | String "-" s' => (true, s')
  | _ => (false, s)
  end.

(** The exponent part; [None] is a syntax error. *)
Definition exponent_part (hex : bool) (s : string) : option (Z * string) :=
  match s with
  | String c s' =>
      if Ascii.eqb (lower_byte c) (if hex then "p" else "e") then
        let '(neg, t) := exponent_sign s' in
        match t with
        | String d _ =>
            if bool_decide (is_Some (digit_value d)) then
              let '(e, rest) := read_exponent 0 t in Some (if neg then - e else e, rest)
            else None
        | EmptyString => None
        end
      else if hex then None else Some (0, s)
  | EmptyString => if hex then None else Some (0, s)
  end.

(** The number after the sign. *)
Definition read_float (neg : bool) (s : string) : option spec_float :=
  let '(hex, digits) :=
    match s with
    | String "0" (String x (String c t)) => if Ascii.eqb (lower_byte x) "x" then (true, String c t) else (false, s)
    | _ => (false, s)
    end in
  let '(m, after_point, sawdigits, rest) := read_mantissa hex false false 0 0 digits in
  if negb sawdigits then None else
  match exponent_part hex rest with
  | Some (e, "") =>
      if has_byte "_" s && negb (underscoreOK s) then None
      else in_range (if hex then binary_float neg m (e - 4 * after_point) else decimal_float neg m (e - after_point))
  | _ => None
  end.

Definition special_float (neg : bool) (s : string) : option spec_float :=
  if EqualFold s "inf" || EqualFold s "infinity" then Some (S754_infinity neg) else None.

Definition ParseFloat (s : string) : option spec_float :=
  if EqualFold s "nan" then Some S754_nan else
  let '(neg, t) := exponent_sign s in
  match special_float neg t with Some f => Some f | None => read_float neg t end.

(** ** Examples *)

Definition double (m : positive) (e : Z) : spec_float := S754_finite false m e.

Example parse_decimal : ParseFloat "0.5" = Some (double 4503599627370496 (-53)).
Proof. reflexivity. Qed.
Example parse_rounded : ParseFloat "0.1" = Some (double 7205759403792794 (-56)).
Proof. reflexivity. Qed.
Example parse_tie_to_even : ParseFloat "9007199254740993" = Some (double 4503599627370496 1).
Proof. reflexivity. Qed.
Example parse_hex : ParseFloat "0x1.8p-1" = Some (double 6755399441055744 (-53)).
Proof. reflexivity. Qed.
Example parse_underscores : ParseFloat "1_0e-1" = Some (double 4503599627370496 (-52)).
Proof. reflexivity. Qed.
Example parse_range : ParseFloat "1e400" = None ∧ ParseFloat "-1e-400" = Some (S754_zero true).
Proof. split; vm_compute; reflexivity. Qed.
Example parse_special : ParseFloat "-Inf" = Some (S754_infinity true) ∧ ParseFloat "NaN" = Some S754_nan.
Proof. split; reflexivity. Qed.
Example parse_refused : ParseFloat <$> ["";  "."; "1__0"; "_1"; "0x1"; "1e"; "1e+"; "1.2.3"; " 1"; "inf1"]
  = replicate 10 None.
Proof. reflexivity. Qed.
