(* ===== verification/Paths.v ===== *)
(** * Index paths and root identifiers

    [normalizeIndexPath] (index_jobs.go), [validateIndexSourcePath] and the
    manifest/upload validators (mcp_index_tool.go), the exclusion policy
    (index_path_policy.go) and the [root_id] helpers. *)
From Stdlib Require Import Ascii String.
From S2P Require Import Prelude GoStrings.
Open Scope Z_scope.

Definition slash : ascii := "/".

(** ** path.Clean of a rooted path, path.Base, path.Ext *)

Fixpoint clean_go (stack segs : list string) : list string :=
  match segs with
  | [] => reverse stack
  | s :: segs' =>
      if bool_decide (s = "") || bool_decide (s = ".") then clean_go stack segs'
      else if bool_decide (s = "..") then clean_go (tail stack) segs'
      else clean_go (s :: stack) segs'
  end.

(** [path.Clean(p)] for [p] starting with a slash. *)
Definition path_Clean_rooted (p : string) : string :=
  String slash (Join "/" (clean_go [] (Split slash p))).

Definition last_segment (p : string) : string := List.last (Split slash p) "".

Fixpoint drop_slashes (l : list ascii) : list ascii :=
  match l with
  | c :: l1 => if Ascii.eqb c slash then drop_slashes l1 else l
  | [] => []
  end.

Definition path_Base (p : string) : string :=
  if bool_decide (p = "") then "."
  else let q := of_bytes (reverse (drop_slashes (reverse (bytes_of p)))) in
       if bool_decide (q = "") then "/" else last_segment q.

(** [path.Ext(p)] for a [p] with no slash: from the last dot on. *)
Definition path_Ext (p : string) : string :=
  let ws := Split "." p in
  if (length ws <=? 1)%nat then "" else "." +:+ List.last ws "".

(** ** Definitions of the source *)

Definition normalizeIndexPath (value : string) : string :=
  let value := TrimSpace (replace_byte "\" slash value) in
  let value := TrimPrefix (path_Clean_rooted (String slash value)) "/" in
  if bool_decide (value = ".") then "" else value.

Definition maxIndexRootIDLen : Z := 128.
Definition defaultLCEIndexRootID : string := "default".

Definition normalizeIndexRootID (value : string) : string := TrimSpace value.

Definition lceIndexRootID (value : string) : string :=
  let normalized := normalizeIndexRootID value in
  if bool_decide (normalized = "") then defaultLCEIndexRootID else normalized.

(** [CASE WHEN BTRIM(root_id) = '' THEN 'default' ELSE BTRIM(root_id) END]. *)
Definition sql_root_key (root_id : string) : string :=
  if bool_decide (BTRIM root_id = "") then "default" else BTRIM root_id.

Definition workspaceRootBindingChanged (ex : bool) (stored requested : string) : bool :=
  ex && negb (bool_decide (normalizeIndexRootID stored = normalizeIndexRootID requested)).

(** [splitRootIDView]: the root and the branch view, split at the last [@]. *)
Fixpoint last_index_at (i : nat) (best : option nat) (s : string) : option nat :=
  match s with
  | EmptyString => best
  | String c s' => last_index_at (S i) (if Ascii.eqb c "@" then Some i else best) s'
  end.

Definition splitRootIDView (rootID : string) : string * string :=
  match last_index_at 0 None rootID with
  | Some i =>
      if ((0 <? i) && (i <? String.length rootID - 1))%nat
      then (String.substring 0 i rootID,
            String.substring (S i) (String.length rootID - S i) rootID)
      else (rootID, "default")
  | None => (rootID, "default")
  end.

(** ** The exclusion policy *)

Record cloudIndexPathPolicy := {
  ExcludedSegments : list string;
  ExcludedBasenames : list string;
  ExcludedBasenamePrefixes : list string;
  ExcludedBasenameSuffixes : list string;
  ExcludedExtensions : list string
}.

(** contracts/cloud-index-path-policy.json, which the relay embeds. *)
Definition indexPathPolicy : cloudIndexPathPolicy := {|
  ExcludedSegments :=
    [".git"; "node_modules"; ".turbo"; "dist"; "build"; ".next"; "__pycache__"];
  ExcludedBasenames := [".env"; "package-lock.json"; "yarn.lock"; "pnpm-lock.yaml"];
  ExcludedBasenamePrefixes := [".env."];
  ExcludedBasenameSuffixes := [".min.js"; ".min.css"];
  ExcludedExtensions :=
    [".pyc"; ".class"; ".o"; ".so"; ".dll"; ".exe"; ".wasm"; ".map"; ".pem"; ".key";
     ".cert"; ".png"; ".jpg"; ".jpeg"; ".gif"; ".ico"; ".svg"; ".woff"; ".woff2";
     ".ttf"; ".eot"; ".mp3"; ".mp4"; ".zip"; ".tar"; ".gz"; ".rar"; ".pdf"]
|}.

Definition str_eqb (a b : string) : bool := bool_decide (a = b).

Lemma str_eqb_true a b : str_eqb a b = true ↔ a = b.
Proof. apply bool_decide_eq_true. Qed.
Lemma str_eqb_false a b : str_eqb a b = false ↔ a ≠ b.
Proof. apply bool_decide_eq_false. Qed.
Lemma str_eqb_refl a : str_eqb a a = true.
Proof. by apply str_eqb_true. Qed.
#[export] Hint Rewrite str_eqb_refl : relay.

Section policy.
Context (unicode_lower : string → string).

Definition isCloudIndexPathExcluded (normalized : string) : bool :=
  let lower := ToLower unicode_lower (TrimSuffix normalized "/") in
  let base := path_Base lower in
  existsb (fun segment => existsb (str_eqb segment) (ExcludedSegments indexPathPolicy))
          (Split slash lower)
  || existsb (str_eqb base) (ExcludedBasenames indexPathPolicy)
  || existsb (HasPrefix base) (ExcludedBasenamePrefixes indexPathPolicy)
  || existsb (HasSuffix base) (ExcludedBasenameSuffixes indexPathPolicy)
  || existsb (str_eqb (path_Ext base)) (ExcludedExtensions indexPathPolicy).

Definition maxIndexPathBytes : Z := 4096.

(** [^[A-Za-z]:] *)
Definition is_letter (c : ascii) : bool :=
  ((65 <=? code c) && (code c <=? 90) || (97 <=? code c) && (code c <=? 122))%nat.
Definition windowsDrivePrefix (s : string) : bool :=
  match s with
  | String a (String b _) => is_letter a && Ascii.eqb b ":"
  | _ => false
  end.

Definition validateIndexSourcePath (value : string) : result error string :=
  let raw := TrimSpace (replace_byte "\" slash value) in
  reject maxIndexPathBytes <? len raw
    with Errorf ("index path exceeds " +:+ FormatInt maxIndexPathBytes +:+ " bytes") in
  reject bool_decide (raw = "") || HasPrefix raw "/" || windowsDrivePrefix raw
    with Errorf ("index path must be repository-relative: " +:+ value) in
  reject existsb (str_eqb "..") (Split slash raw)
    with Errorf ("index path must not escape the repository: " +:+ value) in
  let normalized := normalizeIndexPath raw in
  reject bool_decide (normalized = "") with Errorf "index path is required" in
  reject isCloudIndexPathExcluded normalized
    with Errorf ("index path is excluded: " +:+ normalized) in
  Ok normalized.
End policy.

(** ** Laws of the path functions *)

(** A segment that [path.Clean] leaves in place. *)
Definition clean_segment (s : string) : Prop :=
  s ≠ "" ∧ s ≠ "." ∧ s ≠ ".." ∧ has_byte slash s = false ∧ has_byte "\" s = false.

Lemma clean_go_good stack segs :
  Forall clean_segment stack →
  Forall (λ s, has_byte slash s = false ∧ has_byte "\" s = false) segs →
  Forall clean_segment (clean_go stack segs).
Proof.
  intros Hst Hsegs. revert stack Hst. induction Hsegs as [|s segs [H1 H2] Hsegs IH];
    intros stack Hst; simpl; [by apply Forall_reverse|].
  repeat case_match; reflect_bools; auto.
  - apply IH. by destruct Hst.
  - apply IH. constructor; [|done]. by unfold clean_segment.
Qed.

Lemma clean_go_id stack segs :
  Forall clean_segment segs → clean_go stack segs = reverse stack ++ segs.
Proof.
  intros H. revert stack. induction H as [|s segs Hs H IH]; intros stack; simpl.
  { by rewrite app_nil_r. }
  destruct Hs as (?&?&?&_). rewrite !bool_decide_eq_false_2 by done. simpl.
  rewrite IH, reverse_cons, <- app_assoc. done.
Qed.

Lemma Join_eq_dot segs : Forall clean_segment segs → Join "/" segs ≠ ".".
Proof.
  intros H E. destruct (decide (segs = [])) as [->|Hne]; [done|].
  assert (Split slash (Join "/" segs) = segs) as Hs.
  { apply Split_Join; [done|]. eapply Forall_impl; [exact H|]. by intros ? (?&?&?&?&?). }
  rewrite E in Hs. simpl in Hs. subst segs. inversion H as [|?? Hd]; subst.
  by destruct Hd as (?&?&?).
Qed.

(** The normal form: a join of clean segments. *)
Lemma normalizeIndexPath_join p :
  ∃ segs, Forall clean_segment segs ∧ normalizeIndexPath p = Join "/" segs.
Proof.
  unfold normalizeIndexPath, path_Clean_rooted. rewrite TrimPrefix_head.
  set (v := TrimSpace _).
  assert (has_byte "\" v = false) as Hv by (by apply TrimSpace_bytes, replace_byte_gone).
  set (segs := clean_go [] (Split slash (String slash v))).
  assert (Forall clean_segment segs) as Hsegs.
  { apply clean_go_good; [done|]. apply Forall_forall. intros w Hw. split.
    - pose proof (Split_no_sep slash (String slash v)) as Hn.
      rewrite Forall_forall in Hn. by apply Hn.
    - apply (has_byte_Split _ slash (String slash v)); [|exact Hw]. exact Hv. }
  exists segs. split; [done|]. by rewrite bool_decide_eq_false_2 by (by apply Join_eq_dot).
Qed.

Lemma normalizeIndexPath_of_join segs :
  Forall clean_segment segs → TrimSpace (Join "/" segs) = Join "/" segs →
  normalizeIndexPath (Join "/" segs) = Join "/" segs.
Proof.
  intros Hsegs Htrim. unfold normalizeIndexPath, path_Clean_rooted.
  rewrite (replace_byte_id "\").
  2:{ apply has_byte_Join; [done|]. eapply Forall_impl; [exact Hsegs|]. by intros ? (?&?&?&?&?). }
  rewrite Htrim, TrimPrefix_head.
  assert (clean_go [] (Split slash (String slash (Join "/" segs))) = segs) as ->.
  { simpl. destruct (decide (segs = [])) as [->|Hne]; [done|].
    rewrite Split_Join; [|done|].
    - by rewrite clean_go_id.
    - eapply Forall_impl; [exact Hsegs|]. by intros ? (?&?&?&?&?). }
  by rewrite bool_decide_eq_false_2 by (by apply Join_eq_dot).
Qed.

Lemma normalizeIndexPath_segments p :
  normalizeIndexPath p = "" ∨
  Forall (λ s, s ≠ "" ∧ s ≠ "." ∧ s ≠ "..") (Split slash (normalizeIndexPath p)).
Proof.
  destruct (normalizeIndexPath_join p) as (segs & Hsegs & ->).
  destruct (decide (segs = [])) as [->|Hne]; [by left|]. right.
  rewrite Split_Join; [|done|].
  - eapply Forall_impl; [exact Hsegs|]. by intros ? (?&?&?&?&?).
  - eapply Forall_impl; [exact Hsegs|]. by intros ? (?&?&?&?&?).
Qed.

Lemma normalizeIndexPath_idemp_trimmed p :
  TrimSpace (normalizeIndexPath p) = normalizeIndexPath p →
  normalizeIndexPath (normalizeIndexPath p) = normalizeIndexPath p.
Proof.
  destruct (normalizeIndexPath_join p) as (segs & Hsegs & E). rewrite E.
  by apply normalizeIndexPath_of_join.
Qed.

Lemma normalizeIndexRootID_idemp r :
  normalizeIndexRootID (normalizeIndexRootID r) = normalizeIndexRootID r.
Proof. apply TrimSpace_idemp. Qed.
#[export] Hint Rewrite normalizeIndexRootID_idemp : relay.

(** ** Lengths *)

(** The bytes of the segments with a separator after each. *)
Definition seg_bytes (segs : list string) : nat := foldr (λ s n, S (String.length s + n)) 0%nat segs.

Lemma seg_bytes_app a b : seg_bytes (a ++ b) = (seg_bytes a + seg_bytes b)%nat.
Proof. induction a as [|s a IH]; simpl; [done|]. rewrite IH. lia. Qed.
Lemma seg_bytes_reverse a : seg_bytes (reverse a) = seg_bytes a.
Proof.
  induction a as [|s a IH]; [done|]. rewrite reverse_cons, seg_bytes_app, IH. simpl. lia.
Qed.
Lemma seg_bytes_Split a s : seg_bytes (Split a s) = S (String.length s).
Proof.
  induction s as [|c s IH]; [done|]. simpl. destruct (Ascii.eqb c a); [simpl; by rewrite IH|].
  destruct (Split a s) as [|w ws]; [done|]. simpl in *. lia.
Qed.
Lemma clean_go_bytes stack segs : (seg_bytes (clean_go stack segs) <= seg_bytes stack + seg_bytes segs)%nat.
Proof.
  revert stack. induction segs as [|s segs IH]; intros stack; simpl.
  { rewrite seg_bytes_reverse. lia. }
  repeat case_match.
  - etransitivity; [apply IH|]. lia.
  - etransitivity; [apply IH|]. destruct stack; simpl; lia.
  - etransitivity; [apply IH|]. simpl. lia.
Qed.
Lemma length_append s t : String.length (s +:+ t) = (String.length s + String.length t)%nat.
Proof. induction s as [|c s IH]; [done|]. simpl. by rewrite <- IH. Qed.
Lemma length_Join segs : segs ≠ [] → S (String.length (Join "/" segs)) = seg_bytes segs.
Proof.
  induction segs as [|s [|s' segs] IH]; intros H; [done|simpl; lia|].
  change (Join "/" (s :: s' :: segs)) with (s +:+ String slash (Join "/" (s' :: segs))).
  rewrite length_append. cbn [String.length].
  rewrite IH by done. simpl. lia.
Qed.

(** Splitting and joining at a slash. *)
Lemma Join_Split s : Join "/" (Split slash s) = s.
Proof.
  induction s as [|c s IH]; [done|]. simpl. pose proof (Split_nonempty slash s) as Hne.
  destruct (Ascii.eqb_spec c slash) as [->|]; destruct (Split slash s) as [|w ws]; try done.
  - change (Join "/" ("" :: w :: ws)) with (String slash (Join "/" (w :: ws))). by rewrite IH.
  - destruct ws as [|w' ws]; [simpl in *; by rewrite IH|].
    change (Join "/" (String c w :: w' :: ws)) with (String c (Join "/" (w :: w' :: ws))). by rewrite IH.
Qed.

Lemma length_of_bytes l : String.length (of_bytes l) = length l.
Proof. induction l; simpl; auto. Qed.
Lemma length_bytes s : length (bytes_of s) = String.length s.
Proof. rewrite <- (of_bytes_of s) at 2. by rewrite length_of_bytes. Qed.
Lemma length_TrimSpace s : (String.length (TrimSpace s) <= String.length s)%nat.
Proof.
  unfold TrimSpace. rewrite length_of_bytes, <- (length_bytes s).
  pose proof (trim_front_length space2 space3 (bytes_of s)) as H1.
  destruct (trim_right_prefix (trim_left (bytes_of s))) as [q Hq].
  apply (f_equal length) in Hq. rewrite length_app in Hq. unfold trim_left in *. lia.
Qed.
Lemma length_replace_byte a b s : String.length (replace_byte a b s) = String.length s.
Proof. induction s; simpl; auto. Qed.

Lemma length_normalizeIndexPath p : (String.length (normalizeIndexPath p) <= String.length p)%nat.
Proof.
  unfold normalizeIndexPath, path_Clean_rooted. rewrite TrimPrefix_head.
  set (v := TrimSpace (replace_byte "\" slash p)). case_bool_decide; [simpl; lia|].
  assert (String.length v <= String.length p)%nat as Hv.
  { etransitivity; [apply length_TrimSpace|]. by rewrite length_replace_byte. }
  assert (clean_go [] (Split slash (String slash v)) = clean_go [] (Split slash v)) as -> by reflexivity.
  pose proof (clean_go_bytes [] (Split slash v)) as H2. rewrite seg_bytes_Split in H2.
  destruct (decide (clean_go [] (Split slash v) = [])) as [E|Hne]; [rewrite E; simpl; lia|].
  pose proof (length_Join _ Hne). simpl in H2. lia.
Qed.

(** What [validateIndexSourcePath] lets through. *)
Record path_accepted (ul : string → string) (p : string) : Prop := {
  pa_segments : Forall clean_segment (Split slash p);
  pa_bytes : len p ≤ maxIndexPathBytes;
  pa_policy : isCloudIndexPathExcluded ul p = false
}.

Lemma validateIndexSourcePath_accepted ul value p :
  validateIndexSourcePath ul value = Ok p → path_accepted ul p.
Proof.
  unfold validateIndexSourcePath. set (raw := TrimSpace _).
  destruct (maxIndexPathBytes <? len raw) eqn:E1; [done|]. destruct (_ || _ || _); [done|].
  destruct (existsb _ _); [done|]. case_bool_decide as E2; [done|].
  destruct (isCloudIndexPathExcluded ul _) eqn:E3; [done|]. intros [= <-].
  destruct (normalizeIndexPath_join raw) as (segs & Hsegs & E). split; [|..|done].
  - rewrite E in *. rewrite Split_Join; [done|by intros ->|].
    eapply Forall_impl; [exact Hsegs|]. by intros ? (?&?&?&?&?).
  - pose proof (length_normalizeIndexPath raw). unfold len in *. reflect_bools. lia.
Qed.
