(* ===== verification/Sha256.v ===== *)
(** * crypto/sha256

    FIPS 180-4 SHA-256 over 32-bit words kept in [Z], as Go's [crypto/sha256]
    computes it; the relay prints it in hexadecimal. *)
From Stdlib Require Import Ascii String.
From S2P Require Import Prelude GoStrings.
Open Scope Z_scope.

Definition w32 (z : Z) : Z := Z.land z (2 ^ 32 - 1).
Definition add32 (a b : Z) : Z := w32 (a + b).
Definition rotr (n x : Z) : Z := Z.lor (Z.shiftr x n) (w32 (Z.shiftl x (32 - n))).

(** The constants are the first 32 fractional bits of the cube roots (rounds) and the
    square roots (initial state) of the first primes. *)
Definition is_prime (n : Z) : bool :=
  forallb (λ d, negb (n mod d =? 0)) (seqZ 2 (Z.sqrt n - 1)).
Definition primes : list Z := List.filter is_prime (seqZ 2 310).
Fixpoint cube_root (bits : nat) (acc n : Z) : Z :=
  match bits with
  | O => acc
  | S b => let t := acc + 2 ^ Z.of_nat b in cube_root b (if t ^ 3 <=? n then t else acc) n
  end.

Definition K256 : list Z :=
  Eval vm_compute in (λ p, w32 (cube_root 40 0 (p * 2 ^ 96))) <$> take 64 primes.
Definition H256 : list Z :=
  Eval vm_compute in (λ p, w32 (Z.sqrt (p * 2 ^ 64))) <$> take 8 primes.

Definition nthZ (l : list Z) (i : nat) : Z := List.nth i l 0.

(** The message schedule; [w] holds the words so far, newest first. *)
Fixpoint schedule (n : nat) (w : list Z) : list Z :=
  match n with
  | O => List.rev w
  | S n' =>
      let w15 := nthZ w 14 in let w2 := nthZ w 1 in
      let s0 := Z.lxor (Z.lxor (rotr 7 w15) (rotr 18 w15)) (Z.shiftr w15 3) in
      let s1 := Z.lxor (Z.lxor (rotr 17 w2) (rotr 19 w2)) (Z.shiftr w2 10) in
      schedule n' (w32 (nthZ w 15 + s0 + nthZ w 6 + s1) :: w)
  end.

Definition round (st : list Z) (kw : Z * Z) : list Z :=
  match st with
  | [a; b; c; d; e; f; g; h] =>
      let S1 := Z.lxor (Z.lxor (rotr 6 e) (rotr 11 e)) (rotr 25 e) in
      let ch := Z.lxor (Z.land e f) (Z.land (Z.lxor e (2 ^ 32 - 1)) g) in
      let t1 := w32 (h + S1 + ch + fst kw + snd kw) in
      let S0 := Z.lxor (Z.lxor (rotr 2 a) (rotr 13 a)) (rotr 22 a) in
      let maj := Z.lxor (Z.lxor (Z.land a b) (Z.land a c)) (Z.land b c) in
      [add32 t1 (add32 S0 maj); a; b; c; add32 d t1; e; f; g]
  | _ => st
  end.

Fixpoint words_be (l : list Z) : list Z :=
  match l with
  | a :: b :: c :: d :: r =>
      (Z.shiftl a 24 + Z.shiftl b 16 + Z.shiftl c 8 + d) :: words_be r
  | _ => []
  end.

Definition compress (st : list Z) (block : list Z) : list Z :=
  let w := schedule 48 (List.rev (words_be block)) in
  let st' := List.fold_left round (List.combine K256 w) st in
  List.map (fun p => add32 (fst p) (snd p)) (List.combine st st').

Fixpoint blocks (fuel : nat) (l : list Z) : list (list Z) :=
  match fuel, l with
  | _, [] => []
  | O, _ => []
  | S fuel', _ => firstn 64 l :: blocks fuel' (skipn 64 l)
  end.

Fixpoint be_bytes (n : nat) (z : Z) : list Z :=
  match n with
  | O => []
  | S n' => be_bytes n' (Z.shiftr z 8) ++ [Z.land z 255]
  end.

Definition pad (m : list Z) : list Z :=
  let n := length m in
  let z := ((64 - (n + 9) mod 64) mod 64)%nat in
  m ++ [128] ++ repeat 0 z ++ be_bytes 8 (8 * Z.of_nat n).

Definition Sum256_bytes (m : list Z) : list Z :=
  let p := pad m in
  List.concat (List.map (be_bytes 4) (List.fold_left compress (blocks (length p) p) H256)).

Definition hex_digit (z : Z) : ascii :=
  List.nth (Z.to_nat z) (bytes_of "0123456789abcdef") "0"%char.
Fixpoint hex_of (l : list Z) : string :=
  match l with
  | [] => ""
  | b :: r => String (hex_digit (Z.shiftr b 4)) (String (hex_digit (Z.land b 15)) (hex_of r))
  end.

Definition string_bytes (s : string) : list Z :=
  List.map (fun c => Z.of_nat (code c)) (bytes_of s).
Definition bytes_string (l : list Z) : string :=
  of_bytes (List.map (fun z => ascii_of_nat (Z.to_nat z)) l).

(** [fmt.Sprintf("%x", sha256.Sum256([]byte(s)))]. *)
Definition sha256_hex (s : string) : string := hex_of (Sum256_bytes (string_bytes s)).

Example sha256_empty :
  sha256_hex "" = "e3b0c44298fc1c149afbf4c8996fb92427ae41e4649b934ca495991b7852b855".
Proof. vm_compute. reflexivity. Qed.
Example sha256_abc :
  sha256_hex "abc" = "ba7816bf8f01cfea414140de5dae2223b00361a396177a9cb410ff61f20015ad".
Proof. vm_compute. reflexivity. Qed.
Example sha256_two_blocks :
  sha256_hex "abcdbcdecdefdefgefghfghighijhijkijkljklmklmnlmnomnopnopq"
  = "248d6a61d20638b8e5c026930c3e6039a33ce45964ff2167f6ecedd419db06c1".
Proof. vm_compute. reflexivity. Qed.
