(* ===== verification/Md5.v ===== *)
(** * crypto/md5 and crypto/hmac

    MD5 (RFC 1321) over 32-bit words, as the key lookup of main.go uses it, and HMAC (RFC
    2104) with SHA-256, as the tenant assertions use it. *)
From Stdlib Require Import Ascii String.
From S2P Require Import Prelude GoStrings Sha256.
Open Scope Z_scope.

(** ** MD5 *)

Definition rotl (n x : Z) : Z := Z.lor (w32 (Z.shiftl x n)) (Z.shiftr x (32 - n)).

(** [2 ^ scale * sin x] for an integer [x], by its power series; the constants are the
    integer parts of [2 ^ 32 * |sin i|]. *)
Definition scale : Z := 256.
Fixpoint sine_series (fuel : nat) (k x term : Z) : Z :=
  match fuel with
  | O => 0
  | S f => term + sine_series f (k + 2) x (- Z.quot (term * x * x) ((k + 1) * (k + 2)))
  end.
Definition md5_constants : list Z :=
  Eval vm_compute in
    (λ i, Z.shiftr (Z.abs (sine_series 160 1 i (i * 2 ^ scale))) (scale - 32)) <$> seqZ 1 64.

Definition md5_rotation (i : nat) : Z :=
  nthZ (nth (i / 16) [[7; 12; 17; 22]; [5; 9; 14; 20]; [4; 11; 16; 23]; [6; 10; 15; 21]] []) (i mod 4).

Definition not32 (x : Z) : Z := Z.lxor x (2 ^ 32 - 1).
(** The mixing function of round [i] and the index of the message word it uses. *)
Definition md5_mix (i : nat) (b c d : Z) : Z * nat :=
  match (i / 16)%nat with
  | 0%nat => (Z.lor (Z.land b c) (Z.land (not32 b) d), i)
  | 1%nat => (Z.lor (Z.land d b) (Z.land (not32 d) c), (5 * i + 1) mod 16)%nat
  | 2%nat => (Z.lxor b (Z.lxor c d), (3 * i + 5) mod 16)%nat
  | _ => (Z.lxor c (Z.lor b (not32 d)), (7 * i) mod 16)%nat
  end.

Definition md5_round (words : list Z) (st : Z * Z * Z * Z) (i : nat) : Z * Z * Z * Z :=
  let '(a, b, c, d) := st in
  let '(f, g) := md5_mix i b c d in
  let t := w32 (a + f + nthZ md5_constants i + nthZ words g) in
  (d, add32 b (rotl (md5_rotation i) t), b, c).

Fixpoint words_le (l : list Z) : list Z :=
  match l with
  | a :: b :: c :: d :: r => (a + Z.shiftl b 8 + Z.shiftl c 16 + Z.shiftl d 24) :: words_le r
  | _ => []
  end.

Definition md5_block (st : Z * Z * Z * Z) (block : list Z) : Z * Z * Z * Z :=
  let '(a, b, c, d) := st in
  let '(a', b', c', d') := List.fold_left (md5_round (words_le block)) (seq 0 64) st in
  (add32 a a', add32 b b', add32 c c', add32 d d').

Definition le_bytes (n : nat) (z : Z) : list Z := List.rev (be_bytes n z).
Definition md5_pad (m : list Z) : list Z :=
  let n := length m in
  m ++ [128] ++ repeat 0 ((64 - (n + 9) mod 64) mod 64)%nat ++ le_bytes 8 (8 * Z.of_nat n).

Definition md5_hex (s : string) : string :=
  let p := md5_pad (string_bytes s) in
  let '(a, b, c, d) := List.fold_left md5_block (blocks (length p) p)
                         (1732584193, 4023233417, 2562383102, 271733878) in
  hex_of (List.concat (List.map (le_bytes 4) [a; b; c; d])).

Example md5_empty : md5_hex "" = "d41d8cd98f00b204e9800998ecf8427e".
Proof. vm_compute. reflexivity. Qed.
Example md5_abc : md5_hex "abc" = "900150983cd24fb0d6963f7d28e17f72".
Proof. vm_compute. reflexivity. Qed.
Example md5_two_blocks :
  md5_hex "12345678901234567890123456789012345678901234567890123456789012345678901234567890"
  = "57edf4a22be3c955ac49da2e2107b67a".
Proof. vm_compute. reflexivity. Qed.

(** ** HMAC-SHA256 *)

Definition hmac_key (key : list Z) : list Z :=
  let k := if (length key <=? 64)%nat then key else Sum256_bytes key in
  k ++ repeat 0 (64 - length k).
Definition hmac_sha256 (key msg : list Z) : list Z :=
  let k := hmac_key key in
  Sum256_bytes (List.map (Z.lxor 92) k ++ Sum256_bytes (List.map (Z.lxor 54) k ++ msg)).

Example hmac_jefe :
  hex_of (hmac_sha256 (string_bytes "Jefe") (string_bytes "what do ya want for nothing?"))
  = "5bdcc146bf60754e6a042426089575c75a003f089d2739839dec58b964ec3843".
Proof. vm_compute. reflexivity. Qed.
