(* ===== verification/Manifest.v ===== *)
(** * The workspace manifest

    [indexManifestFile] and the pure manifest functions of index_jobs.go
    ([normalizeManifest], [graftUnreadablePaths], [diffManifest],
    [validateIndexBatchSize], [validateIndexContent]) with the validators of
    mcp_index_tool.go that run before them. *)
From Stdlib Require Import Ascii String.
From S2P Require Import Prelude GoStrings Sha256 Paths.
Open Scope Z_scope.

Record indexManifestFile := {
  Path : string;
  Hash : string;
  Size : Z;
  EstimatedChunks : Z;
  Content : string
}.

#[export] Instance indexManifestFile_eq_dec : EqDecision indexManifestFile.
Proof. solve_decision. Defined.

Definition maxIndexManifestFiles : Z := 100000.
Definition maxIndexBatchFiles : Z := 50.
Definition maxIndexFileBytes : Z := Z.shiftl 512 10.
Definition maxIndexBatchBytes : Z := Z.shiftl 512 10.

Definition zlength {A} (l : list A) : Z := Z.of_nat (length l).

(** ** Definitions of the source *)

(** One iteration of the loop of [normalizeManifest] rewrites the file. *)
Definition normalize_file (file : indexManifestFile) : indexManifestFile := {|
  Path := normalizeIndexPath (Path file);
  Hash := TrimSpace (Hash file);
  Size := if Size file <? 0 then 0 else Size file;
  EstimatedChunks := if EstimatedChunks file <? 1 then 1 else EstimatedChunks file;
  Content := ""
|}.

Fixpoint normalizeManifest_loop (seen : gset string) (files : list indexManifestFile) :
    result error (list indexManifestFile) :=
  match files with
  | [] => Ok []
  | file :: rest =>
      let file := normalize_file file in
      reject bool_decide (Path file = "") || bool_decide (Hash file = "")
        with Errorf "manifest file path and hash are required" in
      reject bool_decide (Path file ∈ seen)
        with Errorf ("duplicate manifest path: " +:+ Path file) in
      let? out := normalizeManifest_loop ({[Path file]} ∪ seen) rest in
      Ok (file :: out)
  end.

Definition path_le (a b : indexManifestFile) : Prop := String.le (Path a) (Path b).
#[export] Instance path_le_dec : RelDecision path_le := fun a b => String.le_dec (Path a) (Path b).

Definition normalizeManifest (files : list indexManifestFile) :
    result error (list indexManifestFile) :=
  reject maxIndexManifestFiles <? zlength files
    with Errorf ("manifest exceeds " +:+ FormatInt maxIndexManifestFiles +:+ " files") in
  let? out := normalizeManifest_loop ∅ files in
  Ok (merge_sort path_le out).

(** The loop of [graftUnreadablePaths]: files grafted from the old snapshot. *)
Fixpoint graft_loop (previous : gmap string indexManifestFile) (current : gset string)
    (unreadable : list string) : list indexManifestFile :=
  match unreadable with
  | [] => []
  | rawPath :: rest =>
      let filePath := normalizeIndexPath rawPath in
      if bool_decide (filePath = "") || bool_decide (filePath ∈ current)
      then graft_loop previous current rest
      else match previous !! filePath with
           | None => graft_loop previous ({[filePath]} ∪ current) rest
           | Some old => old :: graft_loop previous ({[filePath]} ∪ current) rest
           end
  end.

Definition graftUnreadablePaths (previous : gmap string indexManifestFile)
    (files : list indexManifestFile) (unreadable : list string) :
    result error (list indexManifestFile) :=
  if (length unreadable =? 0)%nat then Ok files else
  reject maxIndexManifestFiles <? zlength unreadable
    with Errorf ("unreadable file list exceeds " +:+ FormatInt maxIndexManifestFiles +:+ " files") in
  let grafted := graft_loop previous (list_to_set (Path <$> files)) unreadable in
  let files' := files ++ grafted in
  reject maxIndexManifestFiles <? zlength files'
    with Errorf ("manifest exceeds " +:+ FormatInt maxIndexManifestFiles +:+ " files") in
  if (length grafted =? 0)%nat then Ok files' else Ok (merge_sort path_le files').

(** [!ok || old.Hash != file.Hash || old.Size != file.Size] *)
Definition changed (previous : gmap string indexManifestFile) (file : indexManifestFile) : bool :=
  match previous !! Path file with
  | None => true
  | Some old => negb (bool_decide (Hash old = Hash file)) || negb (Size old =? Size file)
  end.

Definition diffManifest (previous : gmap string indexManifestFile)
    (current : list indexManifestFile) : list string * list string * Z :=
  let touched := List.filter (changed previous) current in
  let pending := Path <$> touched in
  let deletedMap : gset string := dom previous ∖ list_to_set (Path <$> current) in
  let deleted := merge_sort String.le (elements deletedMap) in
  let estimatedChunks :=
    List.fold_left (fun acc f => wrap64 (acc + EstimatedChunks f)) touched 0 in
  (pending, deleted, estimatedChunks).

Fixpoint validateIndexBatchSize_loop (total : Z) (files : list indexManifestFile) :
    result error Z :=
  match files with
  | [] => Ok total
  | file :: rest =>
      let size := len (Content file) in
      reject maxIndexFileBytes <? size
        with Errorf ("file exceeds the " +:+ FormatInt maxIndexFileBytes
                     +:+ " byte limit: " +:+ Path file) in
      validateIndexBatchSize_loop (wrap64 (total + size)) rest
  end.

Definition validateIndexBatchSize (files : list indexManifestFile) : result error Z :=
  let? total := validateIndexBatchSize_loop 0 files in
  reject maxIndexBatchBytes <? total
    with Errorf ("index batch exceeds the " +:+ FormatInt maxIndexBatchBytes +:+ " byte limit") in
  Ok total.

Definition validateIndexContent (expectedHash : string) (expectedSize : Z) (content : string) :
    result error unit :=
  reject negb (len content =? expectedSize)
    with Errorf ("size is " +:+ FormatInt (len content) +:+ " bytes, expected "
                 +:+ FormatInt expectedSize) in
  let actualHash := sha256_hex content in
  reject negb (EqualFold actualHash (TrimSpace expectedHash))
    with Errorf ("SHA-256 is " +:+ actualHash +:+ ", expected " +:+ expectedHash) in
  Ok tt.

(** ** The tool-call validators *)

Record mcpIndexManifestFile := {
  mf_path : string; mf_hash : string; mf_size : Z; mf_estimated_chunks : Z
}.
Record mcpIndexUploadFile := {
  uf_path : string; uf_hash : string; uf_content : string
}.

Definition estimatedIndexChunkBytes : Z := 4096.
Definition maxIndexEstimatedChunks : Z :=
  Z.quot (maxIndexFileBytes + estimatedIndexChunkBytes - 1) estimatedIndexChunkBytes.

Definition is_hex (c : ascii) : bool :=
  ((48 <=? code c) && (code c <=? 57) || (65 <=? code c) && (code c <=? 70)
   || (97 <=? code c) && (code c <=? 102))%nat.

(** [^[a-fA-F0-9]{64}$] *)
Definition sha256Pattern (s : string) : bool :=
  (String.length s =? 64)%nat && forallb is_hex (bytes_of s).

Definition is_alnum (c : ascii) : bool :=
  is_letter c || ((48 <=? code c) && (code c <=? 57))%nat.

(** [^[A-Za-z0-9][A-Za-z0-9._:@-]{0,127}$] *)
Definition root_tail_byte (c : ascii) : bool :=
  is_alnum c || Ascii.eqb c "." || Ascii.eqb c "_" || Ascii.eqb c ":"
  || Ascii.eqb c "@" || Ascii.eqb c "-".
Definition indexRootIDPattern (s : string) : bool :=
  match s with
  | EmptyString => false
  | String c s' => is_alnum c && (String.length s' <=? 127)%nat && forallb root_tail_byte (bytes_of s')
  end.

Section validators.
Context (unicode_lower : string → string).

Definition validateMCPManifestFile (file : mcpIndexManifestFile) :
    result error indexManifestFile :=
  let? filePath := validateIndexSourcePath unicode_lower (mf_path file) in
  reject negb (sha256Pattern (TrimSpace (mf_hash file)))
    with Errorf ("manifest file hash must be SHA-256: " +:+ filePath) in
  reject (mf_size file <? 1) || (maxIndexFileBytes <? mf_size file)
    with Errorf ("manifest file size is invalid: " +:+ filePath) in
  reject (mf_estimated_chunks file <? 1) || (maxIndexEstimatedChunks <? mf_estimated_chunks file)
    with Errorf ("estimated_chunks must be between 1 and "
                 +:+ FormatInt maxIndexEstimatedChunks +:+ ": " +:+ filePath) in
  Ok {| Path := filePath;
        Hash := ToLower unicode_lower (TrimSpace (mf_hash file));
        Size := mf_size file;
        EstimatedChunks := mf_estimated_chunks file;
        Content := "" |}.

Fixpoint validateMCPManifestFiles (files : list mcpIndexManifestFile) :
    result error (list indexManifestFile) :=
  match files with
  | [] => Ok []
  | file :: rest =>
      let? f := validateMCPManifestFile file in
      let? out := validateMCPManifestFiles rest in
      Ok (f :: out)
  end.

Definition validateMCPUploadFile (file : mcpIndexUploadFile) :
    result error indexManifestFile :=
  let? filePath := validateIndexSourcePath unicode_lower (uf_path file) in
  reject negb (sha256Pattern (TrimSpace (uf_hash file)))
    with Errorf ("upload file hash must be SHA-256: " +:+ filePath) in
  reject bool_decide (uf_content file = "") || has_byte (byte_of 0) (uf_content file)
    with Errorf ("upload file must contain non-empty UTF-8 text without NUL bytes: "
                 +:+ filePath) in
  Ok {| Path := filePath;
        Hash := ToLower unicode_lower (TrimSpace (uf_hash file));
        Size := 0;
        EstimatedChunks := 0;
        Content := uf_content file |}.

Fixpoint validateMCPUploadFiles_loop (files : list mcpIndexUploadFile) :
    result error (list indexManifestFile) :=
  match files with
  | [] => Ok []
  | file :: rest =>
      let? f := validateMCPUploadFile file in
      let? out := validateMCPUploadFiles_loop rest in
      Ok (f :: out)
  end.

Definition validateMCPUploadFiles (files : list mcpIndexUploadFile) :
    result error (list indexManifestFile) :=
  let? out := validateMCPUploadFiles_loop files in
  let? _ := validateIndexBatchSize out in
  Ok out.
End validators.

(** ** Laws *)

(** The rows a completed job leaves in [indexed_files] for its manifest. *)
Definition snapshot_of (files : list indexManifestFile) : gmap string indexManifestFile :=
  list_to_map ((λ f, (Path f, f)) <$> files).

Lemma snapshot_of_lookup files f :
  NoDup (Path <$> files) → f ∈ files → snapshot_of files !! Path f = Some f.
Proof.
  intros Hnd Hf. apply elem_of_list_to_map_1.
  - rewrite <- list_fmap_compose. exact Hnd.
  - apply list_elem_of_fmap. by exists f.
Qed.

Lemma snapshot_of_Some files p f :
  snapshot_of files !! p = Some f → Path f = p ∧ f ∈ files.
Proof.
  intros H%elem_of_list_to_map_2. apply list_elem_of_fmap in H as (g & E & Hg).
  by simplify_eq.
Qed.

Lemma dom_snapshot_of files : dom (snapshot_of files) = list_to_set (Path <$> files).
Proof.
  unfold snapshot_of. rewrite dom_list_to_map_L, <- list_fmap_compose. done.
Qed.

#[export] Instance path_le_trans : Transitive path_le.
Proof. unfold path_le. intros a b c ??. by transitivity (Path b). Qed.
#[export] Instance path_le_total : Total path_le.
Proof. intros a b. apply (total String.le). Qed.

Lemma merge_sort_in {A} (R : relation A) `{!RelDecision R} l x :
  x ∈ merge_sort R l ↔ x ∈ l.
Proof. by rewrite merge_sort_Permutation. Qed.

Lemma merge_sort_NoDup_fmap {A B} (R : relation A) `{!RelDecision R} (f : A → B) l :
  NoDup (f <$> l) → NoDup (f <$> merge_sort R l).
Proof. by rewrite merge_sort_Permutation. Qed.

(** What a manifest accepted by [normalizeManifest] satisfies. *)
Record manifest_wf (out : list indexManifestFile) : Prop := {
  mw_sorted : Sorted path_le out;
  mw_nodup : NoDup (Path <$> out);
  mw_files : Forall (λ f, Path f ≠ "" ∧ Hash f ≠ "" ∧ 0 ≤ Size f ∧ 1 ≤ EstimatedChunks f
                          ∧ Content f = "") out
}.

Lemma normalizeManifest_loop_spec seen files out :
  normalizeManifest_loop seen files = Ok out →
  out = normalize_file <$> files ∧ NoDup (Path <$> out) ∧
  (∀ f, f ∈ out → Path f ∉ seen ∧ Path f ≠ "" ∧ Hash f ≠ "").
Proof.
  revert seen out. induction files as [|f files IH]; intros seen out H; cbn -[normalize_file] in H.
  { simplify_eq. split_and!; [done|constructor|set_solver]. }
  destruct (_ || _) eqn:E1; [done|]. case_bool_decide; [done|].
  destruct (normalizeManifest_loop _ files) as [out'|] eqn:E; [|done].
  injection H as <-. apply IH in E as (-> & Hnd & Hin).
  apply orb_false_iff in E1 as [Hp Hh]. reflect_bools. split_and!; [done| |].
  - rewrite fmap_cons. constructor; [|done].
    intros (g & Hg & Hgin)%list_elem_of_fmap. destruct (Hin g Hgin) as [Hn _]. set_solver.
  - intros g [->|Hg]%elem_of_cons; [done|]. destruct (Hin g Hg) as (?&?&?). set_solver.
Qed.

Lemma normalizeManifest_wf files out :
  normalizeManifest files = Ok out → manifest_wf out ∧ out ≡ₚ normalize_file <$> files.
Proof.
  unfold normalizeManifest. destruct (_ <? _); [done|].
  destruct (normalizeManifest_loop ∅ files) as [out'|] eqn:E; [|done]. intros [= <-].
  apply normalizeManifest_loop_spec in E as (-> & Hnd & Hin).
  split; [|by rewrite merge_sort_Permutation]. split.
  - apply Sorted_merge_sort, _.
  - by apply merge_sort_NoDup_fmap.
  - apply Forall_forall. intros f Hf. rewrite merge_sort_in in Hf.
    destruct (Hin f Hf) as (_ & ? & ?).
    apply list_elem_of_fmap in Hf as (g & -> & _). simpl in *.
    split_and!; [done|done| | |done]; case_match; reflect_bools; lia.
Qed.

(** [diffManifest], seen from its result. *)
Lemma diffManifest_pending previous current pending deleted n p :
  diffManifest previous current = (pending, deleted, n) →
  p ∈ pending ↔ ∃ f, f ∈ current ∧ Path f = p ∧ changed previous f = true.
Proof.
  unfold diffManifest. intros [= <- _ _]. rewrite list_elem_of_fmap. split.
  - intros (f & -> & Hf). apply list_elem_of_In, List.filter_In in Hf as [Hf Hc].
    exists f. by rewrite list_elem_of_In.
  - intros (f & Hf & <- & Hc). exists f. split; [done|].
    apply list_elem_of_In, List.filter_In. by rewrite <- list_elem_of_In.
Qed.

Lemma diffManifest_deleted previous current pending deleted n p :
  diffManifest previous current = (pending, deleted, n) →
  p ∈ deleted ↔ is_Some (previous !! p) ∧ p ∉ Path <$> current.
Proof.
  unfold diffManifest. intros [= _ <- _].
  rewrite merge_sort_in, elem_of_elements, elem_of_difference, elem_of_dom,
    elem_of_list_to_set. done.
Qed.

Lemma changed_self files f :
  NoDup (Path <$> files) → f ∈ files → changed (snapshot_of files) f = false.
Proof.
  intros Hnd Hf. unfold changed. rewrite snapshot_of_lookup by done.
  by rewrite bool_decide_eq_true_2, Z.eqb_refl.
Qed.

(** What the index holds after a job staged [pending] from [current] and removed
    [deleted]: the abstract meaning of a diff. *)
Definition apply_diff (previous : gmap string indexManifestFile)
    (current : list indexManifestFile) (pending deleted : list string) :
    gmap string indexManifestFile :=
  snapshot_of (List.filter (λ f, bool_decide (Path f ∈ pending)) current)
  ∪ filter (λ kv, kv.1 ∉ deleted) previous.

(** What a change detector can see of a file. *)
Definition file_version (f : indexManifestFile) : string * Z := (Hash f, Size f).

Lemma changed_false previous f :
  changed previous f = false →
  ∃ old, previous !! Path f = Some old ∧ file_version old = file_version f.
Proof.
  unfold changed, file_version. destruct (previous !! Path f) as [old|]; [|done].
  intros H. reflect_bools. exists old. by rewrite H, H0.
Qed.

Lemma NoDup_fmap_filter {A B} (f : A → B) (P : A → bool) (l : list A) :
  NoDup (f <$> l) → NoDup (f <$> List.filter P l).
Proof.
  induction l as [|x l IH]; simpl; [done|]. intros [Hx Hl]%NoDup_cons.
  destruct (P x); simpl; [|by apply IH]. apply NoDup_cons. split; [|by apply IH].
  intros (y & E & Hy)%list_elem_of_fmap. apply Hx. rewrite E. apply list_elem_of_fmap_2.
  apply list_elem_of_In, List.filter_In in Hy as [Hy _]. by apply list_elem_of_In.
Qed.

Lemma NoDup_fmap_inj {A B} (f : A → B) (l : list A) x y :
  NoDup (f <$> l) → x ∈ l → y ∈ l → f x = f y → x = y.
Proof.
  induction l as [|z l IH]; simpl; [set_solver|]. intros [Hz Hl]%NoDup_cons Hx Hy E.
  apply elem_of_cons in Hx as [->|Hx], Hy as [->|Hy]; auto.
  - exfalso. apply Hz. rewrite E. by apply list_elem_of_fmap_2.
  - exfalso. apply Hz. rewrite <- E. by apply list_elem_of_fmap_2.
Qed.

Lemma apply_diff_in previous current pending deleted n f :
  NoDup (Path <$> current) → diffManifest previous current = (pending, deleted, n) →
  f ∈ current →
  file_version <$> apply_diff previous current pending deleted !! Path f = Some (file_version f).
Proof.
  intros Hnd Hdiff Hf. unfold apply_diff. rewrite lookup_union.
  set (sel := List.filter _ current).
  assert (NoDup (Path <$> sel)) as Hsel by (by apply NoDup_fmap_filter).
  destruct (changed previous f) eqn:Hc.
  - assert (f ∈ sel) as Hfs.
    { apply list_elem_of_In, List.filter_In. rewrite <- list_elem_of_In. split; [done|].
      apply bool_decide_eq_true_2. rewrite (diffManifest_pending _ _ _ _ _ _ Hdiff). by exists f. }
    rewrite snapshot_of_lookup by done. by destruct (filter _ previous !! _).
  - assert (snapshot_of sel !! Path f = None) as ->.
    { apply eq_None_not_Some. intros [g Hg]. apply snapshot_of_Some in Hg as [Hp Hg].
      apply list_elem_of_In, List.filter_In in Hg as [Hg Hgp].
      apply bool_decide_eq_true in Hgp. rewrite (diffManifest_pending _ _ _ _ _ _ Hdiff) in Hgp.
      destruct Hgp
        as (h & Hh & Hhp & Hhc).
      assert (h = f) as -> by (apply (NoDup_fmap_inj Path current); auto; congruence).
      congruence. }
    rewrite (left_id_L None (∪)). destruct (changed_false _ _ Hc) as (old & Hold & Hv).
    assert (filter (λ kv, kv.1 ∉ deleted) previous !! Path f = Some old) as ->.
    { apply map_lookup_filter_Some. split; [done|]. simpl.
      rewrite (diffManifest_deleted _ _ _ _ _ _ Hdiff). intros [_ Hn]. apply Hn.
      by apply list_elem_of_fmap_2. }
    simpl. by rewrite Hv.
Qed.

Lemma apply_diff_out previous current pending deleted n p :
  diffManifest previous current = (pending, deleted, n) →
  p ∉ Path <$> current → apply_diff previous current pending deleted !! p = None.
Proof.
  intros Hdiff Hp. unfold apply_diff. apply lookup_union_None. split.
  - apply eq_None_not_Some. intros [g Hg]. apply snapshot_of_Some in Hg as [<- Hg].
    apply list_elem_of_In, List.filter_In in Hg as [Hg _].
    apply Hp, list_elem_of_fmap_2. by apply list_elem_of_In.
  - apply map_lookup_filter_None. destruct (previous !! p) as [old|] eqn:E; [right|by left].
    intros x Hx Hn. apply Hn. simpl. rewrite (diffManifest_deleted _ _ _ _ _ _ Hdiff). by split; [exists old|].
Qed.

Lemma apply_diff_version previous current pending deleted n p :
  NoDup (Path <$> current) → diffManifest previous current = (pending, deleted, n) →
  file_version <$> apply_diff previous current pending deleted !! p =
  file_version <$> snapshot_of current !! p.
Proof.
  intros Hnd Hdiff. destruct (decide (p ∈ Path <$> current)) as [Hp|Hp].
  - apply list_elem_of_fmap in Hp as (f & -> & Hf).
    rewrite (apply_diff_in _ _ _ _ _ _ Hnd Hdiff Hf), snapshot_of_lookup by done. done.
  - rewrite (apply_diff_out _ _ _ _ _ _ Hdiff Hp).
    assert (snapshot_of current !! p = None) as ->; [|done].
    apply not_elem_of_dom. rewrite dom_snapshot_of. by rewrite elem_of_list_to_set.
Qed.

(** Every row of the old snapshot is stored under its own path. *)
Definition keyed (previous : gmap string indexManifestFile) : Prop :=
  map_Forall (λ p f, Path f = p) previous.

Lemma graft_loop_spec previous current unreadable :
  keyed previous →
  NoDup (Path <$> graft_loop previous current unreadable) ∧
  ∀ f, f ∈ graft_loop previous current unreadable ↔
    previous !! Path f = Some f ∧ Path f ≠ "" ∧ Path f ∉ current
    ∧ Path f ∈ normalizeIndexPath <$> unreadable.
Proof.
  intros Hk. revert current.
  induction unreadable as [|u us IH]; intros current; [split; [constructor|set_solver]|].
  simpl. set (q := normalizeIndexPath u).
  destruct (_ || _) eqn:E.
  { destruct (IH current) as [H1 H2]. split; [done|]. intros f. rewrite H2.
    rewrite elem_of_cons.
    apply orb_true_iff in E. rewrite !bool_decide_eq_true in E.
    split; [naive_solver|]. intros (?&?&?&[?|?]); [|done].
    destruct E; subst q; congruence. }
  apply orb_false_iff in E as [E1 E2]. reflect_bools.
  destruct (IH ({[q]} ∪ current)) as [H1 H2].
  destruct (previous !! q) as [old|] eqn:Eq.
  - pose proof (Hk _ _ Eq) as Hq. split.
    + simpl. constructor; [|done].
      intros (g & Hg & Hin)%list_elem_of_fmap. apply H2 in Hin as (_ & _ & Hn & _).
      apply Hn. rewrite <- Hg, Hq. set_solver.
    + intros f. rewrite elem_of_cons, H2. split.
      * intros [->|(?&?&?&?)]; [rewrite Hq; split_and!; [done..|]; by left|].
        split_and!; [done|done|set_solver|by right].
      * intros (Hf & Hne & Hnc & Hin). destruct (decide (Path f = q)) as [Hfq|Hfq].
        -- left. rewrite Hfq in Hf. congruence.
        -- right. split_and!; [done|done|set_solver|].
           by apply elem_of_cons in Hin as [?|?].
  - split; [done|]. intros f. rewrite H2. split.
    { intros (?&?&?&?). split_and!; [done|done|set_solver|by right]. }
    intros (Hf & Hne & Hnc & Hin). split_and!; [done|done| |].
    + intros [Hfq%elem_of_singleton|?]%elem_of_union; [|done]. congruence.
    + apply elem_of_cons in Hin as [Hfq|?]; [congruence|done].
Qed.

Lemma graftUnreadablePaths_spec previous files unreadable out :
  keyed previous → NoDup (Path <$> files) →
  graftUnreadablePaths previous files unreadable = Ok out →
  NoDup (Path <$> out) ∧
  ∀ f, f ∈ out ↔ f ∈ files ∨
    previous !! Path f = Some f ∧ Path f ≠ "" ∧ Path f ∉ Path <$> files
    ∧ Path f ∈ normalizeIndexPath <$> unreadable.
Proof.
  intros Hk Hnd. unfold graftUnreadablePaths.
  destruct (graft_loop_spec previous (list_to_set (Path <$> files)) unreadable Hk) as [H1 H2].
  set (gr := graft_loop _ _ _) in *.
  assert (NoDup (Path <$> files ++ gr)) as Hall.
  { rewrite fmap_app. apply NoDup_app. split_and!; [done| |done].
    intros x Hx (g & -> & Hg)%list_elem_of_fmap. apply H2 in Hg as (_ & _ & Hn & _).
    by rewrite elem_of_list_to_set in Hn. }
  assert (∀ f, f ∈ files ++ gr ↔ f ∈ files ∨ previous !! Path f = Some f ∧ Path f ≠ ""
      ∧ Path f ∉ Path <$> files ∧ Path f ∈ normalizeIndexPath <$> unreadable) as Hin.
  { intros f. rewrite elem_of_app, H2, elem_of_list_to_set. done. }
  destruct (length unreadable =? 0)%nat eqn:E0.
  { intros [= <-]. split; [done|]. intros f. apply Nat.eqb_eq in E0.
    destruct unreadable; [|done]. set_solver. }
  destruct (_ <? _); [done|]. destruct (_ <? _); [done|].
  destruct (length gr =? 0)%nat; intros [= <-]; [done|]. split.
  - by apply merge_sort_NoDup_fmap.
  - intros f. by rewrite merge_sort_in.
Qed.

Lemma validateIndexBatchSize_loop_spec total files n :
  0 ≤ total → total + maxIndexFileBytes * zlength files ≤ MaxInt64 →
  validateIndexBatchSize_loop total files = Ok n →
  n = total + foldr Z.add 0 (len ∘ Content <$> files)
  ∧ Forall (λ f, len (Content f) ≤ maxIndexFileBytes) files.
Proof.
  revert total. induction files as [|f files IH]; intros total H0 Hb H; simpl in *.
  { simplify_eq. split; [lia|constructor]. }
  destruct (_ <? _) eqn:E; [done|]. reflect_bools.
  assert (0 ≤ len (Content f)) by (unfold len; lia).
  unfold zlength in *. simpl length in Hb. rewrite Nat2Z.inj_succ in Hb.
  assert (0 ≤ maxIndexFileBytes) by (vm_compute; done).
  rewrite wrap64_id in H.
  2:{ unfold in_int64, MinInt64. apply andb_true_iff. split; apply Z.leb_le; nia. }
  apply IH in H as [-> ?]; [|lia|nia]. split; [by rewrite Z.add_assoc|]. by constructor.
Qed.

(** ** Theorems *)

(** [C32] Synchronisation converges: for a manifest accepted by
    [normalizeManifest], uploading exactly the [pending] paths and removing exactly
    the [deleted] ones turns any previous snapshot into one that agrees with the
    manifest on every path, in hash and size. *)
Theorem diff_sync_converges previous files current pending deleted n :
  normalizeManifest files = Ok current →
  diffManifest previous current = (pending, deleted, n) →
  ∀ p, file_version <$> apply_diff previous current pending deleted !! p =
       file_version <$> snapshot_of current !! p.
Proof.
  intros Hn Hd p. apply normalizeManifest_wf in Hn as [[_ Hnd _] _].
  by apply (apply_diff_version _ _ _ _ n).
Qed.

Definition ex_file (p h : string) (sz : Z) : indexManifestFile :=
  {| Path := p; Hash := h; Size := sz; EstimatedChunks := 1; Content := "" |}.

Lemma diff_sync_converges_witness :
  let previous := snapshot_of [ex_file "a.go" "h1" 3; ex_file "b.go" "h2" 4] in
  let current := [ex_file "b.go" "h9" 4; ex_file "c.go" "h3" 5] in
  diffManifest previous current = (["b.go"; "c.go"], ["a.go"], 2) ∧
  file_version <$> apply_diff previous current ["b.go"; "c.go"] ["a.go"] !! "a.go" =
  file_version <$> snapshot_of current !! "a.go".
Proof.
  split; [by vm_compute|].
  apply (diff_sync_converges _ [ex_file "c.go" "h3" 5; ex_file "/b.go" " h9" 4] _ _ _ 2);
    by vm_compute.
Defined.

(** A file that was indexed before and that this scan
    could not read is neither re-uploaded nor deleted: after
    [graftUnreadablePaths] the diff lists it in neither set. *)
Theorem graft_keeps_unreadable previous files current unreadable out pending deleted n p :
  keyed previous → normalizeManifest files = Ok current →
  graftUnreadablePaths previous current unreadable = Ok out →
  diffManifest previous out = (pending, deleted, n) →
  p ≠ "" → p ∈ normalizeIndexPath <$> unreadable → p ∉ Path <$> current →
  is_Some (previous !! p) →
  p ∉ pending ∧ p ∉ deleted.
Proof.
  intros Hk Hn Hg Hd Hp Hu Hc [old Hold]. apply normalizeManifest_wf in Hn as [[_ Hnd _] _].
  destruct (graftUnreadablePaths_spec _ _ _ _ Hk Hnd Hg) as [Hnd' Hin].
  pose proof (Hk _ _ Hold) as Hpo. simpl in Hpo.
  assert (old ∈ out) as Ho by (apply Hin; right; rewrite Hpo; done).
  rewrite (diffManifest_pending _ _ _ _ _ _ Hd), (diffManifest_deleted _ _ _ _ _ _ Hd). split.
  - intros (f & Hf & Hfp & Hch).
    assert (f = old) as -> by (apply (NoDup_fmap_inj Path out); auto; congruence).
    unfold changed in Hch. rewrite Hpo, Hold in Hch.
    by rewrite bool_decide_eq_true_2, Z.eqb_refl in Hch.
  - intros [_ Hn]. apply Hn. rewrite <- Hpo. by apply list_elem_of_fmap_2.
Qed.

Lemma graft_keeps_unreadable_witness :
  "b.go" ∉ ["a.go"] ∧ "b.go" ∉ @nil string.
Proof.
  apply (graft_keeps_unreadable
           (snapshot_of [ex_file "a.go" "h1" 3; ex_file "b.go" "h2" 4])
           [ex_file "a.go" "h9" 3] [ex_file "a.go" "h9" 3] ["./b.go"; "zz"]
           [ex_file "a.go" "h9" 3; ex_file "b.go" "h2" 4] ["a.go"] [] 1 "b.go").
  - intros p f Hf. apply snapshot_of_Some in Hf. by destruct Hf.
  - by vm_compute.
  - by vm_compute.
  - by vm_compute.
  - done.
  - apply list_elem_of_In. vm_compute. auto.
  - intros H%list_elem_of_In. vm_compute in H. intuition congruence.
  - by exists (ex_file "b.go" "h2" 4).
Defined.

(** A batch that passes [validateIndexBatchSize] has every
    file and the whole batch within 512 KiB, and the reported number is the exact
    byte total: the 64-bit sum cannot wrap around for any batch of at most
    [maxIndexManifestFiles] files. *)
Theorem batch_size_bounds files n :
  zlength files ≤ maxIndexManifestFiles →
  validateIndexBatchSize files = Ok n →
  n = foldr Z.add 0 (len ∘ Content <$> files) ∧ n ≤ maxIndexBatchBytes ∧
  Forall (λ f, len (Content f) ≤ maxIndexFileBytes) files.
Proof.
  intros Hlen. unfold validateIndexBatchSize.
  destruct (validateIndexBatchSize_loop 0 files) as [total|] eqn:E; [|done].
  destruct (_ <? _) eqn:E2; [done|]. intros [= <-]. reflect_bools.
  apply validateIndexBatchSize_loop_spec in E as [-> ?]; [done|lia|].
  unfold maxIndexManifestFiles in Hlen. change maxIndexFileBytes with 524288.
  unfold MaxInt64. lia.
Qed.

Lemma batch_size_bounds_witness :
  let f := {| Path := "a"; Hash := "h"; Size := 3; EstimatedChunks := 1; Content := "abc" |} in
  3 = foldr Z.add 0 (len ∘ Content <$> [f]) ∧ 3 ≤ maxIndexBatchBytes ∧
  Forall (λ f, len (Content f) ≤ maxIndexFileBytes) [f].
Proof. intros f. apply (batch_size_bounds [f] 3); by vm_compute. Defined.

(** ** What the tool-call validators accept *)

Lemma hex_lower c : is_hex c = true → is_hex (lower_byte c) = true ∧ (code c <? 128)%nat = true.
Proof. destruct c as [[] [] [] [] [] [] [] []]; vm_compute; intuition congruence. Qed.

Lemma sha256Pattern_ToLower ul s : sha256Pattern s = true → sha256Pattern (ToLower ul s) = true.
Proof.
  unfold sha256Pattern. intros [Hl Hh]%andb_true_iff.
  assert (is_ascii s = true ∧ String.length (lower_ascii s) = String.length s ∧
          forallb is_hex (bytes_of (lower_ascii s)) = true) as (Ha & Hl' & Hh').
  { clear Hl. induction s as [|c s IH]; [done|]. simpl in *. apply andb_true_iff in Hh as [Hc Hs].
    destruct (IH Hs) as (-> & -> & Hb), (hex_lower c Hc) as [-> ->]. by rewrite Hb. }
  unfold ToLower. by rewrite Ha, Hl', Hl, Hh'.
Qed.

(** A file of an index request after validation. *)
Record file_accepted (ul : string → string) (f : indexManifestFile) : Prop := {
  fa_path : path_accepted ul (Path f);
  fa_hash : sha256Pattern (Hash f) = true;
  fa_size : 1 ≤ Size f ≤ maxIndexFileBytes;
  fa_chunks : 1 ≤ EstimatedChunks f ≤ 128
}.

Lemma validateMCPManifestFile_accepted ul file f :
  validateMCPManifestFile ul file = Ok f → file_accepted ul f.
Proof.
  unfold validateMCPManifestFile. destruct (validateIndexSourcePath ul _) as [p|] eqn:Ep; [|done].
  destruct (negb _) eqn:Eh; [done|]. destruct (_ || _) eqn:Es; [done|].
  destruct ((mf_estimated_chunks file <? 1) || _) eqn:Ec; [done|]. intros [= <-].
  apply negb_false_iff in Eh. apply orb_false_iff in Es as [??], Ec as [??].
  change maxIndexEstimatedChunks with 128 in *. reflect_bools. split; simpl; [| |lia..].
  - by eapply validateIndexSourcePath_accepted.
  - by apply sha256Pattern_ToLower.
Qed.

(** [C33] Every file of a manifest that passes the tool-call
    validation has a relative path of at most 4096 bytes whose segments are real names
    (none empty, dot or dot-dot, no backslash), that the exclusion policy allows, a
    SHA-256 of 64 hexadecimal digits and sizes within the limits; and the second
    normalisation, when the job is created, leaves the path alone if it neither starts
    nor ends with white space. *)
Theorem validated_manifest_safe ul files out :
  validateMCPManifestFiles ul files = Ok out →
  length out = length files ∧
  Forall (λ f, file_accepted ul f ∧
    (TrimSpace (Path f) = Path f → Path (normalize_file f) = Path f)) out.
Proof.
  revert out. induction files as [|file files IH]; intros out; simpl; [by intros [= <-]|].
  destruct (validateMCPManifestFile ul file) as [f|] eqn:Ef; [|done].
  destruct (validateMCPManifestFiles ul files) as [out'|]; [|done]. intros [= <-].
  destruct (IH out' eq_refl) as [Hl Hout]. split; [simpl; by rewrite Hl|]. constructor; [|done].
  apply validateMCPManifestFile_accepted in Ef. split; [done|]. intros Ht.
  destruct (fa_path ul f Ef) as [Hs _ _]. change (normalizeIndexPath (Path f) = Path f).
  rewrite <- (Join_Split (Path f)) in Ht |- *. by apply normalizeIndexPath_of_join.
Qed.

Definition ex_hex64 : string := String.concat "" (replicate 32 "aB").
Definition ex_mcp_file (p : string) : mcpIndexManifestFile :=
  {| mf_path := p; mf_hash := ex_hex64; mf_size := 3; mf_estimated_chunks := 1 |}.

Lemma validated_manifest_safe_witness :
  match validateMCPManifestFiles (λ s, s) [ex_mcp_file " src\a.go"] with
  | Ok out => Path <$> out = ["src/a.go"] ∧ Forall (file_accepted (λ s, s)) out
  | Err _ => False
  end.
Proof.
  destruct (validateMCPManifestFiles (λ s, s) [ex_mcp_file " src\a.go"]) as [out|] eqn:E;
    [|vm_compute in E; discriminate].
  split; [vm_compute in E; injection E as <-; reflexivity|].
  pose proof (validated_manifest_safe (λ s, s) [ex_mcp_file " src\a.go"] out E) as [_ H].
  eapply Forall_impl; [exact H|]. by intros f [? _].
Defined.

(** [C39] The proviso on white space is needed: the policy sees the file [ .env], the manifest
    that is stored names [.env]. *)
Theorem policy_sees_untrimmed_path :
  ∃ out stored, validateMCPManifestFiles (λ s, s) [ex_mcp_file "./ .env"] = Ok out ∧
    normalizeManifest out = Ok stored ∧ Path <$> stored = [".env"] ∧
    isCloudIndexPathExcluded (λ s, s) ".env" = true.
Proof. eexists _, _. split_and!; [vm_compute; reflexivity..|]. vm_compute. reflexivity. Qed.
