(* ===== verification/Failure.v ===== *)
(** * Index failure diagnostics (index_failure.go)

    The stable code/origin/recovery tuples, the validation of a tuple reported by
    a client, and the classification of raw error text. *)
From Stdlib Require Import Ascii String.
From S2P Require Import Prelude GoStrings Paths.

(** The status column of [index_jobs]. *)
Inductive job_status := Running | Completed | Failed | Superseded | TimedOut.

#[export] Instance job_status_eq_dec : EqDecision job_status.
Proof. solve_decision. Defined.

Definition status_text (s : job_status) : string :=
  match s with
  | Running => "running"
  | Completed => "completed"
  | Failed => "failed"
  | Superseded => "superseded"
  | TimedOut => "timed_out"
  end.

Record indexFailureDiagnostic := {
  Code : string;
  Origin : string;
  Recovery : string
}.
Definition no_diagnostic : indexFailureDiagnostic := {| Code := ""; Origin := ""; Recovery := "" |}.

#[export] Instance indexFailureDiagnostic_eq_dec : EqDecision indexFailureDiagnostic.
Proof. solve_decision. Defined.

Definition diag (c o r : string) : string * indexFailureDiagnostic :=
  (c, {| Code := c; Origin := o; Recovery := r |}).

Definition indexFailureDiagnosticsByCode : gmap string indexFailureDiagnostic :=
  list_to_map [
    diag "client_disconnected" "client" "restart_client";
    diag "heartbeat_timeout" "relay" "restart_client";
    diag "embedding_space_changed" "remote_index" "reset_root";
    diag "upstream_bad_gateway" "remote_index" "retry_after_service_recovers";
    diag "provider_billing" "provider" "fix_provider_billing";
    diag "provider_rate_limited" "provider" "retry_later";
    diag "provider_invalid_request" "provider" "contact_admin";
    diag "repository_file_limit" "client" "reduce_repository";
    diag "repository_file_size_limit" "client" "reduce_repository";
    diag "index_quota_exceeded" "relay" "wait_for_quota_reset";
    diag "provider_authentication" "provider" "fix_credentials";
    diag "network_unavailable" "network" "restart_client";
    diag "index_failed" "unknown" "contact_admin"
  ].

(** [indexFailureDiagnosticsByCode[code]]: the zero value when absent. *)
Definition diagnostic_of (c : string) : indexFailureDiagnostic :=
  default no_diagnostic (indexFailureDiagnosticsByCode !! c).

Definition validateReportedIndexFailureDiagnostic (code origin recovery : string) :
    result error (indexFailureDiagnostic * bool) :=
  let code := TrimSpace code in
  let origin := TrimSpace origin in
  let recovery := TrimSpace recovery in
  let provided := negb (str_eqb code "") || negb (str_eqb origin "") || negb (str_eqb recovery "") in
  if negb provided then Ok (no_diagnostic, false) else
  reject str_eqb code "" || str_eqb origin "" || str_eqb recovery ""
    with Errorf "error_code, error_origin, and recovery must be provided together" in
  match indexFailureDiagnosticsByCode !! code with
  | None => Err (Errorf ("unsupported index failure error_code: " +:+ code))
  | Some expected =>
      reject negb (str_eqb origin (Origin expected)) || negb (str_eqb recovery (Recovery expected))
        with Errorf ("index failure diagnostic " +:+ code +:+ " must use error_origin="
                     +:+ Origin expected +:+ " and recovery=" +:+ Recovery expected) in
      Ok (expected, true)
  end.

Definition persistedIndexFailureDiagnostic (code origin recovery : string) :
    indexFailureDiagnostic * bool :=
  match validateReportedIndexFailureDiagnostic code origin recovery with
  | Ok (d, provided) => (d, provided)
  | Err _ => (no_diagnostic, false)
  end.

Section classify.
Context (unicode_lower : string → string).

Definition classifyIndexFailure (status : job_status) (detail : string) :
    indexFailureDiagnostic :=
  let lower := ToLower unicode_lower (TrimSpace detail) in
  let containsAny values := existsb (Contains lower) values in
  if containsAny ["client disconnected before first upload"]
  then diagnostic_of "client_disconnected"
  else if bool_decide (status = TimedOut)
       || containsAny ["heartbeat timed out"; "heartbeat timeout"]
  then diagnostic_of "heartbeat_timeout"
  else if containsAny ["cloud embedding space changed"; "embedding space changed";
                       "clear the tenant root before starting a new index job"]
  then diagnostic_of "embedding_space_changed"
  else if containsAny ["remote-index 502"; "bad gateway"; "cloudflare";
                       "origin web server returned"]
  then diagnostic_of "upstream_bad_gateway"
  else if containsAny ["timeout exceeded when trying to connect";
                       "canceling statement due to lock timeout";
                       "cloud platform maintenance in progress"]
  then diagnostic_of "upstream_bad_gateway"
  else if containsAny ["payment required"; "insufficient balance"; "insufficient credit";
                       "余额不足"; "欠费"; "billing"; "remote-index 402"]
  then diagnostic_of "provider_billing"
  else if containsAny ["too many requests"; "rate limit"; "rate-limit"; "remote-index 429"]
  then diagnostic_of "provider_rate_limited"
  else if containsAny ["the parameter is invalid"; "[20015]"; "valid utf-8";
                       "special characters are properly escaped"]
  then diagnostic_of "provider_invalid_request"
  else if containsAny ["manifest exceeds"; "unreadable file list exceeds"; "too many files";
                       "file count limit"; "maximum file count"; "100,000 files";
                       "100000 files"; "文件数量"; "文件数超过"]
  then diagnostic_of "repository_file_limit"
  else if containsAny ["manifest file size is invalid"; "file exceeds the"; "byte limit";
                       "file too large"; "file size limit"; "maximum file size"; "512 kib";
                       "524288"; "文件大小超过"; "单文件过大"]
  then diagnostic_of "repository_file_size_limit"
  else if containsAny ["daily index quota exceeded"; "index quota exceeded";
                       "index_quota_exceeded"; "每日索引配额"; "索引配额已用尽"; "超出索引配额"]
  then diagnostic_of "index_quota_exceeded"
  else if containsAny ["unauthorized"; "invalid api key"; "invalid token";
                       "authentication failed"; "remote-index 401"; "remote-index 403"]
  then diagnostic_of "provider_authentication"
  else if containsAny ["connection refused"; "connection reset"; "network is unreachable";
                       "network down"; "no such host"; "i/o timeout";
                       "context deadline exceeded"; "unexpected eof"; "socket hang up"]
  then diagnostic_of "network_unavailable"
  else diagnostic_of "index_failed".

Definition resolveReportedIndexFailureDiagnostic (status : job_status)
    (detail code origin recovery : string) : result error indexFailureDiagnostic :=
  let? (diagnostic, provided) := validateReportedIndexFailureDiagnostic code origin recovery in
  if (provided : bool) then Ok diagnostic else Ok (classifyIndexFailure status detail).
End classify.

(** ** Laws *)

Definition known_codes : list string :=
  ["client_disconnected"; "heartbeat_timeout"; "embedding_space_changed";
   "upstream_bad_gateway"; "provider_billing"; "provider_rate_limited";
   "provider_invalid_request"; "repository_file_limit"; "repository_file_size_limit";
   "index_quota_exceeded"; "provider_authentication"; "network_unavailable"; "index_failed"].

Lemma diagnostics_table :
  Forall (λ c, Code (diagnostic_of c) = c ∧
    validateReportedIndexFailureDiagnostic c (Origin (diagnostic_of c))
      (Recovery (diagnostic_of c)) = Ok (diagnostic_of c, true)) known_codes.
Proof. repeat constructor. Qed.

Lemma classifyIndexFailure_known ul status detail :
  ∃ c, c ∈ known_codes ∧ classifyIndexFailure ul status detail = diagnostic_of c.
Proof.
  unfold classifyIndexFailure. cbv zeta.
  repeat match goal with
  | |- context [if ?b then _ else _] =>
      destruct b; [eexists; split; [|reflexivity]; apply list_elem_of_In; cbn; tauto|]
  end.
  eexists; split; [|reflexivity]; apply list_elem_of_In; cbn; tauto.
Qed.

Lemma table_by_code code d :
  indexFailureDiagnosticsByCode !! code = Some d → Code d = code ∧ code ∈ known_codes.
Proof.
  intros H%elem_of_list_to_map_2. unfold diag in H.
  rewrite !elem_of_cons, elem_of_nil in H.
  repeat destruct H as [H|H]; [.. | done];
    (injection H as -> ->; split; [done|apply list_elem_of_In; cbn; tauto]).
Qed.

(** ** Theorems *)

(** The tuple that [classifyIndexFailure] writes to
    [index_jobs] is always one that [persistedIndexFailureDiagnostic] accepts back
    unchanged: a stored diagnostic never degrades to re-classification. *)
Theorem classified_failure_persists ul status detail :
  let d := classifyIndexFailure ul status detail in
  persistedIndexFailureDiagnostic (Code d) (Origin d) (Recovery d) = (d, true).
Proof.
  destruct (classifyIndexFailure_known ul status detail) as (c & Hc & E).
  pose proof diagnostics_table as T. rewrite Forall_forall in T.
  destruct (T c Hc) as [Hcode Hval]. intros d. unfold d.
  unfold persistedIndexFailureDiagnostic. by rewrite E, Hcode, Hval.
Qed.

(** A client's structured diagnostic is accepted only as
    one of the table's exact tuples, and it is stored as reported (after trimming);
    a partial tuple is an error and an absent one falls back to classification. *)
Theorem reported_failure_exact ul status detail code origin recovery d :
  resolveReportedIndexFailureDiagnostic ul status detail code origin recovery = Ok d →
  (TrimSpace code = "" ∧ TrimSpace origin = "" ∧ TrimSpace recovery = "" ∧
   d = classifyIndexFailure ul status detail) ∨
  (d = {| Code := TrimSpace code; Origin := TrimSpace origin; Recovery := TrimSpace recovery |}
   ∧ TrimSpace code ∈ known_codes).
Proof.
  unfold resolveReportedIndexFailureDiagnostic, validateReportedIndexFailureDiagnostic, str_eqb.
  destruct (negb (_ || _ || _)) eqn:E1.
  { intros [= <-]. left. reflect_bools. done. }
  destruct (bool_decide (TrimSpace code = "") || _ || _); [done|].
  destruct (_ !! TrimSpace code) as [x|] eqn:Ex; [|done].
  destruct (negb (bool_decide (TrimSpace origin = _)) || _) eqn:E2; [done|].
  intros [= <-]. right. apply table_by_code in Ex as [Hc Hk].
  reflect_bools. split; [|done]. destruct x; simpl in *. by subst.
Qed.

Lemma reported_failure_exact_witness :
  resolveReportedIndexFailureDiagnostic id Failed "boom" " index_failed" "unknown" "contact_admin"
    = Ok (diagnostic_of "index_failed") ∧
  ((TrimSpace " index_failed" = "" ∧ TrimSpace "unknown" = "" ∧ TrimSpace "contact_admin" = "" ∧
    diagnostic_of "index_failed" = classifyIndexFailure id Failed "boom") ∨
   (diagnostic_of "index_failed" = {| Code := TrimSpace " index_failed";
      Origin := TrimSpace "unknown"; Recovery := TrimSpace "contact_admin" |}
    ∧ TrimSpace " index_failed" ∈ known_codes)).
Proof.
  split; [by vm_compute|].
  apply (reported_failure_exact id Failed "boom" " index_failed" "unknown" "contact_admin").
  by vm_compute.
Defined.
