(* ===== verification/Json.v ===== *)
(** * encoding/json

    A decoded JSON value, the encoder that decides the length of an LCE request
    body, and the readers of LCE's replies (index_jobs.go, main.go,
    root_admin.go).  A number carries its literal, which [json.Number] keeps, and
    its [float64] value, which the untyped decoder keeps.  An object lists its
    members in the order in which Go's [range] visits them. *)
From Stdlib Require Import Ascii String SpecFloat.
From S2P Require Import Prelude GoStrings Paths Manifest.
Open Scope Z_scope.

Inductive json : Type :=
| JNull
| JBool (b : bool)
| JNum (lit : string) (f : spec_float)
| JStr (s : string)
| JArr (l : list json)
| JObj (m : list (string * json)).

Fixpoint jget (k : string) (m : list (string * json)) : option json :=
  match m with
  | [] => None
  | (k', v) :: m' => if str_eqb k k' then Some v else jget k m'
  end.

(** An LCE reply body: its text and what [json.Unmarshal] makes of it. *)
Record content := { raw : string; decoded : option json }.

(** ** Marshalling *)

(** The number of bytes of the UTF-8 encoding at the head of [l], 0 if invalid
    (the accept ranges of unicode/utf8). *)
Definition cont (lo hi : nat) (c : ascii) : bool := ((lo <=? code c) && (code c <=? hi))%nat.
Definition rune_width (l : list ascii) : nat :=
  match l with
  | [] => 0
  | c :: r =>
      if (code c <? 128)%nat then 1
      else if cont 194 223 c then
        match r with d :: _ => if cont 128 191 d then 2 else 0 | _ => 0 end
      else if cont 224 239 c then
        match r with
        | d :: e :: _ =>
            let lo := if (code c =? 224)%nat then 160%nat else 128%nat in
            let hi := if (code c =? 237)%nat then 159%nat else 191%nat in
            if cont lo hi d && cont 128 191 e then 3 else 0
        | _ => 0
        end
      else if cont 240 244 c then
        match r with
        | d :: e :: f :: _ =>
            let lo := if (code c =? 240)%nat then 144%nat else 128%nat in
            let hi := if (code c =? 244)%nat then 143%nat else 191%nat in
            if cont lo hi d && cont 128 191 e && cont 128 191 f then 4 else 0
        | _ => 0
        end
      else 0
  end%nat.

Definition hex4 (n : nat) : string :=
  let d k := String (List.nth k (bytes_of "0123456789abcdef") "0"%char) "" in
  "\u00" +:+ d (n / 16)%nat +:+ d (n mod 16)%nat.

Definition escape_ascii (c : ascii) : list ascii :=
  if (code c =? 34)%nat then ["\"%char; DQ]
  else if (code c =? 92)%nat then ["\"; "\"]%char
  else if (code c =? 8)%nat then ["\"; "b"]%char
  else if (code c =? 9)%nat then ["\"; "t"]%char
  else if (code c =? 10)%nat then ["\"; "n"]%char
  else if (code c =? 12)%nat then ["\"; "f"]%char
  else if (code c =? 13)%nat then ["\"; "r"]%char
  else if (code c <? 32)%nat || (code c =? 60)%nat || (code c =? 62)%nat || (code c =? 38)%nat
  then bytes_of (hex4 (code c))
  else [c].

(** U+2028 and U+2029 are escaped; an invalid byte becomes the replacement rune. *)
Definition line_separator (l : list ascii) : option string :=
  match l with
  | c :: d :: e :: _ =>
      if ((code c =? 226) && (code d =? 128) && (code e =? 168))%nat then Some "\u2028"
      else if ((code c =? 226) && (code d =? 128) && (code e =? 169))%nat then Some "\u2029"
      else None
  | _ => None
  end.

Fixpoint escape (skip : nat) (emit : bool) (l : list ascii) : list ascii :=
  match l with
  | [] => []
  | c :: r =>
      match skip with
      | S k => (if emit then [c] else []) ++ escape k emit r
      | O =>
          if (code c <? 128)%nat then escape_ascii c ++ escape 0 true r
          else match line_separator l with
               | Some t => bytes_of t ++ escape 2 false r
               | None =>
                   match rune_width l with
                   | O => bytes_of "\ufffd" ++ escape 0 true r
                   | S w => c :: escape w true r
                   end
               end
      end
  end.

Definition quote (s : string) : string :=
  of_bytes (DQ :: escape 0 true (bytes_of s) ++ [DQ]).

Definition key_le (a b : string * json) : Prop := String.le (fst a) (fst b).
#[export] Instance key_le_dec : RelDecision key_le := fun a b => String.le_dec (fst a) (fst b).

(** [json.Marshal]; a map is written with its keys sorted. *)
Fixpoint marshal (v : json) : string :=
  match v with
  | JNull => "null"
  | JBool b => if b then "true" else "false"
  | JNum lit _ => lit
  | JStr s => quote s
  | JArr l => "[" +:+ Join "," (List.map marshal l) +:+ "]"
  | JObj m =>
      let members := merge_sort (fun a b => String.le (fst a) (fst b))
                       (List.map (fun '(k, x) => (k, marshal x)) m) in
      "{" +:+ Join "," (List.map (fun '(k, t) => quote k +:+ ":" +:+ t) members) +:+ "}"
  end.
