(* ===== verification/Utf8.v ===== *)
(** * Truncating text at a rune boundary (main.go)

    [truncateUTF8] bounds the failure text a client reports without cutting a rune in
    two; the encodings are those of [rune_width]. *)
From Stdlib Require Import Ascii String.
From S2P Require Import Prelude GoStrings Paths Json.
Open Scope Z_scope.

(** [truncateUTF8]: cut at a rune boundary at or below [maxBytes]. *)
Definition rune_start (c : ascii) : bool := negb (Z.land (Z.of_nat (code c)) 192 =? 128).
Fixpoint cut_back (fuel : nat) (s : string) (cut : nat) : nat :=
  match fuel, cut with
  | S fuel', S cut' =>
      match String.get cut s with
      | Some c => if rune_start c then cut else cut_back fuel' s cut'
      | None => cut
      end
  | _, _ => cut
  end.
Definition truncateUTF8 (s : string) (maxBytes : nat) : string :=
  if (maxBytes =? 0)%nat then ""
  else if (String.length s <=? maxBytes)%nat then s
  else String.substring 0 (cut_back 4 s maxBytes) s.

(** ** Laws *)

(** Well-formed UTF-8: a sequence of encoded runes ([utf8.ValidString]). *)
Inductive valid_utf8 : list ascii → Prop :=
| valid_nil : valid_utf8 []
| valid_rune l : (0 < rune_width l)%nat → valid_utf8 (drop (rune_width l) l) → valid_utf8 l.

Lemma cont_not_start lo hi c :
  (128 <= lo)%nat → (hi <= 191)%nat → cont lo hi c = true → rune_start c = false.
Proof.
  intros Hlo Hhi H. assert (cont 128 191 c = true) as Hc.
  { unfold cont in *. apply andb_true_iff in H as [H1%Nat.leb_le H2%Nat.leb_le].
    apply andb_true_iff. split; apply Nat.leb_le; lia. }
  clear H. destruct c as [[] [] [] [] [] [] [] []]; vm_compute in Hc |- *; congruence.
Qed.

Lemma lead_start c : (code c <? 128)%nat = true ∨ cont 194 244 c = true → rune_start c = true.
Proof. destruct c as [[] [] [] [] [] [] [] []]; vm_compute; intuition congruence. Qed.

Lemma cont_weaken lo hi lo' hi' c :
  (lo' <= lo)%nat → (hi <= hi')%nat → cont lo hi c = true → cont lo' hi' c = true.
Proof.
  intros Hlo Hhi H. unfold cont in *. apply andb_true_iff in H as [H1%Nat.leb_le H2%Nat.leb_le].
  apply andb_true_iff. split; apply Nat.leb_le; lia.
Qed.

(** An encoded rune: a lead byte and at most three continuation bytes, which alone
    decide the width. *)
Lemma rune_width_spec l :
  (0 < rune_width l)%nat →
  ∃ c t r, l = c :: t ++ r ∧ (length t <= 3)%nat ∧ rune_start c = true ∧
           Forall (λ d, rune_start d = false) t ∧ ∀ r', rune_width (c :: t ++ r') = S (length t).
Proof.
  unfold rune_width. destruct l as [|c l]; [lia|]. intros H.
  destruct (code c <? 128)%nat eqn:E1.
  { exists c, [], l. split_and!; [done|simpl; lia|by apply lead_start; left|done|]. intros r'. simpl.
    by rewrite E1. }
  destruct (cont 194 223 c) eqn:E2.
  { destruct l as [|d l]; [lia|]. destruct (cont 128 191 d) eqn:Ed; [|lia]. exists c, [d], l.
    split_and!; [done|simpl; lia| | |].
    - apply lead_start. right. by eapply cont_weaken; [..|exact E2]; lia.
    - repeat constructor. by eapply cont_not_start; [..|exact Ed]; lia.
    - intros r'. simpl. by rewrite E1, E2, Ed. }
  destruct (cont 224 239 c) eqn:E3.
  { destruct l as [|d [|e l]]; [lia..|]. destruct (_ && _) eqn:Ed; [|lia]. exists c, [d; e], l.
    pose proof Ed as [Hd He]%andb_true_iff. split_and!; [done|simpl; lia| | |].
    - apply lead_start. right. by eapply cont_weaken; [..|exact E3]; lia.
    - repeat constructor; [eapply cont_not_start; [..|exact Hd]|eapply cont_not_start; [..|exact He]];
        repeat case_match; lia.
    - intros r'. simpl. by rewrite E1, E2, E3, Ed. }
  destruct (cont 240 244 c) eqn:E4; [|lia].
  destruct l as [|d [|e [|f l]]]; [lia..|]. destruct (_ && _) eqn:Ed; [|lia]. exists c, [d; e; f], l.
  pose proof Ed as [[Hd He]%andb_true_iff Hf]%andb_true_iff. split_and!; [done|simpl; lia| | |].
  - apply lead_start. right. by eapply cont_weaken; [..|exact E4]; lia.
  - repeat constructor; [eapply cont_not_start; [..|exact Hd]|eapply cont_not_start; [..|exact He]
      |eapply cont_not_start; [..|exact Hf]]; repeat case_match; lia.
  - intros r'. simpl. by rewrite E1, E2, E3, E4, Ed.
Qed.

(** Rune by rune induction. *)
Lemma valid_utf8_cases l :
  valid_utf8 l → l = [] ∨
  ∃ c t r, l = c :: t ++ r ∧ (length t <= 3)%nat ∧ rune_start c = true ∧
           Forall (λ d, rune_start d = false) t ∧ valid_utf8 r ∧
           ∀ r', valid_utf8 r' → valid_utf8 (c :: t ++ r').
Proof.
  destruct 1 as [|l Hw Hv]; [by left|]. right.
  destruct (rune_width_spec l Hw) as (c & t & r & -> & Ht & Hc & Hts & Hwidth).
  exists c, t, r. rewrite Hwidth in Hv. simpl in Hv. rewrite drop_app_length in Hv.
  split_and!; [done..|]. intros r' Hr'. apply valid_rune; rewrite Hwidth; [lia|].
  simpl. by rewrite drop_app_length.
Qed.

Lemma valid_ind_length (P : list ascii → Prop) :
  P [] → (∀ c t r, (length t <= 3)%nat → rune_start c = true → Forall (λ d, rune_start d = false) t →
    valid_utf8 r → (∀ r', valid_utf8 r' → valid_utf8 (c :: t ++ r')) → P r → P (c :: t ++ r)) →
  ∀ l, valid_utf8 l → P l.
Proof.
  intros H0 Hs l. induction l as [l IH] using (induction_ltof1 _ (@length ascii)). unfold ltof in IH.
  intros [->|(c & t & r & -> & Ht & Hc & Hts & Hr & Hv)]%valid_utf8_cases; [done|].
  apply Hs; try done. apply IH; [|done]. simpl. rewrite length_app. lia.
Qed.

(** A cut in front of a lead byte leaves whole runes. *)
Lemma valid_take l : valid_utf8 l → ∀ n, (∀ c, l !! n = Some c → rune_start c = true) → valid_utf8 (take n l).
Proof.
  revert l. apply (valid_ind_length (λ l, ∀ n, _ → valid_utf8 (take n l))).
  - intros n _. rewrite take_nil. constructor.
  - intros c t r Ht Hc Hts Hr Hv IH [|n] Hn; [constructor|]. cbn [take]. rewrite take_app.
    destruct (decide (n < length t)%nat) as [Hlt|Hge].
    + destruct (lookup_lt_is_Some_2 t n Hlt) as [d Hd]. assert (rune_start d = true) as Hd'.
      { apply Hn. change ((t ++ r) !! n = Some d). by rewrite lookup_app_l. }
      pose proof (Forall_lookup_1 _ _ _ _ Hts Hd). simpl in *. congruence.
    + rewrite take_ge by lia. apply Hv, IH. intros d Hd. apply Hn. change ((t ++ r) !! n = Some d).
      rewrite lookup_app_r by lia. done.
Qed.

(** Among four neighbouring bytes of a valid text there is a lead byte. *)
Lemma valid_start_near l : valid_utf8 l → ∀ n, (n < length l)%nat →
  ∃ k c, (k <= 3)%nat ∧ (k <= n)%nat ∧ l !! (n - k)%nat = Some c ∧ rune_start c = true.
Proof.
  revert l. apply (valid_ind_length (λ l, ∀ n, (n < length l)%nat → _)); [simpl; lia|].
  intros c t r Ht Hc Hts Hr Hv IH n Hn. destruct (decide (n <= length t)%nat) as [Hle|Hgt].
  - exists n, c. split_and!; [lia..| |done]. by rewrite Nat.sub_diag.
  - destruct (IH (n - S (length t))%nat) as (k & d & Hk & Hkn & Hd & Hds).
    { simpl in Hn. rewrite length_app in Hn. lia. }
    exists k, d. split_and!; [lia..| |done]. replace (n - k)%nat with (S (length t + (n - S (length t) - k)))%nat by lia.
    change ((t ++ r) !! (length t + (n - S (length t) - k))%nat = Some d). rewrite lookup_app_r by lia. rewrite <- Hd. f_equal. lia.
Qed.

Lemma get_lookup s n : String.get n s = bytes_of s !! n.
Proof. revert n. induction s as [|c s IH]; intros [|n]; simpl; try done; apply IH. Qed.
Lemma substring_take s n : bytes_of (String.substring 0 n s) = take n (bytes_of s).
Proof. revert n. induction s as [|c s IH]; intros [|n]; simpl; try done. f_equal. apply IH. Qed.

Lemma cut_back_range fuel s cut : (cut - fuel <= cut_back fuel s cut <= cut)%nat.
Proof.
  revert cut. induction fuel as [|fuel IH]; intros [|cut]; simpl; try lia.
  specialize (IH cut). repeat case_match; lia.
Qed.

(** Where the search stops in a text with a lead byte in reach. *)
Lemma cut_back_start fuel s cut k c :
  (k < fuel)%nat → (k <= cut)%nat → (cut < String.length s)%nat →
  bytes_of s !! (cut - k)%nat = Some c → rune_start c = true →
  cut_back fuel s cut = 0%nat ∨
  ∃ d, bytes_of s !! cut_back fuel s cut = Some d ∧ rune_start d = true.
Proof.
  revert cut k. induction fuel as [|fuel IH]; intros cut k Hk Hc Hlt Hl Hs; [lia|].
  destruct cut as [|cut]; [by left|]. cbn [cut_back]. rewrite get_lookup.
  destruct (lookup_lt_is_Some_2 (bytes_of s) (S cut)) as [d Hd]; [by rewrite length_bytes|].
  rewrite Hd. destruct (rune_start d) eqn:Ed; [right; by exists d|].
  destruct k as [|k]; [rewrite Nat.sub_0_r in Hl; congruence|].
  apply (IH cut k); [lia|lia|lia|exact Hl|exact Hs].
Qed.

(** [truncateUTF8] returns a prefix of at most [maxBytes]
    bytes, shorter than the limit by at most four bytes when anything was cut off, and
    never cuts a rune in two: the prefix of a well-formed UTF-8 text is well formed. *)
Theorem truncation_keeps_runes s maxBytes :
  let t := truncateUTF8 s maxBytes in
  (String.length t <= maxBytes)%nat ∧
  (∃ r, bytes_of s = bytes_of t ++ r) ∧
  (t = s ∨ (maxBytes - 4 <= String.length t)%nat) ∧
  (valid_utf8 (bytes_of s) → valid_utf8 (bytes_of t)).
Proof.
  cbv zeta. unfold truncateUTF8. destruct (Nat.eqb_spec maxBytes 0) as [->|Hm].
  { split_and!; [done|by exists (bytes_of s)|right; simpl; lia|constructor]. }
  destruct (Nat.leb_spec (String.length s) maxBytes) as [Hle|Hlt].
  { split_and!; [done|exists []; by rewrite app_nil_r|by left|done]. }
  pose proof (cut_back_range 4 s maxBytes) as Hr.
  rewrite <- length_bytes, substring_take, length_take, length_bytes. split_and!; [lia| |right; lia|].
  - exists (drop (cut_back 4 s maxBytes) (bytes_of s)). by rewrite take_drop.
  - intros Hv. destruct (valid_start_near _ Hv maxBytes) as (k & c & Hk & Hkn & Hc & Hs);
      [by rewrite length_bytes|].
    destruct (cut_back_start 4 s maxBytes k c) as [->|(d & Hd & Hds)]; [lia..|done|done| |].
    + rewrite take_0. constructor.
    + apply valid_take; [done|]. intros e He. congruence.
Qed.
