(* ===== verification/JsonText.v ===== *)
(** * Reading JSON text back

    A reader of JSON strings, by RFC 8259, for the side that receives what the relay's encoder
    [quote] writes, and the law that connects the two. *)
From Stdlib Require Import Ascii String.
From S2P Require Import Prelude GoStrings Paths Manifest Json Utf8.
Open Scope Z_scope.

(** ** The reader *)

Definition hex_value (c : ascii) : option nat :=
  let n := code c in
  if ((48 <=? n) && (n <=? 57))%nat then Some (n - 48)%nat
  else if ((97 <=? n) && (n <=? 102))%nat then Some (n - 87)%nat
  else if ((65 <=? n) && (n <=? 70))%nat then Some (n - 55)%nat
  else None.

(** The UTF-8 encoding of a code point of the basic plane. *)
Definition utf8_of (n : nat) : list ascii :=
  ascii_of_nat <$>
  (if (n <? 128)%nat then [n]
   else if (n <? 2048)%nat then [192 + n / 64; 128 + n mod 64]%nat
   else [224 + n / 4096; 128 + (n / 64) mod 64; 128 + n mod 64]%nat).

Definition simple_escape (c : ascii) : option ascii :=
  let n := code c in
  if ((n =? 34) || (n =? 92) || (n =? 47))%nat then Some c
  else if (n =? 98)%nat then Some (ascii_of_nat 8)
  else if (n =? 116)%nat then Some (ascii_of_nat 9)
  else if (n =? 110)%nat then Some (ascii_of_nat 10)
  else if (n =? 102)%nat then Some (ascii_of_nat 12)
  else if (n =? 114)%nat then Some (ascii_of_nat 13)
  else None.

Definition put_text (t : list ascii) (r : option (list ascii * list ascii)) : option (list ascii * list ascii) :=
  '(u, rest) ← r; Some (t ++ u, rest).

(** The text up to the closing quotation mark, and what follows it. *)
Fixpoint read_text (l : list ascii) : option (list ascii * list ascii) :=
  match l with
  | [] => None
  | c :: r =>
      if (code c =? 34)%nat then Some ([], r)
      else if (code c =? 92)%nat then
        match r with
        | d :: r1 =>
            if (code d =? 117)%nat then
              match r1 with
              | h1 :: h2 :: h3 :: h4 :: r2 =>
                  match hex_value h1, hex_value h2, hex_value h3, hex_value h4 with
                  | Some a, Some b, Some x, Some y =>
                      put_text (utf8_of (((a * 16 + b) * 16 + x) * 16 + y)%nat) (read_text r2)
                  | _, _, _, _ => None
                  end
              | _ => None
              end
            else match simple_escape d with
                 | Some e => put_text [e] (read_text r1)
                 | None => None
                 end
        | [] => None
        end
      else if (code c <? 32)%nat then None
      else put_text [c] (read_text r)
  end.

Definition read_quoted (l : list ascii) : option (string * list ascii) :=
  match l with
  | c :: r => if (code c =? 34)%nat then '(t, rest) ← read_text r; Some (of_bytes t, rest) else None
  | [] => None
  end.

(** ** The reader undoes the encoder *)

Lemma put_put t u r : put_text t (put_text u r) = put_text (t ++ u) r.
Proof. destruct r as [[v rest]|]; [|done]. simpl. by rewrite (assoc_L (++)). Qed.

Lemma read_escape_ascii c r :
  (code c <? 128)%nat = true → read_text (escape_ascii c ++ r) = put_text [c] (read_text r).
Proof. destruct c as [[] [] [] [] [] [] [] []]; intros H; first [discriminate H | reflexivity]. Qed.

Lemma read_high_byte c r : (128 <= code c)%nat → read_text (c :: r) = put_text [c] (read_text r).
Proof.
  intros H. cbn [read_text]. rewrite !(proj2 (Nat.eqb_neq _ _)), (proj2 (Nat.ltb_ge _ _)) by lia. done.
Qed.
Lemma read_high_bytes t r :
  Forall (λ c, (128 <= code c)%nat) t → read_text (t ++ r) = put_text t (read_text r).
Proof.
  induction 1 as [|c t Hc Ht IH]; [cbn [app]; by destruct (read_text r) as [[]|]|].
  cbn [app]. rewrite read_high_byte by done. rewrite IH, put_put. done.
Qed.

Lemma escape_skip t r emit : escape (length t) emit (t ++ r) = (if emit then t else []) ++ escape 0 true r.
Proof.
  induction t as [|c t IH]; cbn [length app].
  - by destruct r; destruct emit.
  - cbn [escape]. rewrite IH. by destruct emit.
Qed.

Lemma continuation_high d : rune_start d = false → (128 <= code d)%nat.
Proof. destruct d as [[] [] [] [] [] [] [] []]; vm_compute; intros; first [discriminate | lia]. Qed.

Lemma line_separator_spec l u :
  line_separator l = Some u →
  ∃ n r, l = ascii_of_nat 226 :: ascii_of_nat 128 :: ascii_of_nat n :: r ∧ (n = 168 ∨ n = 169)%nat ∧
         u = (if (n =? 168)%nat then "\u2028" else "\u2029").
Proof.
  unfold line_separator. destruct l as [|c [|d [|e r]]]; try done. intros H.
  assert (∀ a n, (code a =? n)%nat = true → a = ascii_of_nat n) as Hcode.
  { intros a n <-%Nat.eqb_eq. unfold code. by rewrite ascii_nat_embedding. }
  destruct (_ && _ && (code e =? 168)%nat) eqn:E1.
  - apply andb_true_iff in E1 as [[Hc Hd]%andb_true_iff He]. injection H as <-.
    exists 168%nat, r. rewrite <- (Hcode _ _ Hc), <- (Hcode _ _ Hd), <- (Hcode _ _ He). auto.
  - destruct (_ && _ && (code e =? 169)%nat) eqn:E2; [|done].
    apply andb_true_iff in E2 as [[Hc Hd]%andb_true_iff He]. injection H as <-.
    exists 169%nat, r. rewrite <- (Hcode _ _ Hc), <- (Hcode _ _ Hd), <- (Hcode _ _ He). auto.
Qed.

(** What the encoder writes for one rune. *)
Lemma read_escape_rune l r0 :
  (0 < rune_width l)%nat →
  read_text (escape 0 true l ++ r0) =
  put_text (take (rune_width l) l) (read_text (escape 0 true (drop (rune_width l) l) ++ r0)).
Proof.
  intros Hw. destruct (line_separator l) as [u|] eqn:El.
  { apply line_separator_spec in El as (n & r & -> & Hn & ->). destruct r; destruct Hn as [-> | ->]; reflexivity. }
  destruct (rune_width_spec l Hw) as (c & t & r & -> & Ht & Hc & Hts & Hwidth).
  rewrite Hwidth. cbn [take drop]. rewrite take_app_length, drop_app_length.
  destruct (code c <? 128)%nat eqn:E1.
  { assert (t = []) as ->.
    { specialize (Hwidth r). unfold rune_width in Hwidth. rewrite E1 in Hwidth. by destruct t. }
    cbn [escape app]. rewrite E1, <- (assoc_L (++)), read_escape_ascii by done. done. }
  cbn [escape]. rewrite E1, El, (Hwidth r). apply Nat.ltb_ge in E1.
  cbn [app]. rewrite (escape_skip t r true), <- (assoc_L (++)), read_high_byte by done.
  rewrite read_high_bytes, put_put; [done|]. eapply Forall_impl; [exact Hts|]. apply continuation_high.
Qed.

Lemma read_escape l r : valid_utf8 l → read_text (escape 0 true l ++ DQ :: r) = Some (l, r).
Proof.
  induction 1 as [|l Hw Hv IH]; [reflexivity|]. rewrite read_escape_rune by done. rewrite IH. simpl.
  by rewrite take_drop.
Qed.

Lemma read_quote s r : valid_utf8 (bytes_of s) → read_quoted (bytes_of (quote s) ++ r) = Some (s, r).
Proof.
  intros Hv. unfold quote. rewrite bytes_of_bytes. cbn [app read_quoted]. change (code DQ =? 34)%nat with true.
  cbv iota. rewrite <- (assoc_L (++)). cbn [app]. rewrite read_escape by done. simpl. by rewrite of_bytes_of.
Qed.
