(* ===== verification/Sse.v ===== *)
(** * Server-sent events (main.go)

    The relay writes event streams to its clients and reads them from LCE.  [client_events]
    is what the specification of event streams makes of a text, as far as data, comments and
    dispatch go; the relay's writer never uses the other fields. *)
From Stdlib Require Import Ascii String.
From S2P Require Import Prelude GoStrings Paths.
Open Scope Z_scope.

Definition LF : ascii := ascii_of_nat 10.
Definition CR : ascii := ascii_of_nat 13.
Definition NL : string := String LF "".

(** [strings.ReplaceAll(s, "\r\n", "\n")] *)
Fixpoint drop_CRLF (s : string) : string :=
  match s with
  | EmptyString => ""
  | String c s' =>
      match s' with
      | String d _ => if Ascii.eqb c CR && Ascii.eqb d LF then drop_CRLF s' else String c (drop_CRLF s')
      | EmptyString => String c (drop_CRLF s')
      end
  end.
Definition sse_text (payload : string) : string := replace_byte CR LF (drop_CRLF payload).

Definition writeMCPSSEData (payload : string) : string :=
  Join "" (map (λ line, "data: " +:+ line +:+ NL) (Split LF (sse_text payload))) +:+ NL.
Definition writeMCPSSEComment (comment : string) : string := ": " +:+ comment +:+ NL +:+ NL.

(** [strings.TrimRight(line, "\r")] *)
Fixpoint trim_right_byte (c : ascii) (s : string) : string :=
  match s with
  | EmptyString => ""
  | String d s' =>
      match trim_right_byte c s' with
      | EmptyString => if Ascii.eqb d c then "" else String d ""
      | t => String d t
      end
  end.

Fixpoint last_data (lines : list string) (last : option string) : option string :=
  match lines with
  | [] => last
  | line :: rest =>
      last_data rest (match strip_prefix "data: " (trim_right_byte CR line) with
                      | Some d => Some d
                      | None => last
                      end)
  end.
(** An empty data line leaves an empty, non-nil slice. *)
Definition extractSSEData (raw : string) : string := default raw (last_data (Split LF raw) None).

(** ** A client *)

(** The value of a data line, without one leading blank. *)
Definition data_value (line : string) : option string :=
  match strip_prefix "data:" line with
  | Some v => Some (match strip_prefix " " v with Some v' => v' | None => v end)
  | None => None
  end.

(** [buffer] holds the data lines of the event under construction, newest first. *)
Fixpoint client_loop (lines : list string) (buffer : list string) : list string :=
  match lines with
  | [] => []
  | line :: rest =>
      if str_eqb line "" then
        match buffer with
        | [] => client_loop rest []
        | _ => Join NL (List.rev buffer) :: client_loop rest []
        end
      else match data_value line with
           | Some v => client_loop rest (v :: buffer)
           | None => client_loop rest buffer
           end
  end.
(** A line ends with a line feed, a carriage return or both. *)
Definition client_events (stream : string) : list string := client_loop (Split LF (sse_text stream)) [].

(** What a handler writes on a stream. *)
Inductive sse_chunk := SData (payload : string) | SComment (comment : string).
Definition sse_bytes (c : sse_chunk) : string :=
  match c with SData p => writeMCPSSEData p | SComment t => writeMCPSSEComment t end.
Definition sse_payload (c : sse_chunk) : option string :=
  match c with SData p => Some (sse_text p) | SComment _ => None end.

(** ** Laws *)

Lemma Split_line line s : has_byte LF line = false → Split LF (line +:+ NL +:+ s) = line :: Split LF s.
Proof. exact (Split_app_sep LF line s). Qed.
Lemma Join_cons sep w ws : ws ≠ [] → Join sep (w :: ws) = w +:+ sep +:+ Join sep ws.
Proof. intros H. destruct ws; [by destruct H|reflexivity]. Qed.
Lemma str_app_assoc (a b c : string) : a +:+ (b +:+ c) = (a +:+ b) +:+ c.
Proof. induction a as [|x a IH]; [done|]. change (String x (a +:+ (b +:+ c)) = String x ((a +:+ b) +:+ c)). by rewrite IH. Qed.
Lemma str_app_nil_r (a : string) : a +:+ "" = a.
Proof. induction a as [|x a IH]; [done|]. change (String x (a +:+ "") = String x a). by rewrite IH. Qed.
Lemma Join_Split_byte sep s : Join (String sep "") (Split sep s) = s.
Proof.
  induction s as [|c s IH]; [done|]. cbn [Split]. pose proof (Split_nonempty sep s) as Hn.
  destruct (Ascii.eqb c sep) eqn:E.
  - apply Ascii.eqb_eq in E as ->. rewrite Join_cons by done. by rewrite IH.
  - destruct (Split sep s) as [|w ws]; [done|]. destruct ws as [|w' ws]; [by simpl in *; rewrite IH|].
    rewrite Join_cons in * by done. change (String c w +:+ ?x) with (String c (w +:+ x)). by rewrite IH.
Qed.

Lemma no_LF_data line : has_byte LF line = false → has_byte LF ("data: " +:+ line) = false.
Proof. done. Qed.

(** The lines that the writer produces, read by the client. *)
Lemma client_data_lines lines rest buffer :
  Forall (λ l, has_byte LF l = false) lines →
  client_loop (Split LF (Join "" (map (λ line, "data: " +:+ line +:+ NL) lines) +:+ rest)) buffer =
  client_loop (Split LF rest) (List.rev lines ++ buffer).
Proof.
  intros Hl. revert buffer. induction Hl as [|l lines Hl' _ IH]; intros buffer; [done|].
  assert (Join "" (map (λ line, "data: " +:+ line +:+ NL) (l :: lines)) +:+ rest =
          ("data: " +:+ l) +:+ NL +:+ (Join "" (map (λ line, "data: " +:+ line +:+ NL) lines) +:+ rest)) as ->.
  { destruct lines as [|l2 lines]; cbn [map Join]; rewrite <- ?str_app_assoc; done. }
  rewrite Split_line by (by apply no_LF_data). cbn [client_loop]. 
  change (str_eqb ("data: " +:+ l) "") with false. change (data_value ("data: " +:+ l)) with (Some l). cbv iota.
  rewrite IH. cbn [List.rev]. by rewrite <- app_assoc.
Qed.

Lemma client_chunk c rest :
  has_byte LF (match c with SComment t => t | SData _ => "" end) = false →
  client_loop (Split LF (sse_bytes c +:+ rest)) [] =
  match sse_payload c with Some p => [p] | None => [] end ++ client_loop (Split LF rest) [].
Proof.
  intros Hc. destruct c as [p|t]; cbn [sse_bytes sse_payload].
  - unfold writeMCPSSEData. rewrite <- str_app_assoc, client_data_lines by apply Split_no_sep.
    change (NL +:+ rest) with ("" +:+ NL +:+ rest). rewrite (Split_line "") by done. cbn [client_loop]. change (str_eqb "" "") with true. cbv iota.
    rewrite app_nil_r. pose proof (Split_nonempty LF (sse_text p)) as Hn.
    destruct (List.rev (Split LF (sse_text p))) as [|x xs] eqn:Er.
    + apply (f_equal (@List.rev _)) in Er. rewrite rev_involutive in Er. done.
    + rewrite <- Er, rev_involutive. unfold NL at 1. by rewrite Join_Split_byte.
  - unfold writeMCPSSEComment. rewrite <- !str_app_assoc.
    change (": " +:+ t +:+ NL +:+ NL +:+ rest) with ((": " +:+ t) +:+ NL +:+ ("" +:+ NL +:+ rest)).
    rewrite Split_line by done. rewrite Split_line by done. done.
Qed.

Lemma drop_CRLF_id s : has_byte CR s = false → drop_CRLF s = s.
Proof.
  induction s as [|c s IH]; intros H; [done|]. cbn [has_byte] in H. apply orb_false_iff in H as [H1 H2].
  cbn [drop_CRLF]. rewrite (IH H2). destruct s; [done|]. by rewrite H1.
Qed.
Lemma sse_text_id s : has_byte CR s = false → sse_text s = s.
Proof. intros H. unfold sse_text. rewrite drop_CRLF_id by done. by apply replace_byte_id. Qed.
Lemma sse_text_no_CR s : has_byte CR (sse_text s) = false.
Proof. by apply replace_byte_gone. Qed.

Definition plain (t : string) : Prop := has_byte LF t = false ∧ has_byte CR t = false.
Definition plain_comment (c : sse_chunk) : Prop := match c with SComment t => plain t | SData _ => True end.

Lemma sse_bytes_no_CR c : plain_comment c → has_byte CR (sse_bytes c) = false.
Proof.
  destruct c as [p|t]; simpl sse_bytes; intros Hc.
  - unfold writeMCPSSEData. rewrite has_byte_app. apply orb_false_iff. split; [|done].
    apply has_byte_Join; [done|]. apply Forall_forall. intros x (line & <- & Hl)%list_elem_of_In%in_map_iff.
    apply list_elem_of_In in Hl. rewrite !has_byte_app. rewrite (has_byte_Split CR LF _ line (sse_text_no_CR p) Hl). done.
  - unfold writeMCPSSEComment. destruct Hc as [_ Hc]. rewrite !has_byte_app, Hc. done.
Qed.

(** [C36] A client that follows the event-stream format receives from any sequence of
    events and keep-alive comments that the relay writes exactly the payloads, in their order, one
    event each, with line breaks written as line feeds: no payload, whatever its text, can end its
    event early, merge with the next one or be taken for another field. *)
Theorem sse_round_trip chunks :
  Forall plain_comment chunks → client_events (Join "" (map sse_bytes chunks)) = omap sse_payload chunks.
Proof.
  intros Hp. unfold client_events. rewrite sse_text_id.
  2:{ apply has_byte_Join; [done|]. apply Forall_forall. intros x (c & <- & Hc)%list_elem_of_In%in_map_iff.
      apply sse_bytes_no_CR. rewrite Forall_forall in Hp. by apply Hp, list_elem_of_In. }
  induction Hp as [|c chunks Hc _ IH]; [done|].
  assert (Join "" (map sse_bytes (c :: chunks)) = sse_bytes c +:+ Join "" (map sse_bytes chunks)) as ->.
  { destruct chunks; [by rewrite str_app_nil_r|done]. }
  rewrite client_chunk, IH by (destruct c; [done|apply Hc]). simpl. by destruct (sse_payload c).
Qed.

Lemma sse_round_trip_witness :
  client_events (Join "" (map sse_bytes [SComment "connected"; SData ("a" +:+ NL +:+ NL +:+ "data: b"); SComment "keepalive"]))
  = ["a" +:+ NL +:+ NL +:+ "data: b"].
Proof. apply (sse_round_trip [SComment "connected"; SData ("a" +:+ NL +:+ NL +:+ "data: b"); SComment "keepalive"]).
  repeat constructor.
Defined.
