(* ===== verification/Sessions.v ===== *)
(** * MCP server sessions and event streams (main.go, server_lifecycle.go)

    The table of client sessions with its limits, and the table of event streams, one per
    session.  A stream is a pointer: the table and the handlers share it, so streams live
    in a heap.  Each function here is one critical section of [serverSessionsMu] or
    [mcpSSEStreamsMu], or the closing of one stream; [mcp_step] interleaves them. *)
From Stdlib Require Import Ascii String.
From S2P Require Import Prelude GoStrings Paths.
Open Scope Z_scope.

(** ** Sessions *)

Record mcpServerSession := { sess_userID : string; lastActivity : Z }.
Abbreviation session_map := (gmap string mcpServerSession).

Definition mcpSessionTTL : Z := 30 * Minute.

(** [now.Sub(session.lastActivity) > ttl] *)
Definition session_expired (now ttl : Z) (s : mcpServerSession) : bool := ttl <? now - lastActivity s.

Definition pruneExpiredMCPSessions (sessions : session_map) (now ttl : Z) : list string * session_map :=
  ((map_to_list (filter (λ kv, session_expired now ttl kv.2 = true) sessions)).*1,
   filter (λ kv, session_expired now ttl kv.2 = false) sessions).

(** The loop of [evictOldestMCPSession] over the sessions in the order [l] in which
    [range] visits them; [best] is [(oldestID, oldestActivity)]. *)
Definition string_lt (a b : string) : bool := bool_decide (String.le a b) && negb (str_eqb a b).

Definition replaces (best : string * Z) (id : string) (s : mcpServerSession) : bool :=
  str_eqb best.1 "" || (lastActivity s <? best.2)
  || ((lastActivity s =? best.2) && string_lt id best.1).

Fixpoint scan_oldest (userID : string) (best : string * Z) (l : list (string * mcpServerSession)) :
    string * Z :=
  match l with
  | [] => best
  | (id, s) :: rest =>
      if negb (str_eqb userID "") && negb (str_eqb (sess_userID s) userID)
      then scan_oldest userID best rest
      else scan_oldest userID (if replaces best id s then (id, lastActivity s) else best) rest
  end.

Definition evictOldestMCPSession (sessions : session_map) (userID : string) :
    option (string * session_map) :=
  let oldestID := (scan_oldest userID ("", 0) (map_to_list sessions)).1 in
  if str_eqb oldestID "" then None else Some (oldestID, delete oldestID sessions).

Definition countMCPSessionsForUser (sessions : session_map) (userID : string) : Z :=
  Z.of_nat (size (filter (λ kv, sess_userID kv.2 = userID) sessions)).

(** [for full(sessions) { evict; append }], with as many turns as there are sessions. *)
Fixpoint evict_while (fuel : nat) (full : session_map → bool) (userID : string) (sessions : session_map) :
    list string * session_map :=
  match fuel with
  | O => ([], sessions)
  | S fuel' =>
      if full sessions then
        match evictOldestMCPSession sessions userID with
        | None => ([], sessions)
        | Some (id, sessions') =>
            let '(ids, out) := evict_while fuel' full userID sessions' in (id :: ids, out)
        end
      else ([], sessions)
  end.

Definition user_full (perUserLimit : Z) (userID : string) (sessions : session_map) : bool :=
  (0 <? perUserLimit) && (perUserLimit <=? countMCPSessionsForUser sessions userID).
Definition global_full (globalLimit : Z) (sessions : session_map) : bool :=
  (0 <? globalLimit) && (globalLimit <=? Z.of_nat (size sessions)).

Definition prepareMCPSessionSlot (sessions : session_map) (userID : string)
    (now ttl perUserLimit globalLimit : Z) : list string * list string * session_map :=
  let '(expired, s1) := pruneExpiredMCPSessions sessions now ttl in
  let '(evicted1, s2) := evict_while (size s1) (user_full perUserLimit userID) userID s1 in
  let '(evicted2, s3) := evict_while (size s2) (global_full globalLimit) "" s2 in
  (expired, evicted1 ++ evicted2, s3).

Definition touchMCPSession (sessions : session_map) (sessionID userID : string) (now : Z) :
    bool * session_map :=
  match sessions !! sessionID with
  | Some s =>
      if str_eqb (sess_userID s) userID
      then (true, <[sessionID := {| sess_userID := sess_userID s; lastActivity := now |}]> sessions)
      else (false, sessions)
  | None => (false, sessions)
  end.

(** ** Streams *)

(** [events] has capacity 16; [done] is closed once. *)
Record mcpSSEStream := { events : list string; done_closed : bool }.
Definition stream_capacity : Z := 16.
Definition newMCPSSEStream : mcpSSEStream := {| events := []; done_closed := false |}.

Record McpState := {
  serverSessions : session_map;
  mcpSSEStreams : gmap string nat;
  stream_heap : gmap nat mcpSSEStream
}.
Definition empty_mcp : McpState := {| serverSessions := ∅; mcpSSEStreams := ∅; stream_heap := ∅ |}.

Definition with_sessions (f : session_map → session_map) (st : McpState) : McpState :=
  {| serverSessions := f (serverSessions st); mcpSSEStreams := mcpSSEStreams st;
     stream_heap := stream_heap st |}.
Definition with_streams (t : gmap string nat) (h : gmap nat mcpSSEStream) (st : McpState) : McpState :=
  {| serverSessions := serverSessions st; mcpSSEStreams := t; stream_heap := h |}.

(** [stream.close()] *)
Definition closed_stream (s : mcpSSEStream) : mcpSSEStream := {| events := events s; done_closed := true |}.
Definition close_entry (p : nat) (h : gmap nat mcpSSEStream) : gmap nat mcpSSEStream :=
  alter closed_stream p h.
Definition close_stream (p : nat) (st : McpState) : McpState :=
  with_streams (mcpSSEStreams st) (close_entry p (stream_heap st)) st.

(** The locked part of [registerMCPSSEStream]: the new stream and the one it replaces. *)
Definition registerMCPSSEStream (sessionID : string) (st : McpState) : nat * option nat * McpState :=
  let p := fresh (dom (stream_heap st)) in
  (p, mcpSSEStreams st !! sessionID,
   with_streams (<[sessionID := p]> (mcpSSEStreams st)) (<[p := newMCPSSEStream]> (stream_heap st)) st).

(** The locked part of [unregisterMCPSSEStream]; the stream is closed afterwards. *)
Definition unregisterMCPSSEStream (sessionID : string) (p : nat) (st : McpState) : McpState :=
  with_streams (if bool_decide (mcpSSEStreams st !! sessionID = Some p)
                then delete sessionID (mcpSSEStreams st) else mcpSSEStreams st) (stream_heap st) st.

(** The locked part of [closeMCPSSEStream]: the stream to close, if any. *)
Definition closeMCPSSEStream (sessionID : string) (st : McpState) : option nat * McpState :=
  (mcpSSEStreams st !! sessionID,
   with_streams (delete sessionID (mcpSSEStreams st)) (stream_heap st) st).

(** [select] of [publishMCPSSEEvent] on a stream that was read from the table: the event
    is queued, or the stream is already closed, or it is full. When it is both closed and
    has room Go chooses; [prefer] is that choice. *)
Inductive send_outcome := Sent | StreamDone | StreamFull.
Definition send_event (prefer : bool) (p : nat) (payload : string) (st : McpState) :
    send_outcome * McpState :=
  match stream_heap st !! p with
  | None => (StreamDone, st)
  | Some s =>
      let room := Z.of_nat (length (events s)) <? stream_capacity in
      if room && (negb (done_closed s) || prefer)
      then (Sent, with_streams (mcpSSEStreams st)
                    (<[p := {| events := events s ++ [payload]; done_closed := done_closed s |}]>
                       (stream_heap st)) st)
      else if done_closed s then (StreamDone, st) else (StreamFull, st)
  end.

(** [payload := <-stream.events] *)
Definition receive_event (p : nat) (st : McpState) : option string * McpState :=
  match stream_heap st !! p with
  | Some {| events := e :: rest; done_closed := c |} =>
      (Some e, with_streams (mcpSSEStreams st)
                 (<[p := {| events := rest; done_closed := c |}]> (stream_heap st)) st)
  | _ => (None, st)
  end.

(** ** The oldest session *)

Definition key_of (kv : string * mcpServerSession) : string * Z := (kv.1, lastActivity kv.2).
Definition eligible (userID : string) (kv : string * mcpServerSession) : bool :=
  str_eqb userID "" || str_eqb (sess_userID kv.2) userID.

(** Least recently active first, then by identifier. *)
Definition older (a b : string * Z) : Prop := a.2 < b.2 ∨ a.2 = b.2 ∧ String.le a.1 b.1.

#[export] Instance key_le_po : PartialOrder older.
Proof.
  split; [split|].
  - intros a. right. by split.
  - intros a b c [H1|[H1 H1']] [H2|[H2 H2']]; unfold older; [left; lia..|]. right.
    split; [lia|]. by transitivity b.1.
  - intros [i1 t1] [i2 t2] [H1|[H1 H1']] [H2|[H2 H2']]; simpl in *; try lia.
    f_equal; [by apply (anti_symm String.le)|lia].
Qed.
#[export] Instance key_le_total : Total older.
Proof.
  intros [i1 t1] [i2 t2]. unfold older. simpl. destruct (Z.lt_trichotomy t1 t2) as [?|[?|?]]; auto.
  destruct (total String.le i1 i2); auto.
Qed.

Lemma string_lt_spec a b : string_lt a b = true ↔ ¬ String.le b a.
Proof.
  unfold string_lt. rewrite andb_true_iff, negb_true_iff, bool_decide_eq_true, str_eqb_false. split.
  - intros [Hle Hne] Hge. apply Hne. by apply (anti_symm String.le).
  - intros Hn. destruct (total String.le a b) as [H|H]; [|done]. split; [done|]. by intros ->.
Qed.

Lemma replaces_spec best id s :
  best.1 ≠ "" → replaces best id s = true ↔ ¬ older best (id, lastActivity s).
Proof.
  intros Hne. unfold replaces, older. rewrite (proj2 (str_eqb_false _ _) Hne). simpl.
  rewrite orb_true_iff, andb_true_iff, Z.ltb_lt, Z.eqb_eq, string_lt_spec.
  destruct (Z.lt_trichotomy (lastActivity s) best.2) as [H|[H|H]]; split.
  - intros _ [?|[? _]]; lia.
  - intros _. by left.
  - intros [?|[_ Hn]] [?|[_ Hle]]; [lia..|done].
  - intros Hn. right. split; [done|]. intros Hle. apply Hn. right. by split.
  - intros [?|[? _]]; lia.
  - intros Hn. exfalso. apply Hn. by left.
Qed.

(** The scan finds the least eligible session, in whatever order it visits them. *)
Lemma scan_oldest_spec userID best l :
  Forall (λ kv : string * mcpServerSession, kv.1 ≠ "") l →
  let r := scan_oldest userID best l in
  let c := key_of <$> List.filter (eligible userID) l in
  if str_eqb best.1 "" then (c = [] ∧ r = best) ∨ (r ∈ c ∧ Forall (older r) c)
  else r ∈ best :: c ∧ Forall (older r) (best :: c).
Proof.
  intros Hl. revert best. induction Hl as [|[id s] l Hid Hl IH]; intros best; cbn [scan_oldest].
  { simpl. destruct (str_eqb best.1 ""); [by left|]. split; [set_solver|]. by constructor. }
  assert (negb (str_eqb userID "") && negb (str_eqb (sess_userID s) userID)
          = negb (eligible userID (id, s))) as ->.
  { unfold eligible. simpl. by rewrite negb_orb. }
  cbn [List.filter]. destruct (eligible userID (id, s)); cbn [negb]; [|apply IH].
  rewrite fmap_cons. change (key_of (id, s)) with (id, lastActivity s).
  set (k := (id, lastActivity s)). simpl in Hid. destruct (str_eqb best.1 "") eqn:Eb.
  - assert (replaces best id s = true) as -> by (unfold replaces; by rewrite Eb).
    specialize (IH k). simpl str_eqb in IH. rewrite (proj2 (str_eqb_false id "") Hid) in IH. by right.
  - destruct (replaces best id s) eqn:Er.
    + specialize (IH k). simpl str_eqb in IH. rewrite (proj2 (str_eqb_false id "") Hid) in IH.
      destruct IH as [Hin Hall]. split; [set_solver|].
      apply Forall_cons. split; [|done]. apply replaces_spec in Er; [|by apply str_eqb_false].
      apply Forall_cons in Hall as [Hk _]. etransitivity; [exact Hk|].
      by destruct (total older best k).
    + specialize (IH best). rewrite Eb in IH. destruct IH as [Hin Hall]. split; [set_solver|].
      apply Forall_cons in Hall as [Hb Hc]. apply Forall_cons. split; [done|].
      apply Forall_cons. split; [|done]. etransitivity; [exact Hb|].
      apply dec_stable. intros Hn. apply replaces_spec in Hn; [congruence|by apply str_eqb_false].
Qed.

Lemma scan_from_empty userID l :
  Forall (λ kv : string * mcpServerSession, kv.1 ≠ "") l →
  let r := scan_oldest userID ("", 0) l in
  let c := key_of <$> List.filter (eligible userID) l in
  (c = [] ∧ r = ("", 0)) ∨ (r ∈ c ∧ Forall (older r) c).
Proof. intros Hl. exact (scan_oldest_spec userID ("", 0) l Hl). Qed.

Lemma candidates_perm userID l1 l2 :
  l1 ≡ₚ l2 → key_of <$> List.filter (eligible userID) l1 ≡ₚ key_of <$> List.filter (eligible userID) l2.
Proof.
  intros H. apply fmap_Permutation. induction H as [|x l1 l2 H IH|x y l|l1 l2 l3 H1 IH1 H2 IH2]; simpl.
  - done.
  - destruct (eligible userID x); [by constructor|done].
  - destruct (eligible userID x), (eligible userID y); auto using Permutation_swap.
  - by transitivity (List.filter (eligible userID) l2).
Qed.

(** The result does not depend on the order in which Go visits the map. *)
Lemma scan_order userID l1 l2 :
  Forall (λ kv : string * mcpServerSession, kv.1 ≠ "") l1 → l1 ≡ₚ l2 →
  scan_oldest userID ("", 0) l1 = scan_oldest userID ("", 0) l2.
Proof.
  intros H1 Hp. assert (Forall (λ kv : string * mcpServerSession, kv.1 ≠ "") l2) as H2 by by rewrite <- Hp.
  pose proof (candidates_perm userID l1 l2 Hp) as Hc.
  destruct (scan_from_empty userID l1 H1) as [[E1 ->]|[Hin1 Hall1]],
    (scan_from_empty userID l2 H2) as [[E2 ->]|[Hin2 Hall2]]; [done|..].
  - rewrite E1 in Hc. apply Permutation_nil in Hc. rewrite Hc in Hin2. by apply not_elem_of_nil in Hin2.
  - rewrite E2 in Hc. symmetry in Hc. apply Permutation_nil in Hc. rewrite Hc in Hin1.
    by apply not_elem_of_nil in Hin1.
  - rewrite Forall_forall in Hall1, Hall2. apply (anti_symm older).
    + apply Hall1. by rewrite Hc.
    + apply Hall2. by rewrite <- Hc.
Qed.

Lemma keys_nonempty (sessions : session_map) :
  sessions !! "" = None → Forall (λ kv : string * mcpServerSession, kv.1 ≠ "") (map_to_list sessions).
Proof.
  intros H. apply Forall_forall. intros [id s] Hin%elem_of_map_to_list. simpl. intros ->. congruence.
Qed.

Lemma evict_Some sessions userID id out :
  sessions !! "" = None → evictOldestMCPSession sessions userID = Some (id, out) →
  ∃ s, sessions !! id = Some s ∧ eligible userID (id, s) = true ∧ out = delete id sessions ∧
    ∀ id' s', sessions !! id' = Some s' → eligible userID (id', s') = true →
      older (id, lastActivity s) (id', lastActivity s').
Proof.
  intros Hne. unfold evictOldestMCPSession.
  destruct (scan_from_empty userID _ (keys_nonempty _ Hne)) as [[_ ->]|[Hin Hall]]; [done|].
  set (r := scan_oldest _ _ _) in *. destruct (str_eqb r.1 ""); [done|]. intros [= <- <-].
  apply list_elem_of_fmap in Hin as ([id s] & Hr & Hf). apply list_elem_of_In, filter_In in Hf as [Hin He].
  apply list_elem_of_In, elem_of_map_to_list in Hin. rewrite Hr. exists s. split_and!; try done.
  intros id' s' H' He'. rewrite Forall_forall in Hall. rewrite Hr in Hall. apply (Hall (key_of (id', s'))).
  apply list_elem_of_fmap. exists (id', s'). split; [done|]. apply list_elem_of_In, filter_In.
  split; [|done]. by apply list_elem_of_In, elem_of_map_to_list.
Qed.

Lemma evict_None sessions userID :
  sessions !! "" = None → evictOldestMCPSession sessions userID = None →
  ∀ id s, sessions !! id = Some s → eligible userID (id, s) = false.
Proof.
  intros Hne. unfold evictOldestMCPSession. destruct (str_eqb _ "") eqn:E; [|done]. intros _ id s Hs.
  apply str_eqb_true in E. apply not_true_iff_false. intros He.
  assert (key_of (id, s) ∈ key_of <$> List.filter (eligible userID) (map_to_list sessions)) as Hin.
  { apply list_elem_of_fmap. exists (id, s). split; [done|]. apply list_elem_of_In, filter_In.
    split; [|done]. by apply list_elem_of_In, elem_of_map_to_list. }
  destruct (scan_from_empty userID _ (keys_nonempty _ Hne)) as [[Hc _]|[Hr _]].
  - rewrite Hc in Hin. by apply not_elem_of_nil in Hin.
  - apply list_elem_of_fmap in Hr as ([id' s'] & Hr & Hf). rewrite Hr in E. simpl in E. subst id'.
    apply list_elem_of_In, filter_In in Hf as [Hf _]. apply list_elem_of_In, elem_of_map_to_list in Hf. congruence.
Qed.

(** Eviction is deterministic although Go visits a map in random
    order: for every visiting order the loop picks the same session, the least recently
    active one of the user (of everyone when no user is given), ties broken by
    identifier; nothing is evicted only if there is no candidate. *)
Theorem eviction_oldest sessions userID l :
  sessions !! "" = None → l ≡ₚ map_to_list sessions →
  scan_oldest userID ("", 0) l = scan_oldest userID ("", 0) (map_to_list sessions) ∧
  match evictOldestMCPSession sessions userID with
  | Some (id, out) =>
      out = delete id sessions ∧ ∃ s, sessions !! id = Some s ∧ eligible userID (id, s) = true ∧
      ∀ id' s', sessions !! id' = Some s' → eligible userID (id', s') = true →
        lastActivity s < lastActivity s' ∨ lastActivity s = lastActivity s' ∧ String.le id id'
  | None => ∀ id s, sessions !! id = Some s → eligible userID (id, s) = false
  end.
Proof.
  intros Hne Hl. split; [symmetry; by apply scan_order; [apply keys_nonempty|]|].
  destruct (evictOldestMCPSession sessions userID) as [[id out]|] eqn:E.
  - destruct (evict_Some _ _ _ _ Hne E) as (s & Hs & He & -> & Hmin). split; [done|]. by exists s.
  - by apply evict_None.
Qed.

Definition ex_sessions : session_map :=
  {["a" := {| sess_userID := "u"; lastActivity := 5 |}; "b" := {| sess_userID := "v"; lastActivity := 1 |};
    "c" := {| sess_userID := "u"; lastActivity := 5 |}]}.
Lemma eviction_oldest_witness :
  match evictOldestMCPSession ex_sessions "u" with Some (id, out) => id = "a" ∧ size out = 2%nat | None => False end
  ∧ scan_oldest "u" ("", 0) (reverse (map_to_list ex_sessions)) = scan_oldest "u" ("", 0) (map_to_list ex_sessions).
Proof.
  split; [vm_compute; done|].
  apply (eviction_oldest ex_sessions "u" (reverse (map_to_list ex_sessions))).
  - reflexivity.
  - apply reverse_Permutation.
Defined.

(** ** Slots *)

Lemma evict_delete sessions userID id out :
  evictOldestMCPSession sessions userID = Some (id, out) → out = delete id sessions.
Proof. unfold evictOldestMCPSession. destruct (str_eqb _ ""); [done|]. by intros [= <- <-]. Qed.

Lemma evict_while_subseteq fuel full userID sessions ids out :
  evict_while fuel full userID sessions = (ids, out) → out ⊆ sessions.
Proof.
  revert sessions ids out. induction fuel as [|fuel IH]; intros sessions ids out; simpl.
  { by intros [= _ <-]. }
  destruct (full sessions); [|by intros [= _ <-]].
  destruct (evictOldestMCPSession sessions userID) as [[id s']|] eqn:E; [|by intros [= _ <-]].
  destruct (evict_while fuel full userID s') as [ids' out'] eqn:Ew. intros [= _ <-].
  apply IH in Ew. apply evict_delete in E as ->. etransitivity; [exact Ew|]. apply delete_subseteq.
Qed.

(** The loop ends because its condition is false, never because the fuel is used up. *)
Lemma evict_while_exit fuel full userID sessions ids out :
  sessions !! "" = None → (size sessions <= fuel)%nat → full ∅ = false →
  (∀ m, full m = true → ∃ id s, m !! id = Some s ∧ eligible userID (id, s) = true) →
  evict_while fuel full userID sessions = (ids, out) → full out = false.
Proof.
  intros Hne Hsize H0 Hfull. revert sessions ids out Hne Hsize.
  induction fuel as [|fuel IH]; intros sessions ids out Hne Hsize; simpl.
  { intros [= _ <-]. assert (size sessions = 0%nat) as H%map_size_empty_iff by lia. by rewrite H. }
  destruct (full sessions) eqn:Ef; [|by intros [= _ <-]].
  destruct (Hfull _ Ef) as (id0 & s0 & H1 & H2).
  destruct (evictOldestMCPSession sessions userID) as [[id s']|] eqn:E.
  - destruct (evict_while fuel full userID s') as [ids' out'] eqn:Ew. intros [= _ <-].
    destruct (evict_Some _ _ _ _ Hne E) as (s & Hs & _ & -> & _).
    apply (IH _ _ _ ltac:(by rewrite lookup_delete_None; right)) in Ew; [done|].
    rewrite map_size_delete_Some by (by eexists). lia.
  - pose proof (evict_None _ _ Hne E _ _ H1). congruence.
Qed.

Lemma global_full_candidate limit m :
  global_full limit m = true → ∃ id s, m !! id = Some s ∧ eligible "" (id, s) = true.
Proof.
  unfold global_full. intros [H1%Z.ltb_lt H2%Z.leb_le]%andb_true_iff.
  destruct (map_choose m) as (id & s & Hs); [intros ->; rewrite map_size_empty in H2; lia|].
  by exists id, s.
Qed.
Lemma user_full_candidate limit userID m :
  user_full limit userID m = true → ∃ id s, m !! id = Some s ∧ eligible userID (id, s) = true.
Proof.
  unfold user_full, countMCPSessionsForUser. intros [H1%Z.ltb_lt H2%Z.leb_le]%andb_true_iff.
  destruct (map_choose (filter (λ kv : string * mcpServerSession, sess_userID kv.2 = userID) m)) as (id & s & Hs).
  { intros E. rewrite E, map_size_empty in H2. lia. }
  apply map_lookup_filter_Some in Hs as [Hs Hu]. exists id, s. split; [done|].
  unfold eligible. simpl in *. rewrite Hu, str_eqb_refl. apply orb_true_r.
Qed.

Lemma count_mono m1 m2 userID :
  m1 ⊆ m2 → countMCPSessionsForUser m1 userID ≤ countMCPSessionsForUser m2 userID.
Proof.
  intros H. unfold countMCPSessionsForUser. apply Nat2Z.inj_le, map_subseteq_size.
  by apply map_filter_subseteq_mono.
Qed.

Lemma prepare_spec sessions userID now ttl perUser globalL expired evicted out :
  sessions !! "" = None → 0 < perUser → 0 < globalL →
  prepareMCPSessionSlot sessions userID now ttl perUser globalL = (expired, evicted, out) →
  out ⊆ filter (λ kv, session_expired now ttl kv.2 = false) sessions ∧
  countMCPSessionsForUser out userID < perUser ∧ Z.of_nat (size out) < globalL.
Proof.
  intros Hne Hp Hg. unfold prepareMCPSessionSlot, pruneExpiredMCPSessions.
  set (s1 := filter _ sessions). destruct (evict_while (size s1) _ userID s1) as [e1 s2] eqn:E1.
  destruct (evict_while (size s2) _ "" s2) as [e2 s3] eqn:E2. intros [= _ _ <-].
  assert (s1 !! "" = None) as Hne1 by (apply map_lookup_filter_None; by left).
  pose proof (evict_while_subseteq _ _ _ _ _ _ E1) as Hs2. pose proof (evict_while_subseteq _ _ _ _ _ _ E2) as Hs3.
  apply evict_while_exit in E1; [|done|done| |apply user_full_candidate].
  2:{ unfold user_full, countMCPSessionsForUser. rewrite map_filter_empty, map_size_empty.
      apply andb_false_iff. right. apply Z.leb_gt. lia. }
  assert (s2 !! "" = None) as Hne2 by (by eapply lookup_weaken_None).
  apply evict_while_exit in E2; [|done|done| |apply global_full_candidate].
  2:{ unfold global_full. rewrite map_size_empty. apply andb_false_iff. right. apply Z.leb_gt. lia. }
  pose proof (count_mono s3 s2 userID Hs3). unfold user_full, global_full in *.
  apply andb_false_iff in E1 as [?%Z.ltb_ge|?%Z.leb_gt]; [lia|].
  apply andb_false_iff in E2 as [?%Z.ltb_ge|?%Z.leb_gt]; [lia|].
  split_and!; [|lia..]. by transitivity s2.
Qed.
