(* ===== verification/SessionSteps.v ===== *)
(** * The session tables under concurrency (main.go, server_lifecycle.go)

    Requests, the sweeper and the shutdown share the session table and the stream table.
    [mcp_step] has one constructor per critical section, whoever runs it.  A stream is
    closed after the section that took it out of the table, so [closing] collects the
    streams some goroutine is about to close, and [owner] records for which session a
    stream was made, which is what the handler that made it remembers. *)
From Stdlib Require Import Ascii String.
From S2P Require Import Prelude GoStrings Paths Sessions.
Open Scope Z_scope.

Record McpRun := { run_st : McpState; closing : gset nat; owner : gmap nat string }.
Definition empty_run : McpRun := {| run_st := empty_mcp; closing := ∅; owner := ∅ |}.

Definition on_state (f : McpState → McpState) (r : McpRun) : McpRun :=
  {| run_st := f (run_st r); closing := closing r; owner := owner r |}.
Definition section {A} (f : McpState → A * McpState) (r : McpRun) : A * McpRun :=
  ((f (run_st r)).1, on_state (λ st, (f st).2) r).
Definition opt_set (o : option nat) : gset nat := match o with Some p => {[p]} | None => ∅ end.

(** ** Critical sections *)

(** [serveUntilCancelled] empties the table and closes its streams in one section. *)
Definition close_all (st : McpState) : McpState :=
  with_streams ∅ (foldr (λ kv h, close_entry kv.2 h) (stream_heap st) (map_to_list (mcpSSEStreams st))) st.

Definition register_stream (sid : string) (r : McpRun) : nat * option nat * McpRun :=
  let '(p, previous, st) := registerMCPSSEStream sid (run_st r) in
  (p, previous, {| run_st := st; closing := opt_set previous ∪ closing r; owner := <[p := sid]> (owner r) |}).
Definition unregister_stream (sid : string) (p : nat) (r : McpRun) : McpRun :=
  {| run_st := unregisterMCPSSEStream sid p (run_st r); closing := {[p]} ∪ closing r; owner := owner r |}.
Definition take_stream (sid : string) (r : McpRun) : option nat * McpRun :=
  let '(previous, st) := closeMCPSSEStream sid (run_st r) in
  (previous, {| run_st := st; closing := opt_set previous ∪ closing r; owner := owner r |}).
Definition finish_stream (p : nat) (r : McpRun) : McpRun :=
  {| run_st := close_stream p (run_st r); closing := closing r ∖ {[p]}; owner := owner r |}.

(** The section of [handleMCPDelete]. *)
Definition delete_session (sessionID userID : string) (st : McpState) : bool * McpState :=
  match serverSessions st !! sessionID with
  | Some s => if str_eqb (sess_userID s) userID then (true, with_sessions (delete sessionID) st)
              else (false, st)
  | None => (false, st)
  end.

Definition touch_session (sessionID userID : string) (now : Z) (st : McpState) : bool * McpState :=
  let '(b, m) := touchMCPSession (serverSessions st) sessionID userID now in
  (b, with_sessions (λ _, m) st).

Definition sweep_sessions (now : Z) (st : McpState) : list string * McpState :=
  let '(expired, m) := pruneExpiredMCPSessions (serverSessions st) now mcpSessionTTL in
  (expired, with_sessions (λ _, m) st).

(** A stream that was made and is not in the table any more: whoever took it out may close it. *)
Definition retired (p : nat) (r : McpRun) : Prop :=
  is_Some (owner r !! p) ∧ ∀ sid, mcpSSEStreams (run_st r) !! sid ≠ Some p.

Section steps.
Context (perUser globalL : Z).

(** The section of [initialize]; [newSID] is what [uuid.New] draws. *)
Definition initialize_session (newSID userID : string) (now : Z) (st : McpState) :
    list string * McpState :=
  let '(expired, evicted, out) :=
    prepareMCPSessionSlot (serverSessions st) userID now mcpSessionTTL perUser globalL in
  (expired ++ evicted,
   with_sessions (λ _, <[newSID := {| sess_userID := userID; lastActivity := now |}]> out) st).

Inductive mcp_step : McpRun → McpRun → Prop :=
| mcp_initialize newSID userID now r :
    newSID ≠ "" → mcp_step r (section (initialize_session newSID userID now) r).2
| mcp_touch sid userID now r : mcp_step r (section (touch_session sid userID now) r).2
| mcp_delete sid userID r : mcp_step r (section (delete_session sid userID) r).2
| mcp_sweep now r : mcp_step r (section (sweep_sessions now) r).2
| mcp_register sid r : mcp_step r (register_stream sid r).2
| mcp_unregister sid p r : owner r !! p = Some sid → mcp_step r (unregister_stream sid p r)
| mcp_take sid r : mcp_step r (take_stream sid r).2
| mcp_finish p r : retired p r → mcp_step r (finish_stream p r)
| mcp_send prefer p payload r : mcp_step r (section (send_event prefer p payload) r).2
| mcp_receive p r : mcp_step r (section (receive_event p) r).2
| mcp_shutdown r : mcp_step r (on_state close_all r).

Definition mcp_reachable (r : McpRun) : Prop := rtc mcp_step empty_run r.

(** ** Sessions *)

Record sessions_ok (m : session_map) : Prop := {
  so_key : m !! "" = None;
  so_user : ∀ u, countMCPSessionsForUser m u ≤ perUser;
  so_total : Z.of_nat (size m) ≤ globalL
}.

Lemma sessions_ok_mono m m' : m' ⊆ m → sessions_ok m → sessions_ok m'.
Proof.
  intros Hs [H1 H2 H3]. split.
  - by eapply lookup_weaken_None.
  - intros u. pose proof (count_mono m' m u Hs). specialize (H2 u). lia.
  - pose proof (map_subseteq_size _ _ Hs). lia.
Qed.

Lemma count_insert_le m id s u :
  countMCPSessionsForUser (<[id := s]> m) u ≤
  countMCPSessionsForUser m u + (if str_eqb (sess_userID s) u then 1 else 0).
Proof.
  unfold countMCPSessionsForUser. destruct (str_eqb (sess_userID s) u) eqn:E.
  - apply str_eqb_true in E. rewrite map_filter_insert_True by done.
    destruct (filter (λ kv : string * mcpServerSession, sess_userID kv.2 = u) m !! id) eqn:El.
    + rewrite map_size_insert_Some by (by eexists). lia.
    + rewrite map_size_insert_None by done. lia.
  - apply str_eqb_false in E. rewrite map_filter_insert_False by done.
    pose proof (count_mono (delete id m) m u (delete_subseteq _ _)) as H.
    unfold countMCPSessionsForUser in H. lia.
Qed.

Lemma initialize_ok newSID userID now st :
  newSID ≠ "" → 0 < perUser → 0 < globalL → sessions_ok (serverSessions st) →
  sessions_ok (serverSessions (initialize_session newSID userID now st).2).
Proof.
  intros Hn Hp Hg Hok. unfold initialize_session.
  destruct (prepareMCPSessionSlot _ _ _ _ _ _) as [[expired evicted] out] eqn:E. simpl.
  destruct (prepare_spec _ _ _ _ _ _ _ _ _ (so_key _ Hok) Hp Hg E) as (Hsub & Hu & Hs).
  assert (sessions_ok out) as [H1 H2 H3].
  { eapply sessions_ok_mono; [|exact Hok]. etransitivity; [exact Hsub|apply map_filter_subseteq]. }
  split.
  - by rewrite lookup_insert_ne.
  - intros u. pose proof (count_insert_le out newSID {| sess_userID := userID; lastActivity := now |} u) as Hc.
    simpl sess_userID in Hc. destruct (str_eqb userID u) eqn:Eu.
    + apply str_eqb_true in Eu. subst u. lia.
    + specialize (H2 u). lia.
  - rewrite map_size_insert. destruct (out !! newSID); simpl; lia.
Qed.

Lemma touch_ok sid userID now st :
  sessions_ok (serverSessions st) → sessions_ok (serverSessions (touch_session sid userID now st).2).
Proof.
  intros Hok. unfold touch_session, touchMCPSession.
  destruct (serverSessions st !! sid) as [s|] eqn:Es; [|done].
  destruct (str_eqb (sess_userID s) userID); [|done]. destruct Hok as [H1 H2 H3]. simpl. split.
  - rewrite lookup_insert_ne; [done|]. intros ->. congruence.
  - intros u. specialize (H2 u). unfold countMCPSessionsForUser in *. etransitivity; [|exact H2].
    apply Nat2Z.inj_le, dom_subseteq_size. intros k. rewrite !elem_of_dom. intros [v Hv].
    apply map_lookup_filter_Some in Hv as [Hv Hu]. destruct (decide (sid = k)) as [->|Hk].
    + rewrite lookup_insert_eq in Hv. simplify_eq. exists s. by apply map_lookup_filter_Some.
    + rewrite lookup_insert_ne in Hv by done. exists v. by apply map_lookup_filter_Some.
  - rewrite map_size_insert_Some by (by eexists). done.
Qed.

Lemma sessions_step r r' :
  0 < perUser → 0 < globalL → mcp_step r r' →
  sessions_ok (serverSessions (run_st r)) → sessions_ok (serverSessions (run_st r')).
Proof.
  intros Hp Hg Hs Hok. destruct Hs; simpl; try done.
  - by apply initialize_ok.
  - by apply touch_ok.
  - unfold delete_session. destruct (_ !! sid) as [s|]; [|done]. destruct (str_eqb _ _); [|done].
    simpl. eapply sessions_ok_mono; [|done]. apply delete_subseteq.
  - unfold sweep_sessions. simpl. eapply sessions_ok_mono; [|done]. apply map_filter_subseteq.
  - unfold send_event. repeat case_match; done.
  - unfold receive_event. repeat case_match; done.
Qed.

(** ** Streams *)

Record streams_ok (r : McpRun) : Prop := {
  st_open : ∀ sid p, mcpSSEStreams (run_st r) !! sid = Some p →
    ∃ s, stream_heap (run_st r) !! p = Some s ∧ done_closed s = false;
  st_owner : ∀ sid p, mcpSSEStreams (run_st r) !! sid = Some p → owner r !! p = Some sid;
  st_known : ∀ p, is_Some (owner r !! p) → is_Some (stream_heap (run_st r) !! p);
  st_waiting : ∀ p, p ∈ closing r → is_Some (owner r !! p);
  st_closing : ∀ sid p, mcpSSEStreams (run_st r) !! sid = Some p → p ∉ closing r;
  st_leak : ∀ p s, stream_heap (run_st r) !! p = Some s → done_closed s = false →
    p ∈ closing r ∨ ∃ sid, mcpSSEStreams (run_st r) !! sid = Some p;
  st_queue : ∀ p s, stream_heap (run_st r) !! p = Some s → Z.of_nat (length (events s)) ≤ stream_capacity
}.

Lemma streams_ok_sessions f r :
  (∀ st, mcpSSEStreams (f st) = mcpSSEStreams st ∧ stream_heap (f st) = stream_heap st) →
  streams_ok r → streams_ok (on_state f r).
Proof.
  intros Hf [H1 H2 H3 H7 H4 H5 H6]. destruct (Hf (run_st r)) as [E1 E2].
  split; unfold on_state; simpl; rewrite ?E1, ?E2; done.
Qed.

(** A queue changes, within its capacity. *)
Lemma streams_ok_queue r p s ev :
  stream_heap (run_st r) !! p = Some s → Z.of_nat (length ev) ≤ stream_capacity → streams_ok r →
  streams_ok (on_state (λ st, with_streams (mcpSSEStreams st)
    (<[p := {| events := ev; done_closed := done_closed s |}]> (stream_heap st)) st) r).
Proof.
  intros Hp Hev [H1 H2 H3 H7 H4 H5 H6]. unfold on_state, with_streams. split; simpl; try done.
  - intros sid q Hq. destruct (H1 sid q Hq) as (s' & Hs' & Hd). destruct (decide (p = q)) as [->|Hne].
    + rewrite lookup_insert_eq. eexists. split; [done|]. simpl. congruence.
    + rewrite lookup_insert_ne by done. eauto.
  - intros q Hq. apply H3 in Hq. destruct (decide (p = q)) as [->|Hne];
      [by rewrite lookup_insert_eq; eexists|by rewrite lookup_insert_ne].
  - intros q s' Hs' Hd. destruct (decide (p = q)) as [->|Hne].
    + rewrite lookup_insert_eq in Hs'. simplify_eq/=. eauto.
    + rewrite lookup_insert_ne in Hs' by done. eauto.
  - intros q s' Hs'. destruct (decide (p = q)) as [->|Hne].
    + rewrite lookup_insert_eq in Hs'. by simplify_eq/=.
    + rewrite lookup_insert_ne in Hs' by done. eauto.
Qed.

(** The streams [ps] leave the table and wait to be closed. *)
Lemma streams_ok_leave r t (ps : gset nat) :
  t ⊆ mcpSSEStreams (run_st r) → (∀ sid p, t !! sid = Some p → p ∉ ps) →
  (∀ sid p, mcpSSEStreams (run_st r) !! sid = Some p → t !! sid = Some p ∨ p ∈ ps) →
  (∀ p, p ∈ ps → is_Some (owner r !! p)) → streams_ok r →
  streams_ok {| run_st := with_streams t (stream_heap (run_st r)) (run_st r);
                closing := ps ∪ closing r; owner := owner r |}.
Proof.
  intros Ht Hps Hall Hown [H1 H2 H3 H7 H4 H5 H6].
  assert (∀ sid p, t !! sid = Some p → mcpSSEStreams (run_st r) !! sid = Some p) as Hw
    by (intros sid p ?; by eapply lookup_weaken).
  split; simpl; try done.
  - intros sid p Hp. eauto.
  - intros sid p Hp. eauto.
  - intros p [?|?]%elem_of_union; eauto.
  - intros sid p Hp. apply not_elem_of_union. eauto.
  - intros p s Hs Hd. destruct (H5 p s Hs Hd) as [Hc|[sid Hsid]]; [left; set_solver|].
    destruct (Hall sid p Hsid) as [?|?]; [right; eauto|left; set_solver].
Qed.

Lemma streams_ok_close p r :
  (∀ sid, mcpSSEStreams (run_st r) !! sid ≠ Some p) → streams_ok r →
  streams_ok (finish_stream p r).
Proof.
  intros Hp [H1 H2 H3 H7 H4 H5 H6]. unfold finish_stream, close_stream, close_entry, with_streams. split; simpl; try done.
  - intros sid q Hq. rewrite lookup_alter_ne by (intros ->; by apply (Hp sid)). eauto.
  - intros q Hq. apply H3 in Hq. destruct (decide (p = q)) as [->|Hne].
    + rewrite lookup_alter_eq. by apply fmap_is_Some.
    + by rewrite lookup_alter_ne.
  - intros q Hq. apply H7. set_solver.
  - intros sid q Hq. apply H4 in Hq. set_solver.
  - intros q s Hs Hd. destruct (decide (p = q)) as [->|Hne].
    + rewrite lookup_alter_eq in Hs. apply fmap_Some in Hs as (s' & _ & ->). done.
    + rewrite lookup_alter_ne in Hs by done. destruct (H5 q s Hs Hd); [left; set_solver|by right].
  - intros q s Hs. destruct (decide (p = q)) as [->|Hne].
    + rewrite lookup_alter_eq in Hs. apply fmap_Some in Hs as (s' & Hs' & ->). simpl. eauto.
    + rewrite lookup_alter_ne in Hs by done. eauto.
Qed.

Lemma streams_ok_register sid r : streams_ok r → streams_ok (register_stream sid r).2.
Proof.
  unfold register_stream, registerMCPSSEStream. cbn [snd]. intros [H1 H2 H3 H7 H4 H5 H6].
  set (p := fresh _). assert (stream_heap (run_st r) !! p = None) as Hfr.
  { apply not_elem_of_dom. apply is_fresh. }
  assert (owner r !! p = None) as Hno.
  { destruct (owner r !! p) as [o|] eqn:E; [|done]. destruct (H3 p ltac:(by eexists)). congruence. }
  unfold with_streams. split; simpl.
  - intros sid' q. destruct (decide (sid = sid')) as [->|Hne].
    + rewrite lookup_insert_eq. intros [= <-]. rewrite lookup_insert_eq. by eexists.
    + rewrite lookup_insert_ne by done. intros Hq. destruct (H1 _ _ Hq) as (s & Hs & Hd).
      rewrite lookup_insert_ne by congruence. eauto.
  - intros sid' q. destruct (decide (sid = sid')) as [->|Hne].
    + rewrite lookup_insert_eq. intros [= <-]. by rewrite lookup_insert_eq.
    + rewrite lookup_insert_ne by done. intros Hq. apply H2 in Hq. rewrite lookup_insert_ne; [done|congruence].
  - intros q. destruct (decide (p = q)) as [->|Hne]; [rewrite !lookup_insert_eq; by eexists|].
    rewrite !lookup_insert_ne by done. apply H3.
  - intros q Hq. destruct (decide (p = q)) as [->|Hne]; [rewrite lookup_insert_eq; by eexists|].
    rewrite lookup_insert_ne by done. apply elem_of_union in Hq as [Hq|Hq]; [|by apply H7].
    destruct (mcpSSEStreams (run_st r) !! sid) as [q'|] eqn:E; simpl in Hq; [|set_solver].
    apply elem_of_singleton in Hq as ->. exists sid. by apply H2.
  - intros sid' q. destruct (decide (sid = sid')) as [->|Hne].
    + rewrite lookup_insert_eq. intros [= <-]. apply not_elem_of_union. split.
      * destruct (mcpSSEStreams (run_st r) !! sid') as [q|] eqn:E; simpl; [|set_solver].
        apply H2 in E. intros ->%elem_of_singleton. congruence.
      * intros Hc%H7. rewrite Hno in Hc. by destruct Hc.
    + rewrite lookup_insert_ne by done. intros Hq. pose proof (H4 _ _ Hq). apply not_elem_of_union. split; [|done].
      destruct (mcpSSEStreams (run_st r) !! sid) as [q'|] eqn:E; simpl; [|set_solver].
      apply H2 in E. apply H2 in Hq. intros ->%elem_of_singleton. congruence.
  - intros q s. destruct (decide (p = q)) as [->|Hne].
    + intros _ _. right. exists sid. by rewrite lookup_insert_eq.
    + rewrite lookup_insert_ne by done. intros Hs Hd. destruct (H5 q s Hs Hd) as [?|[sid' Hsid]]; [left; set_solver|].
      destruct (decide (sid = sid')) as [->|Hne'].
      * left. rewrite Hsid. simpl. set_solver.
      * right. exists sid'. by rewrite lookup_insert_ne.
  - intros q s. destruct (decide (p = q)) as [->|Hne].
    + rewrite lookup_insert_eq. intros [= <-]. done.
    + rewrite lookup_insert_ne by done. apply H6.
Qed.

Lemma close_many_lookup l h p :
  foldr (λ (kv : string * nat) h, close_entry kv.2 h) h l !! p =
  (if bool_decide (p ∈ l.*2) then closed_stream <$> h !! p else h !! p).
Proof.
  induction l as [|[sid q] l IH]; cbn [foldr];
    [by case_bool_decide as Hin; [apply not_elem_of_nil in Hin|]|].
  rewrite fmap_cons. cbn [snd].
  unfold close_entry at 1. destruct (decide (q = p)) as [->|Hne].
  - rewrite lookup_alter_eq, IH, (bool_decide_true (p ∈ p :: l.*2)) by set_solver.
    destruct (bool_decide _); [|done]. by destruct (h !! p).
  - rewrite lookup_alter_ne, IH by done. by rewrite (bool_decide_ext (p ∈ q :: l.*2) (p ∈ l.*2)) by set_solver.
Qed.

Lemma streams_ok_shutdown r : streams_ok r → streams_ok (on_state close_all r).
Proof.
  intros [H1 H2 H3 H7 H4 H5 H6]. unfold on_state, close_all. split; simpl; try done.
  - intros p Hp. rewrite close_many_lookup. apply H3 in Hp. destruct (bool_decide _); [|done].
    by apply fmap_is_Some.
  - intros p s. rewrite close_many_lookup. case_bool_decide as Hin.
    + intros (s' & _ & ->)%fmap_Some. done.
    + intros Hs Hd. destruct (H5 p s Hs Hd) as [?|[sid Hsid]]; [by left|]. exfalso. apply Hin.
      apply list_elem_of_fmap. exists (sid, p). split; [done|]. by apply elem_of_map_to_list.
  - intros p s. rewrite close_many_lookup. destruct (bool_decide _); [|apply H6].
    intros (s' & Hs' & ->)%fmap_Some. exact (H6 p s' Hs').
Qed.

Lemma streams_ok_unregister sid p r :
  owner r !! p = Some sid → streams_ok r → streams_ok (unregister_stream sid p r).
Proof.
  intros Ho Hok. unfold unregister_stream, unregisterMCPSSEStream. apply streams_ok_leave; [..|done].
  - destruct (bool_decide _); [apply delete_subseteq|done].
  - intros sid' q Hq. rewrite not_elem_of_singleton. intros ->.
    case_bool_decide as Hd.
    + apply lookup_delete_Some in Hq as [Hne Hq]. pose proof (st_owner _ Hok _ _ Hq). congruence.
    + pose proof (st_owner _ Hok _ _ Hq). congruence.
  - intros sid' q Hq. case_bool_decide as Hd; [|by left]. destruct (decide (sid = sid')) as [->|Hne].
    + right. rewrite Hd in Hq. set_solver.
    + left. by rewrite lookup_delete_ne.
  - intros q ->%elem_of_singleton. by eexists.
Qed.

Lemma streams_ok_take sid r : streams_ok r → streams_ok (take_stream sid r).2.
Proof.
  intros Hok. unfold take_stream, closeMCPSSEStream. cbn [snd]. apply streams_ok_leave; [..|done].
  - apply delete_subseteq.
  - intros sid' p [Hne Hp]%lookup_delete_Some. destruct (_ !! sid) as [q|] eqn:Eq; simpl; [|set_solver].
    intros ->%elem_of_singleton. pose proof (st_owner _ Hok _ _ Hp). pose proof (st_owner _ Hok _ _ Eq). congruence.
  - intros sid' p Hp. destruct (decide (sid = sid')) as [->|Hne].
    + right. rewrite Hp. simpl. set_solver.
    + left. by rewrite lookup_delete_ne.
  - intros p Hp. destruct (_ !! sid) as [q|] eqn:Eq; simpl in Hp; [|set_solver].
    apply elem_of_singleton in Hp as ->. exists sid. by apply (st_owner _ Hok).
Qed.

Lemma streams_step r r' : mcp_step r r' → streams_ok r → streams_ok r'.
Proof.
  intros Hs Hok. destruct Hs.
  - apply streams_ok_sessions; [|done]. intros st. unfold initialize_session. by destruct (prepareMCPSessionSlot _ _ _ _ _ _) as [[??] ?].
  - apply streams_ok_sessions; [|done]. intros st. unfold touch_session. by destruct (touchMCPSession _ _ _ _).
  - apply streams_ok_sessions; [|done]. intros st. unfold delete_session. by repeat case_match.
  - by apply streams_ok_sessions.
  - by apply streams_ok_register.
  - by apply streams_ok_unregister.
  - by apply streams_ok_take.
  - apply streams_ok_close; [|done]. by match goal with H : retired _ _ |- _ => apply H end.
  - unfold section, on_state, send_event. cbn [snd]. destruct (_ !! p) as [s|] eqn:Es; [|by destruct r].
    destruct (_ && _) eqn:Eb; [|by destruct (done_closed s), r].
    apply (streams_ok_queue r p s (events s ++ [payload]) Es); [|done].
    rewrite length_app. simpl. reflect_bools. lia.
  - unfold section, on_state, receive_event. cbn [snd]. destruct (_ !! p) as [s|] eqn:Es; [|by destruct r].
    destruct s as [[|e rest] c]; [by destruct r|].
    apply (streams_ok_queue r p _ rest Es); [|done].
    pose proof (st_queue _ Hok _ _ Es). simpl in *. lia.
  - by apply streams_ok_shutdown.
Qed.

Lemma mcp_invariant (I : McpRun → Prop) r r' :
  (∀ x y, mcp_step x y → I x → I y) → rtc mcp_step r r' → I r → I r'.
Proof. intros Hstep. induction 1; eauto. Qed.

(** [C24] However many clients initialise, use, delete and let sessions expire
    at the same time, no user ever has more than [MCP_MAX_SESSIONS_PER_USER] sessions and the
    relay never more than [MCP_MAX_SESSIONS]; a new session always gets its place, since the
    oldest ones make room for it. *)
Theorem session_limits r :
  0 < perUser → 0 < globalL → mcp_reachable r →
  (∀ u, countMCPSessionsForUser (serverSessions (run_st r)) u ≤ perUser) ∧
  Z.of_nat (size (serverSessions (run_st r))) ≤ globalL ∧
  ∀ newSID userID now,
    serverSessions (run_st (section (initialize_session newSID userID now) r).2) !! newSID =
    Some {| sess_userID := userID; lastActivity := now |}.
Proof.
  intros Hp Hg Hr. assert (sessions_ok (serverSessions (run_st r))) as [_ H2 H3].
  { apply (mcp_invariant (λ x, sessions_ok (serverSessions (run_st x))) _ _ (λ x y, sessions_step x y Hp Hg) Hr).
    split; [done| |simpl; rewrite map_size_empty; lia]. intros u. unfold countMCPSessionsForUser. simpl. rewrite map_filter_empty, map_size_empty. lia. }
  split_and!; [done|done|]. intros newSID userID now. unfold section, initialize_session. simpl.
  destruct (prepareMCPSessionSlot _ _ _ _ _ _) as [[e1 e2] out]. simpl. by rewrite lookup_insert_eq.
Qed.

(** At every moment a session has at most one event stream, different
    sessions have different ones, a registered stream is open, an open stream is registered
    under the session it was made for or is about to be closed, and no queue exceeds its
    capacity: a message published for a session can only reach that session's client, and a
    stream that was replaced, evicted or shut down cannot be left open. *)
Theorem stream_registry r :
  mcp_reachable r →
  (∀ sid p, mcpSSEStreams (run_st r) !! sid = Some p →
     owner r !! p = Some sid ∧ p ∉ closing r ∧
     ∃ s, stream_heap (run_st r) !! p = Some s ∧ done_closed s = false) ∧
  (∀ sid1 sid2 p, mcpSSEStreams (run_st r) !! sid1 = Some p →
     mcpSSEStreams (run_st r) !! sid2 = Some p → sid1 = sid2) ∧
  (∀ p s, stream_heap (run_st r) !! p = Some s →
     Z.of_nat (length (events s)) ≤ stream_capacity ∧
     (done_closed s = false → p ∈ closing r ∨ ∃ sid, mcpSSEStreams (run_st r) !! sid = Some p)).
Proof.
  intros Hr. assert (streams_ok r) as Hok.
  { apply (mcp_invariant streams_ok _ _ streams_step Hr). split; simpl; try done. by intros p [s Hs]. }
  split_and!.
  - intros sid p Hp. split_and!; [by apply (st_owner _ Hok)|by apply (st_closing _ Hok sid)|].
    by apply (st_open _ Hok sid).
  - intros sid1 sid2 p H1%(st_owner _ Hok) H2%(st_owner _ Hok). congruence.
  - intros p s Hs. split; [by apply (st_queue _ Hok p)|]. by apply (st_leak _ Hok).
Qed.
End steps.

(** Two clients of one user with a limit of one session; a stream is replaced. *)
Definition ex_run : McpRun :=
  (register_stream "b" (register_stream "b"
     (section (initialize_session 1 2 "b" "u" 5) (section (initialize_session 1 2 "a" "u" 3) empty_run).2).2).2).2.

Lemma ex_run_reachable : mcp_reachable 1 2 ex_run.
Proof.
  unfold mcp_reachable, ex_run. eapply rtc_l; [by apply (mcp_initialize 1 2 "a" "u" 3)|].
  eapply rtc_l; [by apply (mcp_initialize 1 2 "b" "u" 5)|].
  eapply rtc_l; [apply (mcp_register 1 2 "b")|]. eapply rtc_l; [apply (mcp_register 1 2 "b")|]. apply rtc_refl.
Defined.

Lemma session_limits_witness :
  countMCPSessionsForUser (serverSessions (run_st ex_run)) "u" = 1 ∧
  countMCPSessionsForUser (serverSessions (run_st ex_run)) "u" ≤ 1.
Proof.
  split; [vm_compute; reflexivity|].
  exact (proj1 (session_limits 1 2 ex_run eq_refl eq_refl ex_run_reachable) "u").
Defined.

Lemma stream_registry_witness :
  mcpSSEStreams (run_st ex_run) !! "b" = Some 1%nat ∧ closing ex_run = {[0%nat]} ∧
  owner ex_run !! 1%nat = Some "b".
Proof.
  split_and!; [vm_compute; reflexivity..|].
  apply (stream_registry 1 2 ex_run ex_run_reachable). vm_compute. reflexivity.
Defined.
