(* ===== verification/Lce.v ===== *)
(** * The LCE tool-call protocol

    What the relay sends to LCE (argument maps, body-size check) and how it reads
    LCE's replies: upstream errors, publication state, revisions, chunk counts and
    deletion receipts.  LCE itself is not part of this repository: the effect layer
    takes its replies from an arbitrary environment. *)
From Stdlib Require Import Ascii String SpecFloat.
From S2P Require Import Prelude GoStrings Paths Manifest Json.
Open Scope Z_scope.

(** ** Requests *)

Record lce_request := { lr_tool : string; lr_args : list (string * json) }.

Record mcpToolResult := { Content : content; IsError : bool }.

(** What [callToolWithTimeout] returns: the error's text or a tool result. *)
Abbreviation lce_reply := (result string mcpToolResult).

Definition lceIndexJobArgs (userID jobID rootID operation : string) : list (string * json) :=
  [("tenant_id", JStr userID); ("job_id", JStr jobID); ("operation", JStr operation);
   ("root_id", JStr rootID); ("response_format", JStr "json")].

Definition lceBeginIndexJobArgs (userID jobID rootID : string) (replaceRoot : bool) :
    list (string * json) :=
  lceIndexJobArgs userID jobID rootID "begin"
    ++ (if replaceRoot then [("replace_root", JBool true)] else []).

Definition JInt (z : Z) : json := JNum (FormatInt z) (binary_normalize 53 1024 z 0 false).

Definition marshalMCPToolCallBody (id : Z) (name : string) (args : list (string * json)) : string :=
  marshal (JObj [("jsonrpc", JStr "2.0"); ("id", JInt id); ("method", JStr "tools/call");
                 ("params", JObj [("name", JStr name); ("arguments", JObj args)])]).

Definition maxLCEMCPRequestBodyBytes : Z := Z.shiftl 4 20.

Definition validateMCPToolCallBody (name : string) (args : list (string * json)) :
    result error Z :=
  let body := marshalMCPToolCallBody MaxInt64 name args in
  reject maxLCEMCPRequestBodyBytes <? len body
    with Errorf ("encoded LCE request exceeds the " +:+ FormatInt maxLCEMCPRequestBodyBytes
                 +:+ " byte limit (" +:+ FormatInt (len body) +:+ " bytes)") in
  Ok (len body).

Definition remote_index (args : list (string * json)) : lce_request :=
  {| lr_tool := "codebase_remote_index"; lr_args := args |}.
Definition clear_index (args : list (string * json)) : lce_request :=
  {| lr_tool := "codebase_clear_index"; lr_args := args |}.

(** ** Upstream errors *)

Definition newIndexUpstreamError (msg : string) : error := IndexUpstreamError "" msg.
Definition newIndexUpstreamDiagnosticError (code msg : string) : error :=
  IndexUpstreamError code msg.

Definition upper_byte (c : ascii) : ascii :=
  if ((97 <=? GoStrings.code c) && (GoStrings.code c <=? 122))%nat
  then ascii_of_nat (GoStrings.code c - 32) else c.
Fixpoint upper_ascii (s : string) : string :=
  match s with
  | EmptyString => ""
  | String c s' => String (upper_byte c) (upper_ascii s')
  end.

(** Struct fields match object keys up to ASCII case; the last member wins. *)
Fixpoint jfield (name : string) (m : list (string * json)) : option json :=
  match m with
  | [] => None
  | (k, v) :: m' =>
      match jfield name m' with
      | Some w => Some w
      | None => if str_eqb (lower_ascii k) (lower_ascii name) then Some v else None
      end
  end.

(** A [string] field: absent and [null] leave it empty, another type is an error. *)
Definition string_field (name : string) (m : list (string * json)) : option string :=
  match jfield name m with
  | None | Some JNull => Some ""
  | Some (JStr s) => Some s
  | Some _ => None
  end.

(** A [bool] field. *)
Definition bool_field (name : string) (m : list (string * json)) : option bool :=
  match jfield name m with
  | None | Some JNull => Some false
  | Some (JBool b) => Some b
  | Some _ => None
  end.

(** [json.Unmarshal] into [lceToolErrorEnvelope]: message and code. *)
Definition decode_error_envelope (c : content) : option (string * string) :=
  match decoded c with
  | Some JNull => Some ("", "")
  | Some (JObj m) =>
      match jfield "error" m with
      | None | Some JNull => Some ("", "")
      | Some (JObj e) =>
          match string_field "message" e, string_field "code" e with
          | Some msg, Some cd => Some (msg, cd)
          | _, _ => None
          end
      | Some _ => None
      end
  | _ => None
  end.

Section tool_error.
  Context (unicode_upper : string → string).

Definition ToUpper (s : string) : string :=
  if is_ascii s then upper_ascii s else unicode_upper s.

Definition lceIndexToolError (prefix : string) (c : content) : error :=
  match decode_error_envelope c with
  | Some (msg, cd) =>
      if str_eqb (TrimSpace msg) "" then newIndexUpstreamError (prefix +:+ ": " +:+ raw c)
      else
        let message := TrimSpace msg in
        let cd := ToUpper (TrimSpace cd) in
        if str_eqb cd "PROVIDER_INVALID_REQUEST"
        then newIndexUpstreamDiagnosticError "provider_invalid_request" (prefix +:+ ": " +:+ message)
        else if str_eqb cd "PLATFORM_MAINTENANCE_IN_PROGRESS"
        then newIndexUpstreamDiagnosticError "upstream_bad_gateway" (prefix +:+ ": " +:+ message)
        else newIndexUpstreamError (prefix +:+ ": " +:+ message)
  | None => newIndexUpstreamError (prefix +:+ ": " +:+ raw c)
  end.
End tool_error.

Section transient.
Context (unicode_lower : string → string).
Definition isTransientLCEResourceError (e : error) : bool :=
  let lower := ToLower unicode_lower (error_text e) in
  Contains lower "timeout exceeded when trying to connect"
  || Contains lower "canceling statement due to lock timeout"
  || Contains lower "cloud platform maintenance in progress".
End transient.

(** ** Publication replies *)

(** [json.Unmarshal(content, &map)], then the nested [payload] object if present. *)
Definition reply_object (c : content) : option (list (string * json)) :=
  match decoded c with
  | Some (JObj m) =>
      Some (match jget "payload" m with Some (JObj p) => p | _ => m end)
  | Some JNull => Some []
  | _ => None
  end.

Definition jstring (o : option json) : string :=
  match o with Some (JStr s) => s | _ => "" end.

Definition publicationState (c : content) : string :=
  match reply_object c with
  | Some m => jstring (jget "state" m)
  | None => ""
  end.

Definition publishAccepted (c : content) : bool := str_eqb (publicationState c) "publishing".

(** [Some failure] is the Go result [(failure, true)]. *)
Definition publicationFailure (c : content) : option string :=
  match reply_object c with
  | None => None
  | Some m =>
      let state := jstring (jget "state" m) in
      if negb (str_eqb state "failed") && negb (str_eqb state "cancelled") then None
      else
        let errText := jstring (jget "error" m) in
        Some (if str_eqb (TrimSpace errText) "" then "cloud publication " +:+ state else errText)
  end.

Definition extractCloudRevision (c : content) : result error Z :=
  match decoded c with
  | None => Err (Errorf "invalid JSON")
  | Some (JObj m) =>
      let object := match jget "payload" m with Some (JObj p) => p | _ => m end in
      match jget "revision" object with
      | None => Err (Errorf "publish response has no revision")
      | Some (JNum lit _) =>
          match ParseInt lit with
          | Ok rev =>
              reject rev <? 0 with Errorf "revision is not a non-negative integer" in Ok rev
          | Err _ => Err (Errorf "revision is not a non-negative integer")
          end
      | Some _ => Err (Errorf "revision has an invalid type")
      end
  | Some _ => Err (Errorf "publish response is not an object")
  end.

(** ** Chunk counts *)

(** Truncation of a non-negative [float64] to [int64]; a value out of range gives
    the amd64 result. *)
Definition float_trunc (m : positive) (e : Z) : Z :=
  let v := if 0 <=? e then Zpos m * 2 ^ e else Zpos m / 2 ^ (- e) in
  if MaxInt64 <? v then MinInt64 else v.

Definition numberAsInt64 (v : option json) : option Z :=
  match v with
  | Some (JNum _ (S754_zero _)) => Some 0
  | Some (JNum _ (S754_finite false m e)) => Some (float_trunc m e)
  | _ => None
  end.

Fixpoint first_count (f : option json → option Z) (keys : list string)
    (m : list (string * json)) : option Z :=
  match keys with
  | [] => None
  | k :: ks => match f (jget k m) with Some n => Some n | None => first_count f ks m end
  end.

Definition chunk_keys : list string :=
  ["chunk_count"; "chunkCount"; "indexed_chunks"; "indexedChunks"; "total_chunks"; "totalChunks"].

Fixpoint findChunkCount (value : json) : option Z :=
  match value with
  | JObj m =>
      match first_count numberAsInt64 chunk_keys m with
      | Some n => Some n
      | None =>
          match jget "chunks" m with
          | Some (JArr chunks) => Some (zlength chunks)
          | _ =>
              (fix members (l : list (string * json)) : option Z :=
                 match l with
                 | [] => None
                 | (_, child) :: l' =>
                     match findChunkCount child with Some n => Some n | None => members l' end
                 end) m
          end
      end
  | JArr a =>
      (fix elems (l : list json) : option Z :=
         match l with
         | [] => None
         | child :: l' => match findChunkCount child with Some n => Some n | None => elems l' end
         end) a
  | _ => None
  end.

(** [(?i)(\d+)\s+chunks?]: the digits of the leftmost match.  Under [(?i)] the
    letter [k] also matches U+212A. *)
Definition re_space (c : ascii) : bool :=
  let n := GoStrings.code c in
  ((n =? 9) || (n =? 10) || (n =? 12) || (n =? 13) || (n =? 32))%nat.
Definition is_digit (c : ascii) : bool :=
  ((48 <=? GoStrings.code c) && (GoStrings.code c <=? 57))%nat.

Fixpoint span (P : ascii → bool) (l : list ascii) : list ascii * list ascii :=
  match l with
  | c :: r => if P c then let '(a, b) := span P r in (c :: a, b) else ([], l)
  | [] => ([], [])
  end.

Definition starts_chunk (l : list ascii) : bool :=
  match l with
  | c1 :: c2 :: c3 :: c4 :: r =>
      str_eqb (lower_ascii (of_bytes [c1; c2; c3; c4])) "chun" &&
      match r with
      | k :: r' =>
          Ascii.eqb (lower_byte k) "k" ||
          match r' with
          | b :: c :: _ => ((GoStrings.code k =? 226) && (GoStrings.code b =? 132)
                            && (GoStrings.code c =? 170))%nat
          | _ => false
          end
      | [] => false
      end
  | _ => false
  end.

Fixpoint chunk_match (prev_digit : bool) (l : list ascii) : option (list ascii) :=
  match l with
  | [] => None
  | c :: r =>
      let '(ds, rest) := span is_digit l in
      let '(ws, tail) := span re_space rest in
      match ds, ws with
      | _ :: _, _ :: _ =>
          if negb prev_digit && starts_chunk tail then Some ds
          else chunk_match (is_digit c) r
      | _, _ => chunk_match (is_digit c) r
      end
  end.

Definition extractChunkCount (c : content) : Z * bool :=
  let from_text :=
    match chunk_match false (bytes_of (raw c)) with
    | Some ds =>
        match ParseInt (of_bytes ds) with Ok n => (n, true) | Err _ => (0, false) end
    | None => (0, false)
    end in
  match decoded c with
  | Some v => match findChunkCount v with Some n => (n, true) | None => from_text end
  | None => from_text
  end.

(** ** Deletion receipts *)

Definition deleted_keys : list string :=
  ["deleted_files"; "deletedFiles"; "deleted_count"; "deletedCount"].

Fixpoint findDeletedFileCount (value : json) : option Z :=
  match value with
  | JObj m =>
      match first_count numberAsInt64 deleted_keys m with
      | Some n => Some n
      | None =>
          (fix members (l : list (string * json)) : option Z :=
             match l with
             | [] => None
             | (_, child) :: l' =>
                 match findDeletedFileCount child with Some n => Some n | None => members l' end
             end) m
      end
  | JArr a =>
      (fix elems (l : list json) : option Z :=
         match l with
         | [] => None
         | child :: l' =>
             match findDeletedFileCount child with Some n => Some n | None => elems l' end
         end) a
  | _ => None
  end.

Definition extractLCEDeletedFiles (c : content) : option Z :=
  match decoded c with Some v => findDeletedFileCount v | None => None end.

(** [json.Unmarshal] into the receipt struct of [rootDeletionReceipt]: operation,
    root, the [deleted] flag and the file count; [None] is a decoding error. *)
Definition decode_receipt (c : content) :
    option (string * string * option bool * option Z) :=
  match decoded c with
  | Some JNull => Some ("", "", None, None)
  | Some (JObj m) =>
      match string_field "operationId" m, string_field "rootId" m with
      | Some op, Some root =>
          match (match jfield "deleted" m with
                 | None | Some JNull => Some None
                 | Some (JBool b) => Some (Some b)
                 | Some _ => None end),
                (match jfield "deletedFiles" m with
                 | None | Some JNull => Some None
                 | Some (JNum lit _) => match ParseInt lit with Ok n => Some (Some n) | Err _ => None end
                 | Some _ => None end) with
          | Some del, Some cnt => Some (op, root, del, cnt)
          | _, _ => None
          end
      | _, _ => None
      end
  | _ => None
  end.
