(* ===== verification/ToolPolicy.v ===== *)
(** * The public tools (main.go, mcp_index_status_tool.go)

    LCE has more tools than clients may call.  The relay publishes a fixed list with a
    fixed set of arguments, rewrites the schemas LCE announces to it and checks the
    arguments of every call against it.  An object is a Go map: its keys are distinct. *)
From Stdlib Require Import Ascii String.
From S2P Require Import Prelude GoStrings Paths Manifest Json Lce.
Open Scope Z_scope.

Record chatMCPToolPolicy := {
  description : string; arguments : list string; required : list string; optional : bool
}.

Definition chatMCPToolPolicies : list (string * chatMCPToolPolicy) := [
   ("codebase-retrieval", {|
      description := "Search the authenticated user's server-side LCE index. Use information_request for the semantic goal and technical_terms for exact identifier hints. Pass the optional root_id to scope retrieval to one indexed root; omit it to search the tenant default scope. Returns a tenant context pack; local worktree, Git, connectors, workflows, and context_bundle are not available through this remote service.";
      arguments := ["information_request"; "technical_terms"; "response_format"; "root_id"];
      required := ["information_request"]; optional := false |});
   ("codebase_symbol_graph", {|
      description := "Query the authenticated user's server-side symbol graph for definitions, references, callers, callees, importers, related tests, and bounded impact. root_id is required because indexing protocol v1 never writes to the shared default root; the service supplies the tenant identity.";
      arguments := ["root_id"; "symbol"; "query_type"; "depth"; "limit"; "under"; "include_snippets"; "response_format"];
      required := ["root_id"; "symbol"]; optional := false |});
   ("codebase_deep_graph", {|
      description := "Query the authenticated tenant's Neo4j-derived root graph for bounded multi-hop impact, paths, cycles, SCC, and centrality. Results include projection freshness and explicit budget/truncation diagnostics. Global cross-repository analysis remains unavailable until the asynchronous global graph manifest exists. The service supplies tenant identity; root_id is required to select one indexed branch view.";
      arguments := ["root_id"; "symbol"; "target_symbol"; "query_type"; "direction"; "depth"; "limit"; "max_nodes"; "max_edges"; "max_paths"; "relationship_types"; "required_revision"; "allow_stale"; "include_evidence"; "response_format"];
      required := ["root_id"; "symbol"]; optional := false |});
   ("codebase_graph_algorithm", {|
      description := "Submit or inspect a durable asynchronous SCC or centrality job for the authenticated tenant's ready Neo4j root generation. Use operation=submit with root_id and algorithm, or operation=status with job_id. The tool reports executor availability and never runs a full-graph algorithm synchronously in the request. The service supplies tenant identity.";
      arguments := ["operation"; "root_id"; "job_id"; "algorithm"; "parameters"; "result_ttl_seconds"; "response_format"];
      required := []; optional := false |});
   ("codebase_swift_sync", {|
      description := "Automatic build-host Swift compiler synchronization. Source manifest and plan preparation, bounded snapshot upload, and asynchronous publication. The service supplies authenticated tenant identity.";
      arguments := ["operation"; "root_id"; "epoch_id"; "revision"; "path"; "paths"; "job_id"; "snapshot_hash"; "byte_count"; "part_count"; "part"; "data"; "response_format"];
      required := ["operation"; "root_id"]; optional := true |});
   ("codebase_enhance_prompt", {|
      description := "Use when the user explicitly asks to enhance or refine a coding prompt, or asks for a code-grounded implementation brief before coding. Pass the complete original request in prompt and known symbols, file names, or error codes in technical_terms. The result contains goals, requirements, constraints, verified code references, verification steps, and open questions. Treat it as supplemental: the original request remains authoritative. Do not call automatically for every ordinary coding task. The service supplies tenant identity; root_id may scope the request to one indexed branch view.";
      arguments := ["prompt"; "technical_terms"; "root_id"; "output_language"; "response_format"];
      required := ["prompt"]; optional := false |})].

Fixpoint assoc {A} (k : string) (l : list (string * A)) : option A :=
  match l with
  | [] => None
  | (k', v) :: l' => if str_eqb k k' then Some v else assoc k l'
  end.
Definition policy_of (name : string) : option chatMCPToolPolicy := assoc name chatMCPToolPolicies.

Definition has (k : string) (l : list string) : bool := existsb (str_eqb k) l.
Definition sort_Strings (l : list string) : list string := merge_sort String.le l.
Definition sortedStringSetKeys (values : list string) : list string := sort_Strings values.

(** [m[k] = v] and [delete(m, k)] *)
Definition jdelete (k : string) (m : list (string * json)) : list (string * json) :=
  List.filter (λ kv, negb (str_eqb k kv.1)) m.
Definition jset (k : string) (v : json) (m : list (string * json)) : list (string * json) :=
  jdelete k m ++ [(k, v)].

Definition codebaseIndexStatusToolName : string := "codebase_index_status".
Definition codebaseIndexToolName : string := "codebase_index".
Definition swiftSyncToolName : string := "codebase_swift_sync".

Definition isChatMCPToolAllowed (name : string) : bool :=
  let name := TrimSpace name in
  str_eqb name codebaseIndexToolName || str_eqb name codebaseIndexStatusToolName
  || match policy_of name with Some _ => true | None => false end.

Definition chatMCPToolUsesRerankConfig (name : string) : bool :=
  str_eqb name "codebase-retrieval" || str_eqb name "codebase_enhance_prompt".

(** ** Arguments of a call *)

(** The first required argument that is missing or blank. *)
Fixpoint check_required (fields : list string) (args : list (string * json)) : result error unit :=
  match fields with
  | [] => Ok tt
  | field :: rest =>
      match jget field args with
      | None | Some JNull => Err (Errorf ("missing required argument: " +:+ field))
      | Some (JStr text) =>
          reject str_eqb (TrimSpace text) ""
            with Errorf ("required argument must not be blank: " +:+ field) in
          check_required rest args
      | Some _ => check_required rest args
      end
  end.

Definition check_root_id (args : list (string * json)) : result error unit :=
  match jget "root_id" args with
  | None | Some JNull => Ok tt
  | Some (JStr text) =>
      reject str_eqb (TrimSpace text) "" with Errorf "root_id must not be blank" in
      reject maxIndexRootIDLen <? len text
        with Errorf ("root_id exceeds " +:+ FormatInt maxIndexRootIDLen +:+ " bytes") in
      Ok tt
  | Some _ => Err (Errorf "root_id must be a string")
  end.

Definition requireNonBlankString (args : list (string * json)) (field : string) : result error unit :=
  match jget field args with
  | None | Some JNull => Err (Errorf ("missing required argument: " +:+ field))
  | Some (JStr text) =>
      reject str_eqb (TrimSpace text) ""
        with Errorf ("required argument must be a non-blank string: " +:+ field) in Ok tt
  | Some _ => Err (Errorf ("required argument must be a non-blank string: " +:+ field))
  end.

Definition graph_operation (args : list (string * json)) : result error string :=
  match jget "operation" args with
  | None | Some JNull => Ok "submit"
  | Some (JStr text) =>
      reject str_eqb (TrimSpace text) "" with Errorf "operation must be a non-blank string" in
      Ok (TrimSpace text)
  | Some _ => Err (Errorf "operation must be a non-blank string")
  end.

Definition check_graph_algorithm (args : list (string * json)) : result error unit :=
  let? operation := graph_operation args in
  if str_eqb operation "submit" then
    let? _ := requireNonBlankString args "root_id" in requireNonBlankString args "algorithm"
  else if str_eqb operation "status" then requireNonBlankString args "job_id"
  else Err (Errorf ("unsupported graph algorithm operation: " +:+ operation)).

Definition validateChatMCPToolArgs (toolName : string) (args : list (string * json)) : result error unit :=
  match policy_of toolName with
  | None => Err (Errorf "tool is not available")
  | Some policy =>
      let unsupported := List.filter (λ field, negb (has field (arguments policy))) (map fst args) in
      reject (0 <? Z.of_nat (length unsupported))
        with Errorf ("unsupported arguments for " +:+ toolName +:+ ": "
                     +:+ Join ", " (sort_Strings unsupported)) in
      let? _ := check_required (sortedStringSetKeys (required policy)) args in
      let? _ := check_root_id args in
      if str_eqb toolName "codebase_graph_algorithm" then check_graph_algorithm args else Ok tt
  end.

Section quoting.
(** strconv.Quote, the text of [%q], which consults the Unicode tables. *)
Context (strconv_Quote : string → string).

Fixpoint validateCodebaseIndexStatusArgs (args : list (string * json)) : result error unit :=
  match args with
  | [] => Ok tt
  | (key, value) :: rest =>
      if str_eqb key "root_id" then
        match value with
        | JNull => validateCodebaseIndexStatusArgs rest
        | JStr rootID =>
            reject str_eqb (TrimSpace rootID) ""
              with Errorf "root_id must be a non-empty string when provided" in
            validateCodebaseIndexStatusArgs rest
        | _ => Err (Errorf "root_id must be a non-empty string when provided")
        end
      else Err (Errorf ("unknown argument " +:+ strconv_Quote key +:+ " for " +:+ codebaseIndexStatusToolName))
  end.

(** ** The published list *)

(** [json.Unmarshal(tool, &metadata)]: the struct field matches up to case. *)
Definition tool_metadata (tool : json) : option string :=
  match tool with
  | JObj m => string_field "name" m
  | JNull => Some ""
  | _ => None
  end.

Definition keep_allowed (policy : chatMCPToolPolicy) (props : list (string * json)) : list (string * json) :=
  List.filter (λ kv, has kv.1 (arguments policy)) props.

Fixpoint check_present (name : string) (fields : list string) (props : list (string * json)) : result error unit :=
  match fields with
  | [] => Ok tt
  | field :: rest =>
      match jget field props with
      | None => Err (Errorf ("allowed tool " +:+ strconv_Quote name +:+ " is missing required property "
                             +:+ strconv_Quote field))
      | Some _ => check_present name rest props
      end
  end.

Definition rewrite_schema (name : string) (policy : chatMCPToolPolicy) (schema : list (string * json)) :
    result error (list (string * json)) :=
  match jget "properties" schema with
  | Some (JObj props) =>
      let props := keep_allowed policy props in
      let? _ := check_present name (sortedStringSetKeys (required policy)) props in
      let s := jset "properties" (JObj props) schema in
      let s := jset "required" (JArr (map JStr (sortedStringSetKeys (required policy)))) s in
      let s := jset "additionalProperties" (JBool false) s in
      Ok (jdelete "oneOf" s)
  | _ => Err (Errorf ("allowed tool " +:+ strconv_Quote name +:+ " has no object properties schema"))
  end.

(** The value that is marshalled again; a tool that is not an object, or is not in the
    list under its exact key [name], stays as it is. *)
Definition rewriteToolSchema (toolJSON : json) : result error json :=
  match toolJSON with
  | JObj tool =>
      let name := TrimSpace (match jget "name" tool with Some (JStr s) => s | _ => "" end) in
      match policy_of name with
      | None => Ok toolJSON
      | Some policy =>
          let tool := jset "description" (JStr (description policy)) (jset "name" (JStr name) tool) in
          match jget "inputSchema" tool with
          | None => Err (Errorf ("allowed tool " +:+ strconv_Quote name +:+ " has no inputSchema"))
          | Some (JObj schema) =>
              let? schema := rewrite_schema name policy schema in
              Ok (JObj (jset "inputSchema" (JObj schema) tool))
          | Some _ => Err (Errorf ("allowed tool " +:+ strconv_Quote name +:+ " has a non-object inputSchema"))
          end
      end
  | _ => Ok toolJSON
  end.

Definition wrap_error (prefix : string) (e : error) : error := Errorf (prefix +:+ error_text e).

(** The texts of JSON decoding errors are left out.

    The loop of [filterChatMCPTools]: the rewritten tools and the names seen. *)
Fixpoint filter_loop (tools : list json) (seen : list string) : result error (list json * list string) :=
  match tools with
  | [] => Ok ([], seen)
  | tool :: rest =>
      match tool_metadata tool with
      | None => Err (Errorf "parse MCP tool metadata")
      | Some n =>
          let name := TrimSpace n in
          match policy_of name with
          | None => filter_loop rest seen
          | Some _ =>
              reject has name seen with Errorf ("duplicate allowed MCP tool " +:+ strconv_Quote name) in
              match rewriteToolSchema tool with
              | Err e => Err (wrap_error ("rewrite MCP tool schema " +:+ strconv_Quote name +:+ ": ") e)
              | Ok rewritten =>
                  let? (filtered, seen') := filter_loop rest (name :: seen) in
                  Ok (rewritten :: filtered, seen')
              end
          end
      end
  end.

Definition json_array (c : content) : option (list json) :=
  match decoded c with Some (JArr l) => Some l | Some JNull => Some [] | _ => None end.

Definition filterChatMCPTools (raw : content) : result error (list json) :=
  match json_array raw with
  | None => Err (Errorf "parse MCP tools")
  | Some tools =>
      let? (filtered, seen) := filter_loop tools [] in
      let missing := List.filter (λ name, negb (has name seen))
                       (map fst (List.filter (λ p, negb (optional (snd p))) chatMCPToolPolicies)) in
      reject (0 <? Z.of_nat (length missing))
        with Errorf ("upstream LCE is missing required public MCP tools: " +:+ Join ", " (sort_Strings missing)) in
      Ok filtered
  end.

(** [appendCodebaseIndexTool] and [appendCodebaseIndexStatusTool]: a definition of the
    relay's own, refused when LCE announces a tool of that name. *)
Fixpoint check_no_duplicate (name : string) (tools : list json) : result error unit :=
  match tools with
  | [] => Ok tt
  | tool :: rest =>
      match tool_metadata tool with
      | None => Err (Errorf "parse MCP tool metadata")
      | Some n =>
          reject str_eqb (TrimSpace n) name with Errorf ("duplicate public MCP tool " +:+ strconv_Quote name) in
          check_no_duplicate name rest
      end
  end.
Definition append_tool (name : string) (definition : json) (tools : list json) : result error (list json) :=
  let? _ := check_no_duplicate name tools in Ok (tools ++ [definition]).

Definition codebaseIndexStatusToolDefinition : json :=
  JObj [("name", JStr codebaseIndexStatusToolName);
        ("description", JStr "Report the current indexing state and progress for the authenticated tenant's project roots. Use this when a codebase tool is not ready or when the user asks whether indexing is complete. The response includes each root's state, phase, processed file counts, percentage, and failure reason when available.");
        ("inputSchema", JObj [
           ("type", JStr "object");
           ("properties", JObj [("root_id", JObj [
              ("type", JStr "string");
              ("description", JStr "Optional indexed root ID. Omit it to report all roots visible to the authenticated tenant.")])]);
           ("additionalProperties", JBool false)])].
Definition appendCodebaseIndexStatusTool (tools : list json) : result error (list json) :=
  append_tool codebaseIndexStatusToolName codebaseIndexStatusToolDefinition tools.

Definition codebaseIndexLimitsMetadataKey : string := "com.anmezing.lce/index-limits".
Definition codebaseIndexLimitMetadata : json :=
  JObj [("maxFileBytes", JInt maxIndexFileBytes); ("maxBatchFiles", JInt maxIndexBatchFiles);
        ("maxBatchBytes", JInt maxIndexBatchBytes); ("estimatedChunkBytes", JInt estimatedIndexChunkBytes);
        ("maxEstimatedChunks", JInt maxIndexEstimatedChunks);
        ("maxManifestFiles", JInt maxIndexManifestFiles); ("maxPathBytes", JInt maxIndexPathBytes)].

(** Shorthands for the schema of [codebaseIndexToolDefinition]. *)
Definition string_schema (limits : list (string * Z)) : json :=
  JObj (("type", JStr "string") :: map (λ kv, (kv.1, JInt kv.2)) limits).
Definition object_schema (required : list string) (properties : list (string * json)) : json :=
  JObj [("type", JStr "object"); ("additionalProperties", JBool false);
        ("required", JArr (map JStr required)); ("properties", JObj properties)].
Definition integer_schema (maximum : Z) : json :=
  JObj [("type", JStr "integer"); ("minimum", JInt 1); ("maximum", JInt maximum)].
Definition array_schema (maxItems : Z) (items : json) : json :=
  JObj [("type", JStr "array"); ("maxItems", JInt maxItems); ("items", items)].
Definition hash_schema : json := JObj [("type", JStr "string"); ("pattern", JStr "^[a-fA-F0-9]{64}$")].
Definition path_schema : json := string_schema [("minLength", 1); ("maxLength", maxIndexPathBytes)].
Definition operation_schema (name : string) : json := JObj [("type", JStr "string"); ("const", JStr name)].
Definition id_schema : json := string_schema [("minLength", 1)].
Definition root_schema : json := string_schema [("minLength", 1); ("maxLength", maxIndexRootIDLen)].

Definition manifest_file_schema : json :=
  object_schema ["path"; "hash"; "size"; "estimated_chunks"]
    [("path", path_schema); ("hash", hash_schema); ("size", integer_schema maxIndexFileBytes);
     ("estimated_chunks", integer_schema maxIndexEstimatedChunks)].
Definition upload_file_schema : json :=
  object_schema ["path"; "hash"; "content"]
    [("path", path_schema); ("hash", hash_schema); ("content", string_schema [("maxLength", maxIndexFileBytes)])].
Definition job_operation_schema (name : string) : json :=
  object_schema ["operation"; "job_id"] [("operation", operation_schema name); ("job_id", id_schema)].

Definition codebaseIndexToolDefinition : json :=
  JObj [("name", JStr codebaseIndexToolName);
        ("_meta", JObj [(codebaseIndexLimitsMetadataKey, codebaseIndexLimitMetadata)]);
        ("description", JStr ("Synchronize the current local workspace into the authenticated tenant index without an IDE plugin. "
          +:+ "The Agent must read the workspace with its native file tools, exclude secrets/binaries/generated dependencies, and call operations in order: "
          +:+ "start with the complete UTF-8 file manifest and stable root_id; upload only pending_files in bounded batches; "
          +:+ "call upload once with an empty files array when start reports only deletions; complete after every pending file is accepted; "
          +:+ "call fail if upload cannot finish. heartbeat renews active upload leases; status is read-only. After complete, publication is owned and reconciled by the server even if the client disconnects. The server injects tenant identity and enforces "
          +:+ "SHA-256 content matching, manifest and batch limits, byte quota, model fingerprint, root isolation, deletion handling, and graph finalization."));
        ("inputSchema", JObj [("type", JStr "object"); ("oneOf", JArr [
          object_schema ["operation"; "root_id"; "files"]
            [("operation", operation_schema "start"); ("root_id", root_schema);
             ("workspace_name", string_schema [("maxLength", 256)]); ("branch", string_schema [("maxLength", 512)]);
             ("revision", string_schema [("maxLength", 512)]); ("client_version", string_schema [("maxLength", 64)]);
             ("files", array_schema maxIndexManifestFiles manifest_file_schema);
             ("unreadable_files", array_schema maxIndexManifestFiles path_schema)];
          object_schema ["operation"; "job_id"; "root_id"; "files"]
            [("operation", operation_schema "upload"); ("job_id", id_schema); ("root_id", root_schema);
             ("files", array_schema maxIndexBatchFiles upload_file_schema)];
          job_operation_schema "status"; job_operation_schema "heartbeat"; job_operation_schema "complete";
          object_schema ["operation"; "job_id"; "error"]
            [("operation", operation_schema "fail"); ("job_id", id_schema);
             ("error", string_schema [("maxLength", 2000)]);
             ("error_code", string_schema [("minLength", 1); ("maxLength", 64)]);
             ("error_origin", string_schema [("minLength", 1); ("maxLength", 32)]);
             ("recovery", string_schema [("minLength", 1); ("maxLength", 64)])]])])].
Definition appendCodebaseIndexTool (tools : list json) : result error (list json) :=
  append_tool codebaseIndexToolName codebaseIndexToolDefinition tools.

(** What [getCachedToolsList] publishes. *)
Definition publish_tools (raw : content) : result error (list json) :=
  let? tools := filterChatMCPTools raw in
  let? tools := appendCodebaseIndexTool tools in
  appendCodebaseIndexStatusTool tools.
End quoting.

(** ** Laws *)

Lemma jget_filter (P : string * json → bool) k m :
  (∀ v, P (k, v) = true) → jget k (List.filter P m) = jget k m.
Proof.
  intros HP. induction m as [|[k' v] m IH]; simpl; [done|]. destruct (str_eqb k k') eqn:E.
  - apply str_eqb_true in E as <-. rewrite HP. simpl. by rewrite str_eqb_refl.
  - destruct (P (k', v)); simpl; [by rewrite E|done].
Qed.
Lemma jget_filter_None (P : string * json → bool) k m :
  (∀ v, P (k, v) = false) → jget k (List.filter P m) = None.
Proof.
  intros HP. induction m as [|[k' v] m IH]; simpl; [done|]. destruct (P (k', v)) eqn:EP; [|done]. simpl.
  destruct (str_eqb k k') eqn:E; [|done]. apply str_eqb_true in E as <-. by rewrite HP in EP.
Qed.
Lemma jget_app k m1 m2 : jget k (m1 ++ m2) = match jget k m1 with Some v => Some v | None => jget k m2 end.
Proof. induction m1 as [|[k' v] m1 IH]; simpl; [done|]. by destruct (str_eqb k k'). Qed.
Lemma jget_jdelete k m : jget k (jdelete k m) = None.
Proof. apply jget_filter_None. intros v. simpl. by rewrite str_eqb_refl. Qed.
Lemma jget_jdelete_ne k k' m : k ≠ k' → jget k (jdelete k' m) = jget k m.
Proof.
  intros Hne. apply jget_filter. intros v. simpl. apply negb_true_iff, str_eqb_false. congruence.
Qed.
Lemma jget_jset k v m : jget k (jset k v m) = Some v.
Proof. unfold jset. rewrite jget_app, jget_jdelete. simpl. by rewrite str_eqb_refl. Qed.
Lemma jget_jset_ne k k' v m : k ≠ k' → jget k (jset k' v m) = jget k m.
Proof.
  intros Hne. unfold jset. rewrite jget_app, jget_jdelete_ne by done. destruct (jget k m); [done|]. simpl.
  by rewrite (proj2 (str_eqb_false k k') Hne).
Qed.
Lemma jget_In k v m : jget k m = Some v → In (k, v) m.
Proof.
  induction m as [|[k' v'] m IH]; simpl; [done|]. destruct (str_eqb k k') eqn:E.
  - apply str_eqb_true in E as <-. intros [= ->]. by left.
  - intros ?. right. auto.
Qed.
Lemma In_jget k v m : In (k, v) m → is_Some (jget k m).
Proof.
  induction m as [|[k' v'] m IH]; simpl; [done|]. intros [[= -> ->]|H].
  - rewrite str_eqb_refl. by eexists.
  - destruct (str_eqb k k'); [by eexists|auto].
Qed.
Lemma has_In k l : has k l = true ↔ In k l.
Proof.
  unfold has. rewrite existsb_exists. split.
  - by intros (x & Hx & <-%str_eqb_true).
  - intros Hk. exists k. split; [done|]. apply str_eqb_refl.
Qed.
Lemma In_sorted k l : In k (sortedStringSetKeys l) ↔ In k l.
Proof.
  unfold sortedStringSetKeys, sort_Strings. rewrite <- !list_elem_of_In. by rewrite merge_sort_Permutation.
Qed.
Lemma filter_nil_In {A} (P : A → bool) l : List.filter P l = [] → ∀ x, In x l → P x = false.
Proof.
  intros H x Hx. destruct (P x) eqn:E; [|done]. assert (In x (List.filter P l)) as Hin by (by apply filter_In).
  by rewrite H in Hin.
Qed.

(** *** Checked arguments *)

Definition present (v : option json) : Prop :=
  match v with
  | None | Some JNull => False
  | Some (JStr text) => TrimSpace text ≠ ""
  | Some _ => True
  end.

Lemma check_required_spec fields args :
  check_required fields args = Ok tt → ∀ f, In f fields → present (jget f args).
Proof.
  induction fields as [|f0 fields IH]; simpl; [done|]. intros H f [<-|Hf].
  - unfold present. destruct (jget f0 args) as [[]|]; try done. split_all. by apply str_eqb_false.
  - apply IH; [|done]. destruct (jget f0 args) as [[]|]; try done. by split_all.
Qed.

Lemma args_whitelisted name args :
  validateChatMCPToolArgs name args = Ok tt →
  ∃ policy, policy_of name = Some policy ∧
    (∀ k, is_Some (jget k args) → In k (arguments policy)) ∧
    (∀ k, In k (required policy) → present (jget k args)) ∧
    match jget "root_id" args with
    | None | Some JNull => True
    | Some (JStr r) => TrimSpace r ≠ "" ∧ len r ≤ maxIndexRootIDLen
    | Some _ => False
    end.
Proof.
  unfold validateChatMCPToolArgs. destruct (policy_of name) as [policy|]; [|done].
  set (un := List.filter _ _). destruct (0 <? Z.of_nat (length un)) eqn:Eu; [done|].
  destruct (check_required _ _) as [[]|] eqn:Er; [|done].
  destruct (check_root_id args) as [[]|] eqn:Eroot; [|done]. intros _. exists policy. split_and!; [done|..].
  - intros k [v Hv]. apply jget_In in Hv. apply has_In. apply negb_false_iff.
    apply (filter_nil_In (λ field, negb (has field (arguments policy))) (map fst args)).
    + fold un. destruct un; [done|]. simpl in Eu. apply Z.ltb_ge in Eu. lia.
    + apply in_map_iff. by exists (k, v).
  - intros k Hk. apply (check_required_spec _ _ Er). by apply In_sorted.
  - unfold check_root_id in Eroot. destruct (jget "root_id" args) as [[]|]; try done. split_all. reflect_bools.
    split; [by apply str_eqb_false|lia].
Qed.

(** *** The published list *)

(** LCE names a tool under the key [name] itself, not a spelling of it in other case. *)
Definition exact_name (tool : json) : Prop :=
  match tool with
  | JObj m => jfield "name" m = jget "name" m
  | _ => True
  end.

Definition published_tool (tool : json) : Prop :=
  ∃ name policy m schema props,
    tool = JObj m ∧ policy_of name = Some policy ∧ jget "name" m = Some (JStr name) ∧
    jget "inputSchema" m = Some (JObj schema) ∧ jget "properties" schema = Some (JObj props) ∧
    (∀ k, is_Some (jget k props) → In k (arguments policy)) ∧
    (∀ k, In k (required policy) → is_Some (jget k props)) ∧
    jget "additionalProperties" schema = Some (JBool false) ∧ jget "oneOf" schema = None.

Section published.
Context (strconv_Quote : string → string).

Lemma check_present_spec name fields props :
  check_present strconv_Quote name fields props = Ok tt → ∀ k, In k fields → is_Some (jget k props).
Proof.
  induction fields as [|f fields IH]; simpl; [done|]. destruct (jget f props) eqn:E; [|done].
  intros H k [<-|Hk]; [by eexists|by apply IH].
Qed.

Lemma rewrite_schema_spec name policy schema out :
  rewrite_schema strconv_Quote name policy schema = Ok out →
  ∃ props, jget "properties" out = Some (JObj props) ∧
    (∀ k, is_Some (jget k props) → In k (arguments policy)) ∧
    (∀ k, In k (required policy) → is_Some (jget k props)) ∧
    jget "additionalProperties" out = Some (JBool false) ∧ jget "oneOf" out = None.
Proof.
  unfold rewrite_schema. destruct (jget "properties" schema) as [[| | | | |props]|]; try done.
  destruct (check_present _ _ _ _) as [[]|] eqn:Ec; [|done]. intros [= <-]. exists (keep_allowed policy props).
  split_and!.
  - by rewrite jget_jdelete_ne, !jget_jset_ne, jget_jset by done.
  - intros k [v Hv%jget_In]. unfold keep_allowed in Hv. apply filter_In in Hv as [_ Hv]. by apply has_In.
  - intros k Hk. apply (check_present_spec _ _ _ Ec). by apply In_sorted.
  - by rewrite jget_jdelete_ne, jget_jset by done.
  - apply jget_jdelete.
Qed.

Lemma rewrite_tool_spec tool out n :
  exact_name tool → tool_metadata tool = Some n → is_Some (policy_of (TrimSpace n)) →
  rewriteToolSchema strconv_Quote tool = Ok out → published_tool out.
Proof.
  intros Hex Hn [policy Hp] Hr. destruct tool as [| | | | |m]; try (by injection Hn as <-); [done..|]. 
  unfold exact_name in Hex. unfold tool_metadata, string_field in Hn. rewrite Hex in Hn.
  unfold rewriteToolSchema in Hr.
  assert (TrimSpace match jget "name" m with Some (JStr s) => s | _ => "" end = TrimSpace n) as Hname.
  { destruct (jget "name" m) as [[]|]; try done; by injection Hn as <-. }
  rewrite Hname, Hp in Hr. rewrite jget_jset_ne, jget_jset_ne in Hr by done.
  destruct (jget "inputSchema" m) as [[| | | | |schema]|]; try done.
  destruct (rewrite_schema _ _ _ _) as [s'|] eqn:Es; [|done]. injection Hr as <-.
  destruct (rewrite_schema_spec _ _ _ _ Es) as (props & H1 & H2 & H3 & H4 & H5).
  eexists (TrimSpace n), policy, _, s', props. split_and!; try done.
  - by rewrite !jget_jset_ne, jget_jset by done.
  - by rewrite jget_jset.
Qed.

Lemma filter_loop_spec tools seen out seen' :
  Forall exact_name tools → filter_loop strconv_Quote tools seen = Ok (out, seen') → Forall published_tool out.
Proof.
  intros Hex. revert seen out seen'. induction Hex as [|tool tools Ht _ IH]; intros seen out seen'; simpl.
  { intros [= <- <-]. constructor. }
  destruct (tool_metadata tool) as [n|] eqn:En; [|done].
  destruct (policy_of (TrimSpace n)) eqn:Ep; [|apply IH].
  destruct (has _ seen); [done|]. destruct (rewriteToolSchema _ tool) as [r|] eqn:Er; [|done].
  destruct (filter_loop _ tools _) as [[o s']|] eqn:Ef; [|done]. intros [= <- <-].
  constructor; [|by eapply IH]. eapply rewrite_tool_spec; eauto.
Qed.

(** [C34] Whatever list of tools LCE announces, the relay publishes only
    tools of its own list: each one offers only the allowed arguments, has every required one,
    forbids additional properties and has no alternative schema; beside them there are exactly
    the two tools that the relay answers itself. *)
Theorem published_tools_restricted raw upstream tools :
  json_array raw = Some upstream → Forall exact_name upstream →
  publish_tools strconv_Quote raw = Ok tools →
  ∃ rewritten, tools = rewritten ++ [codebaseIndexToolDefinition; codebaseIndexStatusToolDefinition] ∧
               Forall published_tool rewritten.
Proof.
  intros Hraw Hex. unfold publish_tools, filterChatMCPTools. rewrite Hraw.
  destruct (filter_loop _ upstream []) as [[filtered seen]|] eqn:Ef; [|done].
  set (missing := List.filter _ _). destruct (0 <? _); [done|].
  unfold appendCodebaseIndexTool, appendCodebaseIndexStatusTool, append_tool.
  destruct (check_no_duplicate _ _ filtered); [|done]. destruct (check_no_duplicate _ _ (filtered ++ _)); [|done].
  intros [= <-]. exists filtered. split; [by rewrite <- app_assoc|]. by eapply filter_loop_spec.
Qed.
End published.

(** LCE announces one tool more, an argument more per tool and an alternative schema. *)
Definition ex_tool (name : string) (props : list string) : json :=
  JObj [("name", JStr name);
        ("inputSchema", JObj [("properties", JObj (map (λ p, (p, JNull)) ("tenant_id" :: props))); ("oneOf", JNull)])].
Definition ex_upstream : list json :=
  ex_tool "codebase_clear_index" [] :: map (λ p, ex_tool p.1 (required p.2)) chatMCPToolPolicies.
Definition ex_tools : content := {| raw := ""; decoded := Some (JArr ex_upstream) |}.

Lemma published_tools_restricted_witness :
  match publish_tools (λ s, s) ex_tools with
  | Ok tools => length tools = 8%nat ∧ ∃ rewritten,
      tools = rewritten ++ [codebaseIndexToolDefinition; codebaseIndexStatusToolDefinition] ∧
      Forall published_tool rewritten
  | Err _ => False
  end.
Proof.
  destruct (publish_tools (λ s, s) ex_tools) as [tools|] eqn:E; [|vm_compute in E; discriminate].
  split; [vm_compute in E; injection E as <-; reflexivity|].
  apply (published_tools_restricted (λ s, s) ex_tools ex_upstream tools); [reflexivity| |exact E].
  repeat constructor.
Defined.
