(* ===== verification/Store.v ===== *)
(** * The relay's PostgreSQL tables

    The tables that [migrateIndexingTables] (index_jobs.go) creates, as finite maps
    keyed by their primary keys, and the SQL statement forms the relay uses on
    them.  [index_job_files] (key job and path) and [indexed_files] (key user,
    workspace and path) are grouped by the leading key columns; a column that is only ever
    written at insertion is in the [_meta] part of its row.  [relay_runtime_settings] is
    the table of client_version_policy.go.  Identifiers are the canonical texts of UUIDs,
    as the relay hands them out: a UUID column compares values, these maps compare texts. *)
From Stdlib Require Import Ascii String.
From S2P Require Import Prelude GoStrings Paths Manifest Failure.
Open Scope Z_scope.

(** ** index_jobs *)

Inductive job_phase := Created | Uploading | Indexing | Publishing | Done.
#[export] Instance job_phase_eq_dec : EqDecision job_phase.
Proof. solve_decision. Defined.

Inductive job_mode := Full | Incremental.
#[export] Instance job_mode_eq_dec : EqDecision job_mode.
Proof. solve_decision. Defined.

Record job_meta := {
  user_id : string;
  workspace_id : string;
  workspace_name : string;
  root_id : string;
  branch : string;
  revision : string;
  mode : job_mode;
  workspace_files : Z;
  total_files : Z;
  deleted_count : Z;
  started_at : Z
}.

Record job_progress := {
  phase : job_phase;
  status : job_status;
  indexed_count : Z;
  failed_files : Z;
  total_chunks : Z;
  indexed_chunks : Z;
  chunk_count_fallback : bool;
  deletions_sent : bool;
  cloud_revision : Z;
  heartbeat_at : Z;
  completed_at : option Z;
  publishing_since : option Z
}.

Record job_failure := { error_message : string; error_diag : indexFailureDiagnostic }.

Record index_job := { meta : job_meta; prog : job_progress; fail : job_failure }.

Definition no_failure : job_failure := {| error_message := ""; error_diag := no_diagnostic |}.

(** ** The other tables *)

Record job_file := {
  jf_hash : string;
  jf_size : Z;
  jf_estimated_chunks : Z;
  needs_index : bool;
  indexed : bool
}.

Record indexed_file := {
  if_hash : string;
  if_size : Z;
  if_estimated_chunks : Z
}.

Record workspace := {
  ws_name : string;
  ws_root : string;
  ws_branch : string;
  ws_revision : string;
  ws_cloud_revision : Z;
  ws_indexed_at : Z
}.

Inductive lease_mode := LShared | LExclusive.
#[export] Instance lease_mode_eq_dec : EqDecision lease_mode.
Proof. solve_decision. Defined.

Record lease := {
  l_user : string;
  l_resource : string;
  l_mode : lease_mode;
  l_kind : string;
  l_acquired_at : Z;
  l_expires_at : Z
}.

Inductive deletion_status := Queued | DRunning | Succeeded | DFailed.
#[export] Instance deletion_status_eq_dec : EqDecision deletion_status.
Proof. solve_decision. Defined.

Record root_deletion := {
  rd_user : string;
  rd_actor : string;
  rd_root : string;
  rd_status : deletion_status;
  rd_attempt_id : option string;
  rd_claim_until : option Z;
  rd_attempt_count : Z;
  rd_recovery_required : bool;
  rd_next_attempt_at : Z;
  rd_deleted_files : Z;
  rd_error : string;
  rd_created_at : Z;
  rd_updated_at : Z
}.

Inductive config_status := CPending | CRunning | CSucceeded | CRejected.
#[export] Instance config_status_eq_dec : EqDecision config_status.
Proof. solve_decision. Defined.

Record clearedRelayIndexes := { Jobs : Z; Files : Z; Workspaces : Z; Leases : Z }.

Record config_job := {
  pc_section : string;
  pc_embedding_changed : bool;
  pc_status : config_status;
  pc_attempt_id : option string;
  pc_claim_until : option Z;
  pc_attempt_count : Z;
  pc_recovery_required : bool;
  pc_next_attempt_at : Z;
  pc_error : string;
  pc_result : option clearedRelayIndexes;
  pc_created_at : Z;
  pc_updated_at : Z
}.

Record DB := {
  index_jobs : gmap string index_job;
  index_job_files : gmap string (gmap string job_file);
  indexed_files : gmap (string * string) (gmap string indexed_file);
  index_workspaces : gmap (string * string) workspace;
  index_operation_leases : gmap string lease;
  root_deletion_jobs : gmap string root_deletion;
  platform_config_jobs : gmap string config_job;
  relay_runtime_settings : gmap string string     (* client_version_policy.go *)
}.

Definition empty_db : DB := {|
  index_jobs := ∅; index_job_files := ∅; indexed_files := ∅; index_workspaces := ∅;
  index_operation_leases := ∅; root_deletion_jobs := ∅; platform_config_jobs := ∅;
  relay_runtime_settings := ∅
|}.

Definition set_jobs (f : gmap string index_job → gmap string index_job) (d : DB) : DB := {|
  index_jobs := f (index_jobs d); index_job_files := index_job_files d;
  indexed_files := indexed_files d; index_workspaces := index_workspaces d;
  index_operation_leases := index_operation_leases d;
  root_deletion_jobs := root_deletion_jobs d; platform_config_jobs := platform_config_jobs d;
  relay_runtime_settings := relay_runtime_settings d |}.
Definition set_job_files (f : gmap string (gmap string job_file) →
    gmap string (gmap string job_file)) (d : DB) : DB := {|
  index_jobs := index_jobs d; index_job_files := f (index_job_files d);
  indexed_files := indexed_files d; index_workspaces := index_workspaces d;
  index_operation_leases := index_operation_leases d;
  root_deletion_jobs := root_deletion_jobs d; platform_config_jobs := platform_config_jobs d;
  relay_runtime_settings := relay_runtime_settings d |}.
Definition set_indexed (f : gmap (string * string) (gmap string indexed_file) →
    gmap (string * string) (gmap string indexed_file)) (d : DB) : DB := {|
  index_jobs := index_jobs d; index_job_files := index_job_files d;
  indexed_files := f (indexed_files d); index_workspaces := index_workspaces d;
  index_operation_leases := index_operation_leases d;
  root_deletion_jobs := root_deletion_jobs d; platform_config_jobs := platform_config_jobs d;
  relay_runtime_settings := relay_runtime_settings d |}.
Definition set_workspaces (f : gmap (string * string) workspace → gmap (string * string) workspace)
    (d : DB) : DB := {|
  index_jobs := index_jobs d; index_job_files := index_job_files d;
  indexed_files := indexed_files d; index_workspaces := f (index_workspaces d);
  index_operation_leases := index_operation_leases d;
  root_deletion_jobs := root_deletion_jobs d; platform_config_jobs := platform_config_jobs d;
  relay_runtime_settings := relay_runtime_settings d |}.
Definition set_leases (f : gmap string lease → gmap string lease) (d : DB) : DB := {|
  index_jobs := index_jobs d; index_job_files := index_job_files d;
  indexed_files := indexed_files d; index_workspaces := index_workspaces d;
  index_operation_leases := f (index_operation_leases d);
  root_deletion_jobs := root_deletion_jobs d; platform_config_jobs := platform_config_jobs d;
  relay_runtime_settings := relay_runtime_settings d |}.
Definition set_deletions (f : gmap string root_deletion → gmap string root_deletion) (d : DB) : DB := {|
  index_jobs := index_jobs d; index_job_files := index_job_files d;
  indexed_files := indexed_files d; index_workspaces := index_workspaces d;
  index_operation_leases := index_operation_leases d;
  root_deletion_jobs := f (root_deletion_jobs d); platform_config_jobs := platform_config_jobs d;
  relay_runtime_settings := relay_runtime_settings d |}.
Definition set_configs (f : gmap string config_job → gmap string config_job) (d : DB) : DB := {|
  index_jobs := index_jobs d; index_job_files := index_job_files d;
  indexed_files := indexed_files d; index_workspaces := index_workspaces d;
  index_operation_leases := index_operation_leases d;
  root_deletion_jobs := root_deletion_jobs d; platform_config_jobs := f (platform_config_jobs d);
  relay_runtime_settings := relay_runtime_settings d |}.
Definition set_settings (f : gmap string string → gmap string string) (d : DB) : DB := {|
  index_jobs := index_jobs d; index_job_files := index_job_files d;
  indexed_files := indexed_files d; index_workspaces := index_workspaces d;
  index_operation_leases := index_operation_leases d;
  root_deletion_jobs := root_deletion_jobs d; platform_config_jobs := platform_config_jobs d;
  relay_runtime_settings := f (relay_runtime_settings d) |}.

(** ** Statement forms *)

(** [UPDATE t SET ... WHERE pk = k AND P]. *)
Definition update_row {K V} `{Countable K} (k : K) (P : V → bool) (f : V → V)
    (m : gmap K V) : gmap K V :=
  match m !! k with
  | Some v => if P v then <[k := f v]> m else m
  | None => m
  end.

(** RowsAffected of the same statement: 0 or 1. *)
Definition matches {K V} `{Countable K} (k : K) (P : V → bool) (m : gmap K V) : bool :=
  match m !! k with Some v => P v | None => false end.

(** [DELETE FROM t WHERE P]: what stays, and how many rows went. *)
Definition delete_where {K V} `{Countable K} (P : K → V → bool) (m : gmap K V) : gmap K V :=
  filter (λ kv, P kv.1 kv.2 = false) m.
Definition rows_where {K V} `{Countable K} (P : K → V → bool) (m : gmap K V) : Z :=
  Z.of_nat (size (filter (λ kv, P kv.1 kv.2 = true) m)).
Definition exists_where {K V} `{Countable K} (P : K → V → bool) (m : gmap K V) : bool :=
  existsb (λ kv, P kv.1 kv.2) (map_to_list m).

(** [DELETE FROM index_jobs WHERE P], with the cascade of the foreign key of
    [index_job_files]. *)
Definition delete_jobs (P : string → index_job → bool) (d : DB) : DB :=
  let kept := delete_where P (index_jobs d) in
  set_jobs (λ _, kept)
    (set_job_files (delete_where (λ id _, matches id (P id) (index_jobs d))) d).

(** [DELETE FROM index_job_files WHERE job_id = id]. *)
Definition delete_job_files (id : string) (d : DB) : DB :=
  set_job_files (delete id) d.

(** The rows of [index_job_files] of one job, and of [indexed_files] of one
    workspace. *)
Definition files_of_job (id : string) (d : DB) : gmap string job_file :=
  default ∅ (index_job_files d !! id).
Definition files_of_workspace (user ws : string) (d : DB) : gmap string indexed_file :=
  default ∅ (indexed_files d !! (user, ws)).

(** ** Laws *)

Section statements.
Context {K V : Type} `{Countable K}.
Implicit Types (m : gmap K V) (k : K).

Lemma update_row_lookup k P f m k' :
  update_row k P f m !! k' =
  (if decide (k = k') then (λ v, if P v then f v else v) <$> m !! k' else m !! k').
Proof.
  unfold update_row. destruct (m !! k) as [v|] eqn:E.
  - destruct (P v) eqn:EP.
    + rewrite lookup_insert. case_decide; [subst|done]. rewrite E. simpl. by rewrite EP.
    + case_decide; [subst|done]. rewrite E. simpl. by rewrite EP.
  - case_decide; [subst|done]. by rewrite E.
Qed.

Lemma update_row_ne k P f m k' : k ≠ k' → update_row k P f m !! k' = m !! k'.
Proof. intros ?. rewrite update_row_lookup. by case_decide. Qed.

Lemma update_row_eq k P f m v :
  m !! k = Some v → update_row k P f m !! k = Some (if P v then f v else v).
Proof. intros E. rewrite update_row_lookup, E. by case_decide. Qed.

Lemma update_row_Some k P f m k' v' :
  update_row k P f m !! k' = Some v' →
  ∃ v, m !! k' = Some v ∧ (v' = v ∨ k = k' ∧ P v = true ∧ v' = f v).
Proof.
  rewrite update_row_lookup. case_decide as Hk.
  - subst. destruct (m !! k') as [v|]; [|done]. simpl. intros [= <-].
    exists v. destruct (P v); auto.
  - intros E. exists v'. auto.
Qed.

Lemma update_row_id k P f m : matches k P m = false → update_row k P f m = m.
Proof. unfold matches, update_row. by destruct (m !! k) as [v|]; [intros ->|]. Qed.

Lemma delete_where_lookup P m k v :
  delete_where P m !! k = Some v ↔ m !! k = Some v ∧ P k v = false.
Proof. unfold delete_where. by rewrite map_lookup_filter_Some. Qed.

Lemma delete_where_None P m k :
  delete_where P m !! k = None ↔ ∀ v, m !! k = Some v → P k v = true.
Proof.
  unfold delete_where. rewrite map_lookup_filter_None. simpl. split.
  - intros [->|Hn]; [done|]. intros v Hv. destruct (P k v) eqn:E; [done|]. by destruct (Hn v Hv).
  - intros Hn. destruct (m !! k) as [v|] eqn:E; [right|by left]. intros v' [= <-].
    by rewrite (Hn v eq_refl).
Qed.

Lemma exists_where_true P m :
  exists_where P m = true ↔ ∃ k v, m !! k = Some v ∧ P k v = true.
Proof.
  unfold exists_where. rewrite existsb_exists. split.
  - intros ([k v] & Hin & HP). exists k, v. split; [|done].
    by apply elem_of_map_to_list, list_elem_of_In.
  - intros (k & v & Hin & HP). exists (k, v). split; [|done].
    by apply list_elem_of_In, elem_of_map_to_list.
Qed.

Lemma exists_where_false P m :
  exists_where P m = false ↔ ∀ k v, m !! k = Some v → P k v = false.
Proof.
  rewrite <- not_true_iff_false, exists_where_true. split.
  - intros Hn k v Hv. apply not_true_iff_false. intros HP. apply Hn. eauto.
  - intros Ha (k & v & Hv & HP). rewrite (Ha k v Hv) in HP. done.
Qed.
End statements.

(** ** Counting rows *)

Section counting.
Context {K V : Type} `{Countable K}.
Implicit Types (m : gmap K V).

Lemma rows_where_le (P Q : K → V → bool) m1 m2 :
  (∀ k v, m1 !! k = Some v → P k v = true → ∃ v', m2 !! k = Some v' ∧ Q k v' = true) →
  rows_where P m1 ≤ rows_where Q m2.
Proof.
  intros Hle. unfold rows_where. apply inj_le, dom_subseteq_size.
  intros k. rewrite !elem_of_dom. intros [v Hv].
  apply map_lookup_filter_Some in Hv as [Hv HP]. simpl in HP.
  destruct (Hle k v Hv HP) as (v' & Hv' & HQ). exists v'.
  by apply map_lookup_filter_Some.
Qed.

Lemma rows_where_eq (P Q : K → V → bool) m1 m2 :
  (∀ k v, m1 !! k = Some v → P k v = true → ∃ v', m2 !! k = Some v' ∧ Q k v' = true) →
  (∀ k v, m2 !! k = Some v → Q k v = true → ∃ v', m1 !! k = Some v' ∧ P k v' = true) →
  rows_where P m1 = rows_where Q m2.
Proof. intros ??. apply Z.le_antisymm; by apply rows_where_le. Qed.

Lemma rows_where_insert_fresh (P : K → V → bool) m k v :
  m !! k = None → P k v = true → rows_where P (<[k := v]> m) = rows_where P m + 1.
Proof.
  intros Hk HP. unfold rows_where. rewrite map_filter_insert_True by done.
  rewrite map_size_insert_None; [lia|]. by apply map_lookup_filter_None; left.
Qed.

Lemma rows_where_insert_flip (P : K → V → bool) m k v v' :
  m !! k = Some v → P k v = false → P k v' = true →
  rows_where P (<[k := v']> m) = rows_where P m + 1.
Proof.
  intros Hk Hv HP. unfold rows_where. rewrite map_filter_insert_True by done.
  rewrite map_size_insert_None; [lia|]. apply map_lookup_filter_None. right.
  intros x Hx. simpl. congruence.
Qed.

Lemma rows_where_insert_skip (P : K → V → bool) m k v :
  P k v = false → (∀ x, m !! k = Some x → P k x = false) →
  rows_where P (<[k := v]> m) = rows_where P m.
Proof.
  intros HP Hx. unfold rows_where. rewrite map_filter_insert_not'; [done|simpl; congruence|].
  intros y Hy. simpl. rewrite (Hx y Hy). done.
Qed.

Lemma rows_where_nonneg (P : K → V → bool) m : 0 ≤ rows_where P m.
Proof. unfold rows_where. lia. Qed.

Lemma rows_where_zero (P : K → V → bool) m :
  (∀ k v, m !! k = Some v → P k v = false) → rows_where P m = 0.
Proof.
  intros Hn. unfold rows_where. assert (filter (λ kv, P kv.1 kv.2 = true) m = ∅) as ->; [|done].
  apply map_empty. intros k. apply map_lookup_filter_None.
  destruct (m !! k) as [v|] eqn:E; [right|by left]. intros x [= <-]. simpl. by rewrite (Hn k v E).
Qed.
End counting.
