(* ===== verification/Effects.v ===== *)
(** * Effects

    The relay's handlers run against PostgreSQL, Redis, a few mutex-protected maps
    and LCE, concurrently with each other.  A handler is a function of the monad
    [M]: it threads the shared state, may return an error, and meets an arbitrary
    environment [Env] that decides
    - [env_now]: what each clock reading returns (no monotonicity is assumed);
    - [env_fault]: whether a database or Redis operation fails before it takes
      effect, or takes effect and then loses its reply, or succeeds;
    - [env_uuid]: the identifiers [uuid.New] draws;
    - [env_lce]: what LCE answers to each call;
    - [env_step]: what the other requests, workers and instances did to the shared
      state since this handler's previous operation.
    A transaction ([beginLockedIndexUserTx] ... [Commit], serialised by the advisory
    lock) and a single autocommit statement are both one atomic operation: if its
    body returns an error the transaction is rolled back. *)
From Stdlib Require Import Ascii String.
From S2P Require Import Prelude GoStrings Json Lce Store Sessions SessionSteps.
Open Scope Z_scope.

(** ** Shared state *)

(** Redis strings and hashes, each with an optional expiry time. *)
Record Redis := {
  r_str : gmap string (string * option Z);
  r_hash : gmap string (gmap string string * option Z)
}.
Definition empty_redis : Redis := {| r_str := ∅; r_hash := ∅ |}.

(** The identity behind an API key, and an entry of the key cache (main.go). *)
Record authIdentity := { UserID : string; Tier : string; OrgID : string; OrgRole : string }.
Definition no_identity : authIdentity := {| UserID := ""; Tier := ""; OrgID := ""; OrgRole := "" |}.
Record authCacheEntry := { ace_identity : authIdentity; ace_ok : bool; ace_expiresAt : Z }.

(** The mutex-protected variables of the process: the rate limits, the minimal client
    version, the MCP sessions and streams, the key cache and the cached list of tools with
    the time it was read. *)
Record Proc := {
  indexStartSeen : gmap string Z;
  deleteRootSeen : gmap string Z;
  minClientVersion : string;
  mcp : McpRun;
  authCache : gmap string authCacheEntry;
  toolsCache : option (list json * Z)
}.
Definition empty_proc : Proc := {|
  indexStartSeen := ∅; deleteRootSeen := ∅; minClientVersion := ""; mcp := empty_run;
  authCache := ∅; toolsCache := None |}.

Definition set_start_seen (f : gmap string Z → gmap string Z) (p : Proc) : Proc := {|
  indexStartSeen := f (indexStartSeen p); deleteRootSeen := deleteRootSeen p;
  minClientVersion := minClientVersion p; mcp := mcp p; authCache := authCache p; toolsCache := toolsCache p |}.
Definition set_delete_seen (f : gmap string Z → gmap string Z) (p : Proc) : Proc := {|
  indexStartSeen := indexStartSeen p; deleteRootSeen := f (deleteRootSeen p);
  minClientVersion := minClientVersion p; mcp := mcp p; authCache := authCache p; toolsCache := toolsCache p |}.
Definition set_min_version (v : string) (p : Proc) : Proc := {|
  indexStartSeen := indexStartSeen p; deleteRootSeen := deleteRootSeen p;
  minClientVersion := v; mcp := mcp p; authCache := authCache p; toolsCache := toolsCache p |}.
Definition set_mcp (r : McpRun) (p : Proc) : Proc := {|
  indexStartSeen := indexStartSeen p; deleteRootSeen := deleteRootSeen p;
  minClientVersion := minClientVersion p; mcp := r; authCache := authCache p; toolsCache := toolsCache p |}.
Definition set_auth_cache (c : gmap string authCacheEntry) (p : Proc) : Proc := {|
  indexStartSeen := indexStartSeen p; deleteRootSeen := deleteRootSeen p;
  minClientVersion := minClientVersion p; mcp := mcp p; authCache := c; toolsCache := toolsCache p |}.
Definition set_tools (t : option (list json * Z)) (p : Proc) : Proc := {|
  indexStartSeen := indexStartSeen p; deleteRootSeen := deleteRootSeen p;
  minClientVersion := minClientVersion p; mcp := mcp p; authCache := authCache p; toolsCache := t |}.

(** The account tables, written by the web console and only read here. *)
Record subscription := {
  sub_request_limit : Z; sub_index_bytes_limit : Z; sub_subaccounts : Z;
  sub_starts_at : Z; sub_expires_at : Z
}.
Record membership := {
  m_id : string; m_org : string; m_user : string; m_role : string; m_created_at : Z
}.
Record api_key := {
  k_user : string; k_tier : option string; k_org : option string; k_created_at : Z
}.
Record Accounts := {
  user_quotas : gmap string (option Z * option Z);
  user_subscriptions : gmap string subscription;
  org_quotas : gmap string (option Z * option Z);
  org_member_quotas : gmap (string * string) Z;
  member : list membership;
  organization : gset string;
  api_keys : gmap string api_key;
  banned_users : gset string;
  user_model_configs : gmap string (option string)
}.
Definition empty_accounts : Accounts := {|
  user_quotas := ∅; user_subscriptions := ∅; org_quotas := ∅; org_member_quotas := ∅;
  member := []; organization := ∅; api_keys := ∅; banned_users := ∅;
  user_model_configs := ∅ |}.

(** The tables of request logs and statistics (initDB of main.go). *)
Record request_log := {
  rl_user : string; rl_tenant : string; rl_status : string; rl_status_code : option Z;
  rl_path : string; rl_method : string; rl_timestamp : Z; rl_duration_ms : option Z;
  rl_client_ip : string; rl_updated_at : Z
}.
Record error_detail := { ed_request_id : string; ed_source : string; ed_error : string }.
Record leaderboard_row := {
  lb_date_str : string; lb_rank : Z; lb_user_id : string; lb_request_count : Z; lb_updated_at : Z
}.
Record health_check := {
  hc_status : string; hc_tcp_ping_ms : option Z; hc_codebase_retrieval_ms : option Z;
  hc_error_message : option string; hc_next_check_at : Z
}.
Record Logs := {
  request_logs : gmap string request_log;
  error_details : list error_detail;
  leaderboard : gmap string leaderboard_row;
  health_checks : list health_check
}.
Definition empty_logs : Logs :=
  {| request_logs := ∅; error_details := []; leaderboard := ∅; health_checks := [] |}.

Record Shared := { s_db : DB; s_acct : Accounts; s_proc : Proc; s_redis : Redis; s_logs : Logs }.

Definition with_db (d : DB) (s : Shared) : Shared :=
  {| s_db := d; s_acct := s_acct s; s_proc := s_proc s; s_redis := s_redis s; s_logs := s_logs s |}.
Definition with_proc (p : Proc) (s : Shared) : Shared :=
  {| s_db := s_db s; s_acct := s_acct s; s_proc := p; s_redis := s_redis s; s_logs := s_logs s |}.
Definition with_logs (l : Logs) (s : Shared) : Shared :=
  {| s_db := s_db s; s_acct := s_acct s; s_proc := s_proc s; s_redis := s_redis s; s_logs := l |}.
Definition with_redis (r : Redis) (s : Shared) : Shared :=
  {| s_db := s_db s; s_acct := s_acct s; s_proc := s_proc s; s_redis := r; s_logs := s_logs s |}.

(** ** The environment *)

(** [FailBefore]: nothing ran.  [FailCommit]: the body ran and its transaction was
    rolled back.  [FailAfter]: it took effect and the reply was lost. *)
Inductive fault := NoFault | FailBefore | FailCommit | FailAfter.

(** The process configuration read from the environment by [loadConfig]. *)
Record Config := {
  defaultDailyRequestLimit : Z;
  dailyIndexBytesLimit : Z;
  proDailyRequestLimit : Z;
  proDailyIndexBytesLimit : Z;
  bannedCacheTTL : Z;
  mcpMaxSessions : Z;
  mcpMaxSessionsPerUser : Z;
  trustedConsoleToken : string;
  modelConfigKey : option string;
  quotaLocation_offset : Z     (* seconds east of UTC of the quota time zone *)
}.

Record Env := {
  env_now : nat → Z;
  env_fault : nat → fault;
  env_uuid : nat → string;
  env_lce : nat → lce_request → lce_reply;
  env_step : nat → Shared → Shared;
  env_polls : nat → nat;              (* lease polls before the request context ends *)
  env_config : Config;
  env_platform : nat → list (string * json) → result string (Z * content);
                                      (* LCE's platform-config endpoint: status and body *)
  env_try_lock : nat → bool;          (* whether TryLock/TryRLock of the barrier succeeds *)
  env_uuid_parse : string → option string;   (* uuid.Parse, then String *)
  env_uuid_Validate : string → bool;  (* uuid.Validate returns nil *)
  env_tools : nat → result string content;   (* fetchToolsList: LCE's list of tools *)
  env_select : nat → nat;             (* which ready case a select takes *)
  env_write : nat → bool;             (* whether a write to the client succeeds *)
  env_canceled : nat → bool;          (* whether the client has gone away *)
  env_gcm_Open : string → string → string → option content;   (* AES-GCM: key, nonce, text *)
  env_unicode_lower : string → string;
  env_unicode_upper : string → string
}.

Record World := { shared : Shared; ticks : nat; calls : list lce_request }.

Definition M (A : Type) : Type := World → result error A * World.

#[export] Instance M_ret : MRet M := fun A a w => (Ok a, w).
#[export] Instance M_bind : MBind M := fun A B f m w =>
  match m w with
  | (Ok a, w') => f a w'
  | (Err e, w') => (Err e, w')
  end.

Definition throw {A} (e : error) : M A := fun w => (Err e, w).
Definition lift {A} (r : result error A) : M A := fun w => (r, w).

(** Run [m] and hand its error to the caller as a value. *)
Definition try {A} (m : M A) : M (result error A) := fun w => let '(r, w') := m w in (Ok r, w').

(** [if err := m; err != nil] with the error logged and dropped. *)
Definition ignore {A} (m : M A) : M unit := r ← try m; mret tt.

(** [defer cleanup()] around [m]. *)
Definition finally {A} (m : M A) (cleanup : M unit) : M A :=
  r ← try m; u ← try cleanup; lift r.

Section effects.
Context (E : Env).

(** Let the others run, then count one operation. *)
Definition turn (w : World) : World :=
  {| shared := env_step E (ticks w) (shared w); ticks := S (ticks w); calls := calls w |}.

Definition put_shared (s : Shared) (w : World) : World :=
  {| shared := s; ticks := ticks w; calls := calls w |}.

(** A transaction.  [body] reads the clock, the tables and the process maps; the
    process maps are not transactional. *)
Definition transact {A} (body : Z → DB → Proc → result error (A * DB) * Proc) : M A := fun w =>
  let w1 := turn w in
  let s := shared w1 in
  match env_fault E (ticks w) with
  | FailBefore => (Err ErrDB, w1)
  | f =>
      let '(r, p) := body (env_now E (ticks w)) (s_db s) (s_proc s) in
      match r with
      | Err e => (Err e, put_shared (with_proc p s) w1)
      | Ok (a, d') =>
          match f with
          | NoFault => (Ok a, put_shared (with_db d' (with_proc p s)) w1)
          | FailAfter => (Err ErrDB, put_shared (with_db d' (with_proc p s)) w1)
          | _ => (Err ErrDB, put_shared (with_proc p s) w1)
          end
      end
  end.

(** A transaction or statement that touches the tables only. *)
Definition atomically {A} (body : Z → DB → result error (A * DB)) : M A :=
  transact (fun now d p => (body now d, p)).

Definition query {A} (q : DB → result error A) : M A :=
  atomically (fun _ d => match q d with Ok a => Ok (a, d) | Err e => Err e end).

Definition query_accounts {A} (q : Z → Accounts → result error A) : M A := fun w =>
  let w1 := turn w in
  match env_fault E (ticks w) with
  | NoFault => (q (env_now E (ticks w)) (s_acct (shared w1)), w1)
  | _ => (Err ErrDB, w1)
  end.

Definition time_Now : M Z := fun w => (Ok (env_now E (ticks w)), turn w).
Definition uuid_New : M string := fun w => (Ok (env_uuid E (ticks w)), turn w).

(** How many polls the request context leaves a waiting loop. *)
Definition polls : M nat := fun w => (Ok (env_polls E (ticks w)), w).

Definition callTool (req : lce_request) : M lce_reply := fun w =>
  (Ok (env_lce E (ticks w) req),
   {| shared := shared (turn w); ticks := S (ticks w); calls := req :: calls w |}).

(** [callLCEPlatformConfig]: not recorded in [calls], which lists the tool calls. *)
Definition callLCEPlatformConfig (body : list (string * json)) : M (Z * content) := fun w =>
  (match env_platform E (ticks w) body with Ok r => Ok r | Err text => Err (Errorf text) end,
   turn w).

(** [platformModelConfigBarrier.TryRLock] or [TryLock]. *)
Definition try_barrier : M bool := fun w => (Ok (env_try_lock E (ticks w)), turn w).

(** A statement or transaction on the log tables. *)
Definition log_tx {A} (body : Z → Logs → result error (A * Logs)) : M A := fun w =>
  let w1 := turn w in
  let s := shared w1 in
  match env_fault E (ticks w) with
  | FailBefore => (Err ErrDB, w1)
  | f =>
      match body (env_now E (ticks w)) (s_logs s) with
      | Err e => (Err e, w1)
      | Ok (a, l) =>
          match f with
          | NoFault => (Ok a, put_shared (with_logs l s) w1)
          | FailAfter => (Err ErrDB, put_shared (with_logs l s) w1)
          | _ => (Err ErrDB, w1)
          end
      end
  end.

(** [lce.fetchToolsList] *)
Definition fetchToolsList : M content := fun w =>
  (match env_tools E (ticks w) with Ok c => Ok c | Err text => Err (Errorf text) end, turn w).

Definition select_case : M nat := fun w => (Ok (env_select E (ticks w)), turn w).
Definition write_client : M bool := fun w => (Ok (env_write E (ticks w)), turn w).
Definition canceled : M bool := fun w => (Ok (env_canceled E (ticks w)), turn w).

(** A critical section of one of the process mutexes. *)
Definition with_mutex {A} (f : Proc → A * Proc) : M A := fun w =>
  let w1 := turn w in
  let '(a, p) := f (s_proc (shared w1)) in
  (Ok a, put_shared (with_proc p (shared w1)) w1).

(** One Redis command or one Lua script, executed atomically by the server. *)
Definition redis_eval {A} (script : Z → Redis → A * Redis) : M A := fun w =>
  let w1 := turn w in
  match env_fault E (ticks w) with
  | FailBefore => (Err ErrDB, w1)
  | f =>
      let '(a, r) := script (env_now E (ticks w)) (s_redis (shared w1)) in
      let w2 := put_shared (with_redis r (shared w1)) w1 in
      match f with NoFault => (Ok a, w2) | _ => (Err ErrDB, w2) end
  end.
End effects.

(** ** Environments *)

(** Nobody else runs and nothing fails. *)
Definition quiet (E : Env) : Prop :=
  (∀ n s, env_step E n s = s) ∧ (∀ n, env_fault E n = NoFault).

(** The others only make database moves that [R] allows. *)
Definition env_respects (R : relation DB) (E : Env) : Prop :=
  ∀ n s, R (s_db s) (s_db (env_step E n s)).

(** ** Handlers as sequences of allowed moves *)

Definition db_of (w : World) : DB := s_db (shared w).

Definition respects {A} (R : relation DB) (m : M A) : Prop :=
  ∀ w, R (db_of w) (db_of (m w).2).

Create HintDb eff discriminated.
#[export] Hint Constants Opaque : eff.

Section respects.
Context (R : relation DB) `{!PreOrder R} (E : Env) (HE : env_respects R E).

Lemma respects_ret A (a : A) : respects R (mret a).
Proof. intros w. unfold db_of. simpl. reflexivity. Qed.

Lemma respects_throw A (e : error) : respects R (@throw A e).
Proof. intros w. simpl. reflexivity. Qed.

Lemma respects_lift A (r : result error A) : respects R (lift r).
Proof. intros w. simpl. reflexivity. Qed.

Lemma respects_bind A B (f : A → M B) (m : M A) :
  respects R m → (∀ a, respects R (f a)) → respects R (m ≫= f).
Proof.
  intros Hm Hf w. unfold mbind, M_bind. specialize (Hm w).
  destruct (m w) as [[a|e] w']; simpl in *; [|done].
  transitivity (db_of w'); [done|apply Hf].
Qed.

Lemma respects_try A (m : M A) : respects R m → respects R (try m).
Proof. intros Hm w. unfold try. specialize (Hm w). by destruct (m w). Qed.

Lemma respects_ignore A (m : M A) : respects R m → respects R (ignore m).
Proof.
  intros Hm. unfold ignore. apply respects_bind; [by apply respects_try|].
  intros. apply respects_ret.
Qed.

Lemma respects_finally A (m : M A) c :
  respects R m → respects R c → respects R (finally m c).
Proof.
  intros Hm Hc. unfold finally. apply respects_bind; [by apply respects_try|]. intros r.
  apply respects_bind; [by apply respects_try|]. intros. apply respects_lift.
Qed.

Lemma turn_respects w : R (db_of w) (db_of (turn E w)).
Proof. apply HE. Qed.

Lemma respects_transact A (body : Z → DB → Proc → result error (A * DB) * Proc) :
  (∀ n d p a d' p', body n d p = (Ok (a, d'), p') → R d d') → respects R (transact E body).
Proof.
  intros Hb w. unfold transact. pose proof (turn_respects w) as Ht.
  destruct (env_fault E (ticks w)); try done;
    (destruct (body _ _ _) as [[[a d']|e] p] eqn:Ebody; simpl; [|done];
     first [done | transitivity (db_of (turn E w)); [done|by eapply Hb]]).
Qed.

Lemma respects_atomically A (body : Z → DB → result error (A * DB)) :
  (∀ n d a d', body n d = Ok (a, d') → R d d') → respects R (atomically E body).
Proof.
  intros Hb. apply respects_transact. intros n d p a d' p' [= H _]. by eapply Hb.
Qed.

Lemma respects_query A (q : DB → result error A) : respects R (query E q).
Proof.
  apply respects_atomically. intros n d a d'. destruct (q d); [|done].
  intros [= _ <-]. reflexivity.
Qed.

Lemma respects_query_accounts A (q : Z → Accounts → result error A) :
  respects R (query_accounts E q).
Proof.
  intros w. unfold query_accounts. pose proof (turn_respects w).
  by destruct (env_fault E (ticks w)).
Qed.

Lemma respects_time_Now : respects R (time_Now E).
Proof. intros w. apply turn_respects. Qed.
Lemma respects_uuid_New : respects R (uuid_New E).
Proof. intros w. apply turn_respects. Qed.
Lemma respects_polls : respects R (polls E).
Proof. intros w. simpl. reflexivity. Qed.
Lemma respects_callTool req : respects R (callTool E req).
Proof. intros w. apply turn_respects. Qed.
Lemma respects_callLCEPlatformConfig body : respects R (callLCEPlatformConfig E body).
Proof. intros w. apply turn_respects. Qed.
Lemma respects_try_barrier : respects R (try_barrier E).
Proof. intros w. apply turn_respects. Qed.
Lemma respects_log_tx A (body : Z → Logs → result error (A * Logs)) : respects R (log_tx E body).
Proof.
  intros w. unfold log_tx. pose proof (turn_respects w).
  destruct (env_fault E (ticks w)); try done;
    destruct (body _ _) as [[a l]|e]; apply turn_respects.
Qed.
Lemma respects_fetchToolsList : respects R (fetchToolsList E).
Proof. intros w. apply turn_respects. Qed.
Lemma respects_select_case : respects R (select_case E).
Proof. intros w. apply turn_respects. Qed.
Lemma respects_write_client : respects R (write_client E).
Proof. intros w. apply turn_respects. Qed.
Lemma respects_canceled : respects R (canceled E).
Proof. intros w. apply turn_respects. Qed.
Lemma respects_with_mutex A (f : Proc → A * Proc) : respects R (with_mutex E f).
Proof.
  intros w. unfold with_mutex. destruct (f _) as [a p]. apply turn_respects.
Qed.
Lemma respects_redis_eval A (f : Z → Redis → A * Redis) : respects R (redis_eval E f).
Proof.
  intros w. unfold redis_eval. pose proof (turn_respects w).
  destruct (env_fault E (ticks w)); try done;
    destruct (f _ _) as [a r]; apply turn_respects.
Qed.
End respects.

(** Binds whose continuation may use what the first part returned. *)
Lemma respects_bind_post (R : relation DB) `{!PreOrder R} A B (P : A → Prop) (f : A → M B) (m : M A) :
  respects R m → (∀ w a w', m w = (Ok a, w') → P a) → (∀ a, P a → respects R (f a)) →
  respects R (m ≫= f).
Proof.
  intros Hm HP Hf w. unfold mbind, M_bind. specialize (Hm w). specialize (HP w).
  destruct (m w) as [[a|e] w']; simpl in *; [|done].
  transitivity (db_of w'); [done|]. by apply (Hf a); eapply HP.
Qed.

Lemma respects_lift_bind (R : relation DB) `{!PreOrder R} A B (r : result error A) (f : A → M B) :
  (∀ a, r = Ok a → respects R (f a)) → respects R (lift r ≫= f).
Proof.
  intros Hf. apply (respects_bind_post R A B (λ a, r = Ok a)); [by apply respects_lift| |done].
  intros w a w' [= -> _]. done.
Qed.

#[export] Hint Resolve respects_ret respects_throw respects_lift respects_query respects_query_accounts
  respects_time_Now respects_uuid_New respects_polls respects_callTool respects_with_mutex
  respects_callLCEPlatformConfig respects_try_barrier respects_redis_eval respects_log_tx
  respects_fetchToolsList respects_select_case respects_write_client respects_canceled : eff.

#[export] Hint Extern 0 (PreOrder _) => typeclasses eauto : eff.

(** Walk through a handler: binds, cleanups, conditionals and matches. *)
Ltac respects_step :=
  lazymatch goal with
  | |- PreOrder _ => typeclasses eauto
  | |- ∀ _, _ => intros
  | |- respects _ (_ ≫= _) => first [solve [eauto 3 with eff] | apply respects_bind]
  | |- respects _ (finally _ _) => apply respects_finally
  | |- respects _ (ignore _) => apply respects_ignore
  | |- respects _ (try _) => apply respects_try
  | |- respects _ (match ?x with _ => _ end) => destruct x
  | |- respects _ _ => solve [eauto 3 with eff]
  end.
Ltac respects_tac := repeat respects_step.

(** ** What a successful run went through *)

Lemma bind_Ok {A B} (m : M A) (f : A → M B) w b w' :
  (m ≫= f) w = (Ok b, w') → ∃ a w1, m w = (Ok a, w1) ∧ f a w1 = (Ok b, w').
Proof. unfold mbind, M_bind. destruct (m w) as [[a|e] w1]; [|done]. eauto. Qed.

Lemma transact_Ok {A} E (body : Z → DB → Proc → result error (A * DB) * Proc) w a w' :
  transact E body w = (Ok a, w') →
  ∃ n p d' p', body n (s_db (env_step E (ticks w) (shared w))) p = (Ok (a, d'), p') ∧ db_of w' = d'.
Proof.
  unfold transact. destruct (env_fault E (ticks w)); try done;
    destruct (body _ _ _) as [[[a0 d']|e] p'] eqn:Eb; try done; intros [= -> <-]; eauto 10.
Qed.

Lemma atomically_Ok {A} E (body : Z → DB → result error (A * DB)) w a w' :
  atomically E body w = (Ok a, w') →
  ∃ n d', body n (s_db (env_step E (ticks w) (shared w))) = Ok (a, d') ∧ db_of w' = d'.
Proof. intros (n & p & d' & p' & [= Hb _] & Hd)%transact_Ok. eauto. Qed.

(** ** Handlers that never return an error *)

Definition returns {A} (P : A → Prop) (m : M A) : Prop :=
  ∀ w, ∃ a w', m w = (Ok a, w') ∧ P a.

Lemma returns_ret A (P : A → Prop) a : P a → returns P (mret a).
Proof. intros H w. exists a, w. done. Qed.
Lemma returns_bind A B (P : A → Prop) (Q : B → Prop) (m : M A) (f : A → M B) :
  returns P m → (∀ a, P a → returns Q (f a)) → returns Q (m ≫= f).
Proof.
  intros Hm Hf w. destruct (Hm w) as (a & w' & Ha & HP). unfold mbind, M_bind. rewrite Ha.
  by apply Hf.
Qed.
Lemma returns_try A (m : M A) : returns (λ _, True) (try m).
Proof. intros w. unfold try. destruct (m w) as [r w']. by exists r, w'. Qed.
Lemma returns_ignore A (m : M A) : returns (λ _, True) (ignore m).
Proof. eapply returns_bind; [apply returns_try|]. intros. by apply returns_ret. Qed.
Lemma returns_time_Now E : returns (λ _, True) (time_Now E).
Proof. intros w. by eexists _, _. Qed.
#[export] Hint Resolve returns_try returns_ignore returns_time_Now : eff.
Ltac returns_tac :=
  repeat first
  [ solve [eauto with eff]
  | progress intros
  | progress simpl
  | apply returns_ret; solve [done | eauto]
  | match goal with |- returns _ (match ?x with _ => _ end) => destruct x end
  | eapply (returns_bind _ _ (λ _, True)); [solve [returns_tac] | ..] ].
