(* ===== verification/Triples.v ===== *)
(** * Triples

    [triple E I m Q]: started where [I] holds of the shared state and of the calls made to LCE,
    the handler [m] ends where [I] holds again, and if it returns a value, [Q] holds of it.  [I]
    is an assertion that the other parties respect ([stable]), so it holds between any two
    operations of [m] too. *)
From Stdlib Require Import Ascii String.
From S2P Require Import Prelude GoStrings Json Lce Store Effects.
Open Scope Z_scope.

Abbreviation assertion := (Shared → list lce_request → Prop).

Definition stable (E : Env) (I : assertion) : Prop := ∀ n s c, I s c → I (env_step E n s) c.

Definition holds (I : assertion) (w : World) : Prop := I (shared w) (calls w).

Definition triple {A} (I : assertion) (m : M A) (Q : A → Prop) : Prop :=
  ∀ w, holds I w → holds I (m w).2 ∧ match (m w).1 with Ok a => Q a | Err _ => True end.

(** What an assertion does not depend on. *)
Class DbFree (I : assertion) : Prop := db_free : ∀ s c d, I s c → I (with_db d s) c.
Class ProcFree (I : assertion) : Prop := proc_free : ∀ s c p, I s c → I (with_proc p s) c.
(** Depends on the process state only through the session tables. *)
Class ProcKept (I : assertion) : Prop :=
  proc_kept : ∀ s c p, mcp p = mcp (s_proc s) → I s c → I (with_proc p s) c.
#[export] Instance proc_free_kept I : ProcFree I → ProcKept I.
Proof. intros HF s c p _. apply HF. Qed.
Class RedisFree (I : assertion) : Prop := redis_free : ∀ s c r, I s c → I (with_redis r s) c.
Class LogsFree (I : assertion) : Prop := logs_free : ∀ s c l, I s c → I (with_logs l s) c.

Create HintDb triple discriminated.
#[export] Hint Constants Opaque : triple.

Section rules.
Context (E : Env) (I : assertion) (HE : stable E I).

Lemma triple_weaken {A} (m : M A) (Q Q' : A → Prop) :
  triple I m Q → (∀ a, Q a → Q' a) → triple I m Q'.
Proof. intros H HQ w Hw. destruct (H w Hw) as [Hi Hq]. split; [done|]. destruct (m w).1; auto. Qed.

Lemma triple_ret {A} (a : A) (Q : A → Prop) : Q a → triple I (mret a) Q.
Proof. by intros ? w Hw. Qed.
Lemma triple_throw {A} e (Q : A → Prop) : triple I (throw e) Q.
Proof. by intros w Hw. Qed.
Lemma triple_lift {A} (r : result error A) (Q : A → Prop) : (∀ a, r = Ok a → Q a) → triple I (lift r) Q.
Proof. intros H w Hw. split; [done|]. simpl. destruct r; auto. Qed.

Lemma triple_bind {A B} (P : A → Prop) (Q : B → Prop) (m : M A) (f : A → M B) :
  triple I m P → (∀ a, P a → triple I (f a) Q) → triple I (m ≫= f) Q.
Proof.
  intros Hm Hf w Hw. unfold mbind, M_bind. destruct (Hm w Hw) as [Hi Hp].
  destruct (m w) as [[a|e] w1]; [|done]. by apply Hf.
Qed.
Lemma triple_bind_any {A B} (Q : B → Prop) (m : M A) (f : A → M B) :
  triple I m (λ _, True) → (∀ a, triple I (f a) Q) → triple I (m ≫= f) Q.
Proof. intros Hm Hf. eapply triple_bind; [exact Hm|]. auto. Qed.

Lemma triple_try {A} (m : M A) (Q : A → Prop) :
  triple I m Q → triple I (try m) (λ r, match r with Ok a => Q a | Err _ => True end).
Proof. intros H w Hw. unfold try. destruct (H w Hw) as [Hi Hq]. by destruct (m w). Qed.
Lemma triple_try_any {A} (m : M A) : triple I m (λ _, True) → triple I (try m) (λ _, True).
Proof. intros H w Hw. unfold try. destruct (H w Hw) as [Hi Hq]. by destruct (m w). Qed.
Lemma triple_ignore {A} (m : M A) : triple I m (λ _, True) → triple I (ignore m) (λ _, True).
Proof. intros H. apply triple_bind_any; [by apply triple_try_any|]. intros. by apply triple_ret. Qed.
Lemma triple_finally {A} (m : M A) cleanup (Q : A → Prop) :
  triple I m Q → triple I cleanup (λ _, True) → triple I (finally m cleanup) Q.
Proof.
  intros Hm Hc. eapply triple_bind; [by apply triple_try|]. intros r Hr.
  apply triple_bind_any; [by apply triple_try_any|]. intros _. apply triple_lift. by intros a ->.
Qed.

Lemma holds_turn w : holds I w → holds I (turn E w).
Proof. apply HE. Qed.

Lemma triple_transact {A} (body : Z → DB → Proc → result error (A * DB) * Proc) (Q : A → Prop) :
  (∀ n s c, I s c → let '(r, p) := body n (s_db s) (s_proc s) in
     I (with_proc p s) c ∧ match r with Ok (a, d) => I (with_db d (with_proc p s)) c ∧ Q a | Err _ => True end) →
  triple I (transact E body) Q.
Proof.
  intros Hb w Hw%holds_turn. unfold transact. set (w1 := turn E w) in *. specialize (Hb (env_now E (ticks w)) _ _ Hw).
  destruct (body _ _ _) as [r p]. destruct Hb as [Hp Hr].
  destruct (env_fault E (ticks w)); simpl; try done; destruct r as [[a d]|e]; simpl; try done; by destruct Hr.
Qed.
Lemma triple_atomically {A} (body : Z → DB → result error (A * DB)) (Q : A → Prop) :
  (∀ n s c a d, I s c → body n (s_db s) = Ok (a, d) → I (with_db d s) c ∧ Q a) →
  triple I (atomically E body) Q.
Proof.
  intros Hb. apply triple_transact. intros n s c Hs.
  assert (with_proc (s_proc s) s = s) as -> by (by destruct s). split; [done|].
  destruct (body n (s_db s)) as [[a d]|e] eqn:Eb; [|done]. by eapply Hb.
Qed.
Lemma triple_query {A} (q : DB → result error A) (Q : A → Prop) :
  (∀ s c a, I s c → q (s_db s) = Ok a → Q a) → triple I (query E q) Q.
Proof.
  intros Hq. apply triple_atomically. intros n s c a d Hs Hd. destruct (q (s_db s)) as [x|] eqn:Ex; [|done].
  injection Hd as -> <-. assert (with_db (s_db s) s = s) as -> by (by destruct s). eauto.
Qed.
Lemma triple_query_accounts {A} (q : Z → Accounts → result error A) (Q : A → Prop) :
  (∀ n s c a, I s c → q (env_now E n) (s_acct s) = Ok a → Q a) → triple I (query_accounts E q) Q.
Proof.
  intros Hq w Hw%holds_turn. unfold query_accounts.
  destruct (env_fault E (ticks w)); (split; [exact Hw|]); simpl; try done.
  destruct (q _ _) as [a|] eqn:Eq; [|done]. by eapply Hq.
Qed.

Lemma triple_time_Now (Q : Z → Prop) : (∀ n, Q (env_now E n)) → triple I (time_Now E) Q.
Proof. intros HQ w Hw. split; [by apply holds_turn|]. apply HQ. Qed.
Lemma triple_uuid_New (Q : string → Prop) : (∀ n, Q (env_uuid E n)) → triple I (uuid_New E) Q.
Proof. intros HQ w Hw. split; [by apply holds_turn|]. apply HQ. Qed.
Lemma triple_polls : triple I (polls E) (λ _, True).
Proof. by intros w Hw. Qed.
Lemma triple_callTool req (Q : lce_reply → Prop) :
  (∀ s c, I s c → I s (req :: c)) → (∀ n, Q (env_lce E n req)) → triple I (callTool E req) Q.
Proof. intros Hc HQ w Hw. split; [apply Hc; by apply (holds_turn w)|]. apply HQ. Qed.
Lemma triple_callLCEPlatformConfig body : triple I (callLCEPlatformConfig E body) (λ _, True).
Proof. intros w Hw. split; [by apply (holds_turn w)|]. simpl. by destruct (env_platform E (ticks w) body). Qed.
Lemma triple_platform body (Q : Z * content → Prop) :
  (∀ n r, env_platform E n body = Ok r → Q r) → triple I (callLCEPlatformConfig E body) Q.
Proof.
  intros HQ w Hw. split; [by apply (holds_turn w)|]. simpl. destruct (env_platform E (ticks w) body) eqn:Ep; [by eapply HQ|done].
Qed.
Lemma triple_try_barrier : triple I (try_barrier E) (λ _, True).
Proof. intros w Hw. split; [by apply (holds_turn w)|done]. Qed.
Lemma triple_fetchToolsList (Q : content → Prop) :
  (∀ n c, env_tools E n = Ok c → Q c) → triple I (fetchToolsList E) Q.
Proof.
  intros HQ w Hw. split; [by apply (holds_turn w)|]. simpl. destruct (env_tools E (ticks w)) eqn:Et; [by eapply HQ|done].
Qed.
Lemma triple_select_case : triple I (select_case E) (λ _, True).
Proof. intros w Hw. split; [by apply (holds_turn w)|done]. Qed.
Lemma triple_write_client : triple I (write_client E) (λ _, True).
Proof. intros w Hw. split; [by apply (holds_turn w)|done]. Qed.
Lemma triple_canceled : triple I (canceled E) (λ _, True).
Proof. intros w Hw. split; [by apply (holds_turn w)|done]. Qed.

Lemma triple_with_mutex {A} (f : Proc → A * Proc) (Q : A → Prop) :
  (∀ s c, I s c → I (with_proc (f (s_proc s)).2 s) c ∧ Q (f (s_proc s)).1) → triple I (with_mutex E f) Q.
Proof.
  intros Hf w Hw%holds_turn. unfold with_mutex. destruct (Hf _ _ Hw) as [H1 H2].
  destruct (f (s_proc (shared (turn E w)))) as [a p]. by split.
Qed.
Lemma triple_redis_eval {A} (script : Z → Redis → A * Redis) (Q : A → Prop) :
  (∀ n s c, I s c → I (with_redis (script n (s_redis s)).2 s) c ∧ Q (script n (s_redis s)).1) →
  triple I (redis_eval E script) Q.
Proof.
  intros Hf w Hw%holds_turn. unfold redis_eval. destruct (Hf (env_now E (ticks w)) _ _ Hw) as [H1 H2].
  destruct (env_fault E (ticks w)); [|done|..];
    destruct (script _ _) as [a r]; by split.
Qed.
Lemma triple_log_tx {A} (body : Z → Logs → result error (A * Logs)) (Q : A → Prop) :
  (∀ n s c a l, I s c → body n (s_logs s) = Ok (a, l) → I (with_logs l s) c ∧ Q a) →
  triple I (log_tx E body) Q.
Proof.
  intros Hb w Hw%holds_turn. unfold log_tx. 
  destruct (env_fault E (ticks w)); simpl; try done; destruct (body _ _) as [[a l]|e] eqn:Eb; simpl; try done;
    by destruct (Hb _ _ _ _ _ Hw Eb).
Qed.

(** For assertions that do not depend on what the operation changes. *)
Lemma triple_atomically_free {A} (body : Z → DB → result error (A * DB)) :
  DbFree I → triple I (atomically E body) (λ _, True).
Proof. intros HF. apply triple_atomically. intros. split; [by apply db_free|done]. Qed.
Lemma triple_transact_free {A} (body : Z → DB → Proc → result error (A * DB) * Proc) :
  DbFree I → ProcFree I → triple I (transact E body) (λ _, True).
Proof.
  intros HF HG. apply triple_transact. intros n s c Hs. destruct (body _ _ _) as [r p].
  split; [by apply proc_free|]. destruct r as [[a d]|e]; [|done]. split; [by apply db_free, proc_free|done].
Qed.
Lemma triple_query_free {A} (q : DB → result error A) : triple I (query E q) (λ _, True).
Proof. by apply triple_query. Qed.
Lemma triple_query_accounts_free {A} (q : Z → Accounts → result error A) :
  triple I (query_accounts E q) (λ _, True).
Proof. by apply triple_query_accounts. Qed.
Lemma triple_time_free : triple I (time_Now E) (λ _, True).
Proof. by apply triple_time_Now. Qed.
Lemma triple_uuid_free : triple I (uuid_New E) (λ _, True).
Proof. by apply triple_uuid_New. Qed.
Lemma triple_tools_free : triple I (fetchToolsList E) (λ _, True).
Proof. by apply triple_fetchToolsList. Qed.
Lemma triple_mutex_free {A} (f : Proc → A * Proc) : ProcFree I → triple I (with_mutex E f) (λ _, True).
Proof. intros HF. apply triple_with_mutex. intros. split; [by apply proc_free|done]. Qed.
Lemma triple_mutex_kept {A} (f : Proc → A * Proc) :
  ProcKept I → (∀ p, mcp (f p).2 = mcp p) → triple I (with_mutex E f) (λ _, True).
Proof. intros HF Hf. apply triple_with_mutex. intros. split; [by apply proc_kept|done]. Qed.
Lemma triple_transact_kept {A} (body : Z → DB → Proc → result error (A * DB) * Proc) :
  DbFree I → ProcKept I → (∀ n d p, mcp (body n d p).2 = mcp p) → triple I (transact E body) (λ _, True).
Proof.
  intros HF HG Hb. apply triple_transact. intros n s c Hs. specialize (Hb n (s_db s) (s_proc s)).
  destruct (body _ _ _) as [r p]. split; [by apply proc_kept|]. destruct r as [[a d]|e]; [|done].
  split; [by apply db_free, proc_kept|done].
Qed.
Lemma triple_redis_free {A} (script : Z → Redis → A * Redis) :
  RedisFree I → triple I (redis_eval E script) (λ _, True).
Proof. intros HF. apply triple_redis_eval. intros. split; [by apply redis_free|done]. Qed.
Lemma triple_log_free {A} (body : Z → Logs → result error (A * Logs)) :
  LogsFree I → triple I (log_tx E body) (λ _, True).
Proof. intros HF. apply triple_log_tx. intros. split; [by apply logs_free|done]. Qed.
End rules.

#[export] Hint Resolve triple_throw triple_polls triple_callLCEPlatformConfig triple_try_barrier
  triple_select_case triple_write_client triple_canceled triple_atomically_free triple_transact_free
  triple_query_free triple_query_accounts_free triple_time_free triple_uuid_free triple_tools_free
  triple_mutex_free triple_mutex_kept triple_transact_kept triple_redis_free triple_log_free : triple.
#[export] Hint Extern 0 (stable _ _) => assumption : triple.
#[export] Hint Extern 1 (DbFree _) => typeclasses eauto : triple.
#[export] Hint Extern 1 (ProcFree _) => typeclasses eauto : triple.
#[export] Hint Extern 1 (ProcKept _) => typeclasses eauto : triple.
#[export] Hint Extern 2 (∀ _, mcp _ = mcp _) => solve [intros; repeat case_match; reflexivity] : triple.
#[export] Hint Extern 1 (RedisFree _) => typeclasses eauto : triple.
#[export] Hint Extern 1 (LogsFree _) => typeclasses eauto : triple.

(** Walk through a handler, asking nothing of the values in between. *)
Ltac triple_step :=
  lazymatch goal with
  | |- ∀ _, _ => intros
  | |- True => exact I
  | |- triple _ (mret _) _ => apply triple_ret
  | |- triple _ (lift _) _ => apply triple_lift
  | |- triple _ (_ ≫= _) _ => first [solve [eauto 3 with triple] | apply triple_bind_any]
  | |- triple _ (finally _ _) _ => apply triple_finally
  | |- triple _ (ignore _) _ => first [apply triple_ignore | eapply triple_weaken; [apply triple_ignore|]]
  | |- triple _ (try _) _ => first [apply triple_try_any | eapply triple_weaken; [apply triple_try_any|]]
  | |- triple _ (match ?x with _ => _ end) _ => destruct x
  | |- triple _ _ (λ _, True) => solve [eauto 3 with triple]
  | |- triple _ _ _ => solve [eauto 3 with triple | eapply triple_weaken; [eauto 3 with triple|]; intros; done]
  end.
Ltac triple_tac := repeat triple_step.
