(* ===== verification/ClientVersion.v ===== *)
(** * The client version policy (client_version_policy.go; version helpers of main.go,
      metrics.go and mcp_index_tool.go)

    A minimal client version is kept in the process and in the table
    [relay_runtime_settings]; requests of older clients are refused. *)
From Stdlib Require Import Ascii String.
From stdpp Require Import pretty.
From S2P Require Import Prelude GoStrings Paths Manifest Failure Json Lce Store Effects.
Open Scope Z_scope.

Definition minimumClientVersionSetting : string := "minimum_client_version".

(** ** Comparing versions *)

(** [strings.SplitN(s, sep, n)] for a one-byte separator and a positive [n]. *)
Definition SplitN (sep : ascii) (s : string) (n : nat) : list string :=
  let ws := Split sep s in
  if (length ws <=? n)%nat then ws
  else take (n - 1) ws ++ [Join (String sep "") (drop (n - 1) ws)].

(** [if i < len(parts) { v, _ = strconv.Atoi(parts[i]) }] *)
Definition part_value (parts : list string) (i : nat) : Z :=
  match parts !! i with Some p => Atoi_value p | None => 0 end.

(** The loop over [i = 0 .. 2], from index [i] on. *)
Fixpoint compare_parts (fuel i : nat) (aParts bParts : list string) : Z :=
  match fuel with
  | O => 0
  | S fuel' =>
      let av := part_value aParts i in
      let bv := part_value bParts i in
      if av <? bv then -1 else if bv <? av then 1 else compare_parts fuel' (S i) aParts bParts
  end.

Definition compareVersions (a b : string) : Z :=
  let '(aCore, aPre, _) := Cut "-" a in
  let '(bCore, bPre, _) := Cut "-" b in
  let c := compare_parts 3 0 (SplitN "." aCore 4) (SplitN "." bCore 4) in
  if negb (c =? 0) then c
  else if str_eqb aPre "" && negb (str_eqb bPre "") then 1
  else if negb (str_eqb aPre "") && str_eqb bPre "" then -1
  else 0.

(** [^[0-9]+\.[0-9]+\.[0-9]+(?:-[0-9A-Za-z.-]+)?$] *)
Definition digits1 (s : string) : bool :=
  negb (str_eqb s "") && forallb (λ c, (48 <=? code c) && (code c <=? 57))%nat (bytes_of s).
Definition strictClientVersionPattern (s : string) : bool :=
  let '(core, pre, found) := Cut "-" s in
  (length (Split "." core) =? 3)%nat && forallb digits1 (Split "." core)
  && (negb found
      || (negb (str_eqb pre "")
          && forallb (λ c, is_alnum c || Ascii.eqb c "." || Ascii.eqb c "-") (bytes_of pre))).

(** ** The gates *)

Definition evaluateVersionGateAgainst (clientVersion minimumVersion : string) : string :=
  if str_eqb minimumVersion "" || str_eqb clientVersion "" then ""
  else if compareVersions clientVersion minimumVersion <? 0 then "reject_426" else "pass".

(** [checkIndexClientVersion] against the current minimum. *)
Definition checkIndexClientVersion (minimumVersion clientVersion : string) : result error unit :=
  let clientVersion := TrimSpace clientVersion in
  if str_eqb minimumVersion "" then Ok tt else
  reject str_eqb clientVersion ""
    with Errorf ("client_version is required; minimum supported version is " +:+ minimumVersion
                 +:+ "; update @anmezing/lce-cloud and restart the MCP client") in
  reject compareVersions clientVersion minimumVersion <? 0
    with Errorf ("client version " +:+ clientVersion +:+ " is below minimum " +:+ minimumVersion
                 +:+ "; update @anmezing/lce-cloud and restart the MCP client") in
  Ok tt.

(** ** The policy *)

Section policy.
(** [strconv_Quote]: strconv.Quote, the text of [%q], which consults the Unicode tables. *)
Context (E : Env) (strconv_Quote : string → string).

Definition currentMinClientVersion : M string := with_mutex E (λ p, (minClientVersion p, p)).
Definition setMinClientVersion (version : string) : M unit :=
  with_mutex E (λ p, (tt, set_min_version (TrimSpace version) p)).

(** At start-up, when the process holds the value of [MIN_CLIENT_VERSION]. *)
Definition check_configured_version : M unit :=
  configured ← currentMinClientVersion;
  if negb (str_eqb configured "") && negb (strictClientVersionPattern configured)
  then throw (Errorf ("MIN_CLIENT_VERSION must use major.minor.patch semver, got " +:+ strconv_Quote configured))
  else mret tt.
Definition load_stored_version : M unit :=
  stored ← query E (λ d, Ok (relay_runtime_settings d !! minimumClientVersionSetting));
  match stored with
  | None => mret tt
  | Some v =>
      if negb (str_eqb v "") && negb (strictClientVersionPattern v)
      then throw (Errorf ("stored minimum client version is invalid: " +:+ strconv_Quote v))
      else setMinClientVersion v
  end.
Definition migrateClientVersionPolicy : M unit :=
  check_configured_version;;
  _ ← atomically E (λ _ d, Ok (tt, d));         (* CREATE TABLE IF NOT EXISTS *)
  load_stored_version.

Definition must_use : string := "minimum_version must use major.minor.patch semver".

Definition saveMinimumClientVersion (version : string) : M unit :=
  let version := TrimSpace version in
  if negb (str_eqb version "") && negb (strictClientVersionPattern version)
  then throw (Errorf must_use) else
  _ ← atomically E (λ _ d, Ok (tt, set_settings (insert minimumClientVersionSetting version) d));
  setMinClientVersion version.

Definition cloudClientPackageName : string := "@anmezing/lce-cloud".
Definition clientVersionPolicyResponse : M (list (string * json)) :=
  minimumVersion ← currentMinClientVersion;
  mret [("package", JStr cloudClientPackageName); ("minimum_version", JStr minimumVersion);
        ("index_client_version_required", JBool (negb (str_eqb minimumVersion "")))].
End policy.

(** ** Laws *)

(** A version as the numbers that are compared; a release ranks above its pre-releases. *)
Definition version_rank (v : string) : Z * Z * Z * Z :=
  let '(core, pre, _) := Cut "-" v in
  let parts := SplitN "." core 4 in
  (part_value parts 0, part_value parts 1, part_value parts 2, if str_eqb pre "" then 1 else 0).

Definition sign_of (x y : Z) : Z := if x <? y then -1 else if y <? x then 1 else 0.
Definition rank_compare (a b : Z * Z * Z * Z) : Z :=
  let '(a1, a2, a3, a4) := a in
  let '(b1, b2, b3, b4) := b in
  if negb (a1 =? b1) then sign_of a1 b1 else if negb (a2 =? b2) then sign_of a2 b2
  else if negb (a3 =? b3) then sign_of a3 b3 else sign_of a4 b4.

Ltac decide_signs :=
  repeat match goal with
  | |- context [?x <? ?y] => destruct (Z.ltb_spec x y)
  | |- context [?x =? ?y] => destruct (Z.eqb_spec x y)
  end; simpl; try lia.

Lemma compareVersions_rank a b : compareVersions a b = rank_compare (version_rank a) (version_rank b).
Proof.
  unfold compareVersions, version_rank, rank_compare, sign_of.
  destruct (Cut "-" a) as [[aCore aPre] aFound], (Cut "-" b) as [[bCore bPre] bFound].
  cbn [compare_parts]. generalize (part_value (SplitN "." aCore 4)), (part_value (SplitN "." bCore 4)).
  intros f g. destruct (str_eqb aPre ""), (str_eqb bPre ""); simpl; decide_signs.
Qed.

(** [rank_compare a b] is -1, 0 or 1 as [a] is below, equal to or above [b]. *)
Definition rank_lt (a b : Z * Z * Z * Z) : Prop :=
  let '(a1, a2, a3, a4) := a in
  let '(b1, b2, b3, b4) := b in
  a1 < b1 ∨ a1 = b1 ∧ (a2 < b2 ∨ a2 = b2 ∧ (a3 < b3 ∨ a3 = b3 ∧ a4 < b4)).

Lemma rank_compare_spec a b :
  rank_compare a b = -1 ∧ rank_lt a b ∨ rank_compare a b = 0 ∧ a = b ∨ rank_compare a b = 1 ∧ rank_lt b a.
Proof.
  destruct a as [[[a1 a2] a3] a4], b as [[[b1 b2] b3] b4]. unfold rank_compare, rank_lt, sign_of.
  decide_signs; subst; first [left; lia | right; right; lia | right; left; split; [done|repeat f_equal; lia]].
Qed.

Lemma rank_lt_trans a b c : rank_lt a b → rank_lt b c → rank_lt a c.
Proof.
  destruct a as [[[a1 a2] a3] a4], b as [[[b1 b2] b3] b4], c as [[[c1 c2] c3] c4]. unfold rank_lt. lia.
Qed.
Lemma rank_lt_irrefl a : ¬ rank_lt a a.
Proof. destruct a as [[[a1 a2] a3] a4]. unfold rank_lt. lia. Qed.

(** [compareVersions] is a total preorder on arbitrary texts, so the
    gate is coherent: its sign is antisymmetric and at-most is transitive; whoever passes
    a minimum passes every lower one. *)
Lemma compareVersions_order a b c :
  compareVersions a b = - compareVersions b a ∧ -1 ≤ compareVersions a b ≤ 1 ∧
  (compareVersions a b ≤ 0 → compareVersions b c ≤ 0 → compareVersions a c ≤ 0).
Proof.
  rewrite !compareVersions_rank. generalize (version_rank a), (version_rank b), (version_rank c).
  clear a b c. intros a b c.
  pose proof (rank_compare_spec a b) as Hab. pose proof (rank_compare_spec b a) as Hba. split_and!; [|lia..|].
  - destruct Hab as [[-> ?]|[[-> ?]|[-> ?]]], Hba as [[-> ?]|[[-> ?]|[-> ?]]]; subst; try lia;
      exfalso; eapply rank_lt_irrefl; by eauto using rank_lt_trans.
  - intros H1 H2. destruct Hab as [[_ Hab]|[[_ <-]|[? _]]]; [|done|lia].
    destruct (rank_compare_spec b c) as [[_ Hbc]|[[_ <-]|[? _]]]; [|lia..].
    destruct (rank_compare_spec a c) as [[-> _]|[[-> _]|[_ Hca]]]; [lia..|].
    exfalso. apply (rank_lt_irrefl a). by eauto using rank_lt_trans.
Qed.

(** *** Semantic versions *)

Lemma Cut_absent a s : has_byte a s = false → Cut a s = (s, "", false).
Proof.
  induction s as [|c s IH]; simpl; intros H; [done|]. apply orb_false_iff in H as [-> H]. by rewrite IH.
Qed.
Lemma Cut_at a s t : has_byte a s = false → Cut a (s +:+ String a t) = (s, t, true).
Proof.
  induction s as [|c s IH]; intros H.
  - change ("" +:+ String a t) with (String a t). simpl. by rewrite Ascii.eqb_refl.
  - change (String c s +:+ String a t) with (String c (s +:+ String a t)). simpl in *.
    apply orb_false_iff in H as [-> H]. by rewrite IH.
Qed.

Lemma no_dash_FormatInt z : 0 ≤ z → has_byte "-" (FormatInt z) = false.
Proof.
  intros Hz. unfold FormatInt. destruct z as [|p|p]; [reflexivity| |lia].
  change (pretty (Z.pos p)) with (pretty (Npos p)).
  eapply parse_digits_no_byte; [reflexivity|apply parse_digits_pretty_pos].
Qed.
Lemma no_dot_FormatInt z : has_byte "." (FormatInt z) = false.
Proof. by apply has_byte_FormatInt. Qed.

Definition core_text (x y z : Z) : string :=
  FormatInt x +:+ String "." (FormatInt y +:+ String "." (FormatInt z)).
(** [major.minor.patch] with the pre-release [pre], if any. *)
Definition version_text (x y z : Z) (pre : string) : string :=
  if str_eqb pre "" then core_text x y z else core_text x y z +:+ String "-" pre.
Definition release (pre : string) : Z := if str_eqb pre "" then 1 else 0.

Lemma version_text_rank x y z pre :
  0 ≤ x ≤ MaxInt64 → 0 ≤ y ≤ MaxInt64 → 0 ≤ z ≤ MaxInt64 →
  version_rank (version_text x y z pre) = (x, y, z, release pre).
Proof.
  intros Hx Hy Hz.
  assert (∀ v, 0 ≤ v ≤ MaxInt64 → Atoi_value (FormatInt v) = v) as Hval.
  { intros v Hv. unfold Atoi_value. rewrite ParseInt_FormatInt; [done|].
    unfold in_int64. unfold MinInt64, MaxInt64 in *. apply andb_true_iff. split; apply Z.leb_le; lia. }
  assert (SplitN "." (core_text x y z) 4 = [FormatInt x; FormatInt y; FormatInt z]) as Hs.
  { unfold SplitN, core_text. rewrite !Split_app_sep by apply no_dot_FormatInt.
    by rewrite Split_sep_free by apply no_dot_FormatInt. }
  assert (has_byte "-" (core_text x y z) = false) as Hd.
  { unfold core_text. rewrite has_byte_app. cbn -[FormatInt]. rewrite has_byte_app. cbn -[FormatInt].
    by rewrite !no_dash_FormatInt by lia. }
  unfold version_rank, version_text, release. destruct (str_eqb pre "") eqn:Ep.
  - rewrite Cut_absent, Hs by exact Hd. cbn. by rewrite !Hval.
  - rewrite Cut_at, Hs, Ep by exact Hd. cbn. by rewrite !Hval.
Qed.

(** On versions of the form [major.minor.patch] with an optional
    pre-release, the gate refuses exactly the lower ones: the numbers are compared as
    numbers (10 after 9), from left to right, and a pre-release is below its release. *)
Theorem version_gate_semver x y z pre x' y' z' pre' :
  0 ≤ x ≤ MaxInt64 → 0 ≤ y ≤ MaxInt64 → 0 ≤ z ≤ MaxInt64 →
  0 ≤ x' ≤ MaxInt64 → 0 ≤ y' ≤ MaxInt64 → 0 ≤ z' ≤ MaxInt64 →
  evaluateVersionGateAgainst (version_text x y z pre) (version_text x' y' z' pre') = "reject_426" ↔
  x < x' ∨ x = x' ∧ (y < y' ∨ y = y' ∧ (z < z' ∨ z = z' ∧ pre ≠ "" ∧ pre' = "")).
Proof.
  intros Hx Hy Hz Hx' Hy' Hz'. unfold evaluateVersionGateAgainst.
  assert (∀ a b c p, str_eqb (version_text a b c p) "" = false) as Hne.
  { intros a b c p. apply str_eqb_false. intros H%(f_equal String.length). revert H. unfold version_text, core_text.
    case_match; rewrite ?length_append; cbn [String.length]; rewrite ?length_append; simpl; lia. }
  rewrite !Hne, compareVersions_rank, !version_text_rank by done. simpl orb.
  pose proof (rank_compare_spec (x, y, z, release pre) (x', y', z', release pre')) as H.
  assert (release pre < release pre' ↔ pre ≠ "" ∧ pre' = "") as Hrel.
  { unfold release. destruct (str_eqb pre "") eqn:E1, (str_eqb pre' "") eqn:E2;
      rewrite ?str_eqb_true, ?str_eqb_false in *; split; try lia; try tauto; done. }
  rewrite <- Hrel. destruct (Z.ltb_spec (rank_compare (x, y, z, release pre) (x', y', z', release pre')) 0).
  - split; [|done]. intros _. destruct H as [[_ H]|[[? _]|[? _]]]; [exact H|lia..].
  - split; [done|]. intros Hlt. exfalso. destruct H as [[? _]|[[_ H]|[_ H]]]; [lia| |].
    + injection H as -> -> -> Hr. rewrite Hr in Hlt. exact (rank_lt_irrefl (x', y', z', release pre') Hlt).
    + simpl in H. lia.
Qed.

Lemma version_gate_semver_witness :
  evaluateVersionGateAgainst (version_text 1 9 0 "") (version_text 1 10 0 "rc.1") = "reject_426".
Proof. apply (version_gate_semver 1 9 0 "" 1 10 0 "rc.1"); unfold MaxInt64; lia. Defined.

(** *** The policy over a restart *)

(** The process starts again with the value [boot] of [MIN_CLIENT_VERSION]; the tables stay. *)
Definition restart (boot : string) (w : World) : World :=
  put_shared (with_proc (set_min_version (TrimSpace boot) empty_proc) (shared w)) w.

(** A minimal version that was saved takes effect at
    once and again after a restart, whatever valid default the environment gives; saving
    the empty text switches the gate off for good. *)
Theorem version_policy_survives_restart E Q version w w1 boot :
  quiet E → saveMinimumClientVersion E version w = (Ok tt, w1) →
  TrimSpace boot = "" ∨ strictClientVersionPattern (TrimSpace boot) = true →
  minClientVersion (s_proc (shared w1)) = TrimSpace version ∧
  ∃ w2, migrateClientVersionPolicy E Q (restart boot w1) = (Ok tt, w2) ∧
        minClientVersion (s_proc (shared w2)) = TrimSpace version.
Proof.
  intros [Hstep Hf] Hsave Hboot. unfold saveMinimumClientVersion in Hsave.
  destruct (negb _ && negb _) eqn:Ev; [done|].
  unfold mbind, M_bind, atomically, transact, setMinClientVersion, with_mutex, turn in Hsave.
  cbn -[TrimSpace] in Hsave. rewrite !Hstep, Hf in Hsave. cbn -[TrimSpace] in Hsave.
  rewrite Hstep in Hsave. injection Hsave as <-. cbn -[TrimSpace]. rewrite TrimSpace_idemp. split; [done|].
  unfold migrateClientVersionPolicy, check_configured_version, load_stored_version, currentMinClientVersion, query, restart.
  unfold mbind, M_bind, atomically, transact, setMinClientVersion, with_mutex, turn.
  repeat progress (rewrite ?Hstep, ?Hf; cbn -[TrimSpace strictClientVersionPattern lookup insert]).
  assert (negb (str_eqb (TrimSpace boot) "") && negb (strictClientVersionPattern (TrimSpace boot)) = false) as ->.
  { destruct Hboot as [->| ->]; [done|]. by rewrite andb_false_r. }
  repeat progress (rewrite ?Hstep, ?Hf; cbn -[TrimSpace strictClientVersionPattern lookup insert]).
  rewrite lookup_insert_eq. cbn -[TrimSpace strictClientVersionPattern]. rewrite Ev, ?Hstep.
  eexists. split; [reflexivity|]. cbn -[TrimSpace]. by rewrite TrimSpace_idemp.
Qed.
