(* ===== verification/Leases.v ===== *)
(** * Operation leases (index_operations.go)

    The durable lease table that serialises destructive operations of one tenant:
    an exclusive lease excludes every other lease of the tenant, a shared lease
    excludes the other leases of its resource, except that up to four upload
    batches of one job may overlap. *)
From Stdlib Require Import Ascii String.
From S2P Require Import Prelude GoStrings Paths Json Lce Store Effects.
Open Scope Z_scope.

Definition indexOperationLeaseDuration : Z := 2 * Minute.
Definition indexOperationRenewInterval : Z := 30 * Second.
Definition indexUploadBatchKind : string := "upload-batch".
Definition maxConcurrentIndexUploadsPerJob : Z := 4.

(** ** The statements *)

(** [status IN ('queued','running')] *)
Definition deletion_active (r : root_deletion) : bool :=
  bool_decide (rd_status r = Queued) || bool_decide (rd_status r = DRunning).
(** [status IN ('pending','running')] *)
Definition config_active (c : config_job) : bool :=
  bool_decide (pc_status c = CPending) || bool_decide (pc_status c = CRunning).

Definition tenant_deleting (user : string) (d : DB) : bool :=
  exists_where (λ _ r, str_eqb (rd_user r) user && deletion_active r) (root_deletion_jobs d).
Definition embedding_change_active (d : DB) : bool :=
  exists_where (λ _ c, pc_embedding_changed c && config_active c) (platform_config_jobs d).

(** [lease_expires_at > NOW()] *)
Definition lease_live (now : Z) (e : lease) : bool := now <? l_expires_at e.

(** The conflict predicate of the INSERT, between a stored lease and the request. *)
Definition lease_conflict (resource kind : string) (md : lease_mode) (e : lease) : bool :=
  bool_decide (l_mode e = LExclusive) || bool_decide (md = LExclusive)
  || (str_eqb (l_resource e) resource &&
      negb (str_eqb (l_kind e) indexUploadBatchKind && str_eqb kind indexUploadBatchKind)).

Definition is_upload (user resource : string) (e : lease) : bool :=
  str_eqb (l_user e) user && str_eqb (l_resource e) resource
  && str_eqb (l_kind e) indexUploadBatchKind.

(** [tryAcquireIndexOperation]: reclaim the tenant's expired leases and insert the
    new one unless something forbids it. *)
Definition tryAcquireIndexOperation (user resource kind token : string) (md : lease_mode)
    (now : Z) (d : DB) : result error (bool * DB) :=
  let table := index_operation_leases d in
  let kept := delete_where (λ _ e, str_eqb (l_user e) user && (l_expires_at e <=? now)) table in
  let conflict := exists_where (λ _ e, str_eqb (l_user e) user && lease_live now e
                                       && lease_conflict resource kind md e) table in
  let uploads := rows_where (λ _ e, lease_live now e && is_upload user resource e) table in
  let admitted :=
    negb conflict
    && (negb (str_eqb kind indexUploadBatchKind) || (uploads <? maxConcurrentIndexUploadsPerJob))
    && negb (tenant_deleting user d && negb (str_eqb kind "delete-root-job"))
    && negb (embedding_change_active d) in
  if admitted then
    match table !! token with
    | Some _ => Err ErrDB                     (* primary key violation *)
    | None =>
        let row := {| l_user := user; l_resource := resource; l_mode := md; l_kind := kind;
                      l_acquired_at := now;
                      l_expires_at := now + indexOperationLeaseDuration |} in
        Ok (true, set_leases (λ _, <[token := row]> kept) d)
    end
  else Ok (false, set_leases (λ _, kept) d).

(** One renewal statement of [renew]; the result is RowsAffected = 1. *)
Definition renew_lease (user token : string) (now : Z) (d : DB) : result error (bool * DB) :=
  let mine e := str_eqb (l_user e) user in
  Ok (matches token mine (index_operation_leases d),
      set_leases (update_row token mine (λ e,
        {| l_user := l_user e; l_resource := l_resource e; l_mode := l_mode e;
           l_kind := l_kind e; l_acquired_at := l_acquired_at e;
           l_expires_at := now + indexOperationLeaseDuration |})) d).

(** The DELETE of [Release]. *)
Definition release_lease (user token : string) (d : DB) : DB :=
  set_leases (delete_where (λ t e, str_eqb (l_user e) user && str_eqb t token)) d.

(** The body of [renew]'s ticker case: the new local deadline, or [None] when the
    lease context is cancelled. *)
Definition renew_tick (renewed : bool) (now deadline : Z) : option Z :=
  if renewed then Some (now + indexOperationLeaseDuration)
  else if deadline <? now + indexOperationRenewInterval then None else Some deadline.

Definition indexJobOperationResource (jobID : string) : string := "job:" +:+ jobID.
Definition indexWorkspaceOperationResource (ws : string) : string := "workspace:" +:+ ws.

(** ** Acquisition *)

Section acquire.
Context (E : Env).

Fixpoint acquire_loop (fuel : nat) (user resource kind token : string) (md : lease_mode) :
    M string :=
  deleting ← (if str_eqb kind "delete-root-job" then mret false
              else query E (λ d, Ok (tenant_deleting user d)));
  if (deleting : bool) then throw ErrDeletionInProgress else
  acquired ← atomically E (tryAcquireIndexOperation user resource kind token md);
  if (acquired : bool) then mret token
  else match fuel with
       | O => throw ErrCtx
       | S fuel' => acquire_loop fuel' user resource kind token md
       end.

Definition acquireIndexOperation (user resource kind : string) (md : lease_mode) : M string :=
  if str_eqb user "" || str_eqb resource "" || str_eqb kind ""
  then throw (Errorf "invalid index operation lease identity")
  else
    token ← uuid_New E;
    fuel ← polls E;
    acquire_loop fuel user resource kind token md.

Definition acquireSharedIndexOperation (user resource kind : string) : M string :=
  acquireIndexOperation user resource kind LShared.
Definition acquireExclusiveIndexOperation (user kind : string) : M string :=
  acquireIndexOperation user "*" kind LExclusive.

Definition tryIndexOperation (user resource kind : string) (md : lease_mode) : M string :=
  token ← uuid_New E;
  acquired ← atomically E (tryAcquireIndexOperation user resource kind token md);
  if (acquired : bool) then mret token else throw ErrIndexOperationBusy.

Definition tryExclusiveIndexOperation (user kind : string) : M string :=
  tryIndexOperation user "*" kind LExclusive.

Definition Release (user token : string) : M unit :=
  ignore (atomically E (λ _ d, Ok (tt, release_lease user token d))).

(** [lease, err := acquire; defer lease.Release(); body]. *)
Definition with_lease {A} (user : string) (acquire : M string) (body : M A) : M A :=
  token ← acquire; finally body (Release user token).
End acquire.

(** ** The lease discipline *)

Definition compatible (e1 e2 : lease) : Prop :=
  l_mode e1 = LShared ∧ l_mode e2 = LShared ∧
  (l_resource e1 = l_resource e2 →
   l_kind e1 = indexUploadBatchKind ∧ l_kind e2 = indexUploadBatchKind).

Definition upload_count (user resource : string) (m : gmap string lease) : Z :=
  rows_where (λ _ e, is_upload user resource e) m.

(** Stated of every stored lease, live or expired, and so insensitive to time. *)
Record leases_ok (m : gmap string lease) : Prop := {
  lo_compatible : ∀ t1 t2 e1 e2, t1 ≠ t2 → m !! t1 = Some e1 → m !! t2 = Some e2 →
    l_user e1 = l_user e2 → compatible e1 e2;
  lo_uploads : ∀ user resource, upload_count user resource m ≤ maxConcurrentIndexUploadsPerJob
}.

Lemma compatible_sym e1 e2 : compatible e1 e2 → compatible e2 e1.
Proof. unfold compatible. naive_solver. Qed.

Lemma no_conflict_compatible resource kind md e row :
  lease_conflict resource kind md e = false →
  l_mode row = md → l_resource row = resource → l_kind row = kind →
  compatible e row.
Proof.
  unfold lease_conflict, compatible. intros Hc <- <- <-.
  apply orb_false_iff in Hc as [Hc Hr]. apply orb_false_iff in Hc as [H1 H2].
  apply bool_decide_eq_false in H1, H2. split_and!.
  - by destruct (l_mode e).
  - by destruct (l_mode row).
  - intros Heq. rewrite Heq, str_eqb_refl in Hr. simpl in Hr.
    apply negb_false_iff, andb_true_iff in Hr as [K1 K2]. by apply str_eqb_true in K1, K2.
Qed.

(** Dropping leases, or changing only expiry times, keeps the discipline. *)
Lemma leases_ok_mono m m' :
  leases_ok m →
  (∀ t e', m' !! t = Some e' → ∃ e, m !! t = Some e ∧ l_user e' = l_user e ∧
     l_resource e' = l_resource e ∧ l_mode e' = l_mode e ∧ l_kind e' = l_kind e) →
  leases_ok m'.
Proof.
  intros [Hc Hu] Hsub. split.
  - intros t1 t2 e1 e2 Hne H1 H2 Huser.
    destruct (Hsub _ _ H1) as (f1 & F1 & U1 & R1 & M1 & K1).
    destruct (Hsub _ _ H2) as (f2 & F2 & U2 & R2 & M2 & K2).
    assert (compatible f1 f2) as Hf by (apply (Hc t1 t2); congruence).
    unfold compatible in *. rewrite R1, R2, M1, M2, K1, K2. done.
  - intros user resource. transitivity (upload_count user resource m); [|apply Hu].
    apply rows_where_le. intros t e' H' HP.
    destruct (Hsub _ _ H') as (e & He & U & R & _ & K). exists e. split; [done|].
    unfold is_upload in *. by rewrite <- U, <- R, <- K.
Qed.

Lemma kept_leases_ok m user now :
  leases_ok m →
  leases_ok (delete_where (λ _ e, str_eqb (l_user e) user && (l_expires_at e <=? now)) m).
Proof.
  intros Hok. apply (leases_ok_mono m); [done|].
  intros t e [H _]%delete_where_lookup. eauto 10.
Qed.

Lemma leases_ok_insert m t row :
  leases_ok m → m !! t = None →
  (∀ t' e, m !! t' = Some e → l_user e = l_user row → compatible e row) →
  (l_kind row = indexUploadBatchKind →
   upload_count (l_user row) (l_resource row) m < maxConcurrentIndexUploadsPerJob) →
  leases_ok (<[t := row]> m).
Proof.
  intros [Hc Hu] Ht Hrow Hcount. split.
  - intros t1 t2 e1 e2 Hne H1 H2 Huser. rewrite lookup_insert_Some in H1, H2.
    destruct H1 as [[-> ->]|[N1 H1]], H2 as [[-> ->]|[N2 H2]]; [done| | |].
    + apply compatible_sym, (Hrow t2); [done|congruence].
    + by apply (Hrow t1).
    + by apply (Hc t1 t2).
  - intros user resource. unfold upload_count.
    destruct (is_upload user resource row) eqn:EU.
    + rewrite rows_where_insert_fresh by done. unfold is_upload in EU.
      apply andb_true_iff in EU as [EU EK]. apply andb_true_iff in EU as [EU ER].
      apply str_eqb_true in EU, ER, EK. subst user resource.
      specialize (Hcount EK). unfold upload_count in Hcount. lia.
    + rewrite rows_where_insert_skip; [apply Hu|done|]. intros x Hx. congruence.
Qed.

Lemma tryAcquire_leases_ok user resource kind token md now d b d' :
  tryAcquireIndexOperation user resource kind token md now d = Ok (b, d') →
  leases_ok (index_operation_leases d) → leases_ok (index_operation_leases d').
Proof.
  unfold tryAcquireIndexOperation. intros H Hok.
  set (m := index_operation_leases d) in *.
  pose proof (kept_leases_ok m user now Hok) as Hkept.
  set (kept := delete_where _ m) in *.
  destruct (_ && _ && _ && _) eqn:Eadm; [|by simplify_eq].
  destruct (m !! token) eqn:Et; [done|]. injection H as _ <-. simpl.
  apply andb_true_iff in Eadm as [Eadm _]. apply andb_true_iff in Eadm as [Eadm _].
  apply andb_true_iff in Eadm as [Econf Ecnt].
  apply negb_true_iff in Econf. rewrite exists_where_false in Econf.
  assert (∀ t e, kept !! t = Some e → l_user e = user → lease_live now e = true) as Hlive.
  { intros t e [Hm Hk]%delete_where_lookup Hu. rewrite Hu, str_eqb_refl in Hk. simpl in Hk.
    unfold lease_live. reflect_bools. by apply Z.ltb_lt. }
  apply leases_ok_insert; [done| | |]; simpl.
  - apply delete_where_None. intros v Hv. congruence.
  - intros t e Ht Hu. specialize (Hlive t e Ht Hu). apply delete_where_lookup in Ht as [Ht _].
    specialize (Econf t e Ht). rewrite Hu, str_eqb_refl, Hlive in Econf. simpl in Econf.
    by apply (no_conflict_compatible resource kind md).
  - intros ->. rewrite str_eqb_refl in Ecnt. simpl in Ecnt. apply Z.ltb_lt in Ecnt.
    eapply Z.le_lt_trans; [|exact Ecnt]. apply rows_where_le. intros t e Ht HP.
    pose proof HP as HP'. unfold is_upload in HP'. apply andb_true_iff in HP' as [HP' _].
    apply andb_true_iff in HP' as [HP' _]. apply str_eqb_true in HP'.
    exists e. rewrite (Hlive t e Ht HP'). apply delete_where_lookup in Ht as [Ht _]. done.
Qed.

Lemma renew_leases_ok user token now d b d' :
  renew_lease user token now d = Ok (b, d') →
  leases_ok (index_operation_leases d) → leases_ok (index_operation_leases d').
Proof.
  unfold renew_lease. intros [= _ <-] Hok. simpl. apply (leases_ok_mono _ _ Hok).
  intros t e' He'. apply update_row_Some in He' as (e & He & [->|(_ & _ & ->)]); eauto 10.
Qed.

Lemma release_leases_ok user token d :
  leases_ok (index_operation_leases d) →
  leases_ok (index_operation_leases (release_lease user token d)).
Proof.
  intros Hok. apply (leases_ok_mono _ _ Hok). simpl.
  intros t e [H _]%delete_where_lookup. eauto 10.
Qed.
