(* ===== verification/Base64.v ===== *)
(** * encoding/base64

    [RawURLEncoding] as the organisation quota cache uses it: the URL-safe
    alphabet, no padding, and a decoder that skips carriage returns and line feeds
    and ignores the unused low bits of a final partial group. *)
From Stdlib Require Import Ascii String.
From S2P Require Import Prelude GoStrings Sha256.
Open Scope Z_scope.

Definition url_alphabet : list ascii :=
  bytes_of "ABCDEFGHIJKLMNOPQRSTUVWXYZabcdefghijklmnopqrstuvwxyz0123456789-_".

Definition sextet_char (z : Z) : ascii := List.nth (Z.to_nat z) url_alphabet "A"%char.

Fixpoint char_index (i : Z) (l : list ascii) (c : ascii) : option Z :=
  match l with
  | [] => None
  | x :: l' => if Ascii.eqb x c then Some i else char_index (i + 1) l' c
  end.
Definition char_sextet (c : ascii) : option Z := char_index 0 url_alphabet c.

Fixpoint sextets (l : list Z) : list Z :=
  match l with
  | a :: b :: c :: rest =>
      a / 4 :: (a mod 4) * 16 + b / 16 :: (b mod 16) * 4 + c / 64 :: c mod 64 :: sextets rest
  | [a; b] => [a / 4; (a mod 4) * 16 + b / 16; (b mod 16) * 4]
  | [a] => [a / 4; (a mod 4) * 16]
  | [] => []
  end.

Fixpoint octets (l : list Z) : option (list Z) :=
  match l with
  | p :: q :: r :: s :: rest =>
      (λ t, p * 4 + q / 16 :: (q mod 16) * 16 + r / 4 :: (r mod 4) * 64 + s :: t) <$> octets rest
  | [p; q; r] => Some [p * 4 + q / 16; (q mod 16) * 16 + r / 4]
  | [p; q] => Some [p * 4 + q / 16]
  | [_] => None
  | [] => Some []
  end.

Definition RawURL_EncodeToString (s : string) : string :=
  of_bytes (sextet_char <$> sextets (string_bytes s)).

Definition is_newline (c : ascii) : bool :=
  Ascii.eqb c (byte_of 10) || Ascii.eqb c (byte_of 13).

Definition RawURL_DecodeString (s : string) : option string :=
  digits ← mapM char_sextet (List.filter (λ c, negb (is_newline c)) (bytes_of s));
  bytes_string <$> octets digits.

(** ** Round trip *)

Definition is_byte (z : Z) : Prop := 0 ≤ z < 256.
Definition is_sextet (z : Z) : Prop := 0 ≤ z < 64.

Lemma three_step (P : list Z → Prop) :
  P [] → (∀ a, P [a]) → (∀ a b, P [a; b]) →
  (∀ a b c l, P l → P (a :: b :: c :: l)) → ∀ l, P l.
Proof.
  intros H0 H1 H2 H3 l.
  enough (P l ∧ (∀ a, P (a :: l)) ∧ (∀ a b, P (a :: b :: l))) by tauto.
  induction l as [|x l (IH0 & IH1 & IH2)]; [auto|]. split_and!; auto.
Qed.

Ltac div_bounds :=
  repeat match goal with
  | |- context [?x / ?k] =>
      lazymatch goal with
      | _ : x = k * (x / k) + x mod k |- _ => fail
      | _ => pose proof (Z.div_mod x k ltac:(lia)); pose proof (Z.mod_pos_bound x k ltac:(lia))
      end
  | |- context [?x mod ?k] =>
      lazymatch goal with
      | _ : x = k * (x / k) + x mod k |- _ => fail
      | _ => pose proof (Z.div_mod x k ltac:(lia)); pose proof (Z.mod_pos_bound x k ltac:(lia))
      end
  end.

Lemma sextets_bounded l : Forall is_byte l → Forall is_sextet (sextets l).
Proof.
  unfold is_byte, is_sextet. revert l. apply (three_step (λ l, Forall _ l → Forall _ (sextets l))).
  - constructor.
  - intros a Ha. inversion_clear Ha. simpl. repeat constructor; div_bounds; lia.
  - intros a b Ha. inversion_clear Ha as [|?? ? Hb]. inversion_clear Hb. simpl.
    repeat constructor; div_bounds; lia.
  - intros a b c l IH Ha. inversion_clear Ha as [|?? ? Hb]. inversion_clear Hb as [|?? ? Hc].
    inversion_clear Hc. simpl. repeat (constructor; [div_bounds; lia|]). by apply IH.
Qed.

Lemma octets_sextets l : Forall is_byte l → octets (sextets l) = Some l.
Proof.
  unfold is_byte. revert l. apply (three_step (λ l, Forall _ l → octets (sextets l) = Some l)).
  - done.
  - intros a Ha. inversion_clear Ha. simpl. do 2 f_equal. div_bounds. lia.
  - intros a b Ha. inversion_clear Ha as [|?? ? Hb]. inversion_clear Hb. simpl.
    repeat f_equal; div_bounds; lia.
  - intros a b c l IH Ha. inversion_clear Ha as [|?? ? Hb]. inversion_clear Hb as [|?? ? Hc].
    inversion_clear Hc. simpl. rewrite IH by done. simpl.
    repeat f_equal; div_bounds; lia.
Qed.

Definition digit_ok (z : Z) : bool :=
  bool_decide (char_sextet (sextet_char z) = Some z) && negb (is_newline (sextet_char z))
  && negb (Ascii.eqb (sextet_char z) ","%char).

Lemma digit_ok_all : forallb digit_ok (Z.of_nat <$> seq 0 64) = true.
Proof. vm_compute. reflexivity. Qed.

Lemma sextet_digit z : is_sextet z → digit_ok z = true.
Proof.
  intros Hz. unfold is_sextet in Hz. pose proof digit_ok_all as H. rewrite forallb_forall in H. apply H.
  apply list_elem_of_In, list_elem_of_fmap. exists (Z.to_nat z). split; [lia|].
  apply elem_of_seq. lia.
Qed.

Lemma string_bytes_bounded s : Forall is_byte (string_bytes s).
Proof.
  unfold string_bytes, is_byte. apply Forall_fmap, Forall_true. intros c. simpl.
  unfold code. pose proof (nat_ascii_bounded c). lia.
Qed.

Lemma bytes_string_of s : bytes_string (string_bytes s) = s.
Proof.
  unfold bytes_string, string_bytes. rewrite List.map_map.
  rewrite (List.map_ext _ (λ c, c)), List.map_id; [apply of_bytes_of|].
  intros c. unfold code. rewrite Nat2Z.id. apply ascii_nat_embedding.
Qed.

Lemma encoded_digits l :
  Forall is_sextet l →
  mapM char_sextet (List.filter (λ c, negb (is_newline c)) (sextet_char <$> l)) = Some l.
Proof.
  induction 1 as [|z l Hz Hl IH]; [done|]. apply sextet_digit in Hz. unfold digit_ok in Hz.
  apply andb_true_iff in Hz as [Hz _]. apply andb_true_iff in Hz as [H1 H2].
  apply bool_decide_eq_true in H1. simpl. rewrite H2. simpl. rewrite H1. simpl.
  unfold fmap in IH. rewrite IH. done.
Qed.

Lemma RawURL_round_trip s : RawURL_DecodeString (RawURL_EncodeToString s) = Some s.
Proof.
  unfold RawURL_DecodeString, RawURL_EncodeToString. rewrite bytes_of_bytes.
  rewrite encoded_digits by apply sextets_bounded, string_bytes_bounded. simpl.
  rewrite octets_sextets by apply string_bytes_bounded. simpl. by rewrite bytes_string_of.
Qed.

Lemma RawURL_no_comma s : has_byte ","%char (RawURL_EncodeToString s) = false.
Proof.
  apply has_byte_bytes. unfold RawURL_EncodeToString. rewrite bytes_of_bytes.
  intros (z & Heq & Hz)%list_elem_of_fmap.
  pose proof (sextets_bounded _ (string_bytes_bounded s)) as Hb.
  rewrite Forall_forall in Hb. specialize (Hb z Hz). apply sextet_digit in Hb.
  unfold digit_ok in Hb. rewrite <- Heq in Hb.
  apply andb_true_iff in Hb as [_ Hb]. done.
Qed.

(** ** StdEncoding

    The standard alphabet with padding; [strict] is the decoder of [Strict()], which refuses
    a final group whose unused bits are not zero. *)

Definition std_of_url (c : ascii) : ascii :=
  if Ascii.eqb c "-" then "+"%char else if Ascii.eqb c "_" then "/"%char else c.
Definition url_of_std (c : ascii) : ascii :=
  if Ascii.eqb c "+" then "-"%char else if Ascii.eqb c "/" then "_"%char
  else if Ascii.eqb c "-" || Ascii.eqb c "_" then "="%char else c.
Definition std_sextet (c : ascii) : option Z := char_sextet (url_of_std c).

Definition Std_EncodedLen (n : Z) : Z := (n + 2) / 3 * 4.

Definition Std_EncodeToString (s : string) : string :=
  let body := (λ z, std_of_url (sextet_char z)) <$> sextets (string_bytes s) in
  of_bytes (body ++ repeat "="%char ((4 - length body mod 4) mod 4)).

(** The digits before the first padding character, and the rest. *)
Fixpoint split_padding (l : list ascii) : list ascii * list ascii :=
  match l with
  | [] => ([], [])
  | c :: r => if Ascii.eqb c "=" then ([], l) else let '(b, p) := split_padding r in (c :: b, p)
  end.

Definition Std_DecodeString (strict : bool) (s : string) : option string :=
  let l := List.filter (λ c, negb (is_newline c)) (bytes_of s) in
  let '(body, pad) := split_padding l in
  if forallb (λ c, Ascii.eqb c "=") pad && (length pad <=? 2)%nat && (length l mod 4 =? 0)%nat then
    digits ← mapM std_sextet body;
    bytes ← octets digits;
    if strict && negb (bool_decide (sextets bytes = digits)) then None else Some (bytes_string bytes)
  else None.

Lemma length_sextets l : (length (sextets l) mod 4 ≠ 1)%nat.
Proof.
  revert l. apply three_step; [done..|]. intros a b c l IH.
  change (length (sextets (a :: b :: c :: l))) with (4 + length (sextets l))%nat.
  rewrite <- (Nat.mul_1_l 4), Nat.add_comm, Nat.Div0.mod_add. exact IH.
Qed.

Definition std_digit_ok (z : Z) : bool :=
  let c := std_of_url (sextet_char z) in
  bool_decide (std_sextet c = Some z) && negb (is_newline c) && negb (Ascii.eqb c "=").
Lemma std_digit_ok_all : forallb std_digit_ok (Z.of_nat <$> seq 0 64) = true.
Proof. vm_compute. reflexivity. Qed.
Lemma std_digit z : is_sextet z → std_digit_ok z = true.
Proof.
  intros Hz. unfold is_sextet in Hz. pose proof std_digit_ok_all as H. rewrite forallb_forall in H. apply H.
  apply list_elem_of_In, list_elem_of_fmap. exists (Z.to_nat z). split; [lia|]. apply elem_of_seq. lia.
Qed.

Lemma std_digits l :
  Forall is_sextet l →
  let body := (λ z, std_of_url (sextet_char z)) <$> l in
  mapM std_sextet body = Some l ∧
  ∀ n, List.filter (λ c, negb (is_newline c)) (body ++ repeat "="%char n) = body ++ repeat "="%char n ∧
       split_padding (body ++ repeat "="%char n) = (body, repeat "="%char n).
Proof.
  induction 1 as [|z l Hz Hl IH]; cbn [fmap list_fmap app].
  { split; [done|]. intros n. split; [|by destruct n]. by induction n as [|n IHn]; simpl; [|rewrite IHn]. }
  apply std_digit in Hz. unfold std_digit_ok in Hz. reflect_bools.
  destruct IH as [IH1 IH2]. split.
  - apply mapM_Some. constructor; [done|]. by apply mapM_Some.
  - intros n. destruct (IH2 n) as [E1 E2]. split.
    + cbn [List.filter]. rewrite H1. cbn [negb]. f_equal. exact E1.
    + cbn [split_padding]. rewrite H0. by rewrite E2.
Qed.

Lemma Std_round_trip strict s : Std_DecodeString strict (Std_EncodeToString s) = Some s.
Proof.
  unfold Std_DecodeString, Std_EncodeToString. rewrite bytes_of_bytes.
  set (l := sextets (string_bytes s)). set (body := _ <$> l). set (n := ((4 - length body mod 4) mod 4)%nat).
  destruct (std_digits l) as [Hd Hf]; [apply sextets_bounded, string_bytes_bounded|]. fold body in Hd, Hf.
  destruct (Hf n) as [-> ->].
  assert (forallb (λ c, Ascii.eqb c "=") (repeat "="%char n) = true) as -> by (by induction n).
  assert (length body mod 4 ≠ 1)%nat as H1 by (unfold body; rewrite length_fmap; apply length_sextets).
  assert (length body mod 4 < 4)%nat as H2 by (apply Nat.mod_upper_bound; lia).
  assert (n ≤ 2)%nat as Hn.
  { unfold n. destruct (length body mod 4)%nat as [|[|[|[|k]]]]; simpl in *; lia. }
  rewrite repeat_length, (proj2 (Nat.leb_le n 2) Hn), length_app, repeat_length.
  assert ((length body + n) mod 4 = 0)%nat as ->.
  { unfold n. rewrite Nat.Div0.add_mod_idemp_r. rewrite <- Nat.Div0.add_mod_idemp_l.
    destruct (length body mod 4)%nat as [|[|[|[|k]]]]; simpl in *; lia. }
  simpl andb. cbv iota. cbn. rewrite Hd. cbn. unfold l.
  rewrite octets_sextets by apply string_bytes_bounded. cbn.
  rewrite bool_decide_true by done. rewrite andb_false_r. by rewrite bytes_string_of.
Qed.
