(* ===== verification/TenantAssertion.v ===== *)
(** * Tenant assertions (tenant_assertion.go)

    The relay signs, for every call of LCE, which tenant the call is for.  The verifier below
    follows the format that the source documents; it stands for what LCE does with a token. *)
From Stdlib Require Import Ascii String.
From S2P Require Import Prelude GoStrings Sha256 Md5 Paths Manifest Json Utf8 JsonText Base64 Sse.
Open Scope Z_scope.

(** ** Signing *)

Definition tenantAssertionVersion : string := "v1".
Definition tenantAssertionTTL : Z := 30 * Second.
Definition minTenantAssertionSecretLength : Z := 32.

Record tenantAssertionPayload := { Tenant : string; Expiry : Z; Nonce : string }.

(** [None]: no assertion is signed; otherwise the secret. *)
Abbreviation tenantAssertionSigner := (option string).

Definition newTenantAssertionSigner (secret : string) : result error tenantAssertionSigner :=
  let trimmed := TrimSpace secret in
  if str_eqb trimmed "" then Ok None
  else if len trimmed <? minTenantAssertionSecretLength
  then Err (Errorf ("LCE_TENANT_ASSERTION_SECRET must be at least "
                    +:+ FormatInt minTenantAssertionSecretLength +:+ " characters"))
  else Ok (Some trimmed).

(** [json.Marshal] of the payload: the fields in the order of the struct. *)
Definition payload_text (p : tenantAssertionPayload) : string :=
  "{" +:+ quote "t" +:+ ":" +:+ quote (Tenant p) +:+ "," +:+ quote "e" +:+ ":" +:+ FormatInt (Expiry p)
  +:+ "," +:+ quote "n" +:+ ":" +:+ quote (Nonce p) +:+ "}".

Definition signature (secret encoded : string) : string :=
  RawURL_EncodeToString (bytes_string (hmac_sha256 (string_bytes secret) (string_bytes encoded))).

Definition unix_seconds (t : Z) : Z := t / Second.

(** [random]: the nine bytes of [rand.Read], [None] when it fails. *)
Definition sign (s : tenantAssertionSigner) (random : option string) (tenantID : string) (now : Z) : result error string :=
  match s with
  | None => Err (Errorf "tenant assertion secret is not configured")
  | Some secret =>
      let trimmed := TrimSpace tenantID in
      if str_eqb trimmed "" then Err (Errorf "tenant assertion requires a non-empty tenant id") else
      match random with
      | None => Err (Errorf "tenant assertion nonce")
      | Some bytes =>
          let payload := {| Tenant := trimmed; Expiry := unix_seconds (now + tenantAssertionTTL);
                            Nonce := RawURL_EncodeToString bytes |} in
          let encoded := RawURL_EncodeToString (payload_text payload) in
          Ok (tenantAssertionVersion +:+ "." +:+ encoded +:+ "." +:+ signature secret encoded)
      end
  end.

(** The empty header is not set. *)
Definition authorizationHeader (s : tenantAssertionSigner) (random : option string) (tenantID : string) (now : Z) :
    result error string :=
  match s with
  | None => Ok ""
  | Some _ => match sign s random tenantID now with Ok a => Ok ("Bearer " +:+ a) | Err e => Err e end
  end.

Definition tenantIDFromArgs (args : list (string * json)) : string :=
  match jget "tenant_id" args with Some (JStr value) => TrimSpace value | _ => "" end.

(** ** Verifying, by the documented format *)

Definition expect (p : string) (l : list ascii) : option (list ascii) :=
  bytes_of <$> strip_prefix p (of_bytes l).

(** The text up to a comma, and what follows. *)
Fixpoint until_comma (l : list ascii) : list ascii * list ascii :=
  match l with
  | [] => ([], [])
  | c :: r => if Ascii.eqb c "," then ([], c :: r) else let '(t, rest) := until_comma r in (c :: t, rest)
  end.

Definition read_payload (text : string) : option tenantAssertionPayload :=
  l ← expect ("{" +:+ quote "t" +:+ ":") (bytes_of text);
  '(tenant, l) ← read_quoted l;
  l ← expect ("," +:+ quote "e" +:+ ":") l;
  let '(digits, l) := until_comma l in
  match ParseInt (of_bytes digits) with
  | Err _ => None
  | Ok expiry =>
      l ← expect ("," +:+ quote "n" +:+ ":") l;
      '(nonce, l) ← read_quoted l;
      match l with
      | ["}"%char] => Some {| Tenant := tenant; Expiry := expiry; Nonce := nonce |}
      | _ => None
      end
  end.

Definition verify (secret token : string) : option tenantAssertionPayload :=
  match Split "." token with
  | [version; encoded; mac] =>
      if str_eqb version tenantAssertionVersion && str_eqb mac (signature secret encoded)
      then RawURL_DecodeString encoded ≫= read_payload else None
  | _ => None
  end.

(** ** Properties *)

Lemma bytes_app s t : bytes_of (s +:+ t) = bytes_of s ++ bytes_of t.
Proof. induction s as [|c s IH]; [done|]. change (c :: bytes_of (s +:+ t) = c :: bytes_of s ++ bytes_of t). by rewrite IH. Qed.

Lemma strip_prefix_app p s : strip_prefix p (p +:+ s) = Some s.
Proof.
  induction p as [|c p IH]; [done|]. change (String c p +:+ s) with (String c (p +:+ s)). cbn [strip_prefix].
  by rewrite Ascii.eqb_refl.
Qed.

Lemma expect_app p l : expect p (bytes_of p ++ l) = Some l.
Proof.
  unfold expect. replace (of_bytes (bytes_of p ++ l)) with (p +:+ of_bytes l).
  - rewrite strip_prefix_app. simpl. by rewrite bytes_of_bytes.
  - rewrite <- (of_bytes_of (p +:+ of_bytes l)). by rewrite bytes_app, bytes_of_bytes.
Qed.

Lemma until_comma_app s l : has_byte "," s = false → until_comma (bytes_of s ++ ","%char :: l) = (bytes_of s, ","%char :: l).
Proof.
  induction s as [|c s IH]; [done|]. intros [Hc Hs]%orb_false_iff.
  change (until_comma (c :: (bytes_of s ++ ","%char :: l)) = (c :: bytes_of s, ","%char :: l)).
  cbn [until_comma]. by rewrite Hc, (IH Hs).
Qed.

Lemma read_payload_text p :
  valid_utf8 (bytes_of (Tenant p)) → valid_utf8 (bytes_of (Nonce p)) → in_int64 (Expiry p) = true →
  read_payload (payload_text p) = Some p.
Proof.
  intros Ht Hn He. unfold read_payload, payload_text. destruct p as [t e n]. cbn [Tenant Expiry Nonce] in *.
  replace ("{" +:+ quote "t" +:+ ":" +:+ quote t +:+ "," +:+ quote "e" +:+ ":" +:+ FormatInt e +:+ ","
     +:+ quote "n" +:+ ":" +:+ quote n +:+ "}")
    with (("{" +:+ quote "t" +:+ ":") +:+ quote t +:+ ("," +:+ quote "e" +:+ ":") +:+ FormatInt e +:+
          ("," +:+ quote "n" +:+ ":") +:+ quote n +:+ "}") by (rewrite <- !str_app_assoc; reflexivity).
  rewrite bytes_app, expect_app. cbn [mbind option_bind]. rewrite bytes_app, read_quote by done.
  cbn [mbind option_bind]. rewrite bytes_app, expect_app. cbn [mbind option_bind].
  assert (has_byte "," (FormatInt e) = false) as Hc by (by apply has_byte_FormatInt).
  rewrite bytes_app. change (bytes_of (("," +:+ quote "n" +:+ ":") +:+ quote n +:+ "}"))
    with (","%char :: bytes_of ((quote "n" +:+ ":") +:+ quote n +:+ "}")).
  rewrite (until_comma_app _ _ Hc), of_bytes_of, ParseInt_FormatInt by done.
  change (","%char :: bytes_of ((quote "n" +:+ ":") +:+ quote n +:+ "}"))
    with (bytes_of (("," +:+ quote "n" +:+ ":") +:+ quote n +:+ "}")).
  rewrite bytes_app, expect_app. cbn [mbind option_bind]. rewrite bytes_app, read_quote by done. done.
Qed.

Lemma sextet_char_alphabet z : sextet_char z ∈ url_alphabet.
Proof.
  unfold sextet_char. destruct (nth_in_or_default (Z.to_nat z) url_alphabet "A"%char) as [H|H];
    [by apply list_elem_of_In|]. rewrite H. apply list_elem_of_In. by left.
Qed.

Lemma RawURL_alphabet s : Forall (λ c, c ∈ url_alphabet) (bytes_of (RawURL_EncodeToString s)).
Proof.
  unfold RawURL_EncodeToString. rewrite bytes_of_bytes. apply Forall_forall.
  intros c (z & -> & _)%list_elem_of_fmap. apply sextet_char_alphabet.
Qed.

Lemma RawURL_no_byte a s : existsb (Ascii.eqb a) url_alphabet = false → has_byte a (RawURL_EncodeToString s) = false.
Proof.
  intros Ha. apply has_byte_bytes. intros Hin. pose proof (RawURL_alphabet s) as Hs. rewrite Forall_forall in Hs.
  specialize (Hs a Hin). apply list_elem_of_In in Hs. apply not_true_iff_false in Ha. apply Ha.
  apply existsb_exists. exists a. split; [done|]. apply Ascii.eqb_refl.
Qed.

Lemma valid_ascii l : Forall (λ c, (code c <? 128)%nat = true) l → valid_utf8 l.
Proof.
  induction 1 as [|c l Hc Hl IH]; [constructor|].
  assert (rune_width (c :: l) = 1%nat) as Hw by (unfold rune_width; by rewrite Hc).
  apply valid_rune; rewrite Hw; [lia|done].
Qed.
Lemma RawURL_valid s : valid_utf8 (bytes_of (RawURL_EncodeToString s)).
Proof.
  apply valid_ascii. eapply Forall_impl; [apply RawURL_alphabet|]. intros c Hc.
  assert (forallb (λ c, code c <? 128)%nat url_alphabet = true) as Ha by reflexivity.
  rewrite forallb_forall in Ha. apply Ha. by apply list_elem_of_In.
Qed.

Lemma verify_signed secret p :
  valid_utf8 (bytes_of (Tenant p)) → valid_utf8 (bytes_of (Nonce p)) → in_int64 (Expiry p) = true →
  verify secret (tenantAssertionVersion +:+ "." +:+ RawURL_EncodeToString (payload_text p) +:+ "." +:+
                 signature secret (RawURL_EncodeToString (payload_text p))) = Some p.
Proof.
  intros Ht Hn He. unfold verify. set (enc := RawURL_EncodeToString (payload_text p)).
  set (sg := signature secret enc).
  assert (has_byte "." enc = false) as H1 by (by apply RawURL_no_byte).
  assert (has_byte "." sg = false) as H2 by (by apply RawURL_no_byte).
  change ("." +:+ enc +:+ "." +:+ sg) with (String "." (enc +:+ String "." sg)).
  rewrite Split_app_sep, Split_app_sep, Split_sep_free by done.
  rewrite !str_eqb_refl. cbn [andb]. unfold enc. rewrite RawURL_round_trip. cbn [mbind option_bind].
  by apply read_payload_text.
Qed.

Lemma signed_verifies secret bytes tenantID now token :
  valid_utf8 (bytes_of (TrimSpace tenantID)) → in_int64 (now + tenantAssertionTTL) = true →
  sign (Some secret) (Some bytes) tenantID now = Ok token →
  ∃ p, verify secret token = Some p ∧ Tenant p = TrimSpace tenantID ∧ Tenant p ≠ "" ∧
       RawURL_DecodeString (Nonce p) = Some bytes ∧
       now + tenantAssertionTTL - Second < Expiry p * Second ≤ now + tenantAssertionTTL.
Proof.
  intros Hv Hnow. unfold sign. destruct (str_eqb (TrimSpace tenantID) "") eqn:Et; [done|].
  apply str_eqb_false in Et. intros [= <-]. eexists. split; [|split; [|split; [|split]]].
  - apply verify_signed; [exact Hv|apply RawURL_valid|]. cbn [Expiry]. unfold unix_seconds.
    unfold in_int64, MinInt64, MaxInt64 in *. apply andb_true_iff in Hnow as [H1%Z.leb_le H2%Z.leb_le].
    change Second with 1000000000. apply andb_true_iff. rewrite !Z.leb_le.
    pose proof (Z.div_mod (now + tenantAssertionTTL) 1000000000). pose proof (Z.mod_pos_bound (now + tenantAssertionTTL) 1000000000). lia.
  - done.
  - done.
  - apply RawURL_round_trip.
  - cbn [Expiry]. unfold unix_seconds. assert (0 < Second) as Hs by done.
    pose proof (Z.div_mod (now + tenantAssertionTTL) Second). pose proof (Z.mod_pos_bound (now + tenantAssertionTTL) Second Hs).
    lia.
Qed.

(** What LCE finds in a signed assertion is what the relay
    signed: with the shared secret the token verifies to exactly the tenant that the call names,
    without surrounding blanks, with an expiry of at most thirty and more than twenty-nine
    seconds after the signing and with the drawn nonce; so a token for one tenant never verifies
    as one for another. *)
Theorem tenant_assertion_round_trip secret bytes tenantID now token :
  valid_utf8 (bytes_of (TrimSpace tenantID)) → in_int64 (now + tenantAssertionTTL) = true →
  sign (Some secret) (Some bytes) tenantID now = Ok token →
  ∃ p, verify secret token = Some p ∧ Tenant p = TrimSpace tenantID ∧ Tenant p ≠ "" ∧
       RawURL_DecodeString (Nonce p) = Some bytes ∧
       now + tenantAssertionTTL - Second < Expiry p * Second ≤ now + tenantAssertionTTL.
Proof. apply signed_verifies. Qed.

Lemma tenant_assertion_round_trip_witness :
  ∃ p, verify "0123456789abcdef0123456789abcdef"
         (match sign (Some "0123456789abcdef0123456789abcdef") (Some "ninebytes") " t-1 " 0 with Ok t => t | Err _ => "" end) = Some p
       ∧ Tenant p = "t-1".
Proof.
  destruct (tenant_assertion_round_trip "0123456789abcdef0123456789abcdef" "ninebytes" " t-1 " 0
    (match sign (Some "0123456789abcdef0123456789abcdef") (Some "ninebytes") " t-1 " 0 with Ok t => t | Err _ => "" end))
    as (p & Hp & Ht & _).
  - apply valid_ascii. repeat constructor.
  - reflexivity.
  - vm_compute. reflexivity.
  - exists p. split; [exact Hp|exact Ht].
Defined.
