(* ===== verification/LceClient.v ===== *)
(** * The client of LCE (main.go)

    One session with LCE is shared by all requests of the process.  The session identifier is
    behind a mutex, which initSession holds while it talks to LCE; every other access is a short
    critical section, between which the other requests run.  [Effects] treats a tool call as one
    operation; here is what happens inside.  Time-outs are failing exchanges; metrics and log
    lines are left out. *)
From Stdlib Require Import Ascii String.
From S2P Require Import Prelude GoStrings Paths Manifest Json Utf8 Lce Base64 TenantAssertion Sse.
Open Scope Z_scope.

(** ** HTTP exchanges *)

Record http_out := { rq_method : string; rq_session : string; rq_authorization : string; rq_body : string }.

Record http_in := { rp_status : Z; rp_session : string; rp_content_type : string; rp_body : string; rp_body_ok : bool }.

(** [None]: [http.Do] fails. *)
Abbreviation http_reply := (option http_in).

Definition StatusOK : Z := 200.
Definition StatusMultipleChoices : Z := 300.
Definition StatusNotFound : Z := 404.

(** ** The client *)

(** Besides the fields of the source: the sessions that LCE opened for this process and those
    whose release was started ([go m.deleteRemoteSession(sid)]). *)
Record mcpClient := { sessionID : string; nextID : Z; opened : list string; released : list string }.
Definition new_client : mcpClient := {| sessionID := ""; nextID := 0; opened := []; released := [] |}.

Definition set_session (sid : string) (c : mcpClient) : mcpClient :=
  {| sessionID := sid; nextID := nextID c; opened := opened c; released := released c |}.
Definition give_back (sid : string) (c : mcpClient) : mcpClient :=
  {| sessionID := sessionID c; nextID := nextID c; opened := opened c; released := sid :: released c |}.
Definition open_session (sid : string) (c : mcpClient) : mcpClient :=
  {| sessionID := sessionID c; nextID := nextID c; opened := sid :: opened c; released := released c |}.
Definition bump_id (c : mcpClient) : mcpClient :=
  {| sessionID := sessionID c; nextID := wrap64 (nextID c + 1); opened := opened c; released := released c |}.

(** [MCP initialize]: what the first reply says. *)
Definition initialize_outcome (r : http_reply) : result error string :=
  match r with
  | None => Err (Errorf "MCP initialize")
  | Some resp =>
      reject negb (rp_status resp =? StatusOK) with Errorf ("MCP initialize returned " +:+ FormatInt (rp_status resp)) in
      reject str_eqb (rp_session resp) "" with Errorf "MCP initialize: missing session ID header" in
      Ok (rp_session resp)
  end.
Definition notification_outcome (r : http_reply) : result error unit :=
  match r with
  | None => Err (Errorf "MCP initialized notification")
  | Some resp =>
      reject (rp_status resp <? StatusOK) || (StatusMultipleChoices <=? rp_status resp)
        with Errorf ("MCP initialized notification returned " +:+ FormatInt (rp_status resp)) in
      Ok tt
  end.

(** The critical section of initSession, with the replies to its two requests; the second one
    is sent only if the first one opened a session. *)
Definition init_locked (first : http_reply) (second : http_reply) (c : mcpClient) : result error string * mcpClient :=
  if negb (str_eqb (sessionID c) "") then (Ok (sessionID c), c) else
  let c := bump_id c in
  match initialize_outcome first with
  | Err e => (Err e, c)
  | Ok sid =>
      let c := open_session sid c in
      match notification_outcome second with
      | Err e => (Err e, give_back sid c)
      | Ok _ => (Ok sid, set_session sid c)
      end
  end.

Definition invalidate (c : mcpClient) : mcpClient :=
  if str_eqb (sessionID c) "" then set_session "" c else give_back (sessionID c) (set_session "" c).

(** What the requests of the process do to the client. *)
Inductive client_step : mcpClient → mcpClient → Prop :=
| client_init first second c : client_step c (init_locked first second c).2
| client_invalidate c : client_step c (invalidate c)
| client_bump c : client_step c (bump_id c).

(** ** The bodies *)

Definition initialize_body (id : Z) : string :=
  marshal (JObj [("jsonrpc", JStr "2.0"); ("id", JInt id); ("method", JStr "initialize");
    ("params", JObj [("protocolVersion", JStr "2025-03-26"); ("capabilities", JObj []);
      ("clientInfo", JObj [("name", JStr "acemcp-relay"); ("version", JStr "1.0.0")])])]).
Definition notification_body : string :=
  marshal (JObj [("jsonrpc", JStr "2.0"); ("method", JStr "notifications/initialized")]).
Definition tools_list_body (id : Z) : string :=
  marshal (JObj [("jsonrpc", JStr "2.0"); ("id", JInt id); ("method", JStr "tools/list"); ("params", JObj [])]).

(** ** Decoding replies *)

(** An [int] field. *)
Definition int_field (name : string) (m : list (string * json)) : option Z :=
  match jfield name m with
  | None | Some JNull => Some 0
  | Some (JNum lit _) => match ParseInt lit with Ok z => Some z | Err _ => None end
  | Some _ => None
  end.

(** The [error] member: absent, or code and message. *)
Definition rpc_error (m : list (string * json)) : option (option (Z * string)) :=
  match jfield "error" m with
  | None | Some JNull => Some None
  | Some (JObj e) => cd ← int_field "code" e; msg ← string_field "message" e; Some (Some (cd, msg))
  | Some _ => None
  end.

(** One element of [content]: its text. *)
Definition content_item (v : json) : option string :=
  match v with
  | JNull => Some ""
  | JObj m => _ ← string_field "type" m; string_field "text" m
  | _ => None
  end.
Definition rpc_tool_result (m : list (string * json)) : option (option (list string * bool)) :=
  match jfield "result" m with
  | None | Some JNull => Some None
  | Some (JObj r) =>
      items ← match jfield "content" r with
              | None | Some JNull => Some []
              | Some (JArr l) => mapM content_item l
              | Some _ => None
              end;
      isError ← bool_field "isError" r;
      Some (Some (items, isError))
  | Some _ => None
  end.
Definition rpc_tools (m : list (string * json)) : option (option json) :=
  match jfield "result" m with
  | None | Some JNull => Some None
  | Some (JObj r) => Some (jfield "tools" r)
  | Some _ => None
  end.

Definition top_members (v : option json) : option (list (string * json)) :=
  match v with Some (JObj m) => Some m | Some JNull => Some [] | _ => None end.

(** The body without the framing of an event stream. *)
Definition payload_of (resp : http_in) : string :=
  if HasPrefix (rp_content_type resp) "text/event-stream" then extractSSEData (rp_body resp) else rp_body resp.

Section client.
(** [Unmarshal]: what [json.Unmarshal] makes of a text. *)
Context (Unmarshal : string → option json).

(** doCallTool from the reply on; the text of a transport error is left out: the result, or whether to retry and the error. *)
Definition tool_outcome (r : http_reply) : result (bool * error) (string * bool) :=
  match r with
  | None => Err (false, Errorf "MCP tools/call")
  | Some resp =>
      if negb (rp_body_ok resp) then Err (false, Errorf "MCP read response")
      else if rp_status resp =? StatusNotFound then Err (true, Errorf "MCP session expired")
      else if negb (rp_status resp =? StatusOK) then
        Err (false, Errorf ("MCP tools/call returned " +:+ FormatInt (rp_status resp) +:+ ": " +:+ rp_body resp))
      else
        match (m ← top_members (Unmarshal (payload_of resp)); e ← rpc_error m; r ← rpc_tool_result m; Some (e, r)) with
        | None => Err (false, Errorf "MCP parse response")
        | Some (Some (cd, msg), _) => Err (false, Errorf ("MCP error [" +:+ FormatInt cd +:+ "]: " +:+ msg))
        | Some (None, (None | Some ([], _))) => Err (false, Errorf "MCP tool returned empty content")
        | Some (None, Some (text :: _, isError)) => Ok (text, isError)
        end
  end.

(** fetchToolsList from the reply on; 404 also drops the session. *)
Definition list_outcome (r : http_reply) : result error (option json) :=
  match r with
  | None => Err (Errorf "MCP tools/list")
  | Some resp =>
      reject negb (rp_body_ok resp) with Errorf "MCP read response" in
      reject rp_status resp =? StatusNotFound with Errorf "MCP session expired" in
      reject negb (rp_status resp =? StatusOK) with Errorf ("MCP tools/list returned " +:+ FormatInt (rp_status resp)) in
      match (m ← top_members (Unmarshal (payload_of resp)); e ← rpc_error m; t ← rpc_tools m; Some (e, t)) with
      | None => Err (Errorf "MCP parse tools/list")
      | Some (Some (cd, msg), _) => Err (Errorf ("MCP tools/list error [" +:+ FormatInt cd +:+ "]: " +:+ msg))
      | Some (None, tools) => Ok tools
      end
  end.

(** ** Calls *)

(** The surroundings of a call: LCE, the other requests, the clock and the random source. *)
Record Lce := {
  lce_http : nat → mcpClient → http_out → http_reply;
  lce_step : nat → mcpClient → mcpClient;
  lce_now : nat → Z;
  lce_random : nat → option string;
  lce_signer : tenantAssertionSigner
}.
Record CWorld := { client : mcpClient; tick : nat; sent : list (http_out * http_reply) }.
Definition C (A : Type) : Type := CWorld → result error A * CWorld.
#[local] Instance C_ret : MRet C := λ A a w, (Ok a, w).
#[local] Instance C_bind : MBind C := λ A B f m w,
  match m w with (Ok a, w') => f a w' | (Err e, w') => (Err e, w') end.

Context (L : Lce).

Definition fail {A} (e : error) : C A := λ w, (Err e, w).
Definition of_result {A} (r : result error A) : C A := λ w, (r, w).
Definition attempt {A} (m : C A) : C (result error A) := λ w, let '(r, w') := m w in (Ok r, w').

(** A critical section, before which the others run. *)
Definition locked {A} (f : mcpClient → A * mcpClient) : C A := λ w,
  let '(a, c) := f (lce_step L (tick w) (client w)) in
  (Ok a, {| client := c; tick := S (tick w); sent := sent w |}).

Definition exchange (q : http_out) : C http_reply := λ w,
  let r := lce_http L (tick w) (client w) q in
  (Ok r, {| client := client w; tick := S (tick w); sent := (q, r) :: sent w |}).

Definition post (sid authorization body : string) : http_out :=
  {| rq_method := "POST"; rq_session := sid; rq_authorization := authorization; rq_body := body |}.

(** The lock is held over both exchanges. *)
Definition initSession : C string := λ w,
  let c0 := lce_step L (tick w) (client w) in
  let w0 := {| client := c0; tick := S (tick w); sent := sent w |} in
  if negb (str_eqb (sessionID c0) "") then (Ok (sessionID c0), w0) else
  let q1 := post "" "" (initialize_body (wrap64 (nextID c0 + 1))) in
  let r1 := lce_http L (tick w0) c0 q1 in
  let q2 := post (match initialize_outcome r1 with Ok sid => sid | Err _ => "" end) "" notification_body in
  let r2 := lce_http L (S (tick w0)) c0 q2 in
  let '(r, c1) := init_locked r1 r2 c0 in
  (r, {| client := c1; tick := S (S (tick w0));
         sent := match initialize_outcome r1 with
                 | Ok _ => (q2, r2) :: (q1, r1) :: sent w0
                 | Err _ => (q1, r1) :: sent w0
                 end |}).

Definition ensureSession : C string :=
  sid ← locked (λ c, (sessionID c, c));
  if negb (str_eqb sid "") then mret sid else initSession.

Definition invalidateSession : C unit := locked (λ c, (tt, invalidate c)).

(** What the goroutine of a release does; its outcome is only logged. *)
Definition deleteRemoteSession (sid : string) : C unit :=
  if str_eqb sid "" then mret tt else
  exchange {| rq_method := "DELETE"; rq_session := sid; rq_authorization := ""; rq_body := "" |} ;; mret tt.

Definition next_id : C Z := locked (λ c, (nextID (bump_id c), bump_id c)).

(** The Authorization header of a call. *)
Definition call_header (args : list (string * json)) : C string := λ w,
  let tenantID := tenantIDFromArgs args in
  if str_eqb tenantID "" then (Ok "", w) else
  match authorizationHeader (lce_signer L) (lce_random L (tick w)) tenantID (lce_now L (tick w)) with
  | Ok h => (Ok h, w)
  | Err _ => (Err (Errorf "MCP tenant assertion"), w)
  end.

(** [Err (true, _)]: the session is gone, try again. *)
Definition doCallTool (sid name : string) (args : list (string * json)) : C (result (bool * error) (string * bool)) :=
  id ← next_id;
  let body := marshalMCPToolCallBody id name args in
  if maxLCEMCPRequestBodyBytes <? len body
  then mret (Err (false, Errorf ("encoded LCE request exceeds the " +:+ FormatInt maxLCEMCPRequestBodyBytes
                                 +:+ " byte limit (" +:+ FormatInt (len body) +:+ " bytes)")))
  else
    header ← attempt (call_header args);
    match header with
    | Err e => mret (Err (false, e))
    | Ok h => r ← exchange (post sid h body); mret (tool_outcome r)
    end.

Definition callToolWithTimeout (name : string) (args : list (string * json)) : C (string * bool) :=
  sid ← ensureSession;
  r ← doCallTool sid name args;
  match r with
  | Ok result => mret result
  | Err (false, e) => fail e
  | Err (true, _) =>
      invalidateSession ;;
      sid' ← initSession;
      r' ← doCallTool sid' name args;
      match r' with Ok result => mret result | Err (_, e) => fail e end
  end.

(** A 404 drops the session; nothing is tried again. *)
Definition drop_if_gone (r : http_reply) : C unit :=
  match r with
  | Some resp => if rp_status resp =? StatusNotFound then invalidateSession else mret tt
  | None => mret tt
  end.
Definition toolsList : C unit :=
  sid ← ensureSession;
  id ← next_id;
  r ← exchange (post sid "" (tools_list_body id));
  match r with
  | None => fail (Errorf "MCP tools/list")
  | Some resp =>
      drop_if_gone r ;;
      if rp_status resp =? StatusNotFound then fail (Errorf "MCP session expired")
      else if negb (rp_status resp =? StatusOK) then fail (Errorf ("MCP tools/list returned " +:+ FormatInt (rp_status resp)))
      else mret tt
  end.
Definition fetchToolsList : C (option json) :=
  sid ← ensureSession;
  id ← next_id;
  r ← exchange (post sid "" (tools_list_body id));
  (match r with Some resp => if rp_body_ok resp then drop_if_gone r else mret tt | None => mret tt end) ;;
  of_result (list_outcome r).

(** ** Sessions are released *)

Lemma bind_eq {A B} (m : C A) (f : A → C B) w :
  (m ≫= f) w = match m w with (Ok a, w') => f a w' | (Err e, w') => (Err e, w') end.
Proof. done. Qed.

Definition moves {A} (m : C A) : Prop := ∀ w, rtc client_step (client w) (client (m w).2).

Context (Hstep : ∀ n c, rtc client_step c (lce_step L n c)).

Lemma moves_ret {A} (a : A) : moves (mret a).
Proof. intros w. apply rtc_refl. Qed.
Lemma moves_fail {A} e : moves (@fail A e).
Proof. intros w. apply rtc_refl. Qed.
Lemma moves_result {A} (r : result error A) : moves (of_result r).
Proof. intros w. apply rtc_refl. Qed.
Lemma moves_bind {A B} (m : C A) (f : A → C B) : moves m → (∀ a, moves (f a)) → moves (m ≫= f).
Proof.
  intros Hm Hf w. rewrite bind_eq. specialize (Hm w). destruct (m w) as [[a|e] w1]; [|done].
  etransitivity; [exact Hm|]. apply Hf.
Qed.
Lemma moves_attempt {A} (m : C A) : moves m → moves (attempt m).
Proof. intros Hm w. unfold attempt. specialize (Hm w). by destruct (m w). Qed.
Lemma moves_exchange q : moves (exchange q).
Proof. intros w. apply rtc_refl. Qed.
Lemma moves_locked {A} (f : mcpClient → A * mcpClient) :
  (∀ c, rtc client_step c (f c).2) → moves (locked f).
Proof.
  intros Hf w. unfold locked. etransitivity; [apply (Hstep (tick w))|]. specialize (Hf (lce_step L (tick w) (client w))).
  by destruct (f _).
Qed.
Lemma moves_header args : moves (call_header args).
Proof. intros w. unfold call_header. repeat case_match; apply rtc_refl. Qed.

Lemma moves_init : moves initSession.
Proof.
  intros w. unfold initSession. etransitivity; [apply (Hstep (tick w))|]. destruct (negb _); [apply rtc_refl|].
  set (c := lce_step L _ _). set (r1 := lce_http L _ _ _). set (r2 := lce_http L _ _ _).
  pose proof (client_init r1 r2 c) as Hi. destruct (init_locked r1 r2 c) as [r c1]. apply rtc_once, Hi.
Qed.
Lemma moves_next : moves next_id.
Proof. apply moves_locked. intros c. apply rtc_once, client_bump. Qed.
Lemma moves_invalidate : moves invalidateSession.
Proof. apply moves_locked. intros c. apply rtc_once, client_invalidate. Qed.
Lemma moves_ensure : moves ensureSession.
Proof.
  apply moves_bind; [apply moves_locked; intros; apply rtc_refl|]. intros sid.
  destruct (negb _); [apply moves_ret|apply moves_init].
Qed.
Lemma moves_do sid name args : moves (doCallTool sid name args).
Proof.
  apply moves_bind; [apply moves_next|]. intros id. cbv zeta.
  destruct (maxLCEMCPRequestBodyBytes <? len (marshalMCPToolCallBody id name args)); [apply moves_ret|].
  apply moves_bind; [apply moves_attempt, moves_header|]. intros [h|e]; [|apply moves_ret].
  apply moves_bind; [apply moves_exchange|]. intros r. apply moves_ret.
Qed.
Lemma moves_call name args : moves (callToolWithTimeout name args).
Proof.
  apply moves_bind; [apply moves_ensure|]. intros sid. apply moves_bind; [apply moves_do|].
  intros [res|[[] e]]; [apply moves_ret| |apply moves_fail].
  apply moves_bind; [apply moves_invalidate|]. intros _. apply moves_bind; [apply moves_init|]. intros sid'.
  apply moves_bind; [apply moves_do|]. intros [res|[b e']]; [apply moves_ret|apply moves_fail].
Qed.
Lemma moves_drop r : moves (drop_if_gone r).
Proof. unfold drop_if_gone. repeat case_match; first [apply moves_invalidate | apply moves_ret]. Qed.
Lemma moves_list : moves toolsList.
Proof.
  apply moves_bind; [apply moves_ensure|]. intros sid. apply moves_bind; [apply moves_next|]. intros id.
  apply moves_bind; [apply moves_exchange|]. intros [resp|]; [|apply moves_fail].
  apply moves_bind; [apply moves_drop|]. intros _. repeat case_match; first [apply moves_fail | apply moves_ret].
Qed.
Lemma moves_fetch : moves fetchToolsList.
Proof.
  apply moves_bind; [apply moves_ensure|]. intros sid. apply moves_bind; [apply moves_next|]. intros id.
  apply moves_bind; [apply moves_exchange|]. intros r. apply moves_bind; [|intros; apply moves_result].
  repeat case_match; first [apply moves_drop | apply moves_ret].
Qed.
End client.

(** Every session that LCE opened is the current one or its release was started, and the
    current one was opened by LCE. *)
Record client_ok (c : mcpClient) : Prop := {
  ck_released : ∀ sid, sid ∈ opened c → sid = sessionID c ∨ sid ∈ released c;
  ck_opened : sessionID c ≠ "" → sessionID c ∈ opened c;
  ck_named : "" ∉ opened c
}.

Lemma initialize_named first sid : initialize_outcome first = Ok sid → sid ≠ "".
Proof.
  unfold initialize_outcome. destruct first as [resp|]; [|done]. destruct (negb _); [done|].
  destruct (str_eqb (rp_session resp) "") eqn:E; [done|]. intros [= <-]. by apply str_eqb_false.
Qed.

Lemma client_ok_step c c' : client_step c c' → client_ok c → client_ok c'.
Proof.
  intros Hs [H1 H2 H3]. destruct Hs as [first second c|c|c].
  - unfold init_locked. destruct (str_eqb (sessionID c) "") eqn:E; [|done]. apply str_eqb_true in E. cbn [negb].
    destruct (initialize_outcome first) as [sid|e] eqn:Ei; [|by split]. apply initialize_named in Ei.
    destruct (notification_outcome second); cbn [fst snd]; split; simpl.
    + intros s [->|Hs]%elem_of_cons; [by left|]. destruct (H1 s Hs) as [->|?]; [congruence|by right].
    + intros _. apply elem_of_cons. by left.
    + rewrite elem_of_cons. intros [?|?]; [congruence|done].
    + intros s [->|Hs]%elem_of_cons; [right; apply elem_of_cons; by left|]. destruct (H1 s Hs) as [->|?]; [by left|].
      right. apply elem_of_cons. by right.
    + intros Hn. apply elem_of_cons. right. by apply H2.
    + rewrite elem_of_cons. intros [?|?]; [congruence|done].
  - unfold invalidate. destruct (str_eqb (sessionID c) "") eqn:E.
    + apply str_eqb_true in E. split; simpl; [|done..]. intros s Hs. destruct (H1 s Hs) as [->|?]; [by left|by right].
    + split; simpl; [|done..]. intros s Hs. right. apply elem_of_cons. by destruct (H1 s Hs) as [->|?]; [left|right].
  - by split.
Qed.
Lemma client_ok_steps c c' : rtc client_step c c' → client_ok c → client_ok c'.
Proof. induction 1 as [|c1 c2 c3 Hs _ IH]; [done|]. intros H. apply IH. by eapply client_ok_step. Qed.

(** The operations of the client. *)
Inductive client_op := CallTool (name : string) (args : list (string * json)) | ListTools | FetchTools.
Definition run_client (Unmarshal : string → option json) (L : Lce) (op : client_op) (w : CWorld) : CWorld :=
  match op with
  | CallTool name args => (callToolWithTimeout Unmarshal L name args w).2
  | ListTools => (toolsList L w).2
  | FetchTools => (fetchToolsList Unmarshal L w).2
  end.


(** ** What a call sends *)

Section shape.
Context (Unmarshal : string → option json) (L : Lce) (name : string) (args : list (string * json)).

Definition handshake (x : http_out * http_reply) : Prop :=
  rq_authorization x.1 = "" ∧ ((∃ id, rq_body x.1 = initialize_body id) ∨ rq_body x.1 = notification_body).

(** A request that carries this call. *)
Definition call_request (x : http_out * http_reply) : Prop :=
  (∃ id, rq_body x.1 = marshalMCPToolCallBody id name args) ∧ len (rq_body x.1) ≤ maxLCEMCPRequestBodyBytes ∧
  ∃ n, (if str_eqb (tenantIDFromArgs args) "" then Ok ""
        else authorizationHeader (lce_signer L) (lce_random L n) (tenantIDFromArgs args) (lce_now L n)) = Ok (rq_authorization x.1).

Lemma handshake_first sid id r : handshake (post sid "" (initialize_body id), r).
Proof. split; [reflexivity|]. left. exists id. reflexivity. Qed.
Lemma handshake_second sid r : handshake (post sid "" notification_body, r).
Proof. split; [reflexivity|]. right. reflexivity. Qed.

Lemma init_sends w : ∃ h, sent (initSession L w).2 = h ++ sent w ∧ Forall handshake h.
Proof.
  unfold initSession. destruct (negb _); [by exists []|].
  destruct (init_locked _ _ _) as [r c1]. cbn [snd sent]. destruct (initialize_outcome _).
  - eexists [_; _]. split; [reflexivity|].
    apply Forall_cons. split; [apply handshake_second|]. apply Forall_singleton, handshake_first.
  - eexists [_]. split; [reflexivity|]. apply Forall_singleton, handshake_first.
Qed.
Lemma ensure_sends w : ∃ h, sent (ensureSession L w).2 = h ++ sent w ∧ Forall handshake h.
Proof.
  unfold ensureSession. rewrite bind_eq. unfold locked. destruct (negb _); [by exists []|]. 
  destruct (init_sends {| client := lce_step L (tick w) (client w); tick := S (tick w); sent := sent w |}) as (h & Hh & Hf).
  exists h. by rewrite Hh.
Qed.

(** At most one request, whose reply decides. *)
Lemma do_sends sid w :
  (∃ e w', doCallTool Unmarshal L sid name args w = (Ok (Err (false, e)), w') ∧ sent w' = sent w) ∨
  (∃ q r w', doCallTool Unmarshal L sid name args w = (Ok (tool_outcome Unmarshal r), w') ∧
             sent w' = (q, r) :: sent w ∧ call_request (q, r)).
Proof.
  unfold doCallTool. rewrite bind_eq. unfold next_id, locked. cbv zeta.
  set (w1 := {| client := _ |}). set (id := nextID _). 
  destruct (maxLCEMCPRequestBodyBytes <? len (marshalMCPToolCallBody id name args)) eqn:El.
  { left. eexists _, w1. split; reflexivity. }
  rewrite bind_eq. unfold attempt, call_header. cbv zeta.
  destruct (str_eqb (tenantIDFromArgs args) "") eqn:Et.
  - right. eexists _, _, _. split; [reflexivity|]. split; [reflexivity|]. split; [eexists; reflexivity|].
    split; [simpl; by apply Z.ltb_ge|]. exists (tick w1). by rewrite Et.
  - destruct (authorizationHeader _ _ _ _) as [h|e] eqn:Eh; [|left; eexists _, w1; split; reflexivity].
    right. eexists _, _, _. split; [reflexivity|]. split; [reflexivity|]. split; [eexists; reflexivity|].
    split; [simpl; by apply Z.ltb_ge|]. exists (tick w1). by rewrite Et, Eh.
Qed.

Lemma retry_404 r e : tool_outcome Unmarshal r = Err (true, e) → ∃ resp, r = Some resp ∧ rp_status resp = StatusNotFound.
Proof.
  unfold tool_outcome. destruct r as [resp|]; [|done]. destruct (negb (rp_body_ok resp)); [done|].
  destruct (rp_status resp =? StatusNotFound) eqn:E; [|repeat case_match; done].
  intros _. exists resp. split; [done|]. by apply Z.eqb_eq.
Qed.

Lemma invalidate_run w :
  invalidateSession L w = (Ok tt, {| client := invalidate (lce_step L (tick w) (client w)); tick := S (tick w); sent := sent w |}).
Proof. reflexivity. Qed.

(** The requests of a call, the latest first: an optional handshake, the first attempt, and
    after a 404 another handshake and the second attempt. *)
Record call_trace (before after : list (http_out * http_reply)) (r : result error (string * bool)) : Prop := {
  tr_parts : ∃ h1 c1 h2 c2, after = c2 ++ h2 ++ c1 ++ h1 ++ before ∧
    Forall handshake (h1 ++ h2) ∧ Forall call_request (c1 ++ c2) ∧ (length c1 ≤ 1)%nat ∧ (length c2 ≤ 1)%nat ∧
    (c2 ≠ [] → ∃ q resp, c1 = [(q, Some resp)] ∧ rp_status resp = StatusNotFound) ∧
    (∀ x, r = Ok x → ∃ q reply, head (c2 ++ c1) = Some (q, reply) ∧ tool_outcome Unmarshal reply = Ok x)
}.

Lemma call_traced w :
  call_trace (sent w) (sent (callToolWithTimeout Unmarshal L name args w).2)
    (callToolWithTimeout Unmarshal L name args w).1.
Proof.
  unfold callToolWithTimeout. rewrite bind_eq. destruct (ensure_sends w) as (h1 & Hh1 & Hf1).
  destruct (ensureSession L w) as [[sid|e] w1]; cbn [snd] in Hh1; cbn [fst snd].
  2:{ split. exists h1, [], [], []. rewrite app_nil_r. split_and!; try done; simpl; lia. }
  rewrite bind_eq. destruct (do_sends sid w1) as [(e & w2 & -> & Hs)|(q & r & w2 & -> & Hs & Hq)].
  { split. exists h1, [], [], []. rewrite app_nil_r. split_and!; try done; [simpl; by rewrite Hs, Hh1|simpl; lia|simpl; lia]. }
  destruct (tool_outcome Unmarshal r) as [x|[b e]] eqn:Eo.
  { split. exists h1, [(q, r)], [], []. rewrite !app_nil_r.
    split_and!; [simpl; by rewrite Hs, Hh1|done|by apply Forall_singleton|simpl; lia|simpl; lia|by intros []|].
    intros y [= <-]. by exists q, r. }
  destruct b.
  2:{ split. exists h1, [(q, r)], [], []. rewrite !app_nil_r.
      split_and!; [simpl; by rewrite Hs, Hh1|done|by apply Forall_singleton|simpl; lia|simpl; lia|by intros []|by intros ?]. }
  apply retry_404 in Eo as (resp & -> & H404).
  rewrite bind_eq, invalidate_run. cbv iota. set (w3 := {| client := invalidate _ |}). rewrite bind_eq. destruct (init_sends w3) as (h2 & Hh2 & Hf2).
  assert (sent w3 = (q, Some resp) :: h1 ++ sent w) as Hw3 by (simpl; by rewrite Hs, Hh1).
  destruct (initSession L w3) as [[sid'|e'] w4]; cbn [snd] in Hh2; cbn [fst snd].
  2:{ split. exists h1, [(q, Some resp)], h2, []. rewrite !app_nil_r.
      split_and!; [simpl; by rewrite Hh2, Hw3|by apply Forall_app|by apply Forall_singleton|simpl; lia|simpl; lia|by intros []|by intros ?]. }
  rewrite bind_eq. destruct (do_sends sid' w4) as [(e' & w5 & -> & Hs')|(q' & r' & w5 & -> & Hs' & Hq')].
  { split. exists h1, [(q, Some resp)], h2, []. rewrite !app_nil_r.
    split_and!; [simpl; by rewrite Hs', Hh2, Hw3|by apply Forall_app|by apply Forall_singleton|simpl; lia|simpl; lia|by intros []|by intros ?]. }
  split. exists h1, [(q, Some resp)], h2, [(q', r')].
  assert (sent w5 = (q', r') :: h2 ++ [(q, Some resp)] ++ h1 ++ sent w) as Hw5 by (by rewrite Hs', Hh2, Hw3).
  split_and!.
  - destruct (tool_outcome Unmarshal r') as [x|[b' e']]; exact Hw5.
  - by apply Forall_app.
  - apply Forall_cons. split; [done|]. by apply Forall_singleton.
  - done.
  - done.
  - intros _. eauto.
  - destruct (tool_outcome Unmarshal r') as [x|[b' e']] eqn:Eo'; intros y; [|done]. intros [= <-]. by exists q', r'.
Qed.
End shape.

(** A tool call reaches LCE at most twice, and a second time only after LCE
    answered the first request with 404, that is, without running the tool: any other failure is
    reported and never repeated. Around the two requests only session handshakes are sent, every
    request of the call carries the same tool and arguments within the body limit, and a result
    that is returned is the one in the last reply. *)
Theorem tool_call_once Unmarshal L name args w :
  let r := (callToolWithTimeout Unmarshal L name args w).1 in
  ∃ h1 c1 h2 c2, sent (callToolWithTimeout Unmarshal L name args w).2 = c2 ++ h2 ++ c1 ++ h1 ++ sent w ∧
    Forall handshake (h1 ++ h2) ∧ Forall (call_request L name args) (c1 ++ c2) ∧
    (length c1 ≤ 1)%nat ∧ (length c2 ≤ 1)%nat ∧
    (c2 ≠ [] → ∃ q resp, c1 = [(q, Some resp)] ∧ rp_status resp = StatusNotFound) ∧
    (∀ x, r = Ok x → ∃ q reply, head (c2 ++ c1) = Some (q, reply) ∧ tool_outcome Unmarshal reply = Ok x).
Proof. cbv zeta. destruct (call_traced Unmarshal L name args w) as [H]. exact H. Qed.

Lemma header_verifies L secret n tenant h :
  lce_signer L = Some secret → valid_utf8 (bytes_of (TrimSpace tenant)) → in_int64 (lce_now L n + tenantAssertionTTL) = true →
  authorizationHeader (lce_signer L) (lce_random L n) tenant (lce_now L n) = Ok h →
  ∃ token p, h = "Bearer " +:+ token ∧ verify secret token = Some p ∧ Tenant p = TrimSpace tenant.
Proof.
  intros Hs Hv Hn. rewrite Hs. unfold authorizationHeader.
  destruct (sign _ _ _ _) as [token|e] eqn:Et; [|done]. intros [= <-]. exists token.
  destruct (lce_random L n) as [bytes|]; [|unfold sign in Et; by destruct (str_eqb _ _)].
  destruct (signed_verifies _ _ _ _ _ Hv Hn Et) as (p & Hp & Ht & _). eauto.
Qed.

(** With a secret configured, every request that carries a tool call is
    signed for the very tenant that its arguments name: the Authorization header verifies, by the
    documented format, to the [tenant_id] of the body. *)
Theorem tool_call_signed Unmarshal L secret name args w q r new :
  lce_signer L = Some secret → valid_utf8 (bytes_of (tenantIDFromArgs args)) → tenantIDFromArgs args ≠ "" →
  (∀ n, in_int64 (lce_now L n + tenantAssertionTTL) = true) →
  sent (callToolWithTimeout Unmarshal L name args w).2 = new ++ sent w → (q, r) ∈ new →
  handshake (q, r) ∨
  (∃ id, rq_body q = marshalMCPToolCallBody id name args) ∧
  ∃ token p, rq_authorization q = "Bearer " +:+ token ∧ verify secret token = Some p ∧ Tenant p = tenantIDFromArgs args.
Proof.
  intros Hs Hv Ht Hn Hnew Hin. destruct (call_traced Unmarshal L name args w) as [(h1 & c1 & h2 & c2 & Hsent & Hh & Hc & _)].
  rewrite Hnew in Hsent. rewrite !(assoc_L (++)) in Hsent. apply (inj (.++ sent w)) in Hsent. subst new.
  assert ((q, r) ∈ h1 ++ h2 ∨ (q, r) ∈ c1 ++ c2) as [Hq|Hq] by (rewrite !elem_of_app in *; tauto).
  - left. rewrite Forall_forall in Hh. by apply Hh.
  - right. rewrite Forall_forall in Hc. destruct (Hc _ Hq) as (Hid & _ & n & Hauth). split; [exact Hid|].
    apply str_eqb_false in Ht. rewrite Ht in Hauth.
    assert (TrimSpace (tenantIDFromArgs args) = tenantIDFromArgs args) as Htrim.
    { unfold tenantIDFromArgs. repeat case_match; try reflexivity. apply TrimSpace_idemp. }
    destruct (header_verifies L secret n (tenantIDFromArgs args) (rq_authorization q) Hs)
      as (token & p & Hb & Hp & Htp); [by rewrite Htrim|done|exact Hauth|].
    exists token, p. rewrite Htrim in Htp. done.
Qed.

(** ** Concrete runs *)

(** LCE lost the session s1; it accepts every other one that was not deleted, and a new
    session is called s2. At operation [late] another call drops the session. *)
Definition ex_http (status : Z) : http_in :=
  {| rp_status := status; rp_session := "s2"; rp_content_type := "application/json"; rp_body := "{}"; rp_body_ok := true |}.
Definition ex_lce (late : nat) (signer : tenantAssertionSigner) : Lce := {|
  lce_http := λ _ c q, Some (ex_http (if str_eqb (rq_session q) "s1" || existsb (str_eqb (rq_session q)) (released c) then 404 else 200));
  lce_step := λ n c, if (n =? late)%nat then invalidate c else c;
  lce_now := λ _, 0; lce_random := λ _, Some "ninebytes"; lce_signer := signer |}.
Definition ex_unmarshal (_ : string) : option json :=
  Some (JObj [("result", JObj [("content", JArr [JObj [("type", JStr "text"); ("text", JStr "hello")]])])]).
Definition ex_client : CWorld := {|
  client := {| sessionID := "s1"; nextID := 7; opened := ["s1"]; released := [] |}; tick := 0; sent := [] |}.
Definition ex_secret : string := "0123456789abcdef0123456789abcdef".

Lemma ex_lce_steps late signer n c : rtc client_step c (lce_step (ex_lce late signer) n c).
Proof. simpl. destruct (n =? late)%nat; [apply rtc_once, client_invalidate|apply rtc_refl]. Qed.
Lemma ex_client_ok : client_ok (client ex_client).
Proof. split; simpl; [set_solver|set_solver|]. by intros ?%list_elem_of_singleton. Qed.


Definition ex_call_args : list (string * json) := [("tenant_id", JStr "org-1")].
Definition ex_sent : list (http_out * http_reply) :=
  sent (callToolWithTimeout ex_unmarshal (ex_lce 99 (Some ex_secret)) "t" ex_call_args ex_client).2.

Lemma tool_call_signed_witness :
  ∃ q r, head ex_sent = Some (q, r) ∧
  (handshake (q, r) ∨
   (∃ id, rq_body q = marshalMCPToolCallBody id "t" ex_call_args) ∧
   ∃ token p, rq_authorization q = "Bearer " +:+ token ∧ verify ex_secret token = Some p ∧ Tenant p = "org-1").
Proof.
  destruct ex_sent as [|[q r] rest] eqn:Es; [vm_compute in Es; discriminate Es|].
  exists q, r. split; [reflexivity|].
  apply (tool_call_signed ex_unmarshal (ex_lce 99 (Some ex_secret)) ex_secret "t" ex_call_args ex_client q r ((q, r) :: rest)).
  - reflexivity.
  - apply valid_ascii. repeat constructor.
  - vm_compute. discriminate.
  - intros n. reflexivity.
  - rewrite app_nil_r. exact Es.
  - left.
Defined.

(** A call can lose a healthy session to a slower one: LCE forgets the
    session that two calls share and both are told so; the first call opens a new session, then
    the second one drops that new session, since [invalidateSession] drops whatever session is
    current, and the retry of the first call fails although LCE accepts every session that the
    relay does not delete. *)
Theorem fresh_session_dropped :
  ∃ Unmarshal L w,
    (∀ n c, lce_step L n c = c ∨ lce_step L n c = invalidate c) ∧
    (∀ n c q, rq_session q ≠ sessionID (client w) → rq_session q ∉ released c →
       ∃ resp, lce_http L n c q = Some resp ∧ rp_status resp = StatusOK) ∧
    (callToolWithTimeout Unmarshal L "t" [] w).1 = Err (Errorf "MCP session expired") ∧
    ∃ fresh, fresh ∉ opened (client w) ∧ fresh ∈ released (client (callToolWithTimeout Unmarshal L "t" [] w).2).
Proof.
  exists ex_unmarshal, (ex_lce 7 None), ex_client. split; [|split; [|split]].
  - intros n c. simpl. destruct (n =? 7)%nat; auto.
  - intros n c q H1 H2. eexists. split; [reflexivity|]. simpl. cbn [client ex_client sessionID] in H1.
    apply str_eqb_false in H1. rewrite H1. destruct (existsb _ _) eqn:Ex; [|reflexivity]. exfalso. apply H2.
    apply existsb_exists in Ex as (s & Hs & Heq). apply str_eqb_true in Heq. subst. by apply list_elem_of_In.
  - vm_compute. reflexivity.
  - exists "s2". split; [set_solver|vm_compute; left].
Qed.
