(* ===== verification/RedisCommands.v ===== *)
(** * Redis commands

    The commands that the quota code and its Lua scripts issue, on strings and
    hashes with expiry times.  A Lua script runs atomically, so a script is a
    function of the clock and the store.  Lua numbers are exact here; they are
    doubles in Redis, exact for the integers below [2 ^ 53] that counters hold. *)
From Stdlib Require Import Ascii String.
From S2P Require Import Prelude GoStrings Store Effects.
Open Scope Z_scope.

Definition expired (now : Z) (exp : option Z) : bool :=
  match exp with Some t => t <=? now | None => false end.

Definition live_entry {A} (now : Z) (e : option (A * option Z)) : option (A * option Z) :=
  match e with
  | Some (v, exp) => if expired now exp then None else Some (v, exp)
  | None => None
  end.

Definition set_str (f : gmap string (string * option Z) → gmap string (string * option Z))
    (r : Redis) : Redis := {| r_str := f (r_str r); r_hash := r_hash r |}.
Definition set_hash (f : gmap string (gmap string string * option Z) →
    gmap string (gmap string string * option Z)) (r : Redis) : Redis :=
  {| r_str := r_str r; r_hash := f (r_hash r) |}.

Definition GET (now : Z) (key : string) (r : Redis) : option string :=
  fst <$> live_entry now (r_str r !! key).

(** The expiry go-redis asks for: whole seconds with EX, otherwise milliseconds
    with PX, at least one. *)
Definition set_ttl (ttl : Z) : Z :=
  if (ttl <? Second) || negb (ttl mod Second =? 0)
  then Z.max 1 (ttl / Millisecond) * Millisecond else ttl.

Definition SET (now : Z) (key value : string) (ttl : Z) (r : Redis) : Redis :=
  set_str (insert key (value, Some (now + set_ttl ttl))) r.

Definition DEL (key : string) (r : Redis) : Redis := set_str (delete key) r.

(** [tonumber(redis.call('GET', key) or '0')]; [None] is a script error. *)
Definition counter (now : Z) (key : string) (r : Redis) : option Z :=
  match GET now key r with
  | None => Some 0
  | Some v => match ParseInt v with Ok n => Some n | Err _ => None end
  end.

(** [INCRBY key n] on a counter that holds [cur]; a live expiry is kept. *)
Definition INCRBY (now : Z) (key : string) (cur n : Z) (r : Redis) : Redis :=
  set_str (insert key (FormatInt (cur + n),
                       match live_entry now (r_str r !! key) with
                       | Some (_, exp) => exp | None => None end)) r.

(** [EXPIRE key seconds]; an absent or expired key is left alone. *)
Definition EXPIRE (now : Z) (key : string) (seconds : Z) (r : Redis) : Redis :=
  match live_entry now (r_str r !! key) with
  | Some (v, _) => set_str (insert key (v, Some (now + seconds * Second))) r
  | None => r
  end.

(** [TTL key < 0] for an existing or absent key: no expiry is set. *)
Definition no_ttl (now : Z) (key : string) (r : Redis) : bool :=
  match live_entry now (r_str r !! key) with Some (_, Some _) => false | _ => true end.

(** The same for a hash key. *)
Definition HGETALL (now : Z) (key : string) (r : Redis) : gmap string string :=
  match live_entry now (r_hash r !! key) with Some (h, _) => h | None => ∅ end.
Definition hash_exp (now : Z) (key : string) (r : Redis) : option Z :=
  match live_entry now (r_hash r !! key) with Some (_, exp) => exp | None => None end.
Definition HSET_all (now : Z) (key : string) (fields : gmap string string) (r : Redis) : Redis :=
  set_hash (insert key (fields ∪ HGETALL now key r, hash_exp now key r)) r.
Definition EXPIRE_hash (now : Z) (key : string) (seconds : Z) (r : Redis) : Redis :=
  match live_entry now (r_hash r !! key) with
  | Some (h, _) => set_hash (insert key (h, Some (now + seconds * Second))) r
  | None => r
  end.
Definition no_ttl_hash (now : Z) (key : string) (r : Redis) : bool :=
  match live_entry now (r_hash r !! key) with Some (_, Some _) => false | _ => true end.

(** ** Laws *)

(** A counter key as the scripts leave it: absent, or an integer with an expiry. *)
Definition counts (key : string) (n : Z) (until : Z) (r : Redis) : Prop :=
  in_int64 n = true ∧
  match r_str r !! key with
  | None => n = 0
  | Some (v, exp) => v = FormatInt n ∧ ∃ t, exp = Some t ∧ until ≤ t
  end.

Lemma counts_counter key n until r now :
  counts key n until r → now < until → counter now key r = Some n.
Proof.
  intros [Hn Hk] Hnow. unfold counter, GET. destruct (r_str r !! key) as [[v exp]|]; simpl.
  - destruct Hk as (-> & t & -> & Ht). simpl. rewrite (proj2 (Z.leb_gt t now)) by lia. simpl.
    by rewrite ParseInt_FormatInt.
  - by subst.
Qed.

Lemma counter_counts key until r now :
  r_str r !! key = None → counter now key r = Some 0 ∧ counts key 0 until r.
Proof. intros H. unfold counter, GET, counts. rewrite H. done. Qed.

Lemma GET_SET now now' key value ttl r :
  now' < now + set_ttl ttl → GET now' key (SET now key value ttl r) = Some value.
Proof.
  intros H. unfold GET, SET. simpl. rewrite lookup_insert_eq. simpl.
  by rewrite (proj2 (Z.leb_gt _ _)) by lia.
Qed.

Lemma GET_insert_ne now key key' e r :
  key ≠ key' → GET now key (set_str (insert key' e) r) = GET now key r.
Proof. intros ?. unfold GET. simpl. by rewrite lookup_insert_ne. Qed.

Lemma str_INCRBY_ne now key key' cur n r :
  key ≠ key' → r_str (INCRBY now key' cur n r) !! key = r_str r !! key.
Proof. intros ?. simpl. by rewrite lookup_insert_ne. Qed.

Lemma str_EXPIRE_ne now key key' s r :
  key ≠ key' → r_str (EXPIRE now key' s r) !! key = r_str r !! key.
Proof.
  intros ?. unfold EXPIRE. destruct (live_entry _ _) as [[v e]|]; [|done]. simpl.
  by rewrite lookup_insert_ne.
Qed.

Lemma str_INCRBY_eq now key cur n r :
  r_str (INCRBY now key cur n r) !! key =
  Some (FormatInt (cur + n), match live_entry now (r_str r !! key) with
                             | Some (_, exp) => exp | None => None end).
Proof. simpl. by rewrite lookup_insert_eq. Qed.
