(* ===== verification/QuotaLimits.v ===== *)
(** * Quota limits (quota.go, first half)

    Which daily limit and which counting pool apply to a user or organisation: the
    per-user override, then the active plan, then the tier default, behind a Redis
    cache; for an organisation the limits of its canonical owner. *)
From Stdlib Require Import Ascii String.
From S2P Require Import Prelude GoStrings Paths Sha256 Json Lce Store Effects Base64.
From S2P Require Import RedisCommands.
Open Scope Z_scope.

Definition tierFree : string := "free".
Definition tierPro : string := "pro".

Definition normalizeTier (tier : string) : string :=
  if str_eqb (TrimSpace tier) tierPro then tierPro else tierFree.

Definition tierDailyRequestLimit (cfg : Config) (tier : string) : Z :=
  if str_eqb (normalizeTier tier) tierPro then proDailyRequestLimit cfg
  else defaultDailyRequestLimit cfg.
Definition tierIndexBytesLimit (cfg : Config) (tier : string) : Z :=
  if str_eqb (normalizeTier tier) tierPro then proDailyIndexBytesLimit cfg
  else dailyIndexBytesLimit cfg.

Definition quotaCacheTTL : Z := 5 * Minute.

(** ** Account queries *)

(** The zero [time.Time] is [None]. *)
Record planQuotaLimits := {
  pq_OwnerID : string; pq_Request : Z; pq_IndexBytes : Z; pq_ExpiresAt : option Z; pq_Found : bool;
  pq_Failed : bool
}.
Definition no_plan : planQuotaLimits :=
  {| pq_OwnerID := ""; pq_Request := 0; pq_IndexBytes := 0; pq_ExpiresAt := None; pq_Found := false;
     pq_Failed := false |}.
Definition failed_plan : planQuotaLimits :=
  {| pq_OwnerID := ""; pq_Request := 0; pq_IndexBytes := 0; pq_ExpiresAt := None; pq_Found := false;
     pq_Failed := true |}.

(** [starts_at <= NOW() AND expires_at > NOW()] *)
Definition sub_active (now : Z) (s : subscription) : bool :=
  (sub_starts_at s <=? now) && (now <? sub_expires_at s).
Definition active_subscription (now : Z) (user : string) (a : Accounts) : option subscription :=
  match user_subscriptions a !! user with
  | Some s => if sub_active now s then Some s else None
  | None => None
  end.

Definition is_sql_space (c : ascii) : bool := space1 c.
(** [(',' || regexp_replace(role, '\s', '', 'g') || ',') LIKE '%,owner,%'] *)
Definition quota_owner_role (role : string) : bool :=
  Contains ("," +:+ of_bytes (List.filter (λ c, negb (is_sql_space c)) (bytes_of role)) +:+ ",")
           ",owner,".

(** The first row in the order of a strict comparison ([ORDER BY ... LIMIT 1]). *)
Definition first_by {A} (before : A → A → bool) (l : list A) : option A :=
  foldl (λ best x, match best with
                   | None => Some x
                   | Some b => if before x b then Some x else Some b
                   end) None l.

Definition member_before (m1 m2 : membership) : bool :=
  (m_created_at m1 <? m_created_at m2)
  || ((m_created_at m1 =? m_created_at m2) && String.ltb (m_id m1) (m_id m2)).

Definition canonical_quota_owner (org : string) (a : Accounts) : option membership :=
  first_by member_before
    (List.filter (λ m, str_eqb (m_org m) org && quota_owner_role (m_role m)) (member a)).

(** [ORDER BY (org_id IS NULL) DESC, created_at, id] *)
Definition key_before (k1 k2 : string * api_key) : bool :=
  let personal k := match k_org k with None => true | Some _ => false end in
  if Bool.eqb (personal k1.2) (personal k2.2)
  then (k_created_at k1.2 <? k_created_at k2.2)
       || ((k_created_at k1.2 =? k_created_at k2.2) && String.ltb k1.1 k2.1)
  else personal k1.2.

Definition owner_tier (owner org : string) (a : Accounts) : string :=
  let mine (kv : string * api_key) :=
    str_eqb (k_user kv.2) owner &&
    match k_org kv.2 with None => true | Some o => str_eqb o org end in
  match first_by key_before (List.filter mine (map_to_list (api_keys a))) with
  | Some (_, k) => default "free" (k_tier k)
  | None => "free"
  end.

Section limits.
Context (E : Env).
Let cfg := env_config E.

Definition cache_get (key : string) : M (option string) :=
  redis_eval E (λ now r, (GET now key r, r)).
Definition cache_set (key value : string) (ttl : Z) : M unit :=
  ignore (redis_eval E (λ now r, (tt, SET now key value ttl r))).

(** [if v, err := Get(key); err == nil { if n, err := parse(v); err == nil {...} }] *)
Definition cached {A} (key : string) (parse : string → option A) : M (option A) :=
  v ← try (cache_get key);
  mret (match v with Ok (Some s) => parse s | _ => None end).
Definition parse_limit (s : string) : option Z :=
  match ParseInt s with Ok n => Some n | Err _ => None end.

Definition getUserPlanQuotaLimits (user : string) : M planQuotaLimits :=
  r ← try (query_accounts E (λ now a,
    match active_subscription now user a with
    | Some s => Ok s
    | None => Err ErrNoRows
    end));
  mret (match r with
        | Ok s => {| pq_OwnerID := ""; pq_Request := sub_request_limit s;
                     pq_IndexBytes := sub_index_bytes_limit s;
                     pq_ExpiresAt := Some (sub_expires_at s); pq_Found := true; pq_Failed := false |}
        | Err ErrNoRows => no_plan
        | Err _ => failed_plan
        end).

Definition owner_limits (org : string) (now : Z) (a : Accounts) : result error planQuotaLimits :=
  match canonical_quota_owner org a with
  | None => Err ErrNoRows
  | Some m =>
      let owner := m_user m in
      let tier := owner_tier owner org a in
      let plan := active_subscription now owner a in
      let '(o_req, o_bytes) := default (None, None) (user_quotas a !! owner) in
      let req := match plan with Some s => sub_request_limit s
                 | None => tierDailyRequestLimit cfg tier end in
      let bytes := match plan with Some s => sub_index_bytes_limit s
                   | None => tierIndexBytesLimit cfg tier end in
      Ok {| pq_OwnerID := owner; pq_Request := default req o_req;
            pq_IndexBytes := default bytes o_bytes;
            pq_ExpiresAt := sub_expires_at <$> plan; pq_Found := true; pq_Failed := false |}
  end.

Definition getOrgOwnerQuotaLimits (org : string) : M planQuotaLimits :=
  r ← try (query_accounts E (owner_limits org));
  mret (match r with
        | Ok l => l
        | Err ErrNoRows => no_plan
        | Err _ => failed_plan
        end).

Definition planCacheTTL (now expiresAt : Z) : Z :=
  let remaining := expiresAt - now in
  if remaining <=? 0 then 0
  else if remaining <? quotaCacheTTL then remaining else quotaCacheTTL.

(** The two personal lookups differ in the column, the default and the cache key. *)
Definition user_limit (cacheKey : string) (limit : Z) (column : option Z * option Z → option Z)
    (of_plan : planQuotaLimits → Z) (user : string) : M Z :=
  hit ← cached cacheKey parse_limit;
  match hit with
  | Some n => mret n
  | None =>
      row ← try (query_accounts E (λ _ a,
              match user_quotas a !! user with Some q => Ok (column q) | None => Err ErrNoRows end));
      match row with
      | Ok (Some n) => cache_set cacheKey (FormatInt n) quotaCacheTTL;; mret n
      | Ok None | Err ErrNoRows =>
          plan ← getUserPlanQuotaLimits user;
          if pq_Failed plan then mret limit
          else if pq_Found plan then
            now ← time_Now E;
            let ttl := planCacheTTL now (default 0 (pq_ExpiresAt plan)) in
            (if 0 <? ttl then cache_set cacheKey (FormatInt (of_plan plan)) ttl else mret tt);;
            mret (of_plan plan)
          else cache_set cacheKey (FormatInt limit) quotaCacheTTL;; mret limit
      | Err _ => mret limit
      end
  end.

Definition getUserDailyLimit (user tier : string) : M Z :=
  user_limit ("quota:limit:" +:+ user) (tierDailyRequestLimit cfg tier) fst pq_Request user.
Definition getUserIndexBytesLimit (user tier : string) : M Z :=
  user_limit ("quota:limit:indexbytes:" +:+ user) (tierIndexBytesLimit cfg tier) snd
             pq_IndexBytes user.

Definition quotaCacheNoRow : string := "none".
Definition memberQuotaLimitCacheKey (org user : string) : string :=
  "quota:limit:member:" +:+ sha256_hex (org +:+ NUL +:+ user).

(** [None]: no row, the member has no limit of its own. *)
Definition getMemberDailyLimit (org user : string) : M (option Z) :=
  let cacheKey := memberQuotaLimitCacheKey org user in
  hit ← cached cacheKey (λ v, if str_eqb v quotaCacheNoRow then Some None
                              else Some <$> parse_limit v);
  match hit with
  | Some l => mret l
  | None =>
      row ← try (query_accounts E (λ _ a,
              match org_member_quotas a !! (org, user) with Some n => Ok n | None => Err ErrNoRows end));
      match row with
      | Ok n => cache_set cacheKey (FormatInt n) quotaCacheTTL;; mret (Some n)
      | Err ErrNoRows => cache_set cacheKey quotaCacheNoRow quotaCacheTTL;; mret None
      | Err e => throw e
      end
  end.
End limits.

(** ** Organisation pools *)

Record orgQuotaLimits := {
  Request : Z; RequestSet : bool; RequestPoolID : string;
  IndexBytes : Z; IndexBytesSet : bool; IndexBytesPoolID : string
}.

Definition freeOrgQuotaLimits (cfg : Config) (org : string) : orgQuotaLimits := {|
  Request := tierDailyRequestLimit cfg tierFree; RequestSet := true; RequestPoolID := org;
  IndexBytes := tierIndexBytesLimit cfg tierFree; IndexBytesSet := true; IndexBytesPoolID := org |}.

Definition formatOrgQuotaCache (l : orgQuotaLimits) : string :=
  Join "," ["v3"; FormatInt (Request l); FormatInt (IndexBytes l);
            RawURL_EncodeToString (RequestPoolID l); RawURL_EncodeToString (IndexBytesPoolID l)].

Definition parseOrgQuotaCache (value : string) : option orgQuotaLimits :=
  match Split "," value with
  | [v; a; b; p; q] =>
      if negb (str_eqb v "v3") then None else
      match ParseInt a, ParseInt b, RawURL_DecodeString p, RawURL_DecodeString q with
      | Ok req, Ok bytes, Some rp, Some bp =>
          if str_eqb rp "" || str_eqb bp "" then None
          else Some {| Request := req; RequestSet := true; RequestPoolID := rp;
                       IndexBytes := bytes; IndexBytesSet := true; IndexBytesPoolID := bp |}
      | _, _, _, _ => None
      end
  | _ => None
  end.

(** Fill the dimensions that [org_quotas] leaves open from the owner's limits. *)
Definition inherit_limits (cfg : Config) (org : string) (req bytes : option Z)
    (owner : planQuotaLimits) : orgQuotaLimits :=
  let o_req := if pq_Found owner then pq_Request owner else tierDailyRequestLimit cfg tierFree in
  let o_bytes := if pq_Found owner then pq_IndexBytes owner else tierIndexBytesLimit cfg tierFree in
  let pool := if str_eqb (pq_OwnerID owner) "" then org else pq_OwnerID owner in
  {| Request := default o_req req; RequestSet := true;
     RequestPoolID := match req with Some _ => org | None => pool end;
     IndexBytes := default o_bytes bytes; IndexBytesSet := true;
     IndexBytesPoolID := match bytes with Some _ => org | None => pool end |}.

Section org.
Context (E : Env).
Let cfg := env_config E.

(** The case of a dimension that [org_quotas] does not set. *)
Definition inherit_from_owner (cacheKey org : string) (req bytes : option Z) : M orgQuotaLimits :=
  owner ← getOrgOwnerQuotaLimits E org;
  if pq_Failed owner then
    let free := freeOrgQuotaLimits cfg org in
    mret {| Request := default (Request free) req; RequestSet := true; RequestPoolID := org;
            IndexBytes := default (IndexBytes free) bytes; IndexBytesSet := true;
            IndexBytesPoolID := org |}
  else
    let limits := inherit_limits cfg org req bytes owner in
    ttl ← (match pq_ExpiresAt owner with
           | Some t => now ← time_Now E; mret (planCacheTTL now t)
           | None => mret quotaCacheTTL
           end);
    (if 0 <? ttl then cache_set E cacheKey (formatOrgQuotaCache limits) ttl else mret tt);;
    mret limits.

Definition getOrgQuotaLimits (org : string) : M orgQuotaLimits :=
  let cacheKey := "quota:limit:orgq:" +:+ org in
  hit ← cached E cacheKey parseOrgQuotaCache;
  match hit with
  | Some l => mret l
  | None =>
      row ← try (query_accounts E (λ _ a,
              match org_quotas a !! org with Some q => Ok q | None => Err ErrNoRows end));
      match row with
      | Ok (Some r, Some b) =>
          let limits := {| Request := r; RequestSet := true; RequestPoolID := org;
                           IndexBytes := b; IndexBytesSet := true; IndexBytesPoolID := org |} in
          cache_set E cacheKey (formatOrgQuotaCache limits) quotaCacheTTL;; mret limits
      | Ok (req, bytes) => inherit_from_owner cacheKey org req bytes
      | Err ErrNoRows => inherit_from_owner cacheKey org None None
      | Err _ => mret (freeOrgQuotaLimits cfg org)
      end
  end.

Record indexQuotaPool := { Limit : Z; PoolID : string }.

Definition resolveIndexBytesQuota (tenant org tier : string) : M indexQuotaPool :=
  if str_eqb org "" then
    l ← getUserIndexBytesLimit E tenant tier; mret {| Limit := l; PoolID := tenant |}
  else
    limits ← getOrgQuotaLimits org;
    mret {| Limit := if IndexBytesSet limits then IndexBytes limits
                     else tierIndexBytesLimit cfg tierFree;
            PoolID := if str_eqb (IndexBytesPoolID limits) "" then org
                      else IndexBytesPoolID limits |}.
End org.

(** ** The quota day *)

Definition day_ns : Z := 24 * Hour.

(** Days since 1970-01-01 of the local civil date, and that date. *)
Definition local_day (off now : Z) : Z := (now + off * Second) / day_ns.

Definition civil_of_days (d : Z) : Z * Z * Z :=
  let z := d + 719468 in
  let era := z / 146097 in
  let doe := z mod 146097 in
  let yoe := (doe - doe / 1460 + doe / 36524 - doe / 146096) / 365 in
  let doy := doe - (365 * yoe + yoe / 4 - yoe / 100) in
  let mp := (5 * doy + 2) / 153 in
  let day := doy - (153 * mp + 2) / 5 + 1 in
  let month := if mp <? 10 then mp + 3 else mp - 9 in
  let year := yoe + era * 400 + (if month <=? 2 then 1 else 0) in
  (year, month, day).

Definition pad2 (z : Z) : string := if z <? 10 then "0" +:+ FormatInt z else FormatInt z.
Definition pad4 (z : Z) : string :=
  if z <? 10 then "000" +:+ FormatInt z else if z <? 100 then "00" +:+ FormatInt z
  else if z <? 1000 then "0" +:+ FormatInt z else FormatInt z.

(** [now.In(quotaLocation()).Format("20060102")] *)
Definition day_string (off now : Z) : string :=
  let '(y, m, d) := civil_of_days (local_day off now) in pad4 y +:+ pad2 m +:+ pad2 d.

Example day_string_leap : day_string 28800 (1709222400 * Second) = "20240301".
Proof. reflexivity. Qed.
Example day_string_before : day_string 28800 (1709222399 * Second) = "20240229".
Proof. reflexivity. Qed.

Definition indexBytesKeyAt (off : Z) (tenant : string) (now : Z) : string :=
  "quota:indexbytes:" +:+ tenant +:+ ":" +:+ day_string off now.
Definition indexFileChargesKeyAt (off : Z) (tenant root : string) (now : Z) : string :=
  "quota:indexfiles:" +:+ tenant +:+ ":" +:+ day_string off now +:+ ":" +:+ sha256_hex root.

Definition quotaResetAt (off now : Z) : Z := (local_day off now + 1) * day_ns - off * Second.

Definition quotaRetryAfter (off now : Z) : Z :=
  let remaining := quotaResetAt off now - now in
  let seconds := Z.quot remaining Second + (if Z.rem remaining Second =? 0 then 0 else 1) in
  if seconds <? 1 then 1 else seconds.
Definition quotaRetryAfterHeader (off now : Z) : string := FormatInt (quotaRetryAfter off now).

(** ** Properties *)

Lemma has_byte_FormatInt_comma z : has_byte "," (FormatInt z) = false.
Proof. by apply has_byte_FormatInt. Qed.

(** The organisation quota cache loses nothing: parsing the
    text that [formatOrgQuotaCache] writes gives back the same limits and pools, for
    every pair of 64-bit limits and every pair of non-empty pool identifiers, commas
    and binary bytes in them included. *)
Theorem org_cache_round_trip l :
  in_int64 (Request l) = true → in_int64 (IndexBytes l) = true →
  RequestSet l = true → IndexBytesSet l = true →
  RequestPoolID l ≠ "" → IndexBytesPoolID l ≠ "" →
  parseOrgQuotaCache (formatOrgQuotaCache l) = Some l.
Proof.
  intros Hr Hb Sr Sb Pr Pb. unfold parseOrgQuotaCache, formatOrgQuotaCache.
  rewrite (Split_Join "," [_; _; _; _; _]); [|done|].
  - simpl. rewrite !ParseInt_FormatInt, !RawURL_round_trip by done.
    apply str_eqb_false in Pr, Pb. rewrite Pr, Pb. simpl. destruct l; simpl in *. by subst.
  - repeat constructor; auto using has_byte_FormatInt_comma, RawURL_no_comma.
Qed.

Lemma org_cache_round_trip_witness :
  parseOrgQuotaCache (formatOrgQuotaCache
    {| Request := 500; RequestSet := true; RequestPoolID := "a,b"; IndexBytes := -1;
       IndexBytesSet := true; IndexBytesPoolID := "org" |})
  = Some {| Request := 500; RequestSet := true; RequestPoolID := "a,b"; IndexBytes := -1;
            IndexBytesSet := true; IndexBytesPoolID := "org" |}.
Proof. apply org_cache_round_trip; done. Defined.

(** A client that waits for the announced [Retry-After] is
    served by the next quota day and not told to wait a second too long: the header
    is between 1 second and 24 hours, the wait reaches the local midnight at which the
    counters change, and one second less would not. *)
Theorem retry_after_exact off now :
  1 ≤ quotaRetryAfter off now ≤ 86400 ∧
  local_day off (now + quotaRetryAfter off now * Second) = local_day off now + 1 ∧
  local_day off (now + (quotaRetryAfter off now - 1) * Second) = local_day off now.
Proof.
  unfold quotaRetryAfter, quotaResetAt, local_day.
  assert (day_ns = 86400 * 1000000000) as Ed by done.
  assert (Second = 1000000000) as Es by done.
  set (t := now + off * Second). pose proof (Z.div_mod t day_ns ltac:(rewrite Ed; done)) as Hdm.
  pose proof (Z.mod_pos_bound t day_ns ltac:(rewrite Ed; done)) as Hm.
  set (q := t / day_ns) in *. set (m := t mod day_ns) in *. clearbody q m.
  assert ((q + 1) * day_ns - off * Second - now = day_ns - m) as -> by lia.
  set (rem := day_ns - m). assert (0 < rem ≤ day_ns) as Hrem by lia.
  rewrite (Z.quot_div_nonneg rem), (Z.rem_mod_nonneg rem) by lia.
  pose proof (Z.div_mod rem Second ltac:(lia)) as Hd.
  pose proof (Z.mod_pos_bound rem Second ltac:(lia)) as Hb.
  set (s := rem / Second) in *. set (r := rem mod Second) in *. clearbody s r.
  assert ((if r =? 0 then 0 else 1) = 0 ∧ r = 0 ∨ (if r =? 0 then 0 else 1) = 1 ∧ 0 < r) as Hc
    by (destruct (r =? 0) eqn:Er; reflect_bools; lia).
  set (c := if r =? 0 then 0 else 1) in *. clearbody c.
  assert (1 ≤ s + c) by lia.
  rewrite (proj2 (Z.ltb_ge _ _)) by lia. split; [lia|]. split.
  - symmetry. apply Z.div_unique with (r := m + (s + c) * Second - day_ns); lia.
  - symmetry. apply Z.div_unique with (r := m + (s + c - 1) * Second); lia.
Qed.

Lemma cached_returns {A} E key (parse : string → option A) :
  returns (λ o, ∀ a, o = Some a → ∃ s, parse s = Some a) (cached E key parse).
Proof.
  unfold cached. eapply returns_bind; [apply returns_try|]. intros v _. apply returns_ret.
  intros a Ha. destruct v as [[s|]|]; naive_solver.
Qed.

Lemma parsed_limits_set s l :
  parseOrgQuotaCache s = Some l → RequestSet l = true ∧ IndexBytesSet l = true.
Proof. unfold parseOrgQuotaCache. intros H. repeat case_match; by simplify_eq. Qed.

Lemma getOrgOwnerQuotaLimits_returns E org : returns (λ _, True) (getOrgOwnerQuotaLimits E org).
Proof. unfold getOrgOwnerQuotaLimits. returns_tac. Qed.
Lemma cache_set_returns E key v ttl : returns (λ _, True) (cache_set E key v ttl).
Proof. apply returns_ignore. Qed.
#[export] Hint Resolve getOrgOwnerQuotaLimits_returns cache_set_returns : eff.

Definition limits_set (l : orgQuotaLimits) : Prop := RequestSet l = true ∧ IndexBytesSet l = true.

Lemma inherit_from_owner_returns E key org req bytes :
  returns limits_set (inherit_from_owner E key org req bytes).
Proof. unfold inherit_from_owner. returns_tac. Qed.
#[export] Hint Resolve inherit_from_owner_returns : eff.

Lemma getOrgQuotaLimits_returns E org : returns limits_set (getOrgQuotaLimits E org).
Proof.
  unfold getOrgQuotaLimits. eapply returns_bind; [apply cached_returns|]. intros [l|] Hl.
  - apply returns_ret. destruct (Hl l eq_refl) as [s Hs]. by eapply parsed_limits_set.
  - returns_tac.
Qed.

(** The organisation lookup fails closed: whatever Redis,
    the database and the concurrent requests do, it returns (never an error) with both
    dimensions resolved, so that no caller can read a zero value as "unlimited". *)
Theorem org_limits_fail_closed E org w :
  ∃ l w', getOrgQuotaLimits E org w = (Ok l, w') ∧ limits_set l.
Proof. apply getOrgQuotaLimits_returns. Qed.
