(* ===== verification/Quota.v ===== *)
(** * Quota accounting (quota.go, second half; swift_quota.go)

    The Lua scripts that reserve daily requests and index bytes, and the functions
    that run them: a request is admitted only if the member limit and the pool both
    have room, a file's content is charged once per day and root, and an accounting
    failure refuses the work. *)
From Stdlib Require Import Ascii String.
From S2P Require Import Prelude GoStrings Paths Sha256 Json Lce Store Effects RedisCommands.
From S2P Require Import QuotaLimits.
Open Scope Z_scope.

Definition quota_ttl_seconds : Z := 48 * Hour / Second.

(** ** The scripts *)

(** [chargeScript]: {allowed, used}. *)
Definition chargeScript (key : string) (requested limit ttl now : Z) (r : Redis) :
    option (bool * Z) * Redis :=
  match counter now key r with
  | None => (None, r)
  | Some current =>
      if limit <? current + requested then (Some (false, current), r)
      else
        let r1 := INCRBY now key current requested r in
        let r2 := if current =? 0 then EXPIRE now key ttl r1 else r1 in
        (Some (true, current + requested), r2)
  end.

(** The loop of [reserveFilesScript]: the tokens not charged yet and their sum. *)
Fixpoint collect_unseen (charged : gmap string string) (files : list (string * Z))
    (unseen : gmap string string) (newly : Z) : gmap string string * Z :=
  match files with
  | [] => (unseen, newly)
  | (token, bytes) :: rest =>
      if (0 <? bytes) && bool_decide (unseen !! token = None)
         && bool_decide (charged !! token = None)
      then collect_unseen charged rest (<[token := FormatInt bytes]> unseen) (newly + bytes)
      else collect_unseen charged rest unseen newly
  end.

(** The writes of [reserveFilesScript]. *)
Definition write_charges (key ledger : string) (current newly ttl : Z)
    (unseen : gmap string string) (now : Z) (r : Redis) : Redis :=
  let r1 := HSET_all now ledger unseen r in
  let r2 := INCRBY now key current newly r1 in
  let r3 := if no_ttl now key r2 then EXPIRE now key ttl r2 else r2 in
  if no_ttl_hash now ledger r3 then EXPIRE_hash now ledger ttl r3 else r3.

(** [reserveFilesScript]: {allowed, used, newly charged}. *)
Definition reserveFilesScript (key ledger : string) (limit ttl : Z) (files : list (string * Z))
    (now : Z) (r : Redis) : option (bool * Z * Z) * Redis :=
  match counter now key r with
  | None => (None, r)
  | Some current =>
      let '(unseen, newly) := collect_unseen (HGETALL now ledger r) files ∅ 0 in
      if limit <? current + newly then (Some (false, current, 0), r)
      else if 0 <? newly then
        (Some (true, current + newly, newly),
         write_charges key ledger current newly ttl unseen now r)
      else (Some (true, current, 0), r)
  end.

(** [reserveRequestQuotaScript]: {allowed, used, limit, scope}; scope 1 is the
    member, 2 the pool. *)
Definition incr_daily (now : Z) (key : string) (used ttl : Z) (r : Redis) : Redis :=
  let r1 := INCRBY now key used 1 r in
  if used + 1 =? 1 then EXPIRE now key ttl r1 else r1.

Definition reserveRequestQuotaScript (memberKey poolKey : string) (memberLimit poolLimit ttl : Z)
    (now : Z) (r : Redis) : option (bool * Z * Z * Z) * Redis :=
  match (if 0 <? memberLimit then counter now memberKey r else Some 0),
        (if 0 <? poolLimit then counter now poolKey r else Some 0) with
  | None, _ => (None, r)
  | Some memberUsed, p =>
      if (0 <? memberLimit) && (memberLimit <=? memberUsed)
      then (Some (false, memberUsed, memberLimit, 1), r) else
      match p with
      | None => (None, r)
      | Some poolUsed =>
          if (0 <? poolLimit) && (poolLimit <=? poolUsed)
          then (Some (false, poolUsed, poolLimit, 2), r) else
          let r1 := if 0 <? memberLimit then incr_daily now memberKey memberUsed ttl r else r in
          (* the second INCR reads the key again *)
          let poolUsed' := if 0 <? poolLimit then default 0 (counter now poolKey r1) else 0 in
          let r2 := if 0 <? poolLimit then incr_daily now poolKey poolUsed' ttl r1 else r1 in
          (Some (true, (if 0 <? poolLimit then poolUsed' + 1
                        else if 0 <? memberLimit then memberUsed + 1 else 0),
                 (if 0 <? poolLimit then poolLimit
                  else if 0 <? memberLimit then memberLimit else 0),
                 (if 0 <? poolLimit then 2 else if 0 <? memberLimit then 1 else 0)), r2)
      end
  end.

(** The script of [chargeSwiftPart]: {1 charged or replayed | 0 over the limit |
    -1 the part was charged with other content, used, newly charged}. *)
Definition chargeSwiftScript (key ledger part token : string) (bytes limit ttl : Z)
    (now : Z) (r : Redis) : option (Z * Z * Z) * Redis :=
  match counter now key r with
  | None => (None, r)
  | Some current =>
      match HGETALL now ledger r !! part with
      | Some previous =>
          if negb (str_eqb previous token) then (Some (-1, current, 0), r)
          else (Some (1, current, 0), EXPIRE_hash now ledger ttl r)
      | None =>
          if (0 <? limit) && (limit <? current + bytes) then (Some (0, current, 0), r)
          else
            let r1 := INCRBY now key current bytes r in
            let r2 := HSET_all now ledger {[ part := token ]} r1 in
            let r3 := EXPIRE_hash now ledger ttl (EXPIRE now key ttl r2) in
            (Some (1, current + bytes, bytes), r3)
      end
  end.

(** ** Decisions *)

Record indexQuotaDecision := {
  iq_Allowed : bool; iq_Unavailable : bool; iq_Used : Z; iq_Limit : Z; iq_Charged : Z
}.
Definition quota_unavailable (limit : Z) : indexQuotaDecision :=
  {| iq_Allowed := false; iq_Unavailable := true; iq_Used := 0; iq_Limit := limit; iq_Charged := 0 |}.
Definition quota_free (limit charged : Z) : indexQuotaDecision :=
  {| iq_Allowed := true; iq_Unavailable := false; iq_Used := 0; iq_Limit := limit;
     iq_Charged := charged |}.

Record indexQuotaFile := { qf_Path : string; qf_Hash : string; qf_Bytes : Z }.

Record requestQuotaDecision := {
  rq_Allowed : bool; rq_Unavailable : bool; rq_Used : Z; rq_Limit : Z; rq_Scope : string
}.
Definition request_unavailable : requestQuotaDecision :=
  {| rq_Allowed := false; rq_Unavailable := true; rq_Used := 0; rq_Limit := 0; rq_Scope := "" |}.

Section charge.
Context (E : Env).
Let cfg := env_config E.
Let off := quotaLocation_offset cfg.

Definition chargeIndexBytesQuota (tenant org tier : string) (bytes : Z) : M indexQuotaDecision :=
  quota ← resolveIndexBytesQuota E tenant org tier;
  let limit := Limit quota in
  if (limit <=? 0) || (bytes <=? 0) then mret (quota_free limit (Z.max bytes 0))
  else
    now ← time_Now E;
    v ← try (redis_eval E (chargeScript (indexBytesKeyAt off (PoolID quota) now) bytes limit
                                        quota_ttl_seconds));
    mret (match v with
          | Ok (Some (allowed, used)) =>
              {| iq_Allowed := allowed; iq_Unavailable := false; iq_Used := used;
                 iq_Limit := limit; iq_Charged := if allowed then bytes else 0 |}
          | _ => quota_unavailable limit
          end).

Definition file_token (f : indexQuotaFile) : string * Z :=
  let bytes := Z.max (qf_Bytes f) 0 in
  (sha256_hex (Join NUL [normalizeIndexPath (qf_Path f);
                         ToLower (env_unicode_lower E) (TrimSpace (qf_Hash f));
                         FormatInt bytes]), bytes).

Definition requested_bytes (files : list indexQuotaFile) : Z :=
  foldl (λ acc f, wrap64 (acc + (if 0 <? qf_Bytes f then qf_Bytes f else 0))) 0 files.

Definition chargeIndexFiles (tenant org tier root : string) (files : list indexQuotaFile) :
    M indexQuotaDecision :=
  let requested := requested_bytes files in
  quota ← resolveIndexBytesQuota E tenant org tier;
  let limit := Limit quota in
  if requested <=? 0 then mret (quota_free limit 0)
  else if limit <=? 0 then mret (quota_free limit requested)
  else
    now ← time_Now E;
    v ← try (redis_eval E (reserveFilesScript (indexBytesKeyAt off (PoolID quota) now)
                             (indexFileChargesKeyAt off tenant root now) limit quota_ttl_seconds
                             (file_token <$> files)));
    mret (match v with
          | Ok (Some (allowed, used, charged)) =>
              {| iq_Allowed := allowed; iq_Unavailable := false; iq_Used := used;
                 iq_Limit := limit; iq_Charged := charged |}
          | _ => quota_unavailable limit
          end).

Definition reserveRequestQuota (memberKey : string) (memberLimit : Z) (poolKey : string)
    (poolLimit : Z) : M requestQuotaDecision :=
  if (memberLimit <=? 0) && (poolLimit <=? 0)
  then mret {| rq_Allowed := true; rq_Unavailable := false; rq_Used := 0; rq_Limit := 0;
               rq_Scope := "" |}
  else
    v ← try (redis_eval E (reserveRequestQuotaScript memberKey poolKey memberLimit poolLimit
                             quota_ttl_seconds));
    mret (match v with
          | Ok (Some (allowed, used, limit, scope)) =>
              {| rq_Allowed := allowed; rq_Unavailable := false; rq_Used := used;
                 rq_Limit := limit;
                 rq_Scope := if negb (str_eqb poolKey memberKey)
                             then if scope =? 1 then "member"
                                  else if scope =? 2 then "organization" else "personal"
                             else "personal" |}
          | _ => request_unavailable
          end).

Definition checkRequestQuotaDetailed (user org tier : string) : M requestQuotaDecision :=
  now ← time_Now E;
  let day := day_string off now in
  if str_eqb org "" then
    limit ← getUserDailyLimit E user tier;
    let key := "quota:used:" +:+ user +:+ ":" +:+ day in
    reserveRequestQuota key 0 key limit
  else
    m ← try (getMemberDailyLimit E org user);
    match m with
    | Err _ => mret request_unavailable
    | Ok configured =>
        limits ← getOrgQuotaLimits E org;
        let orgLimit := if RequestSet limits then Request limits
                        else tierDailyRequestLimit cfg tierFree in
        let poolID := if str_eqb (RequestPoolID limits) "" then org else RequestPoolID limits in
        reserveRequestQuota
          ("quota:used:org:" +:+ org +:+ ":" +:+ user +:+ ":" +:+ day) (default 0 configured)
          ("quota:used:" +:+ poolID +:+ ":" +:+ day) orgLimit
    end.

Definition checkRequestQuota (user org tier : string) : M (bool * Z) :=
  d ← checkRequestQuotaDetailed user org tier; mret (rq_Allowed d, rq_Limit d).

Definition swiftPartChargeRetention : Z := 48 * Hour.

(** The decision, and whether the part conflicts with the charged one. *)
Definition chargeSwiftPart (quota : indexQuotaPool) (tenant root job : string) (part : Z)
    (data : string) (now : Z) : M (indexQuotaDecision * bool) :=
  let ledger := "quota:swift-parts:" +:+ tenant +:+ ":" +:+ sha256_hex (root +:+ NUL +:+ job) in
  let token := sha256_hex data +:+ ":" +:+ FormatInt (len data) in
  v ← try (redis_eval E (chargeSwiftScript (indexBytesKeyAt off (PoolID quota) now) ledger
             (FormatInt part) token (len data) (Limit quota) (swiftPartChargeRetention / Second)));
  mret (match v with
        | Ok (Some (code, used, charged)) =>
            ({| iq_Allowed := code =? 1; iq_Unavailable := false; iq_Used := used;
                iq_Limit := Limit quota; iq_Charged := charged |}, code =? -1)
        | _ => (quota_unavailable (Limit quota), false)
        end).
End charge.

(** ** Requests *)

(** One use of the request script on a pool key. *)
Record request_call := {
  rc_now : Z; rc_member_key : string; rc_member_limit : Z; rc_pool_limit : Z
}.
Definition run_call (pool : string) (c : request_call) (r : Redis) : bool * Redis :=
  let '(v, r') := reserveRequestQuotaScript (rc_member_key c) pool (rc_member_limit c)
                    (rc_pool_limit c) quota_ttl_seconds (rc_now c) r in
  (match v with Some (allowed, _, _, _) => allowed | None => false end, r').
Fixpoint run_calls (pool : string) (cs : list request_call) (r : Redis) : Z * Redis :=
  match cs with
  | [] => (0, r)
  | c :: rest =>
      let '(b, r1) := run_call pool c r in
      let '(n, r2) := run_calls pool rest r1 in
      ((if b then 1 else 0) + n, r2)
  end.

Lemma incr_daily_other now key key' used ttl r :
  key ≠ key' → r_str (incr_daily now key' used ttl r) !! key = r_str r !! key.
Proof.
  intros. unfold incr_daily. destruct (_ =? _); [rewrite str_EXPIRE_ne by done|];
    by rewrite str_INCRBY_ne.
Qed.

Lemma counts_other key n until r r' :
  r_str r' !! key = r_str r !! key → counts key n until r → counts key n until r'.
Proof. unfold counts. by intros ->. Qed.

Lemma incr_daily_counts now key n until ttl r :
  counts key n until r → now < until → 0 ≤ n → in_int64 (n + 1) = true →
  until ≤ now + ttl * Second → 0 < ttl → counts key (n + 1) until (incr_daily now key n ttl r).
Proof.
  intros [Hn Hk] Hnow Hpos Hn1 Hu Httl. split; [done|]. unfold incr_daily.
  destruct (n + 1 =? 1) eqn:E1; reflect_bools.
  - unfold EXPIRE. rewrite str_INCRBY_eq.
    destruct (r_str r !! key) as [[v exp]|] eqn:Er.
    + destruct Hk as (_ & t & -> & Ht). simpl. rewrite (proj2 (Z.leb_gt t now)) by lia. simpl.
      rewrite (proj2 (Z.leb_gt t now)) by lia. simpl. rewrite lookup_insert_eq. eauto.
    + simpl. rewrite lookup_insert_eq. eauto.
  - rewrite str_INCRBY_eq. destruct (r_str r !! key) as [[v exp]|] eqn:Er; [|lia].
    destruct Hk as (_ & t & -> & Ht). simpl. rewrite (proj2 (Z.leb_gt t now)) by lia. eauto.
Qed.

(** What a call of the script does to a positively limited pool. *)
Lemma run_call_counts pool c r n until :
  counts pool n until r → 0 ≤ n → rc_now c < until →
  until ≤ rc_now c + quota_ttl_seconds * Second →
  rc_member_key c ≠ pool ∨ rc_member_limit c ≤ 0 →
  0 < rc_pool_limit c → in_int64 (rc_pool_limit c) = true →
  let '(b, r') := run_call pool c r in
  (b = true → n < rc_pool_limit c) ∧ counts pool (n + (if b then 1 else 0)) until r'.
Proof.
  intros Hc Hn Hnow Hu Hm Hp Hi. unfold run_call, reserveRequestQuotaScript.
  rewrite (proj2 (Z.ltb_lt 0 (rc_pool_limit c))) by done.
  rewrite (counts_counter _ _ _ _ _ Hc Hnow).
  destruct (if 0 <? rc_member_limit c then _ else _) as [mu|]; simpl; [|by rewrite Z.add_0_r].
  destruct (_ && (_ <=? mu)); [by rewrite Z.add_0_r|].
  destruct (rc_pool_limit c <=? n) eqn:El; [by rewrite Z.add_0_r|]. reflect_bools.
  set (r1 := if 0 <? rc_member_limit c then _ else r).
  assert (counts pool n until r1) as Hc1.
  { subst r1. destruct (0 <? rc_member_limit c) eqn:Em; [|done]. reflect_bools.
    eapply counts_other; [|done]. apply incr_daily_other. destruct Hm; [done|lia]. }
  rewrite (counts_counter _ _ _ _ _ Hc1 Hnow). simpl. split; [lia|].
  apply incr_daily_counts; try done.
  unfold in_int64 in *. reflect_bools. apply andb_true_iff. rewrite !Z.leb_le.
  unfold MinInt64 in *. lia.
Qed.

Lemma run_calls_bound pool limit until cs r n :
  counts pool n until r → 0 ≤ n ≤ limit →
  Forall (λ c, rc_now c < until ∧ until ≤ rc_now c + quota_ttl_seconds * Second ∧
               (rc_member_key c ≠ pool ∨ rc_member_limit c ≤ 0) ∧
               0 < rc_pool_limit c ≤ limit ∧ in_int64 (rc_pool_limit c) = true) cs →
  n + (run_calls pool cs r).1 ≤ limit.
Proof.
  revert r n. induction cs as [|c cs IH]; intros r n Hc Hn Hcs; simpl; [lia|].
  apply Forall_cons in Hcs as [(H1 & H2 & H3 & H4 & H5) Hrest].
  pose proof (run_call_counts pool c r n until Hc ltac:(lia) H1 H2 H3 ltac:(lia) H5) as Hs.
  destruct (run_call pool c r) as [b r1]. destruct Hs as [Hlt Hc1].
  assert (0 ≤ n + (if b then 1 else 0) ≤ limit) as Hb by (destruct b; [specialize (Hlt eq_refl)|]; lia).
  specialize (IH r1 _ Hc1 Hb Hrest). destruct (run_calls pool cs r1) as [k r2]. simpl in *. lia.
Qed.

(** However the requests of one quota day interleave, with
    whatever member limits, at most [limit] of them are admitted to a pool whose limit
    is at most [limit] all day: starting from an unused counter, the number of calls of
    the reservation script that answer "allowed" never exceeds it. *)
Theorem daily_requests_bounded pool limit start cs r :
  r_str r !! pool = None → 0 ≤ limit →
  Forall (λ c, start ≤ rc_now c < start + day_ns ∧
               (rc_member_key c ≠ pool ∨ rc_member_limit c ≤ 0) ∧
               0 < rc_pool_limit c ≤ limit ∧ in_int64 (rc_pool_limit c) = true) cs →
  (run_calls pool cs r).1 ≤ limit.
Proof.
  intros Hr Hl Hcs. change ((run_calls pool cs r).1) with (0 + (run_calls pool cs r).1).
  eapply (run_calls_bound pool limit (start + day_ns)); [|lia|].
  - by apply counter_counts with (now := 0).
  - eapply Forall_impl; [exact Hcs|]. intros c (Hn & Hm & Hp & Hi).
    assert (quota_ttl_seconds * Second = 2 * day_ns) as -> by done.
    assert (0 < day_ns) by done. simpl. split_and!; try done; lia.
Qed.

Lemma daily_requests_bounded_witness :
  (run_calls "quota:used:u:20240301"
     (replicate 3 {| rc_now := 5; rc_member_key := "quota:used:org:o:u:20240301";
                     rc_member_limit := 9; rc_pool_limit := 2 |}) empty_redis).1 ≤ 2.
Proof.
  apply (daily_requests_bounded _ 2 0); [done|lia|].
  repeat constructor; try (by left); (done || (compute; lia)).
Defined.

(** [C30] A reservation takes from the member limit and the
    pool together or from neither: a refusal leaves Redis unchanged, and an admission
    raises each limited counter by exactly one, from a value below its limit. *)
Theorem request_reservation_atomic mk pk ml pl now r allowed used limit scope r' m p until :
  reserveRequestQuotaScript mk pk ml pl quota_ttl_seconds now r
    = (Some (allowed, used, limit, scope), r') →
  mk ≠ pk → counts mk m until r → counts pk p until r → 0 ≤ m → 0 ≤ p →
  now < until → until ≤ now + quota_ttl_seconds * Second →
  in_int64 ml = true → in_int64 pl = true →
  if allowed
  then (0 < ml → m < ml ∧ counts mk (m + 1) until r') ∧ (ml ≤ 0 → counts mk m until r') ∧
       (0 < pl → p < pl ∧ counts pk (p + 1) until r') ∧ (pl ≤ 0 → counts pk p until r')
  else r' = r ∧ (0 < ml ∧ ml ≤ m ∨ 0 < pl ∧ pl ≤ p).
Proof.
  intros H Hne Hm Hp M0 P0 Hnow Hu Iml Ipl. unfold reserveRequestQuotaScript in H.
  rewrite (counts_counter _ _ _ _ _ Hm Hnow), (counts_counter _ _ _ _ _ Hp Hnow) in H.
  assert (∀ key n l r, counts key n until r → 0 ≤ n < l → in_int64 l = true →
            counts key (n + 1) until (incr_daily now key n quota_ttl_seconds r)) as Hincr.
  { intros key n l r0 Hc Hl Hi. apply incr_daily_counts; try done; [lia|].
    unfold in_int64 in *. reflect_bools. apply andb_true_iff. rewrite !Z.leb_le.
    unfold MinInt64 in *. lia. }
  destruct (0 <? ml) eqn:Eml; reflect_bools; simpl in H.
  - destruct (ml <=? m) eqn:El1; [simplify_eq; reflect_bools; auto|]. reflect_bools.
    destruct (0 <? pl) eqn:Epl; reflect_bools; simpl in H.
    + destruct (pl <=? p) eqn:El2; [simplify_eq; reflect_bools; auto|]. reflect_bools.
      assert (counts pk p until (incr_daily now mk m quota_ttl_seconds r)) as Hp1
        by (eapply counts_other; [by apply incr_daily_other|done]).
      rewrite (counts_counter _ _ _ _ _ Hp1 Hnow) in H. simplify_eq. simpl.
      split_and!; intros; try lia; split; try lia; [|by eapply Hincr].
      eapply counts_other; [by apply incr_daily_other|]. by eapply Hincr.
    + simplify_eq. split_and!; intros; try lia; [split; [lia|by eapply Hincr]|].
      eapply counts_other; [by apply incr_daily_other|done].
  - destruct (0 <? pl) eqn:Epl; reflect_bools; simpl in H.
    + destruct (pl <=? p) eqn:El2; [simplify_eq; reflect_bools; auto|]. reflect_bools.
      rewrite (counts_counter _ _ _ _ _ Hp Hnow) in H. simplify_eq. simpl.
      split_and!; intros; try lia; [|split; [lia|by eapply Hincr]].
      eapply counts_other; [by apply incr_daily_other|done].
    + simplify_eq. split_and!; intros; try lia; done.
Qed.

Lemma request_reservation_atomic_witness :
  ∃ r', reserveRequestQuotaScript "m" "p" 3 5 quota_ttl_seconds 0 empty_redis
          = (Some (true, 1, 5, 2), r') ∧ counts "m" 1 1 r' ∧ counts "p" 1 1 r'.
Proof.
  eexists. split; [reflexivity|].
  pose proof (request_reservation_atomic "m" "p" 3 5 0 empty_redis true 1 5 2 _ 0 0 1 eq_refl)
    as H. simpl in H.
  destruct H as (Hm & _ & Hp & _); try done.
  destruct Hm as [_ Hm]; [lia|]. destruct Hp as [_ Hp]; [lia|]. split; [exact Hm|exact Hp].
Defined.

(** ** Index bytes *)

(** The loop only adds tokens; it charges a token exactly when it is new. *)
Lemma collect_unseen_spec charged files unseen newly :
  let '(u, n) := collect_unseen charged files unseen newly in
  unseen ⊆ u ∧
  (∀ token bytes, (token, bytes) ∈ files → 0 < bytes → is_Some (u !! token) ∨ is_Some (charged !! token)) ∧
  newly ≤ n ≤ newly + foldr (λ f acc, Z.max 0 f.2 + acc) 0 files ∧ (n = newly → u = unseen).
Proof.
  revert unseen newly. induction files as [|[token bytes] files IH]; intros unseen newly; simpl.
  { split_and!; try (done || lia). intros ?? H. by apply not_elem_of_nil in H. }
  destruct (_ && _) eqn:Eb.
  - reflect_bools. specialize (IH (<[token := FormatInt bytes]> unseen) (newly + bytes)).
    destruct (collect_unseen _ _ _ _) as [u n]. destruct IH as (I1 & I2 & I3 & I4). split_and!; try lia.
    + etransitivity; [|exact I1]. by apply insert_subseteq.
    + intros t b [[= -> ->]|Hin]%elem_of_cons Hb; [|by eapply I2].
      left. exists (FormatInt bytes). eapply lookup_weaken; [|exact I1]. apply lookup_insert_eq.
  - specialize (IH unseen newly). destruct (collect_unseen _ _ _ _) as [u n].
    destruct IH as (I1 & I2 & I3 & I4). split_and!; try (done || lia).
    intros t b [[= -> ->]|Hin]%elem_of_cons Hb; [|by eapply I2].
    rewrite (proj2 (Z.ltb_lt 0 bytes) Hb) in Eb. simpl in Eb. reflect_bools.
    destruct Eb as [Eb|Eb]; reflect_bools.
    + left. destruct (unseen !! token) as [x|] eqn:Ex; [|done]. exists x. by eapply lookup_weaken.
    + right. by destruct (charged !! token).
Qed.

Lemma collect_unseen_none charged files unseen newly :
  (∀ token bytes, (token, bytes) ∈ files → 0 < bytes → is_Some (charged !! token)) →
  collect_unseen charged files unseen newly = (unseen, newly).
Proof.
  induction files as [|[token bytes] files IH]; intros H; simpl; [done|].
  destruct (_ && _) eqn:Eb; [|apply IH; intros; eapply H; [by apply elem_of_cons; right|done]].
  reflect_bools. destruct (H token bytes) as [x Hx]; [by apply elem_of_cons; left|done|congruence].
Qed.

(** The ledger of charged tokens is kept at least until [until]. *)
Definition ledger_lasts (ledger : string) (until : Z) (r : Redis) : Prop :=
  match r_hash r !! ledger with
  | None => True
  | Some (_, exp) => ∃ t, exp = Some t ∧ until ≤ t
  end.

Lemma ledger_live ledger until r now :
  ledger_lasts ledger until r → now < until →
  HGETALL now ledger r = default ∅ (fst <$> r_hash r !! ledger).
Proof.
  unfold ledger_lasts, HGETALL. destruct (r_hash r !! ledger) as [[h exp]|]; [|done].
  intros (t & -> & Ht) Hn. simpl. by rewrite (proj2 (Z.leb_gt t now)) by lia.
Qed.

(** The two halves of the store do not interfere. *)
Lemma EXPIRE_hash_of now key s r : r_hash (EXPIRE now key s r) = r_hash r.
Proof. unfold EXPIRE. by destruct (live_entry _ _) as [[]|]. Qed.
Lemma EXPIRE_hash_str now key s r : r_str (EXPIRE_hash now key s r) = r_str r.
Proof. unfold EXPIRE_hash. by destruct (live_entry _ _) as [[]|]. Qed.

Lemma write_charges_key key ledger n newly ttl unseen now r until :
  counts key n until r → now < until → until ≤ now + ttl * Second → 0 < ttl →
  in_int64 (n + newly) = true →
  counts key (n + newly) until (write_charges key ledger n newly ttl unseen now r).
Proof.
  intros [Hn Hk] Hnow Hu Httl Hi. split; [done|]. unfold write_charges.
  set (r2 := INCRBY _ _ _ _ _). set (r3 := if no_ttl _ _ _ then _ else _).
  assert (r_str (if no_ttl_hash now ledger r3 then EXPIRE_hash now ledger ttl r3 else r3)
          = r_str r3) as -> by (destruct (no_ttl_hash _ _ _); [apply EXPIRE_hash_str|done]).
  assert (r_str r2 !! key = Some (FormatInt (n + newly),
            match live_entry now (r_str r !! key) with Some (_, e) => e | None => None end))
    as Hr2 by (unfold r2; by rewrite str_INCRBY_eq).
  subst r3. unfold no_ttl, EXPIRE. rewrite Hr2.
  destruct (r_str r !! key) as [[v exp]|]; simpl.
  - destruct Hk as (_ & t & -> & Ht). simpl. rewrite (proj2 (Z.leb_gt t now)) by lia. simpl.
    rewrite (proj2 (Z.leb_gt t now)) by lia. rewrite Hr2. simpl.
    rewrite (proj2 (Z.leb_gt t now)) by lia. eauto.
  - rewrite lookup_insert_eq. eauto.
Qed.

Lemma write_charges_ledger key ledger n newly ttl unseen now r until :
  ledger_lasts ledger until r → now < until → until ≤ now + ttl * Second → 0 < ttl →
  let r' := write_charges key ledger n newly ttl unseen now r in
  ledger_lasts ledger until r' ∧
  default ∅ (fst <$> r_hash r' !! ledger) = unseen ∪ HGETALL now ledger r.
Proof.
  intros Hl Hnow Hu Httl. unfold write_charges.
  set (r2 := INCRBY _ _ _ _ _). set (r3 := if no_ttl _ _ _ then _ else _).
  assert (r_hash r3 !! ledger = Some (unseen ∪ HGETALL now ledger r, hash_exp now ledger r)) as Hr3.
  { subst r3. assert (r_hash (if no_ttl now key r2 then EXPIRE now key ttl r2 else r2) = r_hash r2)
      as -> by (destruct (no_ttl _ _ _); [apply EXPIRE_hash_of|done]).
    simpl. by rewrite lookup_insert_eq. }
  clearbody r3. unfold no_ttl_hash, EXPIRE_hash, ledger_lasts, hash_exp in *.
  rewrite Hr3. destruct (r_hash r !! ledger) as [[h exp]|]; simpl in *.
  - destruct Hl as (t & -> & Ht). simpl. rewrite (proj2 (Z.leb_gt t now)) by lia. simpl.
    rewrite (proj2 (Z.leb_gt t now)) by lia. rewrite Hr3. simpl.
    rewrite (proj2 (Z.leb_gt t now)) by lia. eauto.
  - rewrite lookup_insert_eq. simpl. eauto.
Qed.

Section files_script.
Context (key ledger : string) (limit ttl until : Z).
Context (Httl : 0 < ttl) (Hlim : in_int64 limit = true).

(** The counter stands at [n] and the ledger holds [h], both until [until]. *)
Definition charged_state (n : Z) (h : gmap string string) (r : Redis) : Prop :=
  counts key n until r ∧ ledger_lasts ledger until r ∧ 0 ≤ n ∧
  default ∅ (fst <$> r_hash r !! ledger) = h.

Lemma reserveFiles_charges files now r n h u newly :
  charged_state n h r → now < until → until ≤ now + ttl * Second →
  collect_unseen h files ∅ 0 = (u, newly) →
  if limit <? n + newly
  then reserveFilesScript key ledger limit ttl files now r = (Some (false, n, 0), r)
  else ∃ r', reserveFilesScript key ledger limit ttl files now r
               = (Some (true, n + newly, newly), r') ∧
             charged_state (n + newly) (if 0 <? newly then u ∪ h else h) r' ∧
             (newly = 0 → r' = r).
Proof.
  intros (Hc & Hl & Hn & Hh) Hnow Hu Hcol. unfold reserveFilesScript.
  rewrite (counts_counter _ _ _ _ _ Hc Hnow), (ledger_live _ _ _ _ Hl Hnow), Hh, Hcol.
  pose proof (collect_unseen_spec h files ∅ 0) as Hs. rewrite Hcol in Hs.
  destruct Hs as (_ & _ & Hnew & _).
  destruct (limit <? n + newly) eqn:El; reflect_bools; [done|].
  destruct (0 <? newly) eqn:E0; reflect_bools.
  - eexists. split; [done|]. split; [|lia].
    assert (in_int64 (n + newly) = true) as Hi.
    { unfold in_int64 in *. reflect_bools. apply andb_true_iff. rewrite !Z.leb_le.
      unfold MinInt64 in *. lia. }
    edestruct (write_charges_ledger key ledger n newly ttl u now r until) as [L1 L2]; try done.
    split_and!; [by apply write_charges_key|exact L1|lia|]. rewrite L2.
    by rewrite (ledger_live _ _ _ _ Hl Hnow), Hh.
  - assert (newly = 0) as -> by lia. rewrite Z.add_0_r. exists r. done.
Qed.
End files_script.

(** [C31] A file's content is charged once: after a batch was
    admitted, submitting any files of it again, in any order or batching, before the
    day's ledger expires is admitted without charging a byte and without changing
    Redis; and a refused batch changes nothing. *)
Theorem file_charge_idempotent key ledger limit ttl until files now r n h v r' :
  0 < ttl → in_int64 limit = true → charged_state key ledger until n h r →
  now < until → until ≤ now + ttl * Second →
  reserveFilesScript key ledger limit ttl files now r = (v, r') →
  (∃ u c, v = Some (true, u, c) ∧ u ≤ limit ∧ u = n + c ∧ 0 ≤ c ∧
     ∀ now' files', now ≤ now' < until → files' ⊆ files →
       reserveFilesScript key ledger limit ttl files' now' r' = (Some (true, u, 0), r'))
  ∨ (v = Some (false, n, 0) ∧ r' = r).
Proof.
  intros Httl Hlim Hst Hnow Hu Hrun.
  destruct (collect_unseen h files ∅ 0) as [u newly] eqn:Hcol.
  pose proof (reserveFiles_charges key ledger limit ttl until Httl Hlim files now r n h u newly
                Hst Hnow Hu Hcol) as He.
  pose proof (collect_unseen_spec h files ∅ 0) as Hs. rewrite Hcol in Hs.
  destruct Hs as (_ & Hall & Hnew & Hzero).
  destruct (limit <? n + newly) eqn:El; reflect_bools.
  { right. rewrite He in Hrun. by simplify_eq. }
  left. destruct He as (r1 & Hr1 & (Hc & Hl & Hn & Hh) & _). rewrite Hr1 in Hrun. simplify_eq.
  exists (n + newly), newly. split_and!; try done; try lia.
  intros now' files' Hnow' Hsub. unfold reserveFilesScript.
  rewrite (counts_counter _ _ _ _ _ Hc), (ledger_live _ _ _ _ Hl), Hh by lia.
  rewrite collect_unseen_none.
  - rewrite Z.add_0_r, (proj2 (Z.ltb_ge _ _)) by lia. done.
  - intros token bytes Hin Hb. destruct (Hall token bytes (Hsub _ Hin) Hb) as [[x Hx]|[x Hx]].
    + destruct (0 <? newly) eqn:E0; reflect_bools; [|].
      * rewrite lookup_union_is_Some. left. by exists x.
      * rewrite Hzero, lookup_empty in Hx by lia. done.
    + destruct (0 <? newly); [|by exists x]. rewrite lookup_union_is_Some. right. by exists x.
Qed.

Lemma file_charge_idempotent_witness :
  let r' := (reserveFilesScript "k" "l" 10 quota_ttl_seconds [("a", 3); ("a", 3)] 0 empty_redis).2 in
  reserveFilesScript "k" "l" 10 quota_ttl_seconds [("a", 3)] 0 r' = (Some (true, 3, 0), r').
Proof.
  intros r'.
  destruct (file_charge_idempotent "k" "l" 10 quota_ttl_seconds 1 [("a", 3); ("a", 3)] 0
              empty_redis 0 ∅ (Some (true, 3, 3)) r')
    as [(u & c & Heq & _ & _ & _ & Hagain)|[Heq _]]; [done..| |done].
  injection Heq as <- <-. apply Hagain; [lia|]. intros x Hx. apply elem_of_cons. by right.
Defined.

(** A part of a Swift upload is charged once: after it was
    charged, sending the same bytes again is allowed for free and sending other bytes
    under the same part number is refused as a conflict, in both cases without touching
    the day's counter, whatever the limit is by then. *)
Theorem swift_part_charged_once key ledger part token bytes limit ttl now r used r' now' limit' token' bytes' n :
  0 < ttl → 0 ≤ bytes → counts key n (now + ttl * Second) r → in_int64 (n + bytes) = true →
  HGETALL now ledger r !! part = None →
  chargeSwiftScript key ledger part token bytes limit ttl now r = (Some (1, used, bytes), r') →
  now ≤ now' < now + ttl * Second →
  let '(v, r'') := chargeSwiftScript key ledger part token' bytes' limit' ttl now' r' in
  v = Some (if str_eqb token token' then 1 else -1, used, 0) ∧ r_str r'' = r_str r'.
Proof.
  intros Httl Hb Hc Hi Hnone Hrun Hnow'. unfold chargeSwiftScript in Hrun.
  rewrite (counts_counter _ _ _ _ now Hc), Hnone in Hrun by lia.
  destruct (_ && _); [done|]. injection Hrun as Hused Hr'.
  set (r1 := INCRBY now key n bytes r) in Hr'.
  set (r2 := HSET_all now ledger {[part := token]} r1) in Hr'.
  assert (r_str r2 !! key = Some (FormatInt (n + bytes),
    match live_entry now (r_str r !! key) with Some (_, e) => e | None => None end)) as Hs2
    by (unfold r2, r1; simpl; by rewrite lookup_insert_eq).
  assert (live_entry now (r_str r2 !! key) = r_str r2 !! key) as Hlive.
  { rewrite Hs2. destruct Hc as [_ Hk]. destruct (r_str r !! key) as [[v e]|]; simpl; [|done].
    destruct Hk as (_ & t & -> & Ht). simpl. rewrite (proj2 (Z.leb_gt t now)) by lia. simpl.
    by rewrite (proj2 (Z.leb_gt t now)) by lia. }
  assert (r_str r' !! key = Some (FormatInt (n + bytes), Some (now + ttl * Second))) as Hs'.
  { rewrite <- Hr', EXPIRE_hash_str. unfold EXPIRE. rewrite Hlive, Hs2. simpl.
    by rewrite lookup_insert_eq. }
  assert (r_hash r2 !! ledger = Some ({[part := token]} ∪ HGETALL now ledger r1, hash_exp now ledger r1))
    as Hh2 by (unfold r2; simpl; by rewrite lookup_insert_eq).
  assert (∃ h, r_hash r' !! ledger = Some (h, Some (now + ttl * Second)) ∧ h !! part = Some token)
    as (h & Hh' & Hpart).
  { exists ({[part := token]} ∪ HGETALL now ledger r1). split.
    - rewrite <- Hr'. unfold EXPIRE_hash. rewrite EXPIRE_hash_of, Hh2. simpl.
      assert (expired now (hash_exp now ledger r1) = false) as ->.
      { unfold hash_exp. destruct (r_hash r1 !! ledger) as [[h0 [t|]]|]; simpl; try done.
        destruct (t <=? now) eqn:Et; simpl; [done|exact Et]. }
      simpl. by rewrite EXPIRE_hash_of, lookup_insert_eq.
    - apply lookup_union_Some_l, lookup_singleton_eq. }
  unfold chargeSwiftScript, counter, GET, HGETALL. rewrite Hs', Hh'. simpl.
  rewrite (proj2 (Z.leb_gt _ now')) by lia. simpl. rewrite ParseInt_FormatInt by done.
  rewrite Hpart, <- Hused. destruct (str_eqb token token'); simpl; [|done].
  split; [done|]. apply EXPIRE_hash_str.
Qed.

Lemma swift_part_charged_once_witness :
  let r' := (chargeSwiftScript "k" "l" "0" "t" 7 100 48 0 empty_redis).2 in
  (chargeSwiftScript "k" "l" "0" "t2" 9 100 48 1 r').1 = Some (-1, 7, 0).
Proof.
  intros r'.
  pose proof (swift_part_charged_once "k" "l" "0" "t" 7 100 48 0 empty_redis 7 r' 1 100 "t2" 9 0)
    as H.
  destruct (chargeSwiftScript "k" "l" "0" "t2" 9 100 48 1 r') as [v r''].
  destruct H as [-> _]; done.
Defined.
