(* ===== verification/IndexStatements.v ===== *)
(** * Index job statements (index_jobs.go)

    The database side of index jobs: each SQL statement or transaction of
    index_jobs.go as a function on the tables, with its guards, and the
    row-level helpers they share.  [IndexJobs] composes them into the handlers. *)
From Stdlib Require Import Ascii String.
From S2P Require Import Prelude GoStrings Paths Sha256 Manifest Failure Json Lce Store Effects.
From S2P Require Import Leases.
Open Scope Z_scope.

Definition indexJobInitialUploadTimeout : Z := 2 * Minute.
Definition indexJobHeartbeatTimeout : Z := 10 * Minute.
Definition indexJobSweepInterval : Z := Minute.
Definition indexPublicationMaxAge : Z := Hour.
Definition indexProtocolVersion : Z := 1.
Definition indexStartMinInterval : Z := 30 * Second.
Definition indexStartSeenMaxEntries : Z := 4096.

(** ** Rows *)

Definition set_prog (f : job_progress → job_progress) (j : index_job) : index_job :=
  {| meta := meta j; prog := f (prog j); fail := fail j |}.

Definition owned (user : string) (j : index_job) : bool := str_eqb (user_id (meta j)) user.
Definition is_running (j : index_job) : bool := bool_decide (status (prog j) = Running).
(** [user_id = $ AND status = 'running'] *)
Definition owned_running (user : string) (j : index_job) : bool := owned user j && is_running j.
Definition is_publishing (j : index_job) : bool := bool_decide (phase (prog j) = Publishing).

(** [SET phase = ph, heartbeat_at = NOW()] *)
Definition move_phase (ph : job_phase) (now : Z) (j : index_job) : index_job :=
  set_prog (λ p, {|
    phase := ph; status := status p; indexed_count := indexed_count p;
    failed_files := failed_files p; total_chunks := total_chunks p;
    indexed_chunks := indexed_chunks p; chunk_count_fallback := chunk_count_fallback p;
    deletions_sent := deletions_sent p; cloud_revision := cloud_revision p;
    heartbeat_at := now; completed_at := completed_at p;
    publishing_since := publishing_since p |}) j.

(** [SET heartbeat_at = NOW()] *)
Definition beat (now : Z) (j : index_job) : index_job := move_phase (phase (prog j)) now j.

(** The terminal UPDATEs: [status], [phase = 'done'], the error columns and
    [completed_at]; they differ in [failed_files] and [heartbeat_at]. *)
Definition terminate (st : job_status) (msg : string) (d : indexFailureDiagnostic)
    (count_failed touch : bool) (now : Z) (j : index_job) : index_job := {|
  meta := meta j;
  prog := {|
    phase := Done; status := st; indexed_count := indexed_count (prog j);
    failed_files := if count_failed then total_files (meta j) - indexed_count (prog j)
                    else failed_files (prog j);
    total_chunks := total_chunks (prog j); indexed_chunks := indexed_chunks (prog j);
    chunk_count_fallback := chunk_count_fallback (prog j);
    deletions_sent := deletions_sent (prog j); cloud_revision := cloud_revision (prog j);
    heartbeat_at := if touch then now else heartbeat_at (prog j);
    completed_at := Some now; publishing_since := publishing_since (prog j) |};
  fail := {| error_message := msg; error_diag := d |} |}.

Definition indexJobHeartbeatExpired (ph : job_phase) (heartbeat now : Z) : bool :=
  match ph with
  | Publishing => false
  | Created => heartbeat <? now - indexJobInitialUploadTimeout
  | _ => heartbeat <? now - indexJobHeartbeatTimeout
  end.

Definition timedOutIndexJobError (ph : job_phase) : string :=
  match ph with
  | Created => "index client disconnected before first upload"
  | _ => "index job heartbeat timed out"
  end.

(** ** Views *)

Record indexJobView := {
  v_ID : string; v_job : index_job; ChunkCountEstimated : bool
}.
Definition job_view (id : string) (j : index_job) : indexJobView := {|
  v_ID := id; v_job := j;
  ChunkCountEstimated := chunk_count_fallback (prog j)
                         || negb (bool_decide (status (prog j) = Completed)) |}.

Definition find_job (user id : string) (d : DB) : option index_job :=
  match index_jobs d !! id with
  | Some j => if owned user j then Some j else None
  | None => None
  end.

Definition loadIndexJobFrom (user id : string) (d : DB) : result error indexJobView :=
  match find_job user id d with
  | Some j => Ok (job_view id j)
  | None => Err ErrNoRows
  end.

(** ** Creating a job *)

(** [checkIndexStartRateLimit]: 0 admits the start and records it. *)
Definition checkIndexStartRateLimit (user root : string) (now : Z) (p : Proc) : Z * Proc :=
  let key := user +:+ NUL +:+ root in
  let seen := indexStartSeen p in
  let wait := match seen !! key with
              | Some last => indexStartMinInterval - (now - last)
              | None => 0
              end in
  if 0 <? wait then (Z.quot (wait + Second - 1) Second, p)
  else
    let pruned := if indexStartSeenMaxEntries <=? Z.of_nat (size seen)
                  then delete_where (λ _ t, indexStartMinInterval <=? now - t) seen else seen in
    (0, set_start_seen (λ _, <[key := now]> pruned) p).

Definition newer (a b : string * index_job) : Prop :=
  started_at (meta b.2) ≤ started_at (meta a.2).
#[export] Instance newer_dec : RelDecision newer := λ a b, Z_le_dec _ _.

Definition running_jobs (user ws : string) (d : DB) : list (string * index_job) :=
  merge_sort newer
    (List.filter (λ kv, owned_running user kv.2 && str_eqb (workspace_id (meta kv.2)) ws)
       (map_to_list (index_jobs d))).

(** One reclaimed job of [inspectActiveIndexJob]. *)
Definition reclaim (ul : string → string) (user : string) (now : Z) (d : DB)
    (kv : string * index_job) : DB :=
  let failure := timedOutIndexJobError (phase (prog kv.2)) in
  delete_job_files kv.1
    (set_jobs (update_row kv.1 (owned_running user)
       (terminate TimedOut failure (classifyIndexFailure ul TimedOut failure) true false now)) d).

(** The transaction of [inspectActiveIndexJob]: the healthy running job that owns the
    workspace, or the expired jobs that it reclaimed. *)
Definition inspect_tx (ul : string → string) (user ws : string) (now : Z) (d : DB) :
    result error ((indexJobView + list (string * index_job)) * DB) :=
  let jobs := running_jobs user ws d in
  let expired kv := indexJobHeartbeatExpired (phase (prog kv.2)) (heartbeat_at (prog kv.2)) now in
  match List.filter (λ kv : string * index_job, negb (expired kv)) jobs with
  | (id, j) :: _ => Ok (inl (job_view id j), d)
  | [] => Ok (inr jobs, foldl (reclaim ul user now) d jobs)
  end.

Definition manifest_entry (p : string) (f : indexed_file) : indexManifestFile :=
  {| Path := p; Hash := if_hash f; Size := if_size f; EstimatedChunks := if_estimated_chunks f;
     Manifest.Content := "" |}.

Definition loadIndexedSnapshot (user ws : string) (d : DB) : gmap string indexManifestFile :=
  map_imap (λ p f, Some (manifest_entry p f)) (files_of_workspace user ws d).

Definition loadIndexedWorkspaceRoot (user ws : string) (d : DB) : option string :=
  (λ w, normalizeIndexRootID (ws_root w)) <$> index_workspaces d !! (user, ws).

Record indexStartRequest := {
  ProtocolVersion : Z;
  WorkspaceID : string;
  WorkspaceName : string;
  Branch : string;
  Revision : string;
  StartFiles : list indexManifestFile;
  UnreadableFiles : list string;
  RootID : string
}.

(** The rows that COPY writes. *)
Definition staged_rows (pending : list string) (files : list indexManifestFile) :
    gmap string job_file :=
  list_to_map ((λ f, (Path f,
    {| jf_hash := Hash f; jf_size := Size f; jf_estimated_chunks := EstimatedChunks f;
       needs_index := bool_decide (Path f ∈ pending); indexed := false |})) <$> files).

Definition new_job (user : string) (req : indexStartRequest) (md : job_mode)
    (nfiles npending chunks ndeleted now : Z) : index_job := {|
  meta := {| user_id := user; workspace_id := WorkspaceID req;
             workspace_name := WorkspaceName req; root_id := RootID req;
             branch := Branch req; revision := Revision req; mode := md;
             workspace_files := nfiles; total_files := npending;
             deleted_count := ndeleted; started_at := now |};
  prog := {| phase := Created; status := Running; indexed_count := 0; failed_files := 0;
             total_chunks := chunks; indexed_chunks := 0; chunk_count_fallback := false;
             deletions_sent := false; cloud_revision := 0; heartbeat_at := now;
             completed_at := None; publishing_since := None |};
  fail := no_failure |}.

Inductive create_outcome :=
| CreateUnchanged
| CreateLimited (wait : Z)
| CreateStarted (pending deleted : list string) (md : job_mode).

(** The transaction of [createIndexJob]: [req] is trimmed, [files] is its normalised
    manifest. *)
Definition create_tx (user jobID : string) (req : indexStartRequest)
    (files : list indexManifestFile) (now : Z) (d : DB) (p : Proc) :
    result error (create_outcome * DB) * Proc :=
  let ws := WorkspaceID req in
  let previous := loadIndexedSnapshot user ws d in
  let exists_ws := bool_decide (is_Some (index_workspaces d !! (user, ws))) in
  match graftUnreadablePaths previous files (UnreadableFiles req) with
  | Err e => (Err e, p)
  | Ok files =>
      let '(pending, deleted, chunks) := diffManifest previous files in
      if exists_ws && bool_decide (pending = []) && bool_decide (deleted = []) then
        (Ok (CreateUnchanged,
             set_workspaces (update_row (user, ws) (λ _, true) (λ w,
               {| ws_name := WorkspaceName req; ws_root := RootID req; ws_branch := Branch req;
                  ws_revision := Revision req; ws_cloud_revision := ws_cloud_revision w;
                  ws_indexed_at := ws_indexed_at w |})) d), p)
      else
        let '(wait, p') := checkIndexStartRateLimit user (RootID req) now p in
        if 0 <? wait then (Ok (CreateLimited wait, d), p')
        else
          match index_jobs d !! jobID with
          | Some _ => (Err ErrDB, p')             (* primary key violation *)
          | None =>
              let md := if exists_ws then Incremental else Full in
              let job := new_job user req md (zlength files) (zlength pending) chunks
                                 (zlength deleted) now in
              (Ok (CreateStarted pending deleted md,
                   set_job_files (insert jobID (staged_rows pending files))
                     (set_jobs (insert jobID job) d)), p')
          end
  end.

(** ** Uploading a batch *)

Record indexUploadRequest := {
  JobID : string; UploadFiles : list indexManifestFile; UploadRootID : string
}.

Fixpoint batch_inputs (seen : gset string) (files : list indexManifestFile) :
    result error (list indexManifestFile) :=
  match files with
  | [] => Ok []
  | input :: rest =>
      let path := normalizeIndexPath (Path input) in
      reject str_eqb path "" || bool_decide (path ∈ seen)
        with Errorf "invalid or duplicate batch path" in
      let? out := batch_inputs ({[ path ]} ∪ seen) rest in
      Ok ({| Path := path; Hash := Hash input; Size := Size input;
             EstimatedChunks := EstimatedChunks input;
             Manifest.Content := Manifest.Content input |} :: out)
  end.

Fixpoint stage_inputs (records : gmap string job_file) (inputs : list indexManifestFile) :
    result error (list indexManifestFile) :=
  match inputs with
  | [] => Ok []
  | input :: rest =>
      match records !! Path input with
      | None => Err (Errorf ("batch file is not part of this job: " +:+ Path input))
      | Some rec =>
          reject negb (needs_index rec) || indexed rec
                 || negb (str_eqb (TrimSpace (Hash input)) (jf_hash rec))
            with Errorf ("batch file is stale or already indexed: " +:+ Path input) in
          match validateIndexContent (jf_hash rec) (jf_size rec) (Manifest.Content input) with
          | Err e => Err (Errorf ("batch file content does not match manifest: " +:+ Path input
                                  +:+ ": " +:+ error_text e))
          | Ok _ =>
              let? out := stage_inputs records rest in
              Ok ({| Path := Path input; Hash := jf_hash rec; Size := Size input;
                     EstimatedChunks := jf_estimated_chunks rec;
                     Manifest.Content := Manifest.Content input |} :: out)
          end
      end
  end.

(** The paths of the old snapshot that the job's manifest no longer has. *)
Definition deleted_paths (user ws id : string) (d : DB) : list string :=
  merge_sort String.le
    (elements (dom (files_of_workspace user ws d) ∖ dom (files_of_job id d))).

Definition prepareIndexBatch (user : string) (req : indexUploadRequest) (d : DB) :
    result error (indexJobView * list indexManifestFile * list string) :=
  let? job := loadIndexJobFrom user (JobID req) d in
  let j := v_job job in
  reject negb (is_running j) with Errorf ("index job is " +:+ status_text (status (prog j))) in
  reject negb (str_eqb (normalizeIndexRootID (UploadRootID req)) (root_id (meta j)))
    with Errorf "index batch root_id does not match the job" in
  reject bool_decide (UploadFiles req = []) && (deleted_count (meta j) =? 0)
    with Errorf "empty index batch" in
  let? inputs := batch_inputs ∅ (UploadFiles req) in
  let? staged := stage_inputs (files_of_job (JobID req) d) inputs in
  let deleted := if negb (deletions_sent (prog j)) && (0 <? deleted_count (meta j))
                 then deleted_paths user (workspace_id (meta j)) (JobID req) d else [] in
  Ok (job, staged, deleted).

(** [UPDATE ... SET phase = 'uploading' ... AND phase <> 'publishing']; RowsAffected = 1. *)
Definition start_upload (user id : string) (now : Z) (d : DB) : result error (bool * DB) :=
  let P j := owned_running user j && negb (is_publishing j) in
  Ok (matches id P (index_jobs d), set_jobs (update_row id P (move_phase Uploading now)) d).

(** The file updates of [commitIndexBatch], each asserted to hit one row. *)
Definition mark_indexed (f : job_file) : job_file :=
  {| jf_hash := jf_hash f; jf_size := jf_size f; jf_estimated_chunks := jf_estimated_chunks f;
     needs_index := needs_index f; indexed := true |}.
Definition pending_row (f : job_file) : bool := needs_index f && negb (indexed f).

Fixpoint mark_files (files : list indexManifestFile) (rows : gmap string job_file) :
    result error (gmap string job_file) :=
  match files with
  | [] => Ok rows
  | f :: rest =>
      reject negb (matches (Path f) pending_row rows)
        with Errorf ("index batch was already committed: " +:+ Path f) in
      mark_files rest (update_row (Path f) pending_row mark_indexed rows)
  end.

Definition add_batch (nfiles chunks : Z) (fallback sent : bool) (now : Z) (j : index_job) :
    index_job :=
  set_prog (λ p, {|
    phase := Indexing; status := status p; indexed_count := indexed_count p + nfiles;
    failed_files := failed_files p; total_chunks := total_chunks p;
    indexed_chunks := indexed_chunks p + chunks;
    chunk_count_fallback := chunk_count_fallback p || fallback;
    deletions_sent := deletions_sent p || sent; cloud_revision := cloud_revision p;
    heartbeat_at := now; completed_at := completed_at p;
    publishing_since := publishing_since p |}) j.

Definition commitIndexBatch (user id : string) (files : list indexManifestFile) (chunks : Z)
    (fallback sent : bool) (now : Z) (d : DB) : result error (unit * DB) :=
  match find_job user id d with
  | None => Err ErrNoRows
  | Some j =>
      reject negb (is_running j)
        with Errorf ("index job became " +:+ status_text (status (prog j))) in
      let? rows := mark_files files (files_of_job id d) in
      reject negb (in_int64 (indexed_chunks (prog j) + chunks)) with ErrDB in   (* BIGINT range *)
      Ok (tt, set_job_files (λ m, if bool_decide (files = []) then m else <[id := rows]> m)
                (set_jobs (update_row id (λ _, true)
                   (add_batch (zlength files) chunks fallback sent now)) d))
  end.

(** ** Completing a job *)

(** The publication intent; RowsAffected = 1. *)
Definition begin_publication (user id : string) (now : Z) (d : DB) : result error (bool * DB) :=
  Ok (matches id (owned_running user) (index_jobs d),
      set_jobs (update_row id (owned_running user) (λ j,
        set_prog (λ p, {|
          phase := Publishing; status := status p; indexed_count := indexed_count p;
          failed_files := failed_files p; total_chunks := total_chunks p;
          indexed_chunks := indexed_chunks p; chunk_count_fallback := chunk_count_fallback p;
          deletions_sent := deletions_sent p; cloud_revision := cloud_revision p;
          heartbeat_at := now; completed_at := completed_at p;
          publishing_since := Some (default now (publishing_since p)) |}) j)) d).

(** [SET phase = 'publishing', heartbeat_at = NOW()] after an accepted publish. *)
Definition keep_publishing (user id : string) (now : Z) (d : DB) : result error (unit * DB) :=
  Ok (tt, set_jobs (update_row id (owned_running user) (move_phase Publishing now)) d).

Definition record_revision (user id : string) (rev now : Z) (d : DB) : result error (unit * DB) :=
  Ok (tt, set_jobs (update_row id (owned_running user) (λ j,
    set_prog (λ p, {|
      phase := phase p; status := status p; indexed_count := indexed_count p;
      failed_files := failed_files p; total_chunks := total_chunks p;
      indexed_chunks := indexed_chunks p; chunk_count_fallback := chunk_count_fallback p;
      deletions_sent := deletions_sent p; cloud_revision := rev;
      heartbeat_at := now; completed_at := completed_at p;
      publishing_since := publishing_since p |}) j)) d).

Definition complete_row (rev now : Z) (j : index_job) : index_job :=
  set_prog (λ p, {|
    phase := Done; status := Completed; indexed_count := indexed_count p;
    failed_files := failed_files p;
    total_chunks := if chunk_count_fallback p then total_chunks p else indexed_chunks p;
    indexed_chunks := indexed_chunks p; chunk_count_fallback := chunk_count_fallback p;
    deletions_sent := deletions_sent p; cloud_revision := rev; heartbeat_at := now;
    completed_at := Some now; publishing_since := publishing_since p |}) j.

Definition snapshot_row (f : job_file) : indexed_file :=
  {| if_hash := jf_hash f; if_size := jf_size f; if_estimated_chunks := jf_estimated_chunks f |}.

(** The guards that both the pre-check and the final transaction evaluate. *)
Definition complete_guard (j : index_job) : result error unit :=
  reject negb (is_running j) with Errorf ("index job is " +:+ status_text (status (prog j))) in
  reject negb (indexed_count (prog j) =? total_files (meta j))
    with Errorf "index job still has pending files" in
  reject (0 <? deleted_count (meta j)) && negb (deletions_sent (prog j))
    with Errorf "index job still has pending deletions" in
  Ok tt.

(** The final transaction: replace the workspace snapshot by the job's manifest.
    [root] was read before the network call. *)
Definition complete_tx (user id root : string) (rev now : Z) (d : DB) : result error (unit * DB) :=
  match find_job user id d with
  | None => Err (Errorf "index job not found")
  | Some j =>
      let? _ := complete_guard j in
      let ws := workspace_id (meta j) in
      let row := {| ws_name := workspace_name (meta j); ws_root := root;
                    ws_branch := branch (meta j); ws_revision := revision (meta j);
                    ws_cloud_revision := rev; ws_indexed_at := now |} in
      Ok (tt, delete_job_files id
                (set_jobs (update_row id (λ _, true) (complete_row rev now))
                   (set_workspaces (insert (user, ws) row)
                      (set_indexed (insert (user, ws) (snapshot_row <$> files_of_job id d)) d))))
  end.

(** ** Failing jobs *)

(** The UPDATE of [markIndexJobFailed]; its result is RowsAffected > 0. *)
Definition markIndexJobFailed (user id failure : string) (diagnostic : indexFailureDiagnostic)
    (now : Z) (d : DB) : bool * DB :=
  (matches id (owned_running user) (index_jobs d),
   set_jobs (update_row id (owned_running user)
     (terminate Failed failure diagnostic true true now)) d).

(** The transaction of [finishFailedPublication]; [false]: the job was not running and
    the transaction was rolled back. *)
Definition finish_failed_tx (ul : string → string) (user id failure : string) (now : Z) (d : DB) :
    result error (bool * DB) :=
  let '(updated, d1) := markIndexJobFailed user id failure
                          (classifyIndexFailure ul Failed failure) now d in
  if (updated : bool) then Ok (true, delete_job_files id d1) else Ok (false, d).

(** The transaction of [failIndexJob]; it returns the job's root. *)
Definition fail_tx (user id failure : string) (diagnostic : indexFailureDiagnostic) (now : Z)
    (d : DB) : result error (string * DB) :=
  match find_job user id d with
  | None => Err (Errorf "index job not found")
  | Some j =>
      let '(updated, d1) := markIndexJobFailed user id failure diagnostic now d in
      reject negb updated with Errorf "index job is not running" in
      Ok (root_id (meta j), delete_job_files id d1)
  end.

(** The two separate statements that [createIndexJob] runs when [begin] failed. *)
Definition fail_begin (ul : string → string) (user id failure : string) (now : Z) (d : DB) :
    result error (unit * DB) :=
  Ok (tt, set_jobs (update_row id (owned_running user)
            (terminate Failed failure (classifyIndexFailure ul Failed failure) false true now)) d).
Definition drop_job_files (id : string) (d : DB) : result error (unit * DB) :=
  Ok (tt, delete_job_files id d).

(** ** Clearing *)

Definition clearUserIndexStateTx (user : string) (d : DB) : DB :=
  set_workspaces (delete_where (λ k _, str_eqb k.1 user))
    (set_indexed (delete_where (λ k _, str_eqb k.1 user))
       (delete_jobs (λ _ j, owned user j) d)).

(** The workspaces of the root, in the comparison SQL makes. *)
Definition root_matches (root stored : string) : bool :=
  str_eqb (sql_root_key stored) (lceIndexRootID root).
Definition workspace_of_root (user root : string) (d : DB) (k : string * string) : bool :=
  str_eqb k.1 user && matches k (λ w, root_matches root (ws_root w)) (index_workspaces d).

(** The result counts the deleted rows of [indexed_files]. *)
Definition clearRootIndexStateTx (user root : string) (d : DB) : Z * DB :=
  let gone := filter (λ kv, workspace_of_root user root d kv.1 = true) (indexed_files d) in
  (map_fold (λ _ files n, Z.of_nat (size files) + n) 0 gone,
   set_workspaces (delete_where (λ k w, str_eqb k.1 user && root_matches root (ws_root w)))
     (set_indexed (delete_where (λ k _, workspace_of_root user root d k))
        (delete_jobs (λ _ j, owned user j && root_matches root (root_id (meta j))) d))).

(** ** Sweeping *)

Definition sweep_expired (now : Z) (j : index_job) : bool :=
  is_running j &&
  match phase (prog j) with
  | Created => heartbeat_at (prog j) <? now - indexJobInitialUploadTimeout
  | Publishing => false
  | _ => heartbeat_at (prog j) <? now - indexJobHeartbeatTimeout
  end.

Definition sweep_diagnostic (ph : job_phase) : indexFailureDiagnostic :=
  match ph with
  | Created => {| Code := "client_disconnected"; Origin := "client"; Recovery := "restart_client" |}
  | _ => {| Code := "heartbeat_timeout"; Origin := "relay"; Recovery := "restart_client" |}
  end.

Definition sweep_row (now : Z) (j : index_job) : index_job :=
  terminate TimedOut (timedOutIndexJobError (phase (prog j))) (sweep_diagnostic (phase (prog j)))
            true false now j.

(** [sweepExpiredIndexJobs]'s transaction.  [locked] are the rows that another
    transaction holds, which SKIP LOCKED leaves out. *)
Definition sweep_tx (locked : gset string) (now : Z) (d : DB) :
    result error (list (string * index_job) * DB) :=
  let P id j := negb (bool_decide (id ∈ locked)) && sweep_expired now j in
  Ok (map_to_list (filter (λ kv, P kv.1 kv.2 = true) (index_jobs d)),
      set_job_files (delete_where (λ id _, matches id (P id) (index_jobs d)))
        (set_jobs (map_imap (λ id j, Some (if P id j then sweep_row now j else j))) d)).

(** The scheduling touch of [reconcileIndexPublications]. *)
Definition touch_publication (user id : string) (now : Z) (d : DB) : result error (unit * DB) :=
  Ok (tt, set_jobs (update_row id (λ j, owned_running user j && is_publishing j) (beat now)) d).

(** The heartbeat statement of [handleCodebaseIndex]. *)
Definition heartbeat_job (user id : string) (now : Z) (d : DB) : result error (unit * DB) :=
  Ok (tt, set_jobs (update_row id (λ j, owned_running user j && negb (is_publishing j)) (beat now)) d).

Definition publication_active (user id : string) (d : DB) : bool :=
  matches id (λ j, owned_running user j && is_publishing j) (index_jobs d).
