(* ===== verification/IndexJobs.v ===== *)
(** * Index job handlers (index_jobs.go)

    The operations of the indexing protocol: start, upload, complete, fail, status,
    the timeout sweeper and the reconciliation of server-owned publications.  Each
    handler composes the statements of [IndexStatements], the leases, the quota and
    the calls to LCE in the order of the source. *)
From Stdlib Require Import Ascii String.
From S2P Require Import Prelude GoStrings Paths Sha256 Manifest Failure Json Utf8 Lce Store Effects.
From S2P Require Import Leases QuotaLimits Quota IndexStatements.
Open Scope Z_scope.

Record createIndexJobResponse := {
  Job : option indexJobView;
  ActiveJob : option indexJobView;
  PendingFiles : list string;
  DeletedFiles : list string;
  Unchanged : bool;
  Busy : bool;
  BusyReason : string;
  RetryAfterSeconds : Z
}.
Definition unchanged_response : createIndexJobResponse := {|
  Job := None; ActiveJob := None; PendingFiles := []; DeletedFiles := []; Unchanged := true;
  Busy := false; BusyReason := ""; RetryAfterSeconds := 0 |}.
Definition busy_response (active : option indexJobView) (reason : string) (wait : Z) :
    createIndexJobResponse := {|
  Job := None; ActiveJob := active; PendingFiles := []; DeletedFiles := []; Unchanged := false;
  Busy := true; BusyReason := reason; RetryAfterSeconds := wait |}.

Definition indexStartBusyActiveJob : string := "active_job".
Definition indexStartBusyRateLimited : string := "rate_limited".

Definition lceBeginRetryAttempts : nat := 2.

Record publicationCandidate := {
  pc_id : string; pc_user : string; pc_root : string; pc_since : option Z
}.

(** The request with its text fields trimmed, or the reason it is invalid. *)
Definition check_start (req : indexStartRequest) :
    result error (indexStartRequest * list indexManifestFile) :=
  reject negb (ProtocolVersion req =? indexProtocolVersion)
    with Errorf ("unsupported indexing protocol version " +:+ FormatInt (ProtocolVersion req)
                 +:+ " (server requires " +:+ FormatInt indexProtocolVersion +:+ ")") in
  let req' := {|
    ProtocolVersion := ProtocolVersion req; WorkspaceID := TrimSpace (WorkspaceID req);
    WorkspaceName := TrimSpace (WorkspaceName req); Branch := TrimSpace (Branch req);
    Revision := TrimSpace (Revision req); StartFiles := StartFiles req;
    UnreadableFiles := UnreadableFiles req; RootID := normalizeIndexRootID (RootID req) |} in
  reject str_eqb (WorkspaceID req') "" || (128 <? len (WorkspaceID req'))
    with Errorf "workspace_id is required and must not exceed 128 bytes" in
  reject str_eqb (RootID req') "" with Errorf "root_id is required by indexing protocol v1" in
  reject maxIndexRootIDLen <? len (RootID req')
    with Errorf ("root_id exceeds " +:+ FormatInt maxIndexRootIDLen +:+ " bytes") in
  let? files := normalizeManifest (StartFiles req') in
  Ok (req', files).

Definition stage_args (user jobID root : string) (staged : list indexManifestFile)
    (deleted : list string) : list (string * json) :=
  lceIndexJobArgs user jobID root "stage"
    ++ [("files", JArr ((λ f, JObj [("path", JStr (Path f));
                                    ("content", JStr (Manifest.Content f))]) <$> staged))]
    ++ (if bool_decide (deleted = []) then [] else [("deleted_files", JArr (JStr <$> deleted))]).

Definition quota_file (f : indexManifestFile) : indexQuotaFile :=
  {| qf_Path := Path f; qf_Hash := Hash f; qf_Bytes := len (Manifest.Content f) |}.

Section handlers.
Context (E : Env).
Let ul := env_unicode_lower E.
Let uu := env_unicode_upper E.
Let off := quotaLocation_offset (env_config E).

Definition loadIndexJob (user id : string) : M indexJobView :=
  query E (loadIndexJobFrom user id).

Definition getIndexJob (user id : string) : M indexJobView :=
  let id := TrimSpace id in
  if str_eqb id "" then throw (Errorf "index job id is required") else
  r ← try (loadIndexJob user id);
  match r with
  | Ok v => mret v
  | Err ErrNoRows => throw (Errorf "index job not found")
  | Err e => throw e
  end.

(** ** Calls to LCE *)

(** A call whose transport error or tool error becomes an upstream error. *)
Definition remote_index_call (prefix : string) (args : list (string * json)) : M content :=
  reply ← callTool E (remote_index args);
  match reply with
  | Err text => throw (newIndexUpstreamError (prefix +:+ ": " +:+ text))
  | Ok result =>
      if IsError result then throw (lceIndexToolError uu prefix (Content result))
      else mret (Content result)
  end.

(** [left] retries remain after this attempt. *)
Fixpoint begin_attempts (left : nat) (args : list (string * json)) : M unit :=
  r ← try (remote_index_call "LCE cloud index begin failed" args);
  match r with
  | Ok _ => mret tt
  | Err e =>
      match left with
      | O => throw e
      | S left' =>
          if negb (isTransientLCEResourceError ul e) then throw e else
          n ← polls E;
          if (n =? 0)%nat then throw e else begin_attempts left' args
      end
  end.

Definition beginLCEIndexJob (user id root : string) (replaceRoot : bool) : M unit :=
  let args := lceBeginIndexJobArgs user id root replaceRoot in
  _ ← lift (validateMCPToolCallBody "codebase_remote_index" args);
  begin_attempts lceBeginRetryAttempts args.

Definition abortLCEIndexJob (user id root : string) : M unit :=
  let args := lceIndexJobArgs user id root "abort" in
  _ ← lift (validateMCPToolCallBody "codebase_remote_index" args);
  _ ← remote_index_call "LCE cloud index abort failed" args;
  mret tt.

Definition clearUserIndexState (user : string) : M unit :=
  atomically E (λ _ d, Ok (tt, clearUserIndexStateTx user d)).
Definition clearRootIndexState (user root : string) : M unit :=
  atomically E (λ _ d, Ok (tt, (clearRootIndexStateTx user root d).2)).

Definition resetWorkspaceRootBinding (user ws oldRoot newRoot : string) : M unit :=
  reply ← callTool E (clear_index [("tenant_id", JStr user);
                                   ("root_id", JStr (lceIndexRootID oldRoot))]);
  match reply with
  | Err text =>
      throw (newIndexUpstreamError
               ("clear old LCE root for workspace root migration: " +:+ text))
  | Ok result =>
      if IsError result
      then throw (newIndexUpstreamError
                    ("clear old LCE root for workspace root migration: " +:+ raw (Content result)))
      else
        r ← try (clearRootIndexState user oldRoot);
        match r with
        | Ok _ => mret tt
        | Err e => throw (Errorf ("clear service snapshots bound to old root: "
                                  +:+ error_text e))
        end
  end.

(** ** Start *)

Definition abort_unpublished (user : string) (kv : string * index_job) : M unit :=
  if 0 <? cloud_revision (prog kv.2) then mret tt
  else ignore (abortLCEIndexJob user kv.1 (root_id (meta kv.2))).

Fixpoint for_each {A} (f : A → M unit) (l : list A) : M unit :=
  match l with
  | [] => mret tt
  | x :: rest => f x;; for_each f rest
  end.

Definition inspectActiveIndexJob (user ws : string) : M (option indexJobView) :=
  r ← atomically E (inspect_tx ul user ws);
  match r with
  | inl active => mret (Some active)
  | inr expired => for_each (abort_unpublished user) expired;; mret None
  end.

(** What happens after the job row and its manifest are committed. *)
Definition begin_created (user jobID root : string) (pending deleted : list string)
    (md : job_mode) : M createIndexJobResponse :=
  r ← try (beginLCEIndexJob user jobID root (bool_decide (md = Full)));
  match r with
  | Err e =>
      ignore (abortLCEIndexJob user jobID root);;
      ignore (atomically E (fail_begin ul user jobID
                ("LCE cloud index begin failed: " +:+ error_text e)));;
      ignore (atomically E (λ _ d, drop_job_files jobID d));;
      throw e
  | Ok _ =>
      job ← loadIndexJob user jobID;
      mret {| Job := Some job; ActiveJob := None; PendingFiles := pending;
              DeletedFiles := deleted; Unchanged := false; Busy := false; BusyReason := "";
              RetryAfterSeconds := 0 |}
  end.

Definition createIndexJob (user : string) (req : indexStartRequest) : M createIndexJobResponse :=
  rf ← lift (check_start req);
  let '(req, files) := rf in
  with_lease E user (acquireExclusiveIndexOperation E user "create-job") (
    active ← inspectActiveIndexJob user (WorkspaceID req);
    match active with
    | Some job => mret (busy_response (Some job) indexStartBusyActiveJob
                                      (indexJobSweepInterval / Second))
    | None =>
        stored ← query E (λ d, Ok (loadIndexedWorkspaceRoot user (WorkspaceID req) d));
        (if workspaceRootBindingChanged (bool_decide (is_Some stored)) (default "" stored) (RootID req)
         then resetWorkspaceRootBinding user (WorkspaceID req) (default "" stored) (RootID req)
         else mret tt);;
        jobID ← uuid_New E;
        out ← transact E (create_tx user jobID req files);
        match out with
        | CreateUnchanged => mret unchanged_response
        | CreateLimited wait => mret (busy_response None indexStartBusyRateLimited wait)
        | CreateStarted pending deleted md =>
            begin_created user jobID (RootID req) pending deleted md
        end
    end).

(** ** Upload *)

Definition quota_exceeded_error (q : indexQuotaDecision) (now : Z) : error :=
  Errorf ("daily index quota exceeded (used=" +:+ FormatInt (iq_Used q)
          +:+ ", limit=" +:+ FormatInt (iq_Limit q)
          +:+ ", remaining=" +:+ FormatInt (Z.max (wrap64 (iq_Limit q - iq_Used q)) 0)
          +:+ " bytes); retry after " +:+ quotaRetryAfterHeader off now +:+ " seconds").

(** From the staged batch to the reserved quota. *)
Definition admit_batch (user org tier : string) (id root : string)
    (staged : list indexManifestFile) (deleted : list string) : M unit :=
  _ ← lift (validateIndexBatchSize staged);
  _ ← lift (validateMCPToolCallBody "codebase_remote_index" (stage_args user id root staged deleted));
  quota ← chargeIndexFiles E user org tier root (quota_file <$> staged);
  if iq_Unavailable quota
  then throw (Errorf "index quota accounting temporarily unavailable; retry later")
  else if negb (iq_Allowed quota) then now ← time_Now E; throw (quota_exceeded_error quota now)
  else mret tt.

(** [chunks] and whether it is the exact count that LCE reported. *)
Definition batch_chunks (staged : list indexManifestFile) (reply : content) : Z * bool :=
  let '(n, exact) := extractChunkCount reply in
  if (exact : bool) then (n, true)
  else (foldl (λ n f, wrap64 (n + EstimatedChunks f)) n staged, false).

Definition uploadIndexBatch (user org tier : string) (req : indexUploadRequest) :
    M (indexJobView * content) :=
  let req := {| JobID := TrimSpace (JobID req); UploadFiles := UploadFiles req;
                UploadRootID := normalizeIndexRootID (UploadRootID req) |} in
  if str_eqb (JobID req) "" || str_eqb (UploadRootID req) ""
     || (maxIndexBatchFiles <? zlength (UploadFiles req))
     || (maxIndexRootIDLen <? len (UploadRootID req))
  then throw (Errorf "invalid index batch") else
  _ ← lift (validateIndexBatchSize (UploadFiles req));
  with_lease E user
    (acquireSharedIndexOperation E user (indexJobOperationResource (JobID req)) indexUploadBatchKind) (
    r ← try (query E (prepareIndexBatch user req));
    match r with
    | Err ErrNoRows => throw (Errorf "index job not found")
    | Err e => throw e
    | Ok (job, staged, deleted) =>
        let id := v_ID job in
        running ← atomically E (start_upload user id);
        if negb running then throw (Errorf "index job is no longer running") else
        admit_batch user org tier id (UploadRootID req) staged deleted;;
        reply ← remote_index_call "LCE index call failed"
                  (stage_args user id (UploadRootID req) staged deleted);
        let '(chunks, exact) := batch_chunks staged reply in
        atomically E (commitIndexBatch user id staged chunks (negb exact)
                                       (negb (bool_decide (deleted = []))));;
        updated ← loadIndexJob user id;
        mret (updated, reply)
    end).

(** ** Complete *)

Definition finishFailedPublication (user id failure : string) : M indexJobView :=
  _ ← atomically E (finish_failed_tx ul user id failure);
  loadIndexJob user id.

Definition showing_publishing (v : indexJobView) : indexJobView := {|
  v_ID := v_ID v;
  v_job := set_prog (λ p, {|
    phase := Publishing; status := Running; indexed_count := indexed_count p;
    failed_files := failed_files p; total_chunks := total_chunks p;
    indexed_chunks := indexed_chunks p; chunk_count_fallback := chunk_count_fallback p;
    deletions_sent := deletions_sent p; cloud_revision := cloud_revision p;
    heartbeat_at := heartbeat_at p; completed_at := completed_at p;
    publishing_since := publishing_since p |}) (v_job v);
  ChunkCountEstimated := ChunkCountEstimated v |}.

(** The call that publishes: [inl] is a view to return at once, [inr] the revision. *)
Definition publish_revision (user id root : string) : M (indexJobView + Z) :=
  let args := lceIndexJobArgs user id root "publish" in
  _ ← lift (validateMCPToolCallBody "codebase_remote_index" args);
  reply ← remote_index_call "LCE cloud index publish failed" args;
  match publicationFailure reply with
  | Some failure => v ← finishFailedPublication user id failure; mret (inl v)
  | None =>
      if publishAccepted reply then
        atomically E (keep_publishing user id);;
        v ← loadIndexJob user id;
        mret (inl (showing_publishing v))
      else
        match extractCloudRevision reply with
        | Err e => throw (newIndexUpstreamError
                     ("LCE cloud index publish returned an invalid revision: " +:+ error_text e))
        | Ok rev =>
            ignore (atomically E (record_revision user id rev));;
            mret (inr rev)
        end
  end.

Definition completeIndexJobUnderLease (user id : string) (known : option Z) : M indexJobView :=
  r ← try (query E (λ d, match find_job user id d with
                         | Some j => Ok j | None => Err ErrNoRows end));
  match r with
  | Err ErrNoRows => throw (Errorf "index job not found")
  | Err e => throw e
  | Ok pre =>
      if bool_decide (status (prog pre) = Completed) then loadIndexJob user id else
      _ ← lift (complete_guard pre);
      handed ← atomically E (begin_publication user id);
      if negb handed then throw (Errorf "publication handoff lost running job: <nil>") else
      out ← (match known with
             | Some rev =>
                 if (rev <? 1) || ((0 <? cloud_revision (prog pre))
                                   && negb (cloud_revision (prog pre) =? rev))
                 then throw (Errorf "publication result conflicts with recorded revision")
                 else mret (inr rev)
             | None =>
                 if 0 <? cloud_revision (prog pre) then mret (inr (cloud_revision (prog pre)))
                 else publish_revision user id (root_id (meta pre))
             end);
      match out with
      | inl view => mret view
      | inr rev =>
          atomically E (complete_tx user id (root_id (meta pre)) rev);;
          loadIndexJob user id
      end
  end.

Definition completeIndexJob (user id : string) : M indexJobView :=
  let id := TrimSpace id in
  if str_eqb id "" then throw (Errorf "index job id is required") else
  with_lease E user
    (acquireSharedIndexOperation E user (indexJobOperationResource id) "complete-job")
    (completeIndexJobUnderLease user id None).

(** ** Fail *)

Definition failIndexJob (user id failure : string) (diagnostic : indexFailureDiagnostic) :
    M indexJobView :=
  let id := TrimSpace id in
  if str_eqb id "" then throw (Errorf "index job id is required") else
  let failure := TrimSpace failure in
  let failure := if 2000 <? len failure then truncateUTF8 failure 2000 else failure in
  let failure := if str_eqb failure "" then "client reported indexing failure" else failure in
  with_lease E user
    (acquireSharedIndexOperation E user (indexJobOperationResource id) "fail-job") (
    current ← loadIndexJob user id;
    if is_publishing (v_job current) || bool_decide (status (prog (v_job current)) = Completed)
    then mret current
    else
      root ← atomically E (fail_tx user id failure diagnostic);
      ignore (abortLCEIndexJob user id root);;
      loadIndexJob user id).

(** ** Background work *)

Definition abort_swept (kv : string * index_job) : M unit :=
  abort_unpublished (user_id (meta kv.2)) kv.

Definition sweepExpiredIndexJobs (locked : gset string) : M unit :=
  r ← try (atomically E (sweep_tx locked));
  match r with
  | Err _ => mret tt
  | Ok jobs => for_each abort_swept jobs
  end.

Definition publicationCall (c : publicationCandidate) (operation : string) : M content :=
  reply ← callTool E (remote_index (lceIndexJobArgs (pc_user c) (pc_id c) (pc_root c) operation));
  match reply with
  | Err text => throw (Errorf text)
  | Ok result =>
      if IsError result
      then throw (lceIndexToolError uu ("cloud publication " +:+ operation) (Content result))
      else mret (Content result)
  end.

(** The overdue case: cancel, and finish only on a confirmed terminal reply. *)
Definition cancel_overdue (c : publicationCandidate) : M unit :=
  aborted ← publicationCall c "abort";
  let state := publicationState aborted in
  if str_eqb state "aborted" || str_eqb state "cancelled" then
    _ ← finishFailedPublication (pc_user c) (pc_id c)
          "cloud publication deadline exceeded; cancellation confirmed";
    mret tt
  else if str_eqb state "published" || str_eqb state "completed" then mret tt
  else throw (Errorf "cloud publication cancellation is unconfirmed").

Definition reconcile_status (c : publicationCandidate) (st : result error content) : M unit :=
  now ← time_Now E;
  if match pc_since c with Some t => indexPublicationMaxAge <=? now - t | None => false end
  then cancel_overdue c
  else
    match st with
    | Err e => throw e
    | Ok reply =>
        let state := publicationState reply in
        if str_eqb state "not_submitted" then
          _ ← completeIndexJobUnderLease (pc_user c) (pc_id c) None; mret tt
        else if str_eqb state "pending" || str_eqb state "leased" || str_eqb state "publishing"
        then mret tt
        else throw (Errorf "invalid publication status response")
    end.

Definition reconcileIndexPublication (c : publicationCandidate) : M unit :=
  with_lease E (pc_user c)
    (tryIndexOperation E (pc_user c) (indexJobOperationResource (pc_id c))
                       "reconcile-publication" LShared) (
    active ← query E (λ d, Ok (publication_active (pc_user c) (pc_id c) d));
    if negb active then mret tt else
    st ← try (publicationCall c "status");
    match st with
    | Ok reply =>
        match publicationFailure reply with
        | Some failure => _ ← finishFailedPublication (pc_user c) (pc_id c) failure; mret tt
        | None =>
            if str_eqb (publicationState reply) "completed" then
              rev ← lift (extractCloudRevision reply);
              _ ← completeIndexJobUnderLease (pc_user c) (pc_id c) (Some rev);
              mret tt
            else reconcile_status c st
        end
    | Err _ => reconcile_status c st
    end).

Definition older_heartbeat (a b : string * index_job) : Prop :=
  heartbeat_at (prog a.2) ≤ heartbeat_at (prog b.2).
#[local] Instance older_heartbeat_dec : RelDecision older_heartbeat := λ a b, Z_le_dec _ _.

Definition publication_candidates (d : DB) : list publicationCandidate :=
  let jobs := merge_sort older_heartbeat
                (List.filter (λ kv : string * index_job, is_running kv.2 && is_publishing kv.2)
                   (map_to_list (index_jobs d))) in
  (λ kv : string * index_job,
     {| pc_id := kv.1; pc_user := user_id (meta kv.2); pc_root := root_id (meta kv.2);
        pc_since := publishing_since (prog kv.2) |}) <$> take 8 jobs.

Fixpoint reconcile_each (cs : list publicationCandidate) : M unit :=
  match cs with
  | [] => mret tt
  | c :: rest =>
      n ← polls E;
      if (n =? 0)%nat then mret tt else
      r ← try (atomically E (touch_publication (pc_user c) (pc_id c)));
      match r with
      | Err _ => reconcile_each rest
      | Ok _ => ignore (reconcileIndexPublication c);; reconcile_each rest
      end
  end.

Definition reconcileIndexPublications : M unit :=
  r ← try (query E (λ d, Ok (publication_candidates d)));
  match r with
  | Err _ => mret tt
  | Ok cs => reconcile_each cs
  end.
End handlers.
