(* ===== verification/IndexTool.v ===== *)
(** * The codebase_index tool (mcp_index_tool.go)

    The entry point of the indexing protocol: the checks of each operation's arguments,
    the dispatch to the handlers of [IndexJobs], the heartbeat, and the envelope of the
    answer.  A call carries its arguments and what the strict JSON decoder makes of them
    for each of the argument structures. *)
From Stdlib Require Import Ascii String.
From S2P Require Import Prelude GoStrings Paths Manifest Failure Json Lce Store Effects Leases.
From S2P Require Import ToolPolicy ClientVersion IndexStatements IndexJobs.
Open Scope Z_scope.

(** ** Arguments *)

Record mcpIndexStartArgs := {
  sa_RootID : string; sa_WorkspaceName : string; sa_Branch : string; sa_Revision : string;
  sa_ClientVersion : string; sa_Files : list mcpIndexManifestFile; sa_UnreadableFiles : list string
}.
Record mcpIndexUploadArgs := {
  ua_JobID : string; ua_RootID : string; ua_Files : list mcpIndexUploadFile
}.
Record mcpIndexJobArgs := { ja_Operation : string; ja_JobID : string }.
Record mcpIndexFailArgs := {
  la_JobID : string; la_Error : string; la_ErrorCode : string; la_ErrorOrigin : string;
  la_Recovery : string
}.

(** The [arguments] object with the outcome of [decodeStrictIndexArgs] for each target. *)
Record index_call := {
  ic_raw : list (string * json);
  ic_start : result error mcpIndexStartArgs;
  ic_upload : result error mcpIndexUploadArgs;
  ic_job : result error mcpIndexJobArgs;
  ic_fail : result error mcpIndexFailArgs
}.

Definition requireIndexArgument (raw : list (string * json)) (name : string) : result error unit :=
  match jget name raw with
  | None | Some JNull => Err (Errorf ("missing required argument: " +:+ name))
  | Some _ => Ok tt
  end.

Definition root_id_error : error :=
  Errorf "root_id must match ^[A-Za-z0-9][A-Za-z0-9._:@-]{0,127}$".
Definition job_id_error : error := Errorf "job_id must be a UUID".

Inductive index_payload :=
| StartPayload (r : createIndexJobResponse)
| UploadPayload (job : indexJobView) (reply : content)
| JobPayload (job : indexJobView).

(** ** Checked requests *)

Section checks.
Context (unicode_lower : string → string) (uuid_Validate : string → bool).

Fixpoint validate_unreadable (paths : list string) : result error (list string) :=
  match paths with
  | [] => Ok []
  | p :: rest =>
      let? normalized := validateIndexSourcePath unicode_lower p in
      let? out := validate_unreadable rest in
      Ok (normalized :: out)
  end.

(** [case "start"], up to the call of [createIndexJob]; [minimum] is the minimal version. *)
Definition start_request (minimum : string) (input : mcpIndexStartArgs) : result error indexStartRequest :=
  let rootID := normalizeIndexRootID (sa_RootID input) in
  reject negb (indexRootIDPattern rootID) with root_id_error in
  let? _ := checkIndexClientVersion minimum (sa_ClientVersion input) in
  let? files := validateMCPManifestFiles unicode_lower (sa_Files input) in
  let? unreadable := validate_unreadable (sa_UnreadableFiles input) in
  let workspaceName := TrimSpace (sa_WorkspaceName input) in
  let workspaceName := if str_eqb workspaceName "" then rootID else workspaceName in
  reject (256 <? len workspaceName) || (512 <? len (sa_Branch input)) || (512 <? len (sa_Revision input))
    with Errorf "workspace_name, branch, or revision exceeds its size limit" in
  Ok {| ProtocolVersion := indexProtocolVersion; WorkspaceID := rootID; WorkspaceName := workspaceName;
        Branch := TrimSpace (sa_Branch input); Revision := TrimSpace (sa_Revision input);
        StartFiles := files; UnreadableFiles := unreadable; RootID := rootID |}.

(** [case "upload"], up to the call of [uploadIndexBatch]. *)
Definition upload_request (input : mcpIndexUploadArgs) : result error indexUploadRequest :=
  let? files := validateMCPUploadFiles unicode_lower (ua_Files input) in
  let jobID := TrimSpace (ua_JobID input) in
  let rootID := normalizeIndexRootID (ua_RootID input) in
  reject negb (uuid_Validate jobID) with job_id_error in
  reject negb (indexRootIDPattern rootID) with root_id_error in
  Ok {| JobID := jobID; UploadFiles := files; UploadRootID := rootID |}.

Definition job_request (input : mcpIndexJobArgs) : result error unit :=
  reject negb (uuid_Validate (TrimSpace (ja_JobID input))) with job_id_error in Ok tt.
End checks.

(** ** The handler *)

Section handlers.
Context (E : Env).
Let ul := env_unicode_lower E.
Let uuid_Validate := env_uuid_Validate E.

(** The identifier is a parameter of type UUID; surrounding blanks are an input error. *)
Definition heartbeat_statement (user id : string) : M unit :=
  atomically E (λ now d, reject negb (str_eqb id (TrimSpace id)) with ErrDB in heartbeat_job user id now d).

Definition renew_staging (user id root : string) : M unit :=
  _ ← remote_index_call E "cloud staging lease renewal failed" (lceIndexJobArgs user id root "renew");
  mret tt.

(** [case "status", "heartbeat"]: the switch looks at the trimmed operation, the test
    for a heartbeat at the operation as it was decoded. *)
Definition status_or_heartbeat (user : string) (input : mcpIndexJobArgs) : M index_payload :=
  _ ← lift (job_request uuid_Validate input);
  job ← getIndexJob E user (ja_JobID input);
  if str_eqb (ja_Operation input) "heartbeat" && is_running (v_job job) && negb (is_publishing (v_job job))
  then
    heartbeat_statement user (ja_JobID input);;
    renew_staging user (ja_JobID input) (root_id (meta (v_job job)));;
    updated ← loadIndexJob E user (ja_JobID input);
    mret (JobPayload updated)
  else mret (JobPayload job).

Definition call_operation (c : index_call) : string :=
  match jget "operation" (ic_raw c) with Some (JStr s) => TrimSpace s | _ => "" end.

Definition handleCodebaseIndex (user org tier : string) (c : index_call) : M index_payload :=
  let operation := call_operation c in
  if str_eqb operation "start" then
    _ ← lift (requireIndexArgument (ic_raw c) "files");
    input ← lift (ic_start c);
    minimum ← currentMinClientVersion E;
    req ← lift (start_request ul minimum input);
    r ← createIndexJob E user req;
    mret (StartPayload r)
  else if str_eqb operation "upload" then
    _ ← lift (requireIndexArgument (ic_raw c) "files");
    input ← lift (ic_upload c);
    req ← lift (upload_request ul uuid_Validate input);
    r ← uploadIndexBatch E user org tier req;
    mret (UploadPayload r.1 r.2)
  else if str_eqb operation "status" || str_eqb operation "heartbeat" then
    input ← lift (ic_job c);
    status_or_heartbeat user input
  else if str_eqb operation "complete" then
    input ← lift (ic_job c);
    _ ← lift (job_request uuid_Validate input);
    job ← completeIndexJob E user (ja_JobID input);
    mret (JobPayload job)
  else if str_eqb operation "fail" then
    input ← lift (ic_fail c);
    _ ← lift (requireIndexArgument (ic_raw c) "error");
    if negb (uuid_Validate (TrimSpace (la_JobID input))) then throw job_id_error else
    diagnostic ← lift (resolveReportedIndexFailureDiagnostic ul Failed (la_Error input)
                         (la_ErrorCode input) (la_ErrorOrigin input) (la_Recovery input));
    job ← failIndexJob E user (la_JobID input) (la_Error input) diagnostic;
    mret (JobPayload job)
  else throw (Errorf "operation must be one of: start, upload, status, heartbeat, complete, fail").
End handlers.

(** ** The answer *)

Definition indexEnvelopeSchemaVersion : string := "1.0".

(** [payload] is the encoded payload of a success. *)
Definition codebaseIndexEnvelope (ok : bool) (payload : json) (errMessage errorCode : string) : json :=
  JObj ([("schemaVersion", JStr indexEnvelopeSchemaVersion); ("toolName", JStr codebaseIndexToolName);
         ("ok", JBool ok); ("tool", JStr codebaseIndexToolName); ("responseFormat", JStr "json")]
        ++ if ok then [("payload", payload)]
           else [("error", JObj (("message", JStr errMessage)
                   :: if str_eqb (TrimSpace errorCode) "" then []
                      else [("code", JStr (TrimSpace errorCode))]))]).

(** The envelope of an error, as [handleMCPToolsCall] builds it. *)
Definition error_envelope (e : error) : json :=
  codebaseIndexEnvelope false JNull (error_text e)
    (match e with IndexUpstreamError code _ => code | _ => "" end).

(** ** Properties *)

Lemma manifest_files_accepted ul files out :
  validateMCPManifestFiles ul files = Ok out → Forall (file_accepted ul) out.
Proof.
  revert out. induction files as [|f files IH]; intros out; simpl; [by intros [= <-]|].
  destruct (validateMCPManifestFile ul f) eqn:Ef; [|done].
  destruct (validateMCPManifestFiles ul files); [|done]. intros [= <-].
  constructor; [by eapply validateMCPManifestFile_accepted|by apply IH].
Qed.
Lemma unreadable_accepted ul paths out :
  validate_unreadable ul paths = Ok out → Forall (path_accepted ul) out.
Proof.
  revert out. induction paths as [|p paths IH]; intros out; simpl; [by intros [= <-]|].
  destruct (validateIndexSourcePath ul p) eqn:Ep; [|done].
  destruct (validate_unreadable ul paths); [|done]. intros [= <-].
  constructor; [by eapply validateIndexSourcePath_accepted|by apply IH].
Qed.
Lemma root_pattern_bounds r : indexRootIDPattern r = true → r ≠ "" ∧ len r ≤ 128.
Proof.
  destruct r as [|c r]; [done|]. simpl. intros [[_ Hl]%andb_true_iff _]%andb_true_iff.
  split; [done|]. apply Nat.leb_le in Hl. unfold len. simpl. lia.
Qed.

(** A start request that the tool builds needs no further
    normalisation of its identity: workspace and root are the same valid identifier, every
    text field is trimmed, every file passed the manifest checks and every unreadable path
    the path checks; what [createIndexJob] can still refuse is the manifest as a whole. *)
Theorem tool_start_normalised ul minimum input req :
  start_request ul minimum input = Ok req →
  WorkspaceID req = RootID req ∧ indexRootIDPattern (RootID req) = true ∧
  Forall (file_accepted ul) (StartFiles req) ∧ Forall (path_accepted ul) (UnreadableFiles req) ∧
  check_start req =
    match normalizeManifest (StartFiles req) with Ok files => Ok (req, files) | Err e => Err e end.
Proof.
  unfold start_request. set (rootID := normalizeIndexRootID (sa_RootID input)).
  destruct (indexRootIDPattern rootID) eqn:Er; [|done]. simpl negb. cbv iota.
  destruct (checkIndexClientVersion _ _); [|done].
  destruct (validateMCPManifestFiles ul _) as [files|] eqn:Ef; [|done].
  destruct (validate_unreadable ul _) as [unreadable|] eqn:Eu; [|done].
  set (name := if str_eqb (TrimSpace (sa_WorkspaceName input)) "" then rootID
               else TrimSpace (sa_WorkspaceName input)).
  destruct (_ || _); [done|]. intros [= <-]. cbn [WorkspaceID RootID StartFiles UnreadableFiles].
  split_and!; [done|done| | |].
  - eapply manifest_files_accepted. exact Ef.
  - eapply unreadable_accepted. exact Eu.
  - assert (TrimSpace rootID = rootID) as Ht by apply TrimSpace_idemp.
    assert (TrimSpace name = name) as Hn by (unfold name; case_match; [exact Ht|apply TrimSpace_idemp]).
    apply root_pattern_bounds in Er as [Hne Hlen].
    unfold check_start, normalizeIndexRootID. cbn [ProtocolVersion WorkspaceID WorkspaceName Branch Revision
      StartFiles UnreadableFiles RootID]. rewrite Ht, Hn, !TrimSpace_idemp, (proj2 (str_eqb_false _ _) Hne).
    rewrite (proj2 (Z.ltb_ge 128 (len rootID)) Hlen). unfold maxIndexRootIDLen.
    rewrite (proj2 (Z.ltb_ge 128 (len rootID)) Hlen). reflexivity.
Qed.

Definition ex_start_args : mcpIndexStartArgs := {|
  sa_RootID := " repo@main "; sa_WorkspaceName := ""; sa_Branch := "main"; sa_Revision := "r1";
  sa_ClientVersion := "1.4.1"; sa_Files := [ex_mcp_file "src/a.go"]; sa_UnreadableFiles := ["b.go"] |}.

Lemma tool_start_normalised_witness :
  match start_request (λ s, s) "1.4.0" ex_start_args with
  | Ok req => RootID req = "repo@main" ∧ WorkspaceID req = RootID req
  | Err _ => False
  end.
Proof.
  destruct (start_request (λ s, s) "1.4.0" ex_start_args) as [req|] eqn:E; [|vm_compute in E; discriminate].
  pose proof (tool_start_normalised (λ s, s) "1.4.0" ex_start_args req E) as [Hw _].
  split; [vm_compute in E; injection E as <-; reflexivity|exact Hw].
Defined.
