(* ===== verification/RootDeletion.v ===== *)
(** * Durable root deletions (root_deletion_jobs.go)

    A deletion is a row that survives restarts: submitted under the tenant lock,
    claimed by a worker for a bounded time, retried with a delay while its outcome is
    unconfirmed, and finished in the transaction that clears the relay's own rows. *)
From Stdlib Require Import Ascii String.
From S2P Require Import Prelude GoStrings Paths Manifest Failure Json Lce Store Effects Leases.
From S2P Require Import IndexStatements.
Open Scope Z_scope.

Definition rootDeletionClaimDuration : Z := 15 * Minute.
Definition rootDeletionMaxAttempts : Z := 5.
Definition deleteRootMinInterval : Z := Minute.
Definition deleteRootSeenMaxEntry : Z := 4096.

Record rootDeletionJob := { dj_ID : string; dj_row : root_deletion }.

(** ** Submission *)

Definition checkDeleteRootRateLimit (tenant root : string) (now : Z) (p : Proc) : Z * Proc :=
  let key := tenant +:+ NUL +:+ lceIndexRootID root in
  let seen := deleteRootSeen p in
  let wait := match seen !! key with
              | Some last => deleteRootMinInterval - (now - last)
              | None => 0
              end in
  if 0 <? wait then (Z.quot (wait + Second - 1) Second, p)
  else
    let pruned := if deleteRootSeenMaxEntry <=? Z.of_nat (size seen)
                  then delete_where (λ _ t, deleteRootMinInterval <=? now - t) seen else seen in
    (0, set_delete_seen (λ _, <[key := now]> pruned) p).

(** The row that the partial unique index allows at most once per tenant. *)
Definition active_deletion (tenant : string) (d : DB) : option (string * root_deletion) :=
  head (List.filter (λ kv : string * root_deletion, str_eqb (rd_user kv.2) tenant && deletion_active kv.2)
          (map_to_list (root_deletion_jobs d))).

Definition new_deletion (tenant actor root : string) (now : Z) : root_deletion := {|
  rd_user := tenant; rd_actor := actor; rd_root := root; rd_status := Queued;
  rd_attempt_id := None; rd_claim_until := None; rd_attempt_count := 0;
  rd_recovery_required := false; rd_next_attempt_at := now; rd_deleted_files := 0;
  rd_error := ""; rd_created_at := now; rd_updated_at := now |}.

Definition recover_row (now : Z) (r : root_deletion) : root_deletion := {|
  rd_user := rd_user r; rd_actor := rd_actor r; rd_root := rd_root r; rd_status := rd_status r;
  rd_attempt_id := rd_attempt_id r; rd_claim_until := rd_claim_until r; rd_attempt_count := 0;
  rd_recovery_required := false; rd_next_attempt_at := now;
  rd_deleted_files := rd_deleted_files r; rd_error := ""; rd_created_at := rd_created_at r;
  rd_updated_at := now |}.

(** What keeps a tenant busy for a new deletion. *)
Definition tenant_busy (tenant : string) (now : Z) (d : DB) : bool :=
  exists_where (λ _ e, str_eqb (l_user e) tenant && lease_live now e) (index_operation_leases d)
  || exists_where (λ _ j, owned_running tenant j) (index_jobs d)
  || embedding_change_active d.

Definition submitRootDeletion_tx (tenant actor root retry newID : string) (now : Z) (d : DB)
    (p : Proc) : result error (rootDeletionJob * DB) * Proc :=
  match active_deletion tenant d with
  | Some (id, r) =>
      (reject negb (str_eqb (rd_root r) root)
              || (negb (str_eqb retry "") && negb (str_eqb retry id))
         with ErrIndexOperationBusy in
       if negb (str_eqb retry "") && rd_recovery_required r
       then Ok ({| dj_ID := id; dj_row := recover_row now r |},
                set_deletions (insert id (recover_row now r)) d)
       else Ok ({| dj_ID := id; dj_row := r |}, d), p)
  | None =>
      if negb (str_eqb retry "") then
        (match root_deletion_jobs d !! retry with
         | Some r =>
             if str_eqb (rd_user r) tenant && str_eqb (rd_root r) root
             then Ok ({| dj_ID := retry; dj_row := r |}, d) else Err ErrNoRows
         | None => Err ErrNoRows
         end, p)
      else if tenant_busy tenant now d then (Err ErrIndexOperationBusy, p)
      else
        let '(wait, p') := checkDeleteRootRateLimit tenant root now p in
        if 0 <? wait then (Err ErrRootDeletionRateLimited, p')
        else match root_deletion_jobs d !! newID with
             | Some _ => (Err ErrDB, p')
             | None =>
                 let row := new_deletion tenant actor root now in
                 (Ok ({| dj_ID := newID; dj_row := row |}, set_deletions (insert newID row) d), p')
             end
  end.

(** ** Claiming *)

(** [claim_until < NOW()] *)
Definition claim_lapsed (now : Z) (until : option Z) : bool :=
  match until with Some t => t <? now | None => false end.

Definition exhausted_message : string :=
  "自动重试已停止，删除结果仍未确认。请点击该索引行的「重试删除」；在此之前该工作区的索引会保持暂停。".

Definition deletion_exhausted (now : Z) (r : root_deletion) : bool :=
  bool_decide (rd_status r = DRunning) && claim_lapsed now (rd_claim_until r)
  && (rootDeletionMaxAttempts <=? rd_attempt_count r) && negb (rd_recovery_required r).

Definition deletion_claimable (now : Z) (r : root_deletion) : bool :=
  (bool_decide (rd_status r = Queued)
   || (bool_decide (rd_status r = DRunning) && claim_lapsed now (rd_claim_until r)))
  && (rd_next_attempt_at r <=? now) && negb (rd_recovery_required r)
  && (rd_attempt_count r <? rootDeletionMaxAttempts).

Definition exhaust_row (now : Z) (r : root_deletion) : root_deletion := {|
  rd_user := rd_user r; rd_actor := rd_actor r; rd_root := rd_root r; rd_status := rd_status r;
  rd_attempt_id := rd_attempt_id r; rd_claim_until := rd_claim_until r;
  rd_attempt_count := rd_attempt_count r; rd_recovery_required := true;
  rd_next_attempt_at := rd_next_attempt_at r; rd_deleted_files := rd_deleted_files r;
  rd_error := exhausted_message; rd_created_at := rd_created_at r; rd_updated_at := now |}.

Definition claim_row (attempt : string) (now : Z) (r : root_deletion) : root_deletion := {|
  rd_user := rd_user r; rd_actor := rd_actor r; rd_root := rd_root r; rd_status := DRunning;
  rd_attempt_id := Some attempt; rd_claim_until := Some (now + rootDeletionClaimDuration);
  rd_attempt_count := rd_attempt_count r + 1; rd_recovery_required := rd_recovery_required r;
  rd_next_attempt_at := rd_next_attempt_at r; rd_deleted_files := rd_deleted_files r;
  rd_error := rd_error r; rd_created_at := rd_created_at r; rd_updated_at := now |}.

Definition older_deletion (a b : string * root_deletion) : Prop :=
  rd_created_at a.2 ≤ rd_created_at b.2.
#[export] Instance older_deletion_dec : RelDecision older_deletion := λ a b, Z_le_dec _ _.

(** [ORDER BY created_at FOR UPDATE SKIP LOCKED] of the rows that satisfy [P]. *)
Definition deletions_in_order (locked : gset string) (P : root_deletion → bool) (d : DB) :
    list (string * root_deletion) :=
  merge_sort older_deletion
    (List.filter (λ kv : string * root_deletion, negb (bool_decide (kv.1 ∈ locked)) && P kv.2)
       (map_to_list (root_deletion_jobs d))).

(** One statement: the exhausted rows are parked and the oldest claimable one is
    claimed; both parts read the table as it was. *)
Definition claimRootDeletion_tx (attempt : string) (locked : gset string) (now : Z) (d : DB) :
    result error (option rootDeletionJob * DB) :=
  let parked := take 100 (deletions_in_order locked (deletion_exhausted now) d) in
  let d1 := set_deletions (λ m, foldl (λ m kv, <[kv.1 := exhaust_row now kv.2]> m) m parked) d in
  match deletions_in_order locked (deletion_claimable now) d with
  | [] => Ok (None, d1)
  | (id, r) :: _ =>
      let row := claim_row attempt now r in
      Ok (Some {| dj_ID := id; dj_row := row |}, set_deletions (insert id row) d1)
  end.

(** [id, user, attempt, status = 'running' AND claim_until > NOW()] *)
Definition attempt_current (job : rootDeletionJob) (now : Z) (r : root_deletion) : bool :=
  str_eqb (rd_user r) (rd_user (dj_row job))
  && bool_decide (rd_attempt_id r = rd_attempt_id (dj_row job))
  && bool_decide (rd_status r = DRunning)
  && match rd_claim_until r with Some t => now <? t | None => false end.

(** [5s * 2^(attempts-1)], between 5 seconds and 10 minutes. *)
Definition rootDeletionRetryDelay (attempts : Z) : Z :=
  Z.min (10 * Minute) (5 * Second * Z.shiftl 1 (Z.min (Z.max (attempts - 1) 0) 7)).

Definition retry_message : string := "删除结果暂无法确认，后台将自动重试。".

Definition defer_row (attempts : Z) (now : Z) (r : root_deletion) : root_deletion :=
  let stuck := rootDeletionMaxAttempts <=? attempts in {|
  rd_user := rd_user r; rd_actor := rd_actor r; rd_root := rd_root r; rd_status := DRunning;
  rd_attempt_id := rd_attempt_id r; rd_claim_until := Some now; rd_attempt_count := attempts;
  rd_recovery_required := stuck; rd_next_attempt_at := now + rootDeletionRetryDelay attempts;
  rd_deleted_files := rd_deleted_files r;
  rd_error := if stuck then exhausted_message else retry_message;
  rd_created_at := rd_created_at r; rd_updated_at := now |}.

Definition recordRootDeletionError_tx (job : rootDeletionJob) (deferOnly : bool) (now : Z) (d : DB) :
    result error (unit * DB) :=
  let attempts := if deferOnly then Z.max 0 (rd_attempt_count (dj_row job) - 1)
                  else rd_attempt_count (dj_row job) in
  Ok (tt, set_deletions (update_row (dj_ID job) (attempt_current job now) (defer_row attempts now)) d).

(** ** Finishing *)

Definition succeed_row (count now : Z) (r : root_deletion) : root_deletion := {|
  rd_user := rd_user r; rd_actor := rd_actor r; rd_root := rd_root r; rd_status := Succeeded;
  rd_attempt_id := rd_attempt_id r; rd_claim_until := None;
  rd_attempt_count := rd_attempt_count r; rd_recovery_required := rd_recovery_required r;
  rd_next_attempt_at := rd_next_attempt_at r; rd_deleted_files := count; rd_error := "";
  rd_created_at := rd_created_at r; rd_updated_at := now |}.

Definition finishRootDeletion_tx (job : rootDeletionJob) (cloudCount now : Z) (d : DB) :
    result error (unit * DB) :=
  reject negb (matches (dj_ID job) (attempt_current job now) (root_deletion_jobs d))
    with ErrNoRows in
  let '(cleared, d1) := clearRootIndexStateTx (rd_user (dj_row job)) (rd_root (dj_row job)) d in
  let count := if 0 <? cloudCount then cloudCount else cleared in
  let mine r := str_eqb (rd_user r) (rd_user (dj_row job))
                && bool_decide (rd_attempt_id r = rd_attempt_id (dj_row job)) in
  Ok (tt, set_deletions (update_row (dj_ID job) mine (succeed_row count now)) d1).

Definition rootDeletionReceipt (c : content) (job : rootDeletionJob) : result error Z :=
  match decode_receipt c with
  | None => Err (Errorf "invalid deletion receipt")
  | Some (op, root, Some _, Some n) =>
      reject negb (str_eqb op (dj_ID job)) || negb (str_eqb root (rd_root (dj_row job))) || (n <? 0)
        with Errorf "deletion receipt does not confirm this operation" in
      Ok n
  | Some _ => Err (Errorf "deletion receipt does not confirm this operation")
  end.

Definition longest_unchanged (a b : string * root_deletion) : Prop :=
  rd_updated_at a.2 ≤ rd_updated_at b.2.
#[export] Instance longest_unchanged_dec : RelDecision longest_unchanged := λ a b, Z_le_dec _ _.

Definition pruneRootDeletionHistory_tx (locked : gset string) (now : Z) (d : DB) :
    result error (unit * DB) :=
  let old r := (bool_decide (rd_status r = Succeeded) || bool_decide (rd_status r = DFailed))
               && (rd_updated_at r <? now - 7 * 24 * Hour) in
  let rows := take 1000 (merge_sort longest_unchanged
                (List.filter (λ kv : string * root_deletion, negb (bool_decide (kv.1 ∈ locked)) && old kv.2)
                   (map_to_list (root_deletion_jobs d)))) in
  Ok (tt, set_deletions (λ m, foldl (λ m kv, delete kv.1 m) m rows) d).

(** The list endpoint: the latest row per root, active or changed within a day. *)
Definition newest_first (a b : string * root_deletion) : Prop :=
  rd_created_at b.2 ≤ rd_created_at a.2.
#[export] Instance newest_first_dec : RelDecision newest_first := λ a b, Z_le_dec _ _.

Fixpoint distinct_roots (seen : gset string) (l : list (string * root_deletion)) :
    list (string * root_deletion) :=
  match l with
  | [] => []
  | kv :: rest =>
      if bool_decide (rd_root kv.2 ∈ seen) then distinct_roots seen rest
      else kv :: distinct_roots ({[ rd_root kv.2 ]} ∪ seen) rest
  end.

Definition loadRootDeletions_q (tenant : string) (now : Z) (d : DB) : list rootDeletionJob :=
  let mine r := str_eqb (rd_user r) tenant
                && (deletion_active r || (now - 24 * Hour <? rd_updated_at r)) in
  let recent := distinct_roots ∅ (merge_sort newest_first
                  (List.filter (λ kv : string * root_deletion, mine kv.2) (map_to_list (root_deletion_jobs d)))) in
  let active := List.filter (λ kv : string * root_deletion, deletion_active kv.2) recent in
  let done := List.filter (λ kv : string * root_deletion, negb (deletion_active kv.2)) recent in
  (λ kv : string * root_deletion, {| dj_ID := kv.1; dj_row := kv.2 |}) <$> take 100 (active ++ done).

(** ** Handlers *)

Section handlers.
Context (E : Env).

Definition submitRootDeletion (tenant actor root retry : string) : M rootDeletionJob :=
  newID ← uuid_New E;
  transact E (submitRootDeletion_tx tenant actor root retry newID).

Definition enqueueRootDeletion (tenant actor root : string) : M rootDeletionJob :=
  submitRootDeletion tenant actor root "".

Definition claimRootDeletion (locked : gset string) : M rootDeletionJob :=
  attempt ← uuid_New E;
  r ← atomically E (claimRootDeletion_tx attempt locked);
  match r with Some job => mret job | None => throw ErrNoRows end.

Definition rootDeletionAttemptCurrent (job : rootDeletionJob) : M bool :=
  atomically E (λ now d, Ok (matches (dj_ID job) (attempt_current job now) (root_deletion_jobs d), d)).

Definition recordRootDeletionError (job : rootDeletionJob) (deferOnly : bool) : M unit :=
  ignore (atomically E (recordRootDeletionError_tx job deferOnly)).

Definition finishRootDeletion (job : rootDeletionJob) (cloudCount : Z) : M unit :=
  atomically E (finishRootDeletion_tx job cloudCount).

Definition lceClearIndexRootOperation (tenant root operation : string) : M lce_reply :=
  callTool E (clear_index [("tenant_id", JStr tenant); ("root_id", JStr (lceIndexRootID root));
                           ("operation_id", JStr operation)]).

(** With the exclusive lease held. *)
Definition delete_under_lease (job : rootDeletionJob) : M unit :=
  current ← try (rootDeletionAttemptCurrent job);
  match current with
  | Ok true =>
      reply ← lceClearIndexRootOperation (rd_user (dj_row job)) (rd_root (dj_row job)) (dj_ID job);
      match reply with
      | Err _ => recordRootDeletionError job false
      | Ok result =>
          if IsError result then recordRootDeletionError job false else
          match rootDeletionReceipt (Content result) job with
          | Err _ => recordRootDeletionError job false
          | Ok count =>
              r ← try (finishRootDeletion job count);
              match r with
              | Ok _ => mret tt
              | Err _ => recordRootDeletionError job false
              end
          end
      end
  | _ => mret tt
  end.

Definition processRootDeletion (job : rootDeletionJob) : M unit :=
  n ← polls E;
  if (n =? 0)%nat then mret tt else
  free ← try_barrier E;
  if negb free then recordRootDeletionError job true else
  token ← try (tryExclusiveIndexOperation E (rd_user (dj_row job)) "delete-root-job");
  match token with
  | Err _ => recordRootDeletionError job true
  | Ok t => finally (delete_under_lease job) (Release E (rd_user (dj_row job)) t)
  end.

(** One turn of a worker: claim, then process. *)
Definition deletion_worker_turn (locked : gset string) : M unit :=
  r ← try (claimRootDeletion locked);
  match r with
  | Ok job => processRootDeletion job
  | Err _ => mret tt
  end.

Definition pruneRootDeletionHistory (locked : gset string) : M unit :=
  atomically E (pruneRootDeletionHistory_tx locked).

Definition loadRootDeletions (tenant : string) : M (list rootDeletionJob) :=
  atomically E (λ now d, Ok (loadRootDeletions_q tenant now d, d)).
End handlers.
