(* ===== verification/PlatformConfig.v ===== *)
(** * Platform configuration jobs (platform_config_jobs.go, platform_model_config.go)

    A change of the platform's model configuration is a durable job: at most one is
    active, one that changes the embedding space excludes every index operation, and
    its confirmed completion clears all index state in the same transaction. *)
From Stdlib Require Import Ascii String.
From S2P Require Import Prelude GoStrings Paths Manifest Failure Json Lce Store Effects Leases.
From S2P Require Import IndexStatements RootDeletion.
Open Scope Z_scope.

Definition platformConfigJobMaxAttempts : Z := 5.
Definition platform_claim_duration : Z := 15 * Minute.

Record platformConfigJob := { cj_ID : string; cj_row : config_job }.

(** ** Statements *)

Definition new_config_job (section : string) (changed : bool) (now : Z) : config_job := {|
  pc_section := section; pc_embedding_changed := changed; pc_status := CPending;
  pc_attempt_id := None; pc_claim_until := None; pc_attempt_count := 0;
  pc_recovery_required := false; pc_next_attempt_at := now; pc_error := ""; pc_result := None;
  pc_created_at := now; pc_updated_at := now |}.

Definition config_busy (changed : bool) (now : Z) (d : DB) : bool :=
  exists_where (λ _ c, config_active c) (platform_config_jobs d)
  || (changed && (exists_where (λ _ e, lease_live now e) (index_operation_leases d)
                  || exists_where (λ _ r, deletion_active r) (root_deletion_jobs d))).

Definition enqueuePlatformConfigJob_tx (id section : string) (changed : bool) (now : Z) (d : DB) :
    result error (platformConfigJob * DB) :=
  match platform_config_jobs d !! id with
  | Some c =>
      reject negb (str_eqb (pc_section c) section) || negb (Bool.eqb (pc_embedding_changed c) changed)
        with Errorf "configuration operation identity mismatch" in
      Ok ({| cj_ID := id; cj_row := c |}, d)
  | None =>
      reject config_busy changed now d with ErrIndexOperationBusy in
      let row := new_config_job section changed now in
      Ok ({| cj_ID := id; cj_row := row |}, set_configs (insert id row) d)
  end.

Definition config_running (c : config_job) : bool := bool_decide (pc_status c = CRunning).

Definition recover_config_row (now : Z) (c : config_job) : config_job := {|
  pc_section := pc_section c; pc_embedding_changed := pc_embedding_changed c;
  pc_status := pc_status c; pc_attempt_id := pc_attempt_id c; pc_claim_until := pc_claim_until c;
  pc_attempt_count := 0; pc_recovery_required := false; pc_next_attempt_at := now; pc_error := "";
  pc_result := pc_result c; pc_created_at := pc_created_at c; pc_updated_at := now |}.
Definition recoverPlatformConfigJob_tx (id : string) (now : Z) (d : DB) : result error (unit * DB) :=
  Ok (tt, set_configs (update_row id (λ c, config_running c && pc_recovery_required c)
                                  (recover_config_row now)) d).

Definition config_exhausted (now : Z) (c : config_job) : bool :=
  config_running c && claim_lapsed now (pc_claim_until c)
  && (platformConfigJobMaxAttempts <=? pc_attempt_count c) && negb (pc_recovery_required c).
Definition config_claimable (now : Z) (c : config_job) : bool :=
  (bool_decide (pc_status c = CPending) || (config_running c && claim_lapsed now (pc_claim_until c)))
  && (pc_next_attempt_at c <=? now) && negb (pc_recovery_required c)
  && (pc_attempt_count c <? platformConfigJobMaxAttempts).

Definition unconfirmed_recovery : string :=
  "Configuration outcome is unconfirmed; recovery is required".
Definition unconfirmed_retry : string :=
  "Configuration outcome is unconfirmed; reconciliation will retry".

Definition exhaust_config_row (now : Z) (c : config_job) : config_job := {|
  pc_section := pc_section c; pc_embedding_changed := pc_embedding_changed c;
  pc_status := pc_status c; pc_attempt_id := pc_attempt_id c; pc_claim_until := pc_claim_until c;
  pc_attempt_count := pc_attempt_count c; pc_recovery_required := true;
  pc_next_attempt_at := pc_next_attempt_at c; pc_error := unconfirmed_recovery;
  pc_result := pc_result c; pc_created_at := pc_created_at c; pc_updated_at := now |}.
Definition claim_config_row (attempt : string) (now : Z) (c : config_job) : config_job := {|
  pc_section := pc_section c; pc_embedding_changed := pc_embedding_changed c;
  pc_status := CRunning; pc_attempt_id := Some attempt;
  pc_claim_until := Some (now + platform_claim_duration);
  pc_attempt_count := pc_attempt_count c + 1; pc_recovery_required := pc_recovery_required c;
  pc_next_attempt_at := pc_next_attempt_at c; pc_error := pc_error c;
  pc_result := pc_result c; pc_created_at := pc_created_at c; pc_updated_at := now |}.

Definition older_config (a b : string * config_job) : Prop :=
  pc_created_at a.2 ≤ pc_created_at b.2.
#[export] Instance older_config_dec : RelDecision older_config := λ a b, Z_le_dec _ _.

Definition claimPlatformConfigJob_tx (attempt : string) (locked : gset string) (now : Z) (d : DB) :
    result error (option platformConfigJob * DB) :=
  let d1 := set_configs (map_imap (λ _ c, Some (if config_exhausted now c
                                                then exhaust_config_row now c else c))) d in
  let candidates := merge_sort older_config
    (List.filter (λ kv : string * config_job,
                    negb (bool_decide (kv.1 ∈ locked)) && config_claimable now kv.2)
       (map_to_list (platform_config_jobs d))) in
  match candidates with
  | [] => Ok (None, d1)
  | (id, c) :: _ =>
      let row := claim_config_row attempt now c in
      Ok (Some {| cj_ID := id; cj_row := row |}, set_configs (insert id row) d1)
  end.

(** [DELETE] of every index table, with the counts. *)
Definition clearAllRelayIndexStateTx (d : DB) : clearedRelayIndexes * DB :=
  ({| Leases := Z.of_nat (size (index_operation_leases d));
      Jobs := Z.of_nat (size (index_jobs d));
      Files := map_fold (λ _ files n, Z.of_nat (size files) + n) 0 (indexed_files d);
      Workspaces := Z.of_nat (size (index_workspaces d)) |},
   {| index_jobs := ∅; index_job_files := ∅; indexed_files := ∅; index_workspaces := ∅;
      index_operation_leases := ∅; root_deletion_jobs := root_deletion_jobs d;
      platform_config_jobs := platform_config_jobs d;
      relay_runtime_settings := relay_runtime_settings d |}).

Definition config_attempt_current (job : platformConfigJob) (now : Z) (c : config_job) : bool :=
  bool_decide (pc_attempt_id c = pc_attempt_id (cj_row job)) && config_running c
  && match pc_claim_until c with Some t => now <? t | None => false end.

Definition defer_config_row (job : platformConfigJob) (now : Z) (c : config_job) : config_job :=
  let attempts := pc_attempt_count (cj_row job) in
  let paused := platformConfigJobMaxAttempts <=? attempts in {|
  pc_section := pc_section c; pc_embedding_changed := pc_embedding_changed c;
  pc_status := pc_status c; pc_attempt_id := pc_attempt_id c; pc_claim_until := Some now;
  pc_attempt_count := pc_attempt_count c; pc_recovery_required := paused;
  pc_next_attempt_at := now + rootDeletionRetryDelay attempts;
  pc_error := if paused then unconfirmed_recovery else unconfirmed_retry;
  pc_result := pc_result c; pc_created_at := pc_created_at c; pc_updated_at := now |}.
Definition deferPlatformConfigJob_tx (job : platformConfigJob) (now : Z) (d : DB) :
    result error (unit * DB) :=
  Ok (tt, set_configs (update_row (cj_ID job) (config_attempt_current job now)
                                  (defer_config_row job now)) d).

(** The receipt of LCE's commit. *)
Record cloudPlatformConfigOperation := {
  co_OperationID : string; co_State : string; co_EmbeddingChanged : bool; co_Error : string
}.
Definition no_operation : cloudPlatformConfigOperation :=
  {| co_OperationID := ""; co_State := ""; co_EmbeddingChanged := false; co_Error := "" |}.


Definition decode_operation (c : content) : option cloudPlatformConfigOperation :=
  match decoded c with
  | Some JNull => Some no_operation
  | Some (JObj m) =>
      match jfield "operation" m with
      | None | Some JNull => Some no_operation
      | Some (JObj o) =>
          match string_field "operationId" o, string_field "state" o,
                bool_field "embeddingChanged" o, string_field "error" o with
          | Some i, Some s, Some b, Some e =>
              Some {| co_OperationID := i; co_State := s; co_EmbeddingChanged := b; co_Error := e |}
          | _, _, _, _ => None
          end
      | Some _ => None
      end
  | _ => None
  end.

Definition finish_config_row (st : config_status) (res : clearedRelayIndexes) (msg : string)
    (now : Z) (c : config_job) : config_job := {|
  pc_section := pc_section c; pc_embedding_changed := pc_embedding_changed c;
  pc_status := st; pc_attempt_id := pc_attempt_id c; pc_claim_until := None;
  pc_attempt_count := pc_attempt_count c; pc_recovery_required := false;
  pc_next_attempt_at := pc_next_attempt_at c; pc_error := msg; pc_result := Some res;
  pc_created_at := pc_created_at c; pc_updated_at := now |}.

Definition receipt_confirms (job : platformConfigJob) (r : cloudPlatformConfigOperation) : bool :=
  str_eqb (co_OperationID r) (cj_ID job)
  && Bool.eqb (co_EmbeddingChanged r) (pc_embedding_changed (cj_row job))
  && (str_eqb (co_State r) "completed" || str_eqb (co_State r) "rejected").

Definition rejection_message (r : cloudPlatformConfigOperation) : string :=
  if str_eqb (co_Error r) "PLATFORM_MODEL_CONFIG_EXPIRED"
  then "Configuration preparation expired before commit; reload and validate again"
  else "Configuration changed before this operation committed; reload and submit again".

Definition no_cleared : clearedRelayIndexes := {| Jobs := 0; Files := 0; Workspaces := 0; Leases := 0 |}.

Definition finishPlatformConfigJob_tx (job : platformConfigJob) (r : cloudPlatformConfigOperation)
    (now : Z) (d : DB) : result error (unit * DB) :=
  reject negb (matches (cj_ID job) (config_attempt_current job now) (platform_config_jobs d))
    with ErrNoRows in
  let rejected := str_eqb (co_State r) "rejected" in
  let '(cleared, d1) := if negb rejected && pc_embedding_changed (cj_row job)
                        then clearAllRelayIndexStateTx d else (no_cleared, d) in
  let mine c := bool_decide (pc_attempt_id c = pc_attempt_id (cj_row job)) in
  Ok (tt, set_configs (update_row (cj_ID job) mine
            (finish_config_row (if rejected then CRejected else CSucceeded) cleared
               (if rejected then rejection_message r else "") now)) d1).

Definition newer_config (a b : string * config_job) : bool :=
  pc_created_at b.2 <? pc_created_at a.2.

(** ** Handlers *)

Section handlers.
Context (E : Env).

Definition loadPlatformConfigJob (id : string) : M platformConfigJob :=
  if str_eqb id "latest" then
    query E (λ d, match foldl (λ best kv, match best with
                                          | None => Some kv
                                          | Some b => if newer_config kv b then Some kv else Some b
                                          end) None (map_to_list (platform_config_jobs d)) with
                  | Some (i, c) => Ok {| cj_ID := i; cj_row := c |}
                  | None => Err ErrNoRows
                  end)
  else match env_uuid_parse E id with
       | None => throw (Errorf "invalid UUID")
       | Some _ =>
           query E (λ d, match platform_config_jobs d !! id with
                         | Some c => Ok {| cj_ID := id; cj_row := c |}
                         | None => Err ErrNoRows
                         end)
       end.

Definition enqueuePlatformConfigJob (id section : string) (changed : bool) : M platformConfigJob :=
  atomically E (enqueuePlatformConfigJob_tx id section changed).

Definition recoverPlatformConfigJob (id : string) : M platformConfigJob :=
  match env_uuid_parse E id with
  | None => throw (Errorf "invalid UUID")
  | Some _ => atomically E (recoverPlatformConfigJob_tx id);; loadPlatformConfigJob id
  end.

Definition claimPlatformConfigJob (locked : gset string) : M platformConfigJob :=
  attempt ← uuid_New E;
  r ← atomically E (claimPlatformConfigJob_tx attempt locked);
  match r with Some job => mret job | None => throw ErrNoRows end.

Definition finishPlatformConfigJob (job : platformConfigJob) (r : cloudPlatformConfigOperation) :
    M unit :=
  if negb (receipt_confirms job r)
  then throw (Errorf "configuration receipt does not confirm this operation")
  else atomically E (finishPlatformConfigJob_tx job r).

Definition deferPlatformConfigJob (job : platformConfigJob) : M unit :=
  ignore (atomically E (deferPlatformConfigJob_tx job)).

(** Drain the local requests: poll the barrier until it is free or the context ends. *)
Fixpoint drain (fuel : nat) : M bool :=
  free ← try_barrier E;
  if (free : bool) then mret true
  else match fuel with O => mret false | S fuel' => drain fuel' end.

Definition commit_config (job : platformConfigJob) : M unit :=
  r ← try (callLCEPlatformConfig E [("action", JStr "commit"); ("operationId", JStr (cj_ID job))]);
  match r with
  | Ok (200, body) =>
      match decode_operation body with
      | None => deferPlatformConfigJob job
      | Some op =>
          f ← try (finishPlatformConfigJob job op);
          match f with Ok _ => mret tt | Err _ => deferPlatformConfigJob job end
      end
  | _ => deferPlatformConfigJob job
  end.

Definition processPlatformConfigJob (job : platformConfigJob) : M unit :=
  if pc_embedding_changed (cj_row job) then
    fuel ← polls E;
    drained ← drain fuel;
    if (drained : bool) then commit_config job else deferPlatformConfigJob job
  else commit_config job.

Definition config_worker_turn (locked : gset string) : M unit :=
  r ← try (claimPlatformConfigJob locked);
  match r with Ok job => processPlatformConfigJob job | Err _ => mret tt end.
End handlers.

(** ** The patch of a save request *)

Definition platformModelConfigSections : list string := ["embeddings"; "rerank"; "promptEnhancer"].

(** Go maps keep one entry per key: the last member wins. *)
Fixpoint jdedup (m : list (string * json)) : list (string * json) :=
  match m with
  | [] => []
  | (k, v) :: m' => let r := jdedup m' in
                    match jget k r with Some _ => r | None => (k, v) :: r end
  end.

Definition parsePlatformModelConfigPatch (section : string) (raw : option json) :
    result error (list (string * json)) :=
  let section := TrimSpace section in
  reject negb (bool_decide (section ∈ platformModelConfigSections))
    with Errorf "section must be embeddings, rerank, or promptEnhancer" in
  match raw with
  | Some (JObj m) =>
      let envelope := jdedup m in
      reject negb (length envelope =? 1)%nat
        with Errorf "config must contain exactly one model section" in
      match jget section envelope with
      | None => Err (Errorf ("config section must match section " +:+ section))
      | Some (JObj cfg) => Ok [(section, JObj cfg)]
      | Some _ => Err (Errorf ("config." +:+ section +:+ " must be a JSON object"))
      end
  | _ => Err (Errorf "config must be a JSON object")
  end.
