(* ===== verification/RootAdmin.v ===== *)
(** * Root administration (root_admin.go; the clear-index handler of main.go)

    The list of index roots with the state of their latest job, and the handlers that
    delete a root, dismiss a failed first index and clear a tenant's index. *)
From Stdlib Require Import Ascii String.
From S2P Require Import Prelude GoStrings Paths Manifest Failure Json Lce Store Effects Leases.
From S2P Require Import ToolPolicy RedisCommands IndexStatements IndexJobs RootDeletion.
Open Scope Z_scope.

(** ** Views *)

Definition indexRootStateEmpty : string := "empty".

Record indexRootView := {
  rv_WorkspaceID : string;
  rv_RootID : string;
  rv_Branch : string;
  rv_Revision : string;
  rv_CloudRevision : Z;
  rv_IndexedAt : option Z;           (* formatted as RFC 3339 by the source *)
  rv_FileCount : Z;
  rv_TotalSizeBytes : Z;
  rv_IndexAvailable : bool;
  rv_SyncRevision : string;
  rv_SyncCloudRevision : Z;
  rv_IndexState : string;
  rv_IndexPhase : option job_phase;
  rv_IndexedFiles : Z;
  rv_TotalFiles : Z;
  rv_FailedFiles : Z;
  rv_ProgressPercent : Z;
  rv_IndexError : string;
  rv_Diagnostic : indexFailureDiagnostic;
  rv_BaseRootID : string;
  rv_ViewBranch : string
}.

Definition indexJobViewState (s : job_status) : string :=
  match s with
  | Running => "building"
  | Completed => "ready"
  | Failed | TimedOut => "failed"
  | Superseded => "superseded"
  end.

(** [indexed * 100 / total] on 64-bit integers, clamped. *)
Definition indexProgressPercent (indexed total : Z) (s : job_status) : Z :=
  if bool_decide (s = Completed) then 100
  else if total <=? 0 then 0
  else
    let percent := Z.quot (wrap64 (indexed * 100)) total in
    if percent <? 0 then 0 else if 100 <? percent then 100 else percent.

(** The running job of a tenant, or of one of its roots, that started last. *)
Definition latest_running (P : index_job → bool) (d : DB) : option (string * index_job) :=
  head (merge_sort newer (List.filter (λ kv : string * index_job, P kv.2) (map_to_list (index_jobs d)))).
Definition loadActiveIndexJob (user : string) (d : DB) : option (string * index_job) :=
  latest_running (owned_running user) d.
Definition loadActiveIndexJobForRoot (user root : string) (d : DB) : option (string * index_job) :=
  latest_running (λ j, owned_running user j && str_eqb (root_id (meta j)) root) d.

Definition indexStatusPayload (j : index_job) : json :=
  JObj [("state", JStr "building"); ("root_id", JStr (root_id (meta j)));
        ("indexed_files", JInt (indexed_count (prog j))); ("total_files", JInt (total_files (meta j)))].

Definition injectRetrievalIndexStatus (c : content) (active : option index_job) : string :=
  match active, decoded c with
  | Some j, Some (JObj m) => marshal (JObj (jset "_index_status" (indexStatusPayload j) m))
  | _, _ => raw c
  end.

Section views.
Context (ul : string → string).

Definition failure_diagnostic (j : index_job) : option indexFailureDiagnostic :=
  match status (prog j) with
  | Failed | TimedOut =>
      let e := error_diag (fail j) in
      let '(diagnostic, ok) := persistedIndexFailureDiagnostic (Code e) (Origin e) (Recovery e) in
      Some (if (ok : bool) then diagnostic
            else classifyIndexFailure ul (status (prog j)) (error_message (fail j)))
  | _ => None
  end.

(** A root that has only an unpublished job. *)
Definition root_of_job (j : index_job) : indexRootView :=
  let '(base, view) := splitRootIDView (root_id (meta j)) in {|
  rv_WorkspaceID := workspace_id (meta j); rv_RootID := root_id (meta j);
  rv_Branch := branch (meta j); rv_Revision := ""; rv_CloudRevision := 0; rv_IndexedAt := None;
  rv_FileCount := 0; rv_TotalSizeBytes := 0; rv_IndexAvailable := false;
  rv_SyncRevision := revision (meta j); rv_SyncCloudRevision := cloud_revision (prog j);
  rv_IndexState := indexJobViewState (status (prog j)); rv_IndexPhase := Some (phase (prog j));
  rv_IndexedFiles := indexed_count (prog j); rv_TotalFiles := total_files (meta j);
  rv_FailedFiles := failed_files (prog j);
  rv_ProgressPercent := indexProgressPercent (indexed_count (prog j)) (total_files (meta j))
                                             (status (prog j));
  rv_IndexError := error_message (fail j);
  rv_Diagnostic := default no_diagnostic (failure_diagnostic j);
  rv_BaseRootID := base; rv_ViewBranch := view |}.

Definition applyIndexJobToRoot (r : indexRootView) (j : index_job) : indexRootView :=
  let empty := bool_decide (status (prog j) = Completed) && negb (rv_IndexAvailable r) in {|
  rv_WorkspaceID := rv_WorkspaceID r; rv_RootID := rv_RootID r;
  rv_Branch := if str_eqb (branch (meta j)) "" then rv_Branch r else branch (meta j);
  rv_Revision := rv_Revision r; rv_CloudRevision := rv_CloudRevision r;
  rv_IndexedAt := rv_IndexedAt r; rv_FileCount := rv_FileCount r;
  rv_TotalSizeBytes := rv_TotalSizeBytes r; rv_IndexAvailable := rv_IndexAvailable r;
  rv_SyncRevision := revision (meta j); rv_SyncCloudRevision := cloud_revision (prog j);
  rv_IndexState := if empty then indexRootStateEmpty else indexJobViewState (status (prog j));
  rv_IndexPhase := Some (phase (prog j));
  rv_IndexedFiles := indexed_count (prog j); rv_TotalFiles := total_files (meta j);
  rv_FailedFiles := failed_files (prog j);
  rv_ProgressPercent := if empty then 0
                        else indexProgressPercent (indexed_count (prog j)) (total_files (meta j))
                                                  (status (prog j));
  rv_IndexError := error_message (fail j);
  rv_Diagnostic := default (rv_Diagnostic r) (failure_diagnostic j);
  rv_BaseRootID := rv_BaseRootID r; rv_ViewBranch := rv_ViewBranch r |}.

(** The view of a published workspace before its latest job is applied. *)
Definition root_of_workspace (ws : string) (w : workspace) (files : gmap string indexed_file) :
    indexRootView :=
  let '(base, view) := splitRootIDView (ws_root w) in
  let count := Z.of_nat (size files) in
  let available := 0 <? count in {|
  rv_WorkspaceID := ws; rv_RootID := ws_root w; rv_Branch := ws_branch w;
  rv_Revision := ws_revision w; rv_CloudRevision := ws_cloud_revision w;
  rv_IndexedAt := Some (ws_indexed_at w); rv_FileCount := count;
  rv_TotalSizeBytes := map_fold (λ _ f n, if_size f + n) 0 files;
  rv_IndexAvailable := available; rv_SyncRevision := ""; rv_SyncCloudRevision := 0;
  rv_IndexState := if available then "ready" else indexRootStateEmpty; rv_IndexPhase := None;
  rv_IndexedFiles := count; rv_TotalFiles := count; rv_FailedFiles := 0;
  rv_ProgressPercent := if available then 100 else 0; rv_IndexError := "";
  rv_Diagnostic := no_diagnostic; rv_BaseRootID := base; rv_ViewBranch := view |}.

(** [started_at DESC, id DESC] *)
Definition latest_first (a b : string * index_job) : Prop :=
  started_at (meta b.2) < started_at (meta a.2) ∨
  started_at (meta b.2) = started_at (meta a.2) ∧ String.le b.1 a.1.
#[export] Instance latest_first_dec : RelDecision latest_first.
Proof. intros a b. unfold latest_first. apply _. Defined.

Fixpoint distinct_jobs (seen : gset (string * string)) (l : list (string * index_job)) :
    list (string * index_job) :=
  match l with
  | [] => []
  | kv :: rest =>
      let key := (workspace_id (meta kv.2), root_id (meta kv.2)) in
      if bool_decide (key ∈ seen) then distinct_jobs seen rest
      else kv :: distinct_jobs ({[ key ]} ∪ seen) rest
  end.

Definition loadLatestIndexJobs (user : string) (d : DB) : list (string * index_job) :=
  distinct_jobs ∅ (merge_sort latest_first
    (List.filter (λ kv : string * index_job, owned user kv.2) (map_to_list (index_jobs d)))).

Definition recently_indexed (a b : (string * string) * workspace) : Prop :=
  ws_indexed_at b.2 ≤ ws_indexed_at a.2.
#[export] Instance recently_indexed_dec : RelDecision recently_indexed := λ a b, Z_le_dec _ _.

Definition published_roots (user : string) (d : DB) : list indexRootView :=
  (λ kv : (string * string) * workspace,
     root_of_workspace kv.1.2 kv.2 (files_of_workspace user kv.1.2 d)) <$>
  merge_sort recently_indexed
    (List.filter (λ kv : (string * string) * workspace, str_eqb kv.1.1 user)
       (map_to_list (index_workspaces d))).

Definition same_root (r : indexRootView) (j : index_job) : bool :=
  str_eqb (rv_WorkspaceID r) (workspace_id (meta j)) && str_eqb (rv_RootID r) (root_id (meta j)).

(** One job of the second loop of [loadIndexRoots]; [published] are the roots of the
    first loop, which [rootByKey] indexes. *)
Definition add_job (published : list indexRootView) (roots : list indexRootView)
    (kv : string * index_job) : list indexRootView :=
  let j := kv.2 in
  if existsb (λ r, same_root r j) published
  then (λ r, if same_root r j then applyIndexJobToRoot r j else r) <$> roots
  else match status (prog j) with
       | Running | Failed | TimedOut => roots ++ [root_of_job j]
       | _ => roots
       end.

Definition merge_jobs (published : list indexRootView) (jobs : list (string * index_job)) :
    list indexRootView := foldl (add_job published) published jobs.
End views.

(** ** Statements *)

Definition hasRunningJobForRoot (user root : string) (d : DB) : bool :=
  exists_where (λ _ j, owned_running user j && root_matches root (root_id (meta j))) (index_jobs d).

Definition rootHasPublishedIndex (user root : string) (d : DB) : bool :=
  exists_where (λ k files, workspace_of_root user root d k && bool_decide (files ≠ ∅)) (indexed_files d).

Definition dismissRootFailureState_tx (user root : string) (published : bool) (d : DB) : Z * DB :=
  let P (j : index_job) := owned user j && root_matches root (root_id (meta j))
             && (bool_decide (status (prog j) = Failed) || bool_decide (status (prog j) = TimedOut)) in
  let d1 := delete_jobs (λ _ j, P j) d in
  (rows_where (λ _ j, P j) (index_jobs d),
   if published then d1
   else set_workspaces (delete_where (λ k w, str_eqb k.1 user && root_matches root (ws_root w))) d1).

(** ** Handlers *)

Record http := { http_code : Z; http_body : list (string * json) }.
Definition respond (c : Z) (msg : string) : http := {| http_code := c; http_body := [("error", JStr msg)] |}.

(** What the authentication middleware put into the request. *)
Record caller := { cu_user : string; cu_tenant : string; cu_org : string; cu_role : string }.
Definition requestTenantID (c : caller) : string :=
  if str_eqb (cu_tenant c) "" then cu_user c else cu_tenant c.
Definition orgRoleOwner : string := "owner".
Definition rejectNonOwnerIndexManagement (c : caller) : bool :=
  negb (str_eqb (cu_org c) "" || str_eqb (cu_role c) orgRoleOwner).

(** The root of a JSON request; [None] is a binding error. *)
Definition bound_root (root : option string) : option string :=
  match root with
  | Some r => if str_eqb (TrimSpace r) "" then None else Some (normalizeIndexRootID r)
  | None => None
  end.

(** [utf8.RuneCountInString]: an invalid byte counts as one rune. *)
Fixpoint rune_count_aux (fuel : nat) (l : list ascii) : Z :=
  match fuel, l with
  | S f, _ :: _ => 1 + rune_count_aux f (drop (Nat.max 1 (rune_width l)) l)
  | _, _ => 0
  end.
Definition RuneCountInString (s : string) : Z := rune_count_aux (String.length s) (bytes_of s).

Section handlers.
Context (E : Env).

Definition lceClearIndexRoot (tenant root : string) : M lce_reply :=
  callTool E (clear_index [("tenant_id", JStr tenant); ("root_id", JStr (lceIndexRootID root))]).

(** [None]: LCE confirmed; otherwise the detail of the 502 response. *)
Definition clear_detail (reply : lce_reply) : option string :=
  match reply with
  | Err text => Some text
  | Ok result => if IsError result then Some (raw (Content result)) else None
  end.

Definition cloud_failure (detail : string) : http :=
  respond 502 ("清除云端索引失败: " +:+ detail).

Definition deleteRootIndexState (tenant root : string) : M Z :=
  atomically E (λ _ d, Ok (clearRootIndexStateTx tenant root d)).
Definition dismissRootFailureState (tenant root : string) (published : bool) : M Z :=
  atomically E (λ _ d, Ok (dismissRootFailureState_tx tenant root published d)).

(** Both handlers hold the exclusive lease; [k] gets the value or answers [code]. *)
Definition or_respond {A} (m : M A) (c : Z) (prefix : string) (k : A → M http) : M http :=
  r ← try m;
  match r with
  | Ok a => k a
  | Err e => mret (respond c (prefix +:+ error_text e))
  end.

Definition dismiss_under_lease (tenant root : string) : M http :=
  or_respond (query E (λ d, Ok (hasRunningJobForRoot tenant root d))) 500 "检查运行中任务失败: " (λ running,
  if (running : bool)
  then mret (respond 409 "该 root 有正在运行的索引任务，请等待其结束后再清理失败记录") else
  or_respond (query E (λ d, Ok (rootHasPublishedIndex tenant root d))) 500 "检查已发布索引失败: " (λ published,
  cleared ← (if (published : bool) then mret None
             else reply ← lceClearIndexRoot tenant root; mret (clear_detail reply));
  match cleared with
  | Some detail => mret (cloud_failure detail)
  | None =>
      or_respond (dismissRootFailureState tenant root published) 500 "清理索引失败记录失败: " (λ n,
      mret {| http_code := 200; http_body := [("dismissed", JBool true); ("dismissed_jobs", JInt n)] |})
  end)).

Definition handleDismissRootFailure (c : caller) (body : option string) : M http :=
  if str_eqb (cu_user c) "" then mret (respond 401 "unauthorized") else
  match bound_root body with
  | None => mret (respond 400 "root_id is required")
  | Some root =>
      if rejectNonOwnerIndexManagement c then mret (respond 403 "仅组织所有者可清理索引失败记录") else
      let tenant := requestTenantID c in
      or_respond (acquireExclusiveIndexOperation E tenant "dismiss-root-failure") 503
        "索引正在执行其他操作: " (λ token,
      finally (dismiss_under_lease tenant root) (Release E tenant token))
  end.

Definition delete_root_under_lease (tenant root : string) : M http :=
  or_respond (query E (λ d, Ok (hasRunningJobForRoot tenant root d))) 500 "检查运行中任务失败: " (λ running,
  if (running : bool)
  then mret (respond 409 "该 root 有正在运行的索引任务，请等待其结束后再删除") else
  now ← time_Now E;
  wait ← with_mutex E (checkDeleteRootRateLimit tenant root now);
  if 0 <? wait then
    mret {| http_code := 429; http_body := [("error", JStr "删除操作过于频繁，请稍后重试");
                                            ("retry_after_seconds", JInt wait)] |}
  else
  reply ← lceClearIndexRoot tenant root;
  match clear_detail reply with
  | Some detail => mret (cloud_failure detail)
  | None =>
      or_respond (deleteRootIndexState tenant root) 500 "清除 Relay 索引状态失败: " (λ relayDeleted,
      let cloud := match reply with Ok r => extractLCEDeletedFiles (Content r) | Err _ => None end in
      let n := match cloud with Some k => if 0 <? k then k else relayDeleted | None => relayDeleted end in
      mret {| http_code := 200; http_body := [("deleted", JBool true); ("deleted_files", JInt n)] |})
  end).

Definition handleDeleteRoot (c : caller) (body : option string) : M http :=
  if str_eqb (cu_user c) "" then mret (respond 401 "unauthorized") else
  match bound_root body with
  | None => mret (respond 400 "root_id is required")
  | Some root =>
      if rejectNonOwnerIndexManagement c then mret (respond 403 "仅组织所有者可删除索引") else
      let tenant := requestTenantID c in
      token ← try (tryExclusiveIndexOperation E tenant "delete-root");
      match token with
      | Err e => mret (respond (if is_busy e then 409 else 503) "索引正在执行其他操作，请稍后重试")
      | Ok t => finally (delete_root_under_lease tenant root) (Release E tenant t)
      end
  end.

(** ** Clearing the whole tenant *)

Definition clearIndexCooldownSeconds : Z := 72 * 60 * 60.
Definition clearIndexCooldownKey (tenant : string) : string := "clear_cooldown:" +:+ tenant.

(** The remaining cooldown in nanoseconds, [None] when there is none or Redis fails. *)
Definition checkClearIndexCooldown (tenant : string) : M (option Z) :=
  r ← try (redis_eval E (λ now r,
        (match live_entry now (r_str r !! clearIndexCooldownKey tenant) with
         | Some (_, Some t) => Some (t - now)
         | _ => None
         end, r)));
  mret (match r with
        | Ok (Some ttl) => if ttl <=? 0 then None else Some ttl
        | _ => None
        end).

Definition cooldown_text (ttl : Z) : string :=
  "清除索引冷却中，剩余 " +:+ FormatInt (ttl / Hour) +:+ " 小时 "
  +:+ FormatInt (ttl / Minute mod 60) +:+ " 分钟后可再次操作".

Definition setClearIndexCooldown (tenant : string) : M unit :=
  ignore (redis_eval E (λ now r,
    (tt, SET now (clearIndexCooldownKey tenant) "1" (clearIndexCooldownSeconds * Second) r))).

(** Relay first, then LCE. *)
Definition clear_under_lease (tenant : string) : M http :=
  or_respond (clearUserIndexState E tenant) 500 "清除 Relay 索引状态失败: " (λ _,
  reply ← callTool E (clear_index [("tenant_id", JStr tenant)]);
  match reply with
  | Err text => mret (respond 500 ("清除索引失败: " +:+ text))
  | Ok result =>
      if IsError result then
        mret {| http_code := 500; http_body := [("error", JStr "清除索引失败");
                                                ("detail", JStr (raw (Content result)))] |}
      else
        setClearIndexCooldown tenant;;
        mret {| http_code := 200; http_body := [("success", JBool true);
                                                ("message", JStr "索引和历史日志已清除")] |}
  end).

Definition handleClearIndex (c : caller) : M http :=
  if str_eqb (cu_user c) "" then mret (respond 401 "unauthorized") else
  if rejectNonOwnerIndexManagement c then mret (respond 403 "仅组织所有者可删除索引") else
  let tenant := requestTenantID c in
  cooling ← checkClearIndexCooldown tenant;
  match cooling with
  | Some ttl => mret (respond 429 (cooldown_text ttl))
  | None =>
      or_respond (acquireExclusiveIndexOperation E tenant "clear-index") 503
        "索引正在执行其他操作: " (λ token,
      finally (clear_under_lease tenant) (Release E tenant token))
  end.

(** ** Submitting a deletion *)

Definition submit_error (e : error) : http :=
  if bool_decide (e = ErrNoRows) then respond 404 "删除任务已不存在，请刷新状态"
  else if is_busy e then respond 409 "索引正在执行其他操作，请等待其结束后再删除"
  else if bool_decide (e = ErrRootDeletionRateLimited) then respond 429 "删除操作过于频繁，请稍后重试"
  else respond 503 "删除服务暂时不可用，请稍后重试".

Definition handleCreateRootDeletion (c : caller) (body : option (string * string)) :
    M (http * option rootDeletionJob) :=
  if str_eqb (cu_user c) "" then mret (respond 401 "unauthorized", None) else
  let invalid := respond 400 "root_id is required and must be at most 128 characters" in
  match body with
  | None => mret (invalid, None)
  | Some (root, retry) =>
      if str_eqb (TrimSpace root) "" || (128 <? RuneCountInString (TrimSpace root))
      then mret (invalid, None) else
      match (if str_eqb retry "" then Some "" else env_uuid_parse E retry) with
      | None => mret (respond 400 "retry_job_id must be a UUID", None)
      | Some retry' =>
          if rejectNonOwnerIndexManagement c then mret (respond 403 "仅组织所有者可删除索引", None) else
          r ← try (submitRootDeletion E (requestTenantID c) (cu_user c) (lceIndexRootID root) retry');
          match r with
          | Ok job => mret ({| http_code := 202; http_body := [] |}, Some job)
          | Err e => mret (submit_error e, None)
          end
      end
  end.

Definition handleListRootDeletions (c : caller) : M (http * list rootDeletionJob) :=
  if str_eqb (cu_user c) "" then mret (respond 401 "unauthorized", []) else
  r ← try (loadRootDeletions E (requestTenantID c));
  match r with
  | Ok jobs => mret ({| http_code := 200; http_body := [] |}, jobs)
  | Err _ => mret (respond 503 "暂时无法读取删除进度，请稍后重试", [])
  end.

(** Two queries, not one snapshot. *)
Definition loadIndexRoots (tenant : string) : M (list indexRootView) :=
  published ← query E (λ d, Ok (published_roots tenant d));
  jobs ← query E (λ d, Ok (loadLatestIndexJobs tenant d));
  mret (merge_jobs (env_unicode_lower E) published jobs).

Definition handleListRoots (c : caller) : M (http * list indexRootView) :=
  if str_eqb (cu_user c) "" then mret (respond 401 "unauthorized", []) else
  r ← try (loadIndexRoots (requestTenantID c));
  match r with
  | Ok roots => mret ({| http_code := 200; http_body := [] |}, roots)
  | Err e => mret (respond 500 ("获取索引根列表失败: " +:+ error_text e), [])
  end.
End handlers.
