(* ===== verification/Admission.v ===== *)
(** * Admission of requests (swift_quota.go)

    Before a request is served it is charged: one daily request, or, for the
    synchronisation calls of Swift build hosts, one request of a per-minute rate.  An
    uploaded Swift part is checked and its bytes are reserved before it is forwarded. *)
From Stdlib Require Import Ascii String SpecFloat.
From S2P Require Import Prelude GoStrings Paths Sha256 Base64 Json Lce ToolPolicy Store Effects.
From S2P Require Import RedisCommands QuotaLimits Quota RootAdmin.
Open Scope Z_scope.

Definition swiftSyncPartBytes : Z := 262144.
Definition swiftSyncMaxParts : Z := 512.
Definition swiftSyncRequestsPerMinute : Z := 600.

(** ** JSON-RPC requests *)

(** [rpc_params] is the decoded [params], [None] when the member is absent. *)
Record jsonRPCRequest := { rpc_id : option json; rpc_method : string; rpc_params : option json }.
Definition no_rpc : jsonRPCRequest := {| rpc_id := None; rpc_method := ""; rpc_params := None |}.

(** [json.Unmarshal(rpc.Params, &params)] into name and arguments; a missing or [null]
    arguments object is a nil map. *)
Definition call_params (params : option json) : option (string * option (list (string * json))) :=
  match params with
  | Some JNull => Some ("", None)
  | Some (JObj m) =>
      match string_field "name" m, jfield "arguments" m with
      | Some name, (None | Some JNull) => Some (name, None)
      | Some name, Some (JObj args) => Some (name, Some args)
      | _, _ => None
      end
  | _ => None
  end.

Definition swift_operations : list string := ["manifest"; "plan"; "begin"; "upload"; "publish"; "status"; "abort"].

Definition isSwiftSynchronizationRequest (rpc : jsonRPCRequest) : bool :=
  if negb (str_eqb (rpc_method rpc) "tools/call") then false else
  match call_params (rpc_params rpc) with
  | None => false
  | Some (name, arguments) =>
      let args := default [] arguments in
      str_eqb (TrimSpace name) swiftSyncToolName
      && is_ok (validateChatMCPToolArgs swiftSyncToolName args)
      && match jget "operation" args with Some (JStr op) => has op swift_operations | _ => false end
  end.

(** ** The rate of synchronisation calls *)

(** [rateScript]: 1 admitted, 0 refused. *)
Definition rateScript (key : string) (limit : Z) (now : Z) (r : Redis) : option Z * Redis :=
  match counter now key r with
  | None => (None, r)
  | Some used => if limit <=? used then (Some 0, r) else (Some 1, incr_daily now key used 60 r)
  end.

(** A refusal: the response and its Retry-After header. *)
Record refusal := { rf_http : http; rf_retry_after : string }.
(** What the middleware knows about a request. *)
Record request_ctx := { gc_caller : caller; gc_tier : string }.

Definition accounting_unavailable (text : string) : refusal :=
  {| rf_http := {| http_code := 503; http_body := [("error", JStr text); ("code", JStr "QUOTA_ACCOUNTING_UNAVAILABLE")] |};
     rf_retry_after := "5" |}.

(** [quotaResetAt(now).Format(time.RFC3339)]: local midnight of the next day. *)
Definition zone_text (off : Z) : string :=
  if off =? 0 then "Z" else
  (if off <? 0 then "-" else "+") +:+ pad2 (Z.abs off / 3600) +:+ ":" +:+ pad2 (Z.abs off / 60 mod 60).
Definition reset_text (off now : Z) : string :=
  let '(y, m, d) := civil_of_days (local_day off now + 1) in
  pad4 y +:+ "-" +:+ pad2 m +:+ "-" +:+ pad2 d +:+ "T00:00:00" +:+ zone_text off.

Section admission.
Context (E : Env).
Let off := quotaLocation_offset (env_config E).

Definition admitDailyRequestQuota (c : request_ctx) : M (option refusal) :=
  let u := gc_caller c in
  quota ← checkRequestQuotaDetailed E (cu_user u) (cu_org u) (gc_tier c);
  if rq_Unavailable quota then mret (Some (accounting_unavailable "quota accounting temporarily unavailable"))
  else if negb (rq_Allowed quota) then
    now ← time_Now E;
    mret (Some {|
      rf_http := {| http_code := 429; http_body := [
        ("error", JStr ("daily request quota exceeded (" +:+ FormatInt (rq_Limit quota) +:+ "/day)"));
        ("code", JStr "PLAN_QUOTA_EXHAUSTED"); ("resource", JStr "requests"); ("scope", JStr (rq_Scope quota));
        ("used", JInt (rq_Used quota)); ("limit", JInt (rq_Limit quota)); ("reset_at", JStr (reset_text off now))] |};
      rf_retry_after := quotaRetryAfterHeader off now |})
  else mret None.

Definition swift_rate_key (c : request_ctx) : string := "quota:swift-rate:" +:+ requestTenantID (gc_caller c).

(** The refusal, if any, and the flag [contextRequestQuotaDeferred] afterwards. *)
Definition admitDeferredMCPQuota (c : request_ctx) (deferred : bool) (rpc : jsonRPCRequest) :
    M (option refusal * bool) :=
  if negb deferred then mret (None, deferred) else
  if negb (isSwiftSynchronizationRequest rpc) then r ← admitDailyRequestQuota c; mret (r, false) else
  v ← try (redis_eval E (rateScript (swift_rate_key c) swiftSyncRequestsPerMinute));
  mret (match v with
        | Ok (Some allowed) =>
            if allowed =? 1 then None
            else Some {| rf_http := {| http_code := 429; http_body := [("error", JStr "Synchronization rate limit exceeded");
                                                                       ("code", JStr "SYNC_RATE_LIMITED")] |};
                         rf_retry_after := "60" |}
        | _ => Some (accounting_unavailable "Synchronization accounting unavailable")
        end, false).

(** ** Uploaded parts *)

Record swiftQuotaError := { se_Code : string; se_Message : string }.

(** [math.Trunc(f) == f] for a finite [f]. *)
Definition float_integral (f : spec_float) : bool :=
  match f with
  | S754_zero _ => true
  | S754_finite _ m e => (0 <=? e) || (Zpos m mod 2 ^ (- e) =? 0)
  | _ => false
  end.

(** The identity of a part: data, job, part number and root. *)
Definition swift_part (args : list (string * json)) : option (string * string * Z * string) :=
  match jget "data" args, jget "job_id" args, jget "part" args, jget "root_id" args with
  | Some (JStr data), Some (JStr jobID), Some (JNum lit f), Some (JStr root) =>
      match env_uuid_parse E jobID, numberAsInt64 (Some (JNum lit f)) with
      | Some job, Some part =>
          if negb (float_integral f) || (part <? 0) || (swiftSyncMaxParts <=? part)
             || str_eqb (TrimSpace root) "" || (Std_EncodedLen swiftSyncPartBytes <? len data)
          then None else Some (data, job, part, TrimSpace root)
      | _, _ => None
      end
  | _, _, _, _ => None
  end.

Definition swift_payload (data : string) : option string :=
  match Std_DecodeString true data with
  | Some decoded =>
      if (len decoded =? 0) || (swiftSyncPartBytes <? len decoded) || negb (str_eqb (Std_EncodeToString decoded) data)
      then None else Some decoded
  | None => None
  end.

Definition swift_invalid (msg : string) : option swiftQuotaError :=
  Some {| se_Code := "SWIFT_SYNC_INVALID"; se_Message := msg |}.

Definition reserveSwiftUpload (tenantID orgID tier : string) (args : list (string * json)) :
    M (option swiftQuotaError) :=
  if negb match jget "operation" args with Some (JStr op) => str_eqb op "upload" | _ => false end
  then mret None else
  match swift_part args with
  | None => mret (swift_invalid "Invalid Swift upload identity or part size")
  | Some (data, job, part, root) =>
      match swift_payload data with
      | None => mret (swift_invalid "Swift upload requires canonical base64 and a bounded nonempty part")
      | Some decoded =>
          quota ← resolveIndexBytesQuota E tenantID orgID tier;
          now ← time_Now E;
          d ← chargeSwiftPart E quota tenantID root job part decoded now;
          let '(decision, conflict) := d in
          if (conflict : bool)
          then mret (swift_invalid "Swift part identity cannot be reused with different content; start a new upload job")
          else if iq_Unavailable decision then
            mret (Some {| se_Code := "QUOTA_ACCOUNTING_UNAVAILABLE";
                          se_Message := "Swift upload byte accounting unavailable; retry later" |})
          else if negb (iq_Allowed decision) then
            now' ← time_Now E;
            mret (Some {| se_Code := "PLAN_QUOTA_EXHAUSTED";
                          se_Message := "Daily index byte quota exceeded (used=" +:+ FormatInt (iq_Used decision)
                            +:+ " limit=" +:+ FormatInt (iq_Limit decision) +:+ "); retry after "
                            +:+ quotaRetryAfterHeader off now' +:+ " seconds" |})
          else mret None
      end
  end.
End admission.

(** ** Properties *)

(** The script at the times [ts], and how many calls it admits. *)
Fixpoint run_rate (key : string) (ts : list Z) (r : Redis) : Z * Redis :=
  match ts with
  | [] => (0, r)
  | t :: rest =>
      let '(v, r1) := rateScript key swiftSyncRequestsPerMinute t r in
      let '(n, r2) := run_rate key rest r1 in
      ((match v with Some 1 => 1 | _ => 0 end) + n, r2)
  end.

Lemma run_rate_counts key until ts r n :
  counts key n until r → 0 ≤ n ≤ swiftSyncRequestsPerMinute →
  Forall (λ t, until - Minute ≤ t < until) ts →
  (run_rate key ts r).1 = Z.min (Z.of_nat (length ts)) (swiftSyncRequestsPerMinute - n).
Proof.
  intros Hc Hn Hts. revert r n Hc Hn. induction Hts as [|t ts Ht Hts IH]; intros r n Hc Hn; [simpl; lia|].
  cbn [run_rate length]. unfold rateScript at 1. rewrite (counts_counter _ _ _ _ _ Hc) by lia.
  destruct (swiftSyncRequestsPerMinute <=? n) eqn:El; reflect_bools.
  - specialize (IH r n Hc Hn). destruct (run_rate key ts r) as [k r2]. simpl in *. lia.
  - assert (counts key (n + 1) until (incr_daily t key n 60 r)) as Hc1.
    { apply incr_daily_counts; try done; try lia.
      - unfold in_int64, MinInt64, MaxInt64, swiftSyncRequestsPerMinute in *. apply andb_true_iff.
        rewrite !Z.leb_le. lia.
      - unfold Minute in *. lia. }
    specialize (IH _ _ Hc1 ltac:(lia)). destruct (run_rate key ts _) as [k r2]. simpl in *. lia.
Qed.

(** In the minute that starts with the first synchronisation call of a tenant
    exactly the first 600 calls are admitted and every further one is refused. *)
Theorem swift_rate_exact key start ts r :
  r_str r !! key = None → Forall (λ t, start ≤ t < start + Minute) ts →
  (run_rate key ts r).1 = Z.min (Z.of_nat (length ts)) swiftSyncRequestsPerMinute.
Proof.
  intros Hk Hts. destruct (counter_counts key (start + Minute) r 0 Hk) as [_ Hc].
  rewrite (run_rate_counts key (start + Minute) ts r 0 Hc); [by rewrite Z.sub_0_r|done|].
  eapply Forall_impl; [exact Hts|]. simpl. lia.
Qed.

Lemma swift_rate_exact_witness :
  (run_rate "k" (repeat 7 601) empty_redis).1 = 600.
Proof.
  rewrite (swift_rate_exact "k" 7 (repeat 7 601) empty_redis); [reflexivity|reflexivity|].
  apply Forall_forall. intros x Hx. apply list_elem_of_In, repeat_spec in Hx. subst x. unfold Minute, Second, Millisecond. lia.
Defined.

(** A part that is admitted is what its text says and nothing else says:
    the decoder accepts only the one text that encodes the decoded bytes, so two uploads with the
    same bytes have the same text; the bytes are not empty and at most 256 KiB, and every part of
    that size is accepted. *)
Theorem swift_part_canonical decoded :
  0 < len decoded ≤ swiftSyncPartBytes ↔
  ∃ data, swift_payload data = Some decoded ∧ ∀ data', swift_payload data' = Some decoded → data' = data.
Proof.
  unfold swift_payload. split.
  - intros Hlen. exists (Std_EncodeToString decoded). split.
    + rewrite Std_round_trip, str_eqb_refl. rewrite (proj2 (Z.eqb_neq _ _)), (proj2 (Z.ltb_ge _ _)) by lia. done.
    + intros data'. destruct (Std_DecodeString true data') as [d|]; [|done].
      destruct (_ || _ || _) eqn:Eb; [done|]. intros [= ->]. apply orb_false_iff in Eb as [_ Eb].
      apply negb_false_iff, str_eqb_true in Eb. done.
  - intros (data & H & _). destruct (Std_DecodeString true data) as [d|]; [|done].
    destruct (_ || _ || _) eqn:Eb; [done|]. injection H as ->. apply orb_false_iff in Eb as [Eb _].
    apply orb_false_iff in Eb as [E1 E2]. reflect_bools. unfold len in *. lia.
Qed.
