(* ===== verification/Auth.v ===== *)
(** * Authentication and access control (main.go, access_control.go)

    An API key is looked up by its MD5 or SHA-256 hash, behind a cache in the process; what
    an organisation allows its members is read again for every request.  The middleware then
    applies the version gate, the ban and the request quota. *)
From Stdlib Require Import Ascii String.
From S2P Require Import Prelude GoStrings Paths Sha256 Md5 Json Lce ToolPolicy Store Effects.
From S2P Require Import ClientVersion RedisCommands QuotaLimits Quota RootAdmin Admission.
Open Scope Z_scope.

Definition authCachePositiveTTL : Z := 30 * Second.
Definition authCacheNegativeTTL : Z := 5 * Second.
Definition authCacheMaxEntries : Z := 10000.

Definition TenantID (a : authIdentity) : string := if str_eqb (OrgID a) "" then UserID a else OrgID a.

(** ** The key cache *)

Definition authCacheGet (key : string) (now : Z) (p : Proc) : option authCacheEntry :=
  match authCache p !! key with
  | Some entry => if ace_expiresAt entry <? now then None else Some entry
  | None => None
  end.

Definition cache_full (c : gmap string authCacheEntry) : bool := authCacheMaxEntries <=? Z.of_nat (size c).

(** [now] is the clock inside the critical section, read only when the cache is full. *)
Definition authCachePut (now : Z) (key : string) (entry : authCacheEntry) (p : Proc) : Proc :=
  if bool_decide (authCache p !! key = None) && cache_full (authCache p) then
    let cleaned := delete_where (λ _ v, ace_expiresAt v <? now) (authCache p) in
    if cache_full cleaned then set_auth_cache cleaned p else set_auth_cache (<[key := entry]> cleaned) p
  else set_auth_cache (<[key := entry]> (authCache p)) p.

(** ** Organisations *)

Definition normalizeOrgRole (role orgID : string) : string :=
  if str_eqb (TrimSpace orgID) "" then ""
  else if existsb (λ candidate, str_eqb (TrimSpace candidate) orgRoleOwner) (Split "," role)
  then orgRoleOwner else "member".

(** [regexp_split_to_array(role, '\s*,\s*')]: blanks go at the commas only. *)
Fixpoint drop_sql_spaces (l : list ascii) : list ascii :=
  match l with
  | c :: l1 => if is_sql_space c then drop_sql_spaces l1 else l
  | [] => []
  end.
Definition trim_sql_left (s : string) : string := of_bytes (drop_sql_spaces (bytes_of s)).
Definition trim_sql_right (s : string) : string := of_bytes (reverse (drop_sql_spaces (reverse (bytes_of s)))).
Fixpoint trim_after_comma (l : list string) : list string :=
  match l with
  | [] => []
  | [s] => [trim_sql_left s]
  | s :: rest => trim_sql_right (trim_sql_left s) :: trim_after_comma rest
  end.
Definition split_roles (role : string) : list string :=
  match Split "," role with
  | [] => []
  | [s] => [s]
  | s :: rest => trim_sql_right s :: trim_after_comma rest
  end.
Definition sql_owner (role : string) : bool := existsb (str_eqb orgRoleOwner) (split_roles role).

Definition target_membership (org user : string) (a : Accounts) : option membership :=
  first_by member_before
    (List.filter (λ m, bool_decide (m_org m ∈ organization a) && str_eqb (m_org m) org && str_eqb (m_user m) user)
       (member a)).
Definition target_owner (org : string) (a : Accounts) : option string :=
  m_user <$> first_by member_before (List.filter (λ m, str_eqb (m_org m) org && sql_owner (m_role m)) (member a)).

(** The organisations whose first owner is [owner]. *)
Definition owned_organizations (owner : string) (a : Accounts) : list string :=
  m_org <$> List.filter (λ m, str_eqb (m_user m) owner && sql_owner (m_role m)
      && negb (existsb (λ e, str_eqb (m_org e) (m_org m) && sql_owner (m_role e) && member_before e m) (member a)))
    (member a).

(** [COUNT(DISTINCT userId)] of the others in these organisations. *)
Definition seat_users (owner : string) (a : Accounts) : gset string :=
  list_to_set (m_user <$> List.filter (λ m, has (m_org m) (owned_organizations owner a)
                                             && negb (str_eqb (m_user m) owner)) (member a)).
Definition seat_usage (owner : string) (a : Accounts) : Z := Z.of_nat (size (seat_users owner a)).

Definition active_entitlement (now : Z) (owner : string) (a : Accounts) : option Z :=
  sub_subaccounts <$> active_subscription now owner a.

(** The row of the query: role, owner, seat limit and used seats. *)
Definition organization_row (org user : string) (now : Z) (a : Accounts) : string * string * Z * Z :=
  let owner := target_owner org a in
  (match target_membership org user a with Some m => m_role m | None => "" end,
   default "" owner,
   default 0 (o ← owner; active_entitlement now o a),
   match owner with Some o => seat_usage o a | None => 0 end).

(** What the function makes of the row. *)
Definition authorize_row (id : authIdentity) (row : string * string * Z * Z) : authIdentity * bool :=
  let '(role, owner, seatLimit, usedSeats) := row in
  let currentRole := TrimSpace role in
  let ownerUserID := TrimSpace owner in
  if str_eqb currentRole "" || str_eqb ownerUserID "" then (no_identity, false) else
  let id' := {| UserID := UserID id; Tier := Tier id; OrgID := OrgID id;
                OrgRole := normalizeOrgRole currentRole (OrgID id) |} in
  if str_eqb (UserID id) ownerUserID then (id', true)
  else if (seatLimit <=? 0) || (seatLimit <? usedSeats) then (no_identity, false)
  else (id', true).

(** ** Trusted console *)

Definition consoleTokenContext : string := "acemcp-relay-console:".
Definition configureTrustedConsole (secret : string) : string :=
  let secret := TrimSpace secret in
  if str_eqb secret "" then "" else sha256_hex (consoleTokenContext +:+ secret).

Record http_request := {
  q_method : string; q_path : string;
  q_authorization : string; q_client_version : string; q_console_token : string; q_session : string;
  q_accept : string
}.

Definition console_route (method path : string) : bool :=
  (str_eqb method "GET" && str_eqb path "/mcp/tenant-stats")
  || (str_eqb method "POST" && str_eqb path "/mcp/clear-index")
  || ((str_eqb method "GET" || str_eqb method "POST") && str_eqb path "/internal/client-version-policy")
  || ((str_eqb method "GET" || str_eqb method "POST") && str_eqb path "/internal/platform-model-config").

(** [trusted] is [trustedConsoleToken]. *)
Definition isTrustedConsoleRequest (trusted : string) (q : http_request) : bool :=
  if str_eqb trusted "" then false
  else if negb (console_route (q_method q) (q_path q)) then false
  else let token := TrimSpace (q_console_token q) in
       if negb (len token =? len trusted) then false else str_eqb token trusted.

(** ** Handlers *)

(** The body of a POST as [readClientMCPBody] and [json.Unmarshal] see it: reading may fail,
    the length is that of what was read, and the text may not be a request. *)
Record client_body := { cb_failed : bool; cb_len : Z; cb_rpc : option jsonRPCRequest }.
Definition maxClientMCPBody : Z := Z.shiftl 32 20.

Section handlers.
Context (E : Env).

(** Both rows may exist; which one comes first is not specified. *)
Definition key_row (md5_first : bool) (token : string) (a : Accounts) : option api_key :=
  let first := if md5_first then md5_hex token else sha256_hex token in
  let second := if md5_first then sha256_hex token else md5_hex token in
  match api_keys a !! first with Some k => Some k | None => api_keys a !! second end.

Definition identity_of_key (k : api_key) : authIdentity * bool :=
  let user := TrimSpace (k_user k) in
  if str_eqb user "" then (no_identity, false)
  else ({| UserID := user; Tier := normalizeTier (default "free" (k_tier k));
           OrgID := TrimSpace (default "" (k_org k)); OrgRole := "" |}, true).

Definition lookupAPIKey (token : string) : M (authIdentity * bool) :=
  n ← select_case E;
  row ← query_accounts E (λ _ a, Ok (key_row (Nat.even n) token a));
  mret (match row with Some k => identity_of_key k | None => (no_identity, false) end).

Definition authorizeOrganizationIdentity (id : authIdentity) : M (authIdentity * bool) :=
  if str_eqb (OrgID id) ""
  then mret ({| UserID := UserID id; Tier := Tier id; OrgID := OrgID id; OrgRole := "" |}, true)
  else
    row ← query_accounts E (λ now a, Ok (organization_row (OrgID id) (UserID id) now a));
    mret (authorize_row id row).

(** [authCachePut] reads the clock itself when the cache is full. *)
Definition cache_put (key : string) (entry : authCacheEntry) : M unit :=
  now ← time_Now E; with_mutex E (λ p, (tt, authCachePut now key entry p)).

Definition bearer_token (header : string) : option string := strip_prefix "Bearer " header.

Definition authenticateRequest (header : string) : M (authIdentity * bool) :=
  match bearer_token header with
  | None => mret (no_identity, false)
  | Some token =>
      let cacheKey := sha256_hex token in
      now ← time_Now E;
      entry ← with_mutex E (λ p, (authCacheGet cacheKey now p, p));
      match entry with
      | Some e => if ace_ok e then authorizeOrganizationIdentity (ace_identity e) else mret (no_identity, false)
      | None =>
          r ← lookupAPIKey token;
          let '(identity, ok) := r in
          let ttl := if (ok : bool) then authCachePositiveTTL else authCacheNegativeTTL in
          cache_put cacheKey {| ace_identity := identity; ace_ok := ok; ace_expiresAt := now + ttl |};;
          if ok then authorizeOrganizationIdentity identity else mret (no_identity, false)
      end
  end.

(** A failing lookup lets the request through. *)
Definition isUserBanned (userID : string) : M bool :=
  let key := "banned:" +:+ userID in
  v ← try (cache_get E key);
  match v with
  | Ok (Some s) => mret (str_eqb s "1")
  | _ =>
      r ← try (query_accounts E (λ _ a, Ok (bool_decide (userID ∈ banned_users a))));
      match r with
      | Err _ => mret false
      | Ok banned =>
          cache_set E key (if (banned : bool) then "1" else "0") (bannedCacheTTL (env_config E));;
          mret banned
      end
  end.

(** What the middleware hands to the next handler. *)
Record admitted := {
  ad_ctx : request_ctx; ad_console : bool; ad_deferred : bool; ad_log_id : string; ad_start : Z
}.

Definition ctx_of (id : authIdentity) : request_ctx :=
  {| gc_caller := {| cu_user := UserID id; cu_tenant := TenantID id; cu_org := OrgID id; cu_role := OrgRole id |};
     gc_tier := Tier id |}.

Definition refuse (code : Z) (text : string) : refusal := {| rf_http := respond code text; rf_retry_after := "" |}.

(** The request whose quota is deferred; a body that is too long or cannot be decoded
    counts as an ordinary request. *)
Definition deferred_rpc (body : client_body) : jsonRPCRequest :=
  if negb (cb_failed body) && (cb_len body <=? maxClientMCPBody) then default no_rpc (cb_rpc body) else no_rpc.

(** The quota part of the middleware: the refusal, and the flag that is left. *)
Definition admit_quota (q : http_request) (body : client_body) (c : request_ctx) : M (option refusal * bool) :=
  if str_eqb (q_method q) "POST" && str_eqb (q_path q) "/mcp"
  then admitDeferredMCPQuota E c true (deferred_rpc body)
  else r ← admitDailyRequestQuota E c; mret (r, false).

Definition admit_identity (q : http_request) (body : client_body) (start : Z) (id : authIdentity) :
    M (refusal + admitted) :=
  minimum ← currentMinClientVersion E;
  let clientVersion := TrimSpace (q_client_version q) in
  if str_eqb (evaluateVersionGateAgainst clientVersion minimum) "reject_426" then
    mret (inl {| rf_http := {| http_code := 426; http_body := [
      ("error", JStr ("client version " +:+ clientVersion +:+ " is below minimum " +:+ minimum
                      +:+ "; please update @anmezing/lce-cloud and restart the MCP client"));
      ("min_version", JStr minimum)] |}; rf_retry_after := "" |}) else
  banned ← isUserBanned (UserID id);
  if (banned : bool) then mret (inl (refuse 403 "account banned; contact the administrator")) else
  let console := isTrustedConsoleRequest (trustedConsoleToken (env_config E)) q in
  if (console : bool)
  then mret (inr {| ad_ctx := ctx_of id; ad_console := true; ad_deferred := false; ad_log_id := ""; ad_start := start |})
  else
    quota ← admit_quota q body (ctx_of id);
    match quota with
    | (Some r, _) => mret (inl r)
    | (None, deferred) =>
        logID ← uuid_New E;
        mret (inr {| ad_ctx := ctx_of id; ad_console := false; ad_deferred := deferred; ad_log_id := logID; ad_start := start |})
    end.

Definition authMiddleware (q : http_request) (body : client_body) : M (refusal + admitted) :=
  start ← time_Now E;
  r ← try (authenticateRequest (q_authorization q));
  match r with
  | Err _ => mret (inl {| rf_http := respond 503 "authorization service unavailable"; rf_retry_after := "5" |})
  | Ok (id, ok) =>
      if (ok : bool) then admit_identity q body start id
      else mret (inl (refuse 401 (if str_eqb (q_authorization q) "" then "missing authorization header" else "invalid token")))
  end.
End handlers.
