(* ===== verification/Console.v ===== *)
(** * The console endpoints (platform_model_config.go, client_version_policy.go)

    Reading and saving the platform's model configuration and the minimal client version, for
    requests with the console token only, and the barrier that keeps index requests out while the
    embedding space changes.  Whether a lock is free is part of the environment; the messages of
    the responses that the source writes in Chinese are kept. *)
From Stdlib Require Import Ascii String.
From S2P Require Import Prelude GoStrings Paths Manifest Failure Json Lce ToolPolicy Store Effects Triples Leases ClientVersion.
From S2P Require Import IndexStatements RootDeletion PlatformConfig RootAdmin Admission Auth.
Open Scope Z_scope.

Inductive console_reply :=
| ConsoleHttp (h : http)
| ConsoleOperation (status : Z) (job : option platformConfigJob)   (* the member operation *)
| ConsoleData (status : Z) (data : content).                       (* LCE's answer as it is *)

(** What [ShouldBindJSON] makes of the body of a save; [sr_Config] is [None] when absent. *)
Record save_request := {
  sr_Action : string; sr_Section : string; sr_Kind : string; sr_Provider : string; sr_BaseURL : string;
  sr_APIKey : string; sr_Config : option json; sr_ConfirmEmbeddingReset : bool; sr_OperationID : string
}.

Definition lceConfigError (data : content) (fallback : string) : string :=
  match decoded data with
  | Some (JObj m) =>
      match string_field "error" m with
      | Some e => if str_eqb (TrimSpace e) "" then fallback else e
      | None => fallback
      end
  | _ => fallback
  end.

(** The answer to a validation: whether the embedding space changes, and the ticket. *)
Definition decode_validation (data : content) : option (bool * string) :=
  match decoded data with
  | Some JNull => Some (false, "")
  | Some (JObj m) =>
      match bool_field "embeddingChanged" m, string_field "validationTicket" m with
      | Some b, Some t => Some (b, t)
      | _, _ => None
      end
  | _ => None
  end.

Section handlers.
Context (E : Env) (strconv_Quote : string → string).

(** ** The barrier *)

(** [inl]: refused. The lock is held while [next] runs. *)
Definition platformModelConfigReadBarrier {A} (q : http_request) (next : M A) : M (refusal + A) :=
  if str_eqb (q_method q) "GET" && str_eqb (q_path q) "/mcp" then r ← next; mret (inr r) else
  free ← try_barrier E;
  if (free : bool) then r ← next; mret (inr r)
  else mret (inl {| rf_http := respond 503 "Platform configuration is being reconciled"; rf_retry_after := "5" |}).

Definition requirePlatformConfigConsole (q : http_request) : bool :=
  isTrustedConsoleRequest (trustedConsoleToken (env_config E)) q.
Definition not_found : console_reply := ConsoleHttp (respond 404 "route not found").

(** ** Reading *)

(** [operation]: the query parameter. *)
Definition handleGetPlatformModelConfig (q : http_request) (operation : string) : M console_reply :=
  if negb (requirePlatformConfigConsole q) then mret not_found else
  if negb (str_eqb operation "") then
    r ← try (loadPlatformConfigJob E operation);
    match r with
    | Ok job => mret (ConsoleOperation 200 (Some job))
    | Err ErrNoRows => mret (ConsoleOperation 200 None)
    | Err _ => mret (ConsoleHttp (respond 503 "Configuration operation status unavailable"))
    end
  else
    r ← try (callLCEPlatformConfig E []);
    match r with
    | Ok (status, data) => mret (ConsoleData status data)
    | Err _ => mret (ConsoleHttp (respond 502 "读取 LCE 模型配置失败"))
    end.

(** ** Saving *)

Definition recover_operation (operation : string) : M console_reply :=
  match env_uuid_parse E operation with
  | None => mret (ConsoleHttp (respond 400 "operationId must be a UUID"))
  | Some _ =>
      r ← try (recoverPlatformConfigJob E operation);
      match r with
      | Ok job => mret (ConsoleOperation 202 (Some job))
      | Err _ => mret (ConsoleHttp (respond 503 "Configuration recovery unavailable"))
      end
  end.

Definition list_models (r : save_request) : M console_reply :=
  a ← try (callLCEPlatformConfig E [("action", JStr "models"); ("kind", JStr (sr_Kind r)); ("provider", JStr (sr_Provider r));
                                    ("baseUrl", JStr (sr_BaseURL r)); ("apiKey", JStr (sr_APIKey r))]);
  match a with
  | Ok (status, data) => mret (ConsoleData status data)
  | Err _ => mret (ConsoleHttp (respond 502 "获取供应商模型失败"))
  end.

(** The preparation at LCE and the durable job. *)
Definition prepare_config (r : save_request) (operationID : string) (config : list (string * json)) (changed : bool)
    (ticket : string) : M console_reply :=
  a ← try (callLCEPlatformConfig E [("action", JStr "prepare"); ("operationId", JStr operationID); ("config", JObj config);
             ("confirmEmbeddingReset", JBool (sr_ConfirmEmbeddingReset r)); ("validationTicket", JStr ticket)]);
  match a with
  | Err _ => mret (ConsoleHttp (respond 502 "配置准备失败，未启动保存任务"))
  | Ok (status, data) =>
      if negb (status =? 200) then mret (ConsoleHttp (respond status (lceConfigError data "配置准备失败"))) else
      match decode_operation data with
      | Some op =>
          if negb (str_eqb (co_OperationID op) operationID) || negb (str_eqb (co_State op) "prepared")
             || negb (Bool.eqb (co_EmbeddingChanged op) changed)
          then mret (ConsoleHttp (respond 502 "LCE 返回了无效的准备响应"))
          else
            job ← try (enqueuePlatformConfigJob E operationID (sr_Section r) changed);
            match job with
            | Ok j => mret (ConsoleOperation 202 (Some j))
            | Err ErrIndexOperationBusy => mret (ConsoleHttp (respond 409 "索引或配置任务正在执行，请等待完成后重试"))
            | Err _ => mret (ConsoleHttp {| http_code := 503; http_body := [
                ("error", JStr "无法确认保存任务是否已受理，请查询任务状态"); ("operationId", JStr operationID)] |})
            end
      | None => mret (ConsoleHttp (respond 502 "LCE 返回了无效的准备响应"))
      end
  end.

(** After the validation: the confirmation, the barrier and the operation id. *)
Definition confirmed_save (r : save_request) (operationID : string) (config : list (string * json)) (changed : bool)
    (ticket : string) : M console_reply :=
  if changed && negb (sr_ConfirmEmbeddingReset r) then
    mret (ConsoleHttp {| http_code := 409; http_body := [
      ("error", JStr "修改 Embedding 配置会清除现有向量索引，需确认后保存"); ("requiresEmbeddingReset", JBool true)] |}) else
  gone ← canceled E;
  if (gone : bool) then mret (ConsoleHttp (respond 504 "模型配置请求已超时或取消，配置未保存")) else
  free ← (if changed then try_barrier E else mret true);
  if negb free then mret (ConsoleHttp (respond 409 "索引请求正在处理中，未清理索引或切换配置，请稍后重试")) else
  operationID ← (if str_eqb operationID "" then uuid_New E else mret operationID);
  match env_uuid_parse E operationID with
  | None => mret (ConsoleHttp (respond 400 "operationId must be a UUID"))
  | Some _ => prepare_config r operationID config changed ticket
  end.

(** Under [platformModelConfigAdminMu]. *)
Definition validate_and_save (r : save_request) (operationID : string) : M console_reply :=
  match parsePlatformModelConfigPatch (sr_Section r) (sr_Config r) with
  | Err e => mret (ConsoleHttp (respond 400 (error_text e)))
  | Ok config =>
      if sr_ConfirmEmbeddingReset r && negb (str_eqb (sr_Section r) "embeddings")
      then mret (ConsoleHttp (respond 400 "confirmEmbeddingReset is only valid for embeddings")) else
      a ← try (callLCEPlatformConfig E [("action", JStr "validate"); ("config", JObj config)]);
      match a with
      | Err _ =>
          gone ← canceled E;
          mret (ConsoleHttp (if (gone : bool) then respond 504 "模型连接验证已超时或取消，配置未保存"
                             else respond 502 "LCE 模型连接验证失败"))
      | Ok (status, data) =>
          if (status <? 200) || (300 <=? status)
          then mret (ConsoleHttp (respond (if status =? 504 then 504 else 400) (lceConfigError data "模型配置验证失败"))) else
          match decode_validation data with
          | Some (changed, ticket) =>
              if str_eqb (TrimSpace ticket) "" then mret (ConsoleHttp (respond 502 "LCE 返回了无效的验证响应"))
              else confirmed_save r operationID config changed ticket
          | None => mret (ConsoleHttp (respond 502 "LCE 返回了无效的验证响应"))
          end
      end
  end.

Definition locked_save (r : save_request) (operationID : string) : M console_reply :=
  free ← try_barrier E;
  if (free : bool) then validate_and_save r operationID
  else mret (ConsoleHttp (respond 409 "已有模型配置正在验证或保存，请等待结果后重试")).

(** [body]: [None] when the request cannot be decoded. *)
Definition handleSavePlatformModelConfig (q : http_request) (body : option save_request) : M console_reply :=
  if negb (requirePlatformConfigConsole q) then mret not_found else
  match body with
  | None => mret (ConsoleHttp (respond 400 "invalid request body"))
  | Some r =>
      if str_eqb (sr_Action r) "recover" then recover_operation (sr_OperationID r)
      else if str_eqb (sr_Action r) "models" then list_models r
      else match sr_Config r with
      | None => mret (ConsoleHttp (respond 400 "config is required"))
      | Some _ =>
          if str_eqb (sr_OperationID r) "" then locked_save r "" else
          match env_uuid_parse E (sr_OperationID r) with
          | None => mret (ConsoleHttp (respond 400 "operationId must be a UUID"))
          | Some operationID =>
              existing ← try (loadPlatformConfigJob E operationID);
              match existing with
              | Ok job => mret (ConsoleOperation 202 (Some job))
              | Err ErrNoRows => locked_save r operationID
              | Err _ => mret (ConsoleHttp (respond 503 "Configuration operation status unavailable"))
              end
          end
      end
  end.

(** ** The client version policy *)

Definition handleGetClientVersionPolicy (q : http_request) : M console_reply :=
  if negb (requirePlatformConfigConsole q) then mret not_found else
  body ← clientVersionPolicyResponse E;
  mret (ConsoleHttp {| http_code := 200; http_body := body |}).

(** [input]: the members of the body, [None] when it is not an object or [null]. *)
Definition requested_version (input : option (list (string * json))) : result error string :=
  match input with
  | None => Err (Errorf "minimum_version is required")
  | Some m =>
      match jget "minimum_version" m with
      | None => Err (Errorf "minimum_version is required")
      | Some JNull => Ok ""
      | Some (JStr v) => Ok v
      | Some _ => Err (Errorf "minimum_version must be a string or null")
      end
  end.

Definition handleSaveClientVersionPolicy (q : http_request) (input : option (list (string * json))) : M console_reply :=
  if negb (requirePlatformConfigConsole q) then mret not_found else
  match requested_version input with
  | Err e => mret (ConsoleHttp (respond 400 (error_text e)))
  | Ok version =>
      r ← try (saveMinimumClientVersion E version);
      match r with
      | Err e => mret (ConsoleHttp (respond (if Contains (error_text e) "must use" then 400 else 500) (error_text e)))
      | Ok _ => body ← clientVersionPolicyResponse E; mret (ConsoleHttp {| http_code := 200; http_body := body |})
      end
  end.
End handlers.

(** ** Properties *)

(** LCE confirmed that it prepared the operation [id]. *)
Definition prepared_by_lce (E : Env) (id : string) (changed : bool) : Prop :=
  ∃ n body data op, env_platform E n body = Ok (200, data) ∧ decode_operation data = Some op ∧
    co_OperationID op = id ∧ co_State op = "prepared" ∧ co_EmbeddingChanged op = changed.

(** A row that the save [r] may add. *)
Definition saved_row (E : Env) (r : save_request) (id : string) (row : config_job) : Prop :=
  pc_status row = CPending ∧ pc_section row = sr_Section r ∧ prepared_by_lce E id (pc_embedding_changed row) ∧
  (pc_embedding_changed row = true → sr_ConfirmEmbeddingReset r = true ∧ sr_Section r = "embeddings").

Section save.
Context (E : Env) (r : save_request) (T : gmap string config_job).
Context (Hothers : ∀ n s, platform_config_jobs (s_db (env_step E n s)) = platform_config_jobs (s_db s)).

Definition saved_once : assertion := λ s _,
  platform_config_jobs (s_db s) = T ∨
  ∃ id row, T !! id = None ∧ saved_row E r id row ∧ platform_config_jobs (s_db s) = <[id := row]> T.

Lemma saved_once_stable : stable E saved_once.
Proof. intros n s c. unfold saved_once. by rewrite Hothers. Qed.

Lemma triple_enqueue id changed :
  prepared_by_lce E id changed → (changed = true → sr_ConfirmEmbeddingReset r = true ∧ sr_Section r = "embeddings") →
  triple saved_once (enqueuePlatformConfigJob E id (sr_Section r) changed) (λ _, True).
Proof.
  intros Hp Hc. apply (triple_atomically E _ saved_once_stable). intros n s c job d Hs Hd. split; [|done].
  unfold enqueuePlatformConfigJob_tx in Hd. destruct (platform_config_jobs (s_db s) !! id) as [row|] eqn:Eid.
  { destruct (negb _ || negb _); [done|]. injection Hd as <- <-. destruct s. exact Hs. }
  destruct (config_busy changed n (s_db s)) eqn:Eb; [done|]. injection Hd as <- <-. right.
  destruct Hs as [HT|(id' & row' & _ & (Hst & _) & HT)].
  - exists id, (new_config_job (sr_Section r) changed n). rewrite <- HT. split_and!; [done| |done].
    split_and!; [done|done|exact Hp|exact Hc].
  - exfalso. apply orb_false_iff in Eb as [Eb _]. rewrite exists_where_false in Eb.
    specialize (Eb id' row'). rewrite HT, lookup_insert_eq in Eb. specialize (Eb eq_refl).
    unfold config_active in Eb. by rewrite Hst in Eb.
Qed.

Lemma triple_prepare id config changed ticket :
  (changed = true → sr_ConfirmEmbeddingReset r = true ∧ sr_Section r = "embeddings") →
  triple saved_once (prepare_config E r id config changed ticket) (λ _, True).
Proof.
  pose proof saved_once_stable as HE. intros Hc. unfold prepare_config.
  eapply triple_bind.
  { apply triple_try, (triple_platform E _ HE _ (λ a, ∃ n body, env_platform E n body = Ok a)). eauto. }
  intros [[status data]|e] Ha; [|triple_tac]. destruct (negb (status =? 200)) eqn:Es; [triple_tac|].
  apply negb_false_iff, Z.eqb_eq in Es. subst status.
  destruct (decode_operation data) as [op|] eqn:Eo; [|triple_tac].
  destruct (negb (str_eqb (co_OperationID op) id) || _ || _) eqn:Eb; [triple_tac|].
  apply orb_false_iff in Eb as [[H1 H2]%orb_false_iff H3].
  apply negb_false_iff, str_eqb_true in H1. apply negb_false_iff, str_eqb_true in H2.
  apply negb_false_iff, eqb_prop in H3.
  apply triple_bind_any; [apply triple_try_any, triple_enqueue; [|exact Hc]|triple_tac].
  destruct Ha as (n & body & Ha). by exists n, body, data, op.
Qed.

Lemma triple_confirmed id config changed ticket :
  (sr_ConfirmEmbeddingReset r = true → sr_Section r = "embeddings") →
  triple saved_once (confirmed_save E r id config changed ticket) (λ _, True).
Proof.
  pose proof saved_once_stable as HE. intros Hc. unfold confirmed_save.
  destruct (changed && negb (sr_ConfirmEmbeddingReset r)) eqn:Ec; [triple_tac|].
  assert (changed = true → sr_ConfirmEmbeddingReset r = true ∧ sr_Section r = "embeddings") as Hok.
  { intros ->. apply negb_false_iff in Ec. auto. }
  apply triple_bind_any; [triple_tac|]. intros gone. destruct gone; [triple_tac|].
  apply triple_bind_any; [triple_tac|]. intros free. destruct (negb free); [triple_tac|].
  apply triple_bind_any; [triple_tac|]. intros op. destruct (env_uuid_parse E op); [|triple_tac].
  by apply triple_prepare.
Qed.

Lemma triple_save id : triple saved_once (locked_save E r id) (λ _, True).
Proof.
  pose proof saved_once_stable as HE. unfold locked_save, validate_and_save.
  apply triple_bind_any; [triple_tac|]. intros free. destruct free; [|triple_tac].
  destruct (parsePlatformModelConfigPatch _ _) as [config|e]; [|triple_tac].
  destruct (sr_ConfirmEmbeddingReset r && negb (str_eqb (sr_Section r) "embeddings")) eqn:Ec; [triple_tac|].
  apply triple_bind_any; [triple_tac|]. intros [[status data]|e]; [|triple_tac].
  destruct ((status <? 200) || (300 <=? status)); [triple_tac|].
  destruct (decode_validation data) as [[changed ticket]|]; [|triple_tac].
  destruct (str_eqb (TrimSpace ticket) ""); [triple_tac|]. apply triple_confirmed.
  intros Hr. rewrite Hr in Ec. apply negb_false_iff in Ec. by apply str_eqb_true.
Qed.

Lemma triple_load id : triple saved_once (loadPlatformConfigJob E id) (λ _, True).
Proof. pose proof saved_once_stable as HE. unfold loadPlatformConfigJob. triple_tac. Qed.

Lemma triple_handle q :
  sr_Action r ≠ "recover" → triple saved_once (handleSavePlatformModelConfig E q (Some r)) (λ _, True).
Proof.
  pose proof saved_once_stable as HE. intros Hr. unfold handleSavePlatformModelConfig, list_models.
  destruct (negb _); [triple_tac|]. apply str_eqb_false in Hr. rewrite Hr.
  destruct (str_eqb (sr_Action r) "models"); [triple_tac|]. destruct (sr_Config r); [|triple_tac].
  destruct (str_eqb (sr_OperationID r) ""); [apply triple_save|].
  destruct (env_uuid_parse E (sr_OperationID r)) as [id|]; [|triple_tac].
  apply triple_bind_any; [apply triple_try_any, triple_load|]. intros [job|e]; [triple_tac|].
  destruct e; try triple_tac. apply triple_save.
Qed.
End save.

(** Saving the platform configuration is guarded: a save leaves the
    configuration jobs as they are or adds one pending job, and never one that LCE did not confirm
    as prepared under the same operation id; a job that changes the embedding space, and so will
    clear all indexes, is added only if the request confirmed the reset of the embeddings section.
    Without the console token nothing is added at all. *)
Theorem config_save_guarded E q r w :
  (∀ n s, platform_config_jobs (s_db (env_step E n s)) = platform_config_jobs (s_db s)) → sr_Action r ≠ "recover" →
  let before := platform_config_jobs (db_of w) in
  let after := platform_config_jobs (db_of (handleSavePlatformModelConfig E q (Some r) w).2) in
  after = before ∨
  isTrustedConsoleRequest (trustedConsoleToken (env_config E)) q = true ∧
  ∃ id row, before !! id = None ∧ saved_row E r id row ∧ after = <[id := row]> before.
Proof.
  intros HE Hr. cbv zeta. destruct (isTrustedConsoleRequest (trustedConsoleToken (env_config E)) q) eqn:Eq.
  - destruct (triple_handle E r (platform_config_jobs (db_of w)) HE q Hr w) as [[H|H] _];
      [by left|by left|right; by split].
  - left. unfold handleSavePlatformModelConfig, requirePlatformConfigConsole. by rewrite Eq.
Qed.
