(* ===== verification/RequestLogs.v ===== *)
(** * Request logs, leaderboard and health checks (main.go, server_lifecycle.go)

    A request is logged as pending when it is admitted and completed when it was answered; both
    writes happen in the background.  Here are the statements and transactions on the log tables,
    the admission of background writes, and what the tables satisfy in every state. *)
From Stdlib Require Import Ascii String Sorting.
From S2P Require Import Prelude GoStrings Paths Manifest Failure Json Lce Store Effects QuotaLimits RootAdmin.
Open Scope Z_scope.

Definition StatusPending : string := "pending".
Definition StatusCompleted : string := "completed".

Record RequestLogEntry := {
  LogID : string; StatusCode : Z; ResponseDuration : Z; RequestPath : string; InsertDone : bool
}.
Record requestLogErrorDetail := { Source : string; Message : string }.

(** ** Statements *)

Definition set_request_logs (f : gmap string request_log → gmap string request_log) (l : Logs) : Logs :=
  {| request_logs := f (request_logs l); error_details := error_details l;
     leaderboard := leaderboard l; health_checks := health_checks l |}.
Definition set_error_details (f : list error_detail → list error_detail) (l : Logs) : Logs :=
  {| request_logs := request_logs l; error_details := f (error_details l);
     leaderboard := leaderboard l; health_checks := health_checks l |}.
Definition set_leaderboard (f : gmap string leaderboard_row → gmap string leaderboard_row) (l : Logs) : Logs :=
  {| request_logs := request_logs l; error_details := error_details l;
     leaderboard := f (leaderboard l); health_checks := health_checks l |}.
Definition add_health_check (h : health_check) (l : Logs) : Logs :=
  {| request_logs := request_logs l; error_details := error_details l;
     leaderboard := leaderboard l; health_checks := health_checks l ++ [h] |}.

(** The row that the middleware inserts. *)
Definition pending_log_row (user tenant path method ip : string) (start now : Z) : request_log := {|
  rl_user := user; rl_tenant := tenant; rl_status := StatusPending; rl_status_code := None; rl_path := path;
  rl_method := method; rl_timestamp := start; rl_duration_ms := None; rl_client_ip := ip; rl_updated_at := now |}.

(** The columns bound the lengths; the id is the primary key. *)
Definition insert_log_tx (id user tenant path method ip : string) (start : Z) (now : Z) (l : Logs) :
    result error (unit * Logs) :=
  reject (512 <? RuneCountInString path) || (10 <? RuneCountInString method) || (45 <? RuneCountInString ip)
         || (255 <? RuneCountInString user) || (255 <? RuneCountInString tenant) with ErrDB in
  match request_logs l !! id with
  | Some _ => Err ErrDB
  | None => Ok (tt, set_request_logs (insert id (pending_log_row user tenant path method ip start now)) l)
  end.

Definition Milliseconds (d : Z) : Z := Z.quot d Millisecond.

Definition completed_log_row (e : RequestLogEntry) (now : Z) (row : request_log) : request_log := {|
  rl_user := rl_user row; rl_tenant := rl_tenant row; rl_status := StatusCompleted;
  rl_status_code := Some (StatusCode e);
  rl_path := if str_eqb (RequestPath e) "" then rl_path row else RequestPath e;
  rl_method := rl_method row; rl_timestamp := rl_timestamp row;
  rl_duration_ms := Some (Milliseconds (ResponseDuration e)); rl_client_ip := rl_client_ip row; rl_updated_at := now |}.

(** [updateQuery]: whether a row was updated. *)
Definition complete_log (e : RequestLogEntry) (now : Z) (l : Logs) : bool * Logs :=
  match request_logs l !! LogID e with
  | Some row => (true, set_request_logs (insert (LogID e) (completed_log_row e now row)) l)
  | None => (false, l)
  end.

(** Without and with an error detail. The detail needs its request log (foreign key); when no
    row was updated the transaction is rolled back. *)
Definition complete_log_tx (e : RequestLogEntry) (now : Z) (l : Logs) : result error (bool * Logs) :=
  Ok (complete_log e now l).
Definition complete_with_detail_tx (e : RequestLogEntry) (d : requestLogErrorDetail) (now : Z) (l : Logs) :
    result error (bool * Logs) :=
  reject 20 <? RuneCountInString (Source d) with ErrDB in
  match request_logs l !! LogID e with
  | None => Err ErrDB
  | Some _ =>
      let inserted := set_error_details (λ ds, ds ++ [{| ed_request_id := LogID e; ed_source := Source d; ed_error := Message d |}]) l in
      let '(updated, l') := complete_log e now inserted in
      Ok (updated, if (updated : bool) then l' else l)
  end.

Definition staleRequestLogAfter : Z := 15 * Minute.

(** [EXTRACT(EPOCH FROM (NOW() - request_timestamp) * 1000)::bigint] rounds to the nearest. *)
Definition rounded_ms (d : Z) : Z :=
  if d <? 0 then - ((- d + Millisecond / 2) / Millisecond) else (d + Millisecond / 2) / Millisecond.
Definition stale (now : Z) (row : request_log) : bool :=
  str_eqb (rl_status row) StatusPending && (rl_timestamp row <? now - staleRequestLogAfter).
Definition stale_row (now : Z) (row : request_log) : request_log := {|
  rl_user := rl_user row; rl_tenant := rl_tenant row; rl_status := StatusCompleted; rl_status_code := Some 499;
  rl_path := rl_path row; rl_method := rl_method row; rl_timestamp := rl_timestamp row;
  rl_duration_ms := Some (rounded_ms (now - rl_timestamp row)); rl_client_ip := rl_client_ip row; rl_updated_at := now |}.
Definition reconcile_tx (now : Z) (l : Logs) : result error (Z * Logs) :=
  Ok (rows_where (λ _ row, stale now row) (request_logs l),
      set_request_logs (fmap (λ row, if stale now row then stale_row now row else row)) l).

Definition deletable (userID : string) (before : Z) (row : request_log) : bool :=
  str_eqb (rl_user row) userID && (rl_timestamp row <? before) && str_eqb (rl_status row) StatusCompleted.
(** [ON DELETE CASCADE] takes the error details along. *)
Definition delete_logs_tx (userID : string) (before : Z) (_ : Z) (l : Logs) : result error (Z * Logs) :=
  let kept := delete_where (λ _ row, deletable userID before row) (request_logs l) in
  Ok (rows_where (λ _ row, deletable userID before row) (request_logs l),
      set_error_details (List.filter (λ d, bool_decide (is_Some (kept !! ed_request_id d))))
        (set_request_logs (λ _, kept) l)).

(** ** Leaderboard *)

Definition LeaderboardRetrievalPath : string := "/mcp/tools/call/codebase-retrieval".
Definition LeaderboardEnhancePath : string := "/mcp/tools/call/codebase_enhance_prompt".
Definition LeaderboardTopN : nat := 10.
(** Asia/Shanghai *)
Definition leaderboard_offset : Z := 28800.

Definition counted (dayStart dayEnd : Z) (row : request_log) : bool :=
  (str_eqb (rl_path row) LeaderboardRetrievalPath || str_eqb (rl_path row) LeaderboardEnhancePath)
  && (dayStart <=? rl_timestamp row) && (rl_timestamp row <? dayEnd)
  && bool_decide (rl_status_code row = Some 200).

(** [ORDER BY cnt DESC, user_id ASC] *)
Definition ahead (a b : string * Z) : Prop := b.2 < a.2 ∨ a.2 = b.2 ∧ String.le a.1 b.1.
#[export] Instance ahead_dec : RelDecision ahead.
Proof. intros a b. unfold ahead. apply _. Defined.

Definition requests_of (dayStart dayEnd : Z) (l : Logs) (user : string) : Z :=
  rows_where (λ _ row, counted dayStart dayEnd row && str_eqb (rl_user row) user) (request_logs l).
Definition active_users (dayStart dayEnd : Z) (l : Logs) : list string :=
  elements (list_to_set (rl_user ∘ snd <$>
    List.filter (λ kv, counted dayStart dayEnd kv.2) (map_to_list (request_logs l))) : gset string).
Definition leaderboardAggregationQuery (dayStart dayEnd : Z) (l : Logs) : list (string * Z) :=
  take LeaderboardTopN (merge_sort ahead ((λ u, (u, requests_of dayStart dayEnd l u)) <$> active_users dayStart dayEnd l)).

Definition date_text (off now : Z) : string :=
  let '(y, m, d) := civil_of_days (local_day off now) in pad4 y +:+ "-" +:+ pad2 m +:+ "-" +:+ pad2 d.
Definition rank_id (datePrefix : string) (rank : Z) : string := datePrefix +:+ "_" +:+ pad2 rank.

Definition upsert_rank (dateStr datePrefix : string) (now rank : Z) (uc : string * Z)
    (m : gmap string leaderboard_row) : gmap string leaderboard_row :=
  let id := rank_id datePrefix rank in
  <[id := match m !! id with
          | Some old => {| lb_date_str := lb_date_str old; lb_rank := lb_rank old; lb_user_id := uc.1;
                           lb_request_count := uc.2; lb_updated_at := now |}
          | None => {| lb_date_str := dateStr; lb_rank := rank; lb_user_id := uc.1;
                       lb_request_count := uc.2; lb_updated_at := now |}
          end]> m.
Fixpoint upsert_ranks (dateStr datePrefix : string) (now rank : Z) (results : list (string * Z))
    (m : gmap string leaderboard_row) : gmap string leaderboard_row :=
  match results with
  | [] => m
  | uc :: rest => upsert_ranks dateStr datePrefix now (rank + 1) rest (upsert_rank dateStr datePrefix now rank uc m)
  end.
Definition replace_day_tx (dateStr datePrefix : string) (results : list (string * Z)) (now : Z) (l : Logs) :
    result error (unit * Logs) :=
  Ok (tt, set_leaderboard (λ m, upsert_ranks dateStr datePrefix now 1 results
            (delete_where (λ _ row, str_eqb (lb_date_str row) dateStr) m)) l).

(** ** Handlers and background tasks *)

Section tasks.
Context (E : Env).

(** The insertion of the middleware, whose error is only logged. *)
Definition insert_request_log (id user tenant path method ip : string) (start : Z) : M unit :=
  ignore (log_tx E (insert_log_tx id user tenant path method ip start)).

(** [InsertDone]: the insertion is awaited until the time-out. *)
Definition await_insert (e : RequestLogEntry) : M unit :=
  if InsertDone e then
    n ← select_case E;
    if Nat.even n then mret tt else throw (Errorf "context deadline exceeded")
  else mret tt.

Definition persistRequestLogCompletion (e : RequestLogEntry) (detail : option requestLogErrorDetail) : M bool :=
  if str_eqb (LogID e) "" then mret true else
  await_insert e;;
  match detail with
  | Some d => if str_eqb (Message d) "" then log_tx E (complete_log_tx e) else log_tx E (complete_with_detail_tx e d)
  | None => log_tx E (complete_log_tx e)
  end.

Definition completeRequestLogRecordAsync (e : RequestLogEntry) (detail : option requestLogErrorDetail) : M unit :=
  ignore (persistRequestLogCompletion e detail).
Definition completeRequestLogAsync (e : RequestLogEntry) : M unit := completeRequestLogRecordAsync e None.
Definition completeRequestLogWithErrorAsync (e : RequestLogEntry) (source errorMsg : string) : M unit :=
  if str_eqb errorMsg "" then completeRequestLogAsync e
  else completeRequestLogRecordAsync e (Some {| Source := source; Message := errorMsg |}).

(** [start]: the start time of the context, if it was set. *)
Definition getRequestLogEntry (logID path : string) (start : option Z) (insertDone : bool) (statusCode : Z) :
    M RequestLogEntry :=
  started ← (match start with Some t => mret t | None => time_Now E end);
  now ← time_Now E;
  mret {| LogID := logID; StatusCode := statusCode; ResponseDuration := now - started; RequestPath := path;
          InsertDone := insertDone |}.

Definition reconcileStaleRequestLogs : M unit := ignore (log_tx E reconcile_tx).

Definition deleteCompletedUserLogsBefore (userID : string) (before : Z) : M Z := log_tx E (delete_logs_tx userID before).
Definition deleteUserLogsAsync (userID : string) (before : Z) : M unit := ignore (deleteCompletedUserLogsBefore userID before).

Definition updateLeaderboardContext : M unit :=
  now ← time_Now E;
  let off := leaderboard_offset in
  let dayStart := local_day off now * day_ns - off * Second in
  results ← log_tx E (λ _ l, Ok (leaderboardAggregationQuery dayStart (dayStart + day_ns) l, l));
  log_tx E (replace_day_tx (date_text off now) (day_string off now) results).

Definition HealthCheckInterval : Z := 2 * Minute.

(** [liveness]: whether the liveness endpoint answered, and with status 200; [failed]: the error
    of [lce.toolsList]. *)
Definition runHealthProbe (liveness : option bool) (failed : option string) : M unit :=
  l0 ← time_Now E; l1 ← time_Now E;
  t0 ← time_Now E; t1 ← time_Now E;
  now ← time_Now E;
  let ping := match liveness with Some _ => Some (Milliseconds (l1 - l0)) | None => None end in
  let alive := match liveness with Some ok => ok | None => false end in
  ignore (log_tx E (λ _ l, Ok (tt, add_health_check {|
    hc_status := match failed with Some _ => "error" | None => "success" end;
    hc_tcp_ping_ms := ping; hc_codebase_retrieval_ms := Some (Milliseconds (t1 - t0));
    hc_error_message := match failed with
                        | Some e => Some (if alive then "LCE process is up but MCP dispatch failed: " +:+ e else e)
                        | None => None
                        end;
    hc_next_check_at := now + HealthCheckInterval |} l))).
End tasks.

(** ** Background writes (server_lifecycle.go) *)

Record backgroundWrites := { bw_closed : bool; bw_active : nat }.
Definition bw_run (w : backgroundWrites) : bool * backgroundWrites :=
  if bw_closed w then (false, w) else (true, {| bw_closed := false; bw_active := S (bw_active w) |}).
Definition bw_done (w : backgroundWrites) : backgroundWrites :=
  {| bw_closed := bw_closed w; bw_active := pred (bw_active w) |}.
(** [drain] before the wait; it returns once [bw_active] is 0. *)
Definition bw_seal (w : backgroundWrites) : backgroundWrites := {| bw_closed := true; bw_active := bw_active w |}.

Inductive bw_step : backgroundWrites → backgroundWrites → Prop :=
| bw_step_run w : bw_step w (bw_run w).2
| bw_step_done w : (0 < bw_active w)%nat → bw_step w (bw_done w)
| bw_step_seal w : bw_step w (bw_seal w).

Lemma bw_sealed_step w w' : bw_step w w' → bw_closed w = true → bw_closed w' = true ∧ (bw_active w' ≤ bw_active w)%nat.
Proof. intros [u|u Hu|u] Hc; [unfold bw_run; by rewrite Hc|split; [done|simpl; lia]|by split]. Qed.

(** After [drain] has returned, no background write runs or starts any more. *)
Lemma drained_forever w w' :
  rtc bw_step w w' → bw_closed w = true → bw_active w = 0%nat →
  bw_active w' = 0%nat ∧ bw_run w' = (false, w').
Proof.
  induction 1 as [w|w1 w2 w3 Hs _ IH]; intros Hc Ha; [by unfold bw_run; rewrite Hc|].
  destruct (bw_sealed_step _ _ Hs Hc) as [Hc' Ha']. apply IH; [done|lia].
Qed.

(** ** Error details belong to completed logs *)

(** The transactions on the log tables. *)
Inductive log_step : Logs → Logs → Prop :=
| log_insert id user tenant path method ip start now l l' :
    insert_log_tx id user tenant path method ip start now l = Ok (tt, l') → log_step l l'
| log_complete e now l b l' : complete_log_tx e now l = Ok (b, l') → log_step l l'
| log_complete_detail e d now l b l' : complete_with_detail_tx e d now l = Ok (b, l') → log_step l l'
| log_reconcile now l n l' : reconcile_tx now l = Ok (n, l') → log_step l l'
| log_delete user before now l n l' : delete_logs_tx user before now l = Ok (n, l') → log_step l l'
| log_leaderboard date prefix results now l l' : replace_day_tx date prefix results now l = Ok (tt, l') → log_step l l'
| log_health h l : log_step l (add_health_check h l).
Definition logs_reachable (l : Logs) : Prop := rtc log_step empty_logs l.

(** A completed row stays completed, and has a status code and a duration. *)
Definition row_ok (row : request_log) : Prop :=
  rl_status row = StatusPending ∧ rl_status_code row = None ∧ rl_duration_ms row = None ∨
  rl_status row = StatusCompleted ∧ is_Some (rl_status_code row) ∧ is_Some (rl_duration_ms row).
Definition detail_ok (l : Logs) (d : error_detail) : Prop :=
  ∃ row, request_logs l !! ed_request_id d = Some row ∧ rl_status row = StatusCompleted.
Record logs_ok (l : Logs) : Prop := {
  lo_rows : ∀ id row, request_logs l !! id = Some row → row_ok row;
  lo_details : ∀ d, d ∈ error_details l → detail_ok l d
}.

Lemma complete_row_ok e now row : row_ok (completed_log_row e now row).
Proof. right. split; [done|]. by split; eexists. Qed.
Lemma stale_row_ok now row : row_ok (stale_row now row).
Proof. right. split; [done|]. by split; eexists. Qed.

Lemma complete_log_ok e now l : logs_ok l → logs_ok (complete_log e now l).2.
Proof.
  intros [H1 H2]. unfold complete_log. destruct (request_logs l !! LogID e) as [row|] eqn:Er; [|by split].
  split; simpl.
  - intros id row' Hrow. destruct (decide (LogID e = id)) as [<-|Hne].
    + rewrite lookup_insert_eq in Hrow. injection Hrow as <-. apply complete_row_ok.
    + rewrite lookup_insert_ne in Hrow by done. by eapply H1.
  - intros d Hd. destruct (H2 d Hd) as (row' & Hrow & Hst). unfold detail_ok. simpl.
    destruct (decide (LogID e = ed_request_id d)) as [<-|Hne].
    + exists (completed_log_row e now row). by rewrite lookup_insert_eq.
    + exists row'. by rewrite lookup_insert_ne.
Qed.

Lemma complete_detail_ok e d now l b l' : complete_with_detail_tx e d now l = Ok (b, l') → logs_ok l → logs_ok l'.
Proof.
  unfold complete_with_detail_tx. destruct (20 <? _); [done|].
  destruct (request_logs l !! LogID e) as [row|] eqn:Er; [|done].
  unfold complete_log. simpl. rewrite Er. intros [= <- <-] Hl.
  destruct (complete_log_ok e now l Hl) as [H1 H2]. unfold complete_log in H1, H2. rewrite Er in H1, H2. simpl in H1, H2.
  split; simpl; [exact H1|]. intros d' [Hd|Hd]%elem_of_app; [exact (H2 d' Hd)|].
  apply list_elem_of_singleton in Hd as ->. exists (completed_log_row e now row). simpl. by rewrite lookup_insert_eq.
Qed.

Lemma reconcile_ok now l n l' : reconcile_tx now l = Ok (n, l') → logs_ok l → logs_ok l'.
Proof.
  intros [= <- <-] [H1 H2]. split; simpl.
  - intros id row. rewrite lookup_fmap. intros (row0 & Hr & ->)%fmap_Some.
    destruct (stale now row0); [apply stale_row_ok|by eapply H1].
  - intros d Hd. destruct (H2 d Hd) as (row & Hrow & Hst). unfold detail_ok. simpl.
    eexists. rewrite lookup_fmap, Hrow. split; [reflexivity|]. by destruct (stale now row).
Qed.

Lemma delete_logs_ok user before now l n l' : delete_logs_tx user before now l = Ok (n, l') → logs_ok l → logs_ok l'.
Proof.
  intros [= <- <-] [H1 H2]. split; simpl.
  - intros id row [Hr _]%delete_where_lookup. by eapply H1.
  - intros d Hd. apply list_elem_of_In, filter_In in Hd as [Hd Hk]. apply bool_decide_eq_true in Hk as [row Hk].
    apply list_elem_of_In in Hd. destruct (H2 d Hd) as (row' & Hrow & Hst).
    exists row'. simpl. split; [|done]. rewrite Hk. apply delete_where_lookup in Hk as [Hk _]. congruence.
Qed.

Lemma log_step_ok l l' : log_step l l' → logs_ok l → logs_ok l'.
Proof.
  intros Hs Hl. destruct Hs as
    [id user tenant path method ip start now l l' H|e now l b l' H|e d now l b l' H|now l n l' H
    |user before now l n l' H|date prefix results now l l' H|h l].
  - unfold insert_log_tx in H. destruct (_ || _); [done|]. destruct (request_logs l !! id) eqn:Er; [done|].
    injection H as <-. destruct Hl as [H1 H2]. split; simpl.
    + intros id' row. destruct (decide (id = id')) as [<-|Hne].
      * rewrite lookup_insert_eq. intros [= <-]. by left.
      * rewrite lookup_insert_ne by done. apply H1.
    + intros d Hd. destruct (H2 d Hd) as (row & Hrow & Hst). exists row. simpl. split; [|done].
      rewrite lookup_insert_ne; [done|congruence].
  - unfold complete_log_tx in H. injection H as H. pose proof (complete_log_ok e now l Hl) as Hok. rewrite H in Hok. exact Hok.
  - by eapply complete_detail_ok.
  - by eapply reconcile_ok.
  - by eapply delete_logs_ok.
  - injection H as <-. destruct Hl as [H1 H2]. by split.
  - destruct Hl as [H1 H2]. by split.
Qed.

(** In every reachable state of the log tables an error detail belongs
    to a request log that exists and is completed, although completion, reconciliation and
    deletion run concurrently in the background: a pending request never shows an error, and no
    detail survives its log. A log is pending without status code and duration or completed with
    both. *)
Theorem error_details_attached l :
  logs_reachable l →
  (∀ d, d ∈ error_details l → ∃ row, request_logs l !! ed_request_id d = Some row ∧ rl_status row = StatusCompleted) ∧
  (∀ id row, request_logs l !! id = Some row → row_ok row).
Proof.
  intros Hr. assert (logs_ok l) as [H1 H2]; [|split; [exact H2|exact H1]].
  unfold logs_reachable in Hr. remember empty_logs as l0 eqn:E0. 
  assert (logs_ok l0) as H0.
  { subst. split; [|intros d Hd; by apply not_elem_of_nil in Hd]. intros id row. simpl. by rewrite lookup_empty. }
  clear E0. induction Hr as [|l1 l2 l3 Hs _ IH]; [done|]. apply IH. by eapply log_step_ok.
Qed.

(** Clearing an index deletes exactly the completed logs of the user that
    began before it, with their error details: every other log stays as it was, in particular the
    pending ones, those of other users, and the log of the clearing request itself. *)
Theorem cleared_logs_exact userID before now l n l' :
  delete_logs_tx userID before now l = Ok (n, l') →
  (∀ id row, request_logs l' !! id = Some row ↔
     request_logs l !! id = Some row ∧
     ¬ (rl_user row = userID ∧ rl_timestamp row < before ∧ rl_status row = StatusCompleted)) ∧
  (∀ d, d ∈ error_details l' ↔ d ∈ error_details l ∧ is_Some (request_logs l' !! ed_request_id d)) ∧
  leaderboard l' = leaderboard l ∧ health_checks l' = health_checks l.
Proof.
  intros [= <- <-]. split; [|split; [|done]].
  - intros id row. simpl. rewrite delete_where_lookup. apply and_iff_compat_l. unfold deletable.
    rewrite <- not_true_iff_false, !andb_true_iff, !str_eqb_true, Z.ltb_lt. tauto.
  - intros d. simpl. rewrite !list_elem_of_In, filter_In, bool_decide_eq_true. done.
Qed.

Lemma error_details_attached_witness :
  let e := {| LogID := "r"; StatusCode := 200; ResponseDuration := 5 * Millisecond; RequestPath := ""; InsertDone := true |} in
  let l1 := set_request_logs (insert "r" (pending_log_row "u" "t" "/mcp" "POST" "ip" 0 1)) empty_logs in
  match complete_with_detail_tx e {| Source := "lce"; Message := "boom" |} 2 l1 with
  | Ok (b, l) => b = true ∧ length (error_details l) = 1%nat ∧
      ∀ d, d ∈ error_details l → ∃ row, request_logs l !! ed_request_id d = Some row ∧ rl_status row = StatusCompleted
  | Err _ => False
  end.
Proof.
  cbv zeta. destruct (complete_with_detail_tx _ _ _ _) as [[b l]|err] eqn:Ec; [|vm_compute in Ec; discriminate Ec].
  split; [vm_compute in Ec; by injection Ec|]. split; [vm_compute in Ec; injection Ec as <- <-; reflexivity|].
  destruct (error_details_attached l) as [H _]; [|exact H].
  eapply rtc_l; [eapply (log_insert "r" "u" "t" "/mcp" "POST" "ip" 0 1); reflexivity|].
  eapply rtc_l; [eapply log_complete_detail; exact Ec|]. apply rtc_refl.
Defined.

Lemma cleared_logs_exact_witness :
  let l := set_request_logs (insert "r" (pending_log_row "u" "t" "/mcp" "POST" "ip" 0 1)) empty_logs in
  match delete_logs_tx "u" 5 6 l with
  | Ok (n, l') => n = 0 ∧ request_logs l' !! "r" = request_logs l !! "r"
  | Err _ => False
  end.
Proof.
  cbv zeta. destruct (delete_logs_tx "u" 5 6 _) as [[n l']|err] eqn:Ed; [|discriminate Ed].
  split; [vm_compute in Ed; by injection Ed|].
  destruct (cleared_logs_exact _ _ _ _ _ _ Ed) as [H _]. apply H. split; [reflexivity|].
  intros (_ & _ & Hst). vm_compute in Hst. discriminate Hst.
Defined.

(** ** The leaderboard *)

Section ranking.
Context (dayStart dayEnd : Z) (l : Logs).
Abbreviation results := (leaderboardAggregationQuery dayStart dayEnd l).
Abbreviation count := (requests_of dayStart dayEnd l).

Lemma count_pos u :
  0 < count u ↔ ∃ id row, request_logs l !! id = Some row ∧ counted dayStart dayEnd row = true ∧ rl_user row = u.
Proof.
  unfold requests_of, rows_where.
  set (P := λ kv : string * request_log, counted dayStart dayEnd kv.2 && str_eqb (rl_user kv.2) u = true).
  change (0 < Z.of_nat (size (filter P (request_logs l))) ↔
          ∃ id row, request_logs l !! id = Some row ∧ counted dayStart dayEnd row = true ∧ rl_user row = u).
  split.
  - intros Hpos. destruct (map_choose (filter P (request_logs l))) as (id & row & Hr).
    { intros He. rewrite He, map_size_empty in Hpos. lia. }
    apply map_lookup_filter_Some in Hr as [Hr HP]. unfold P in HP. simpl in HP.
    apply andb_true_iff in HP as [Hc Hu%str_eqb_true]. eauto.
  - intros (id & row & Hr & Hc & Hu). assert (filter P (request_logs l) !! id = Some row) as Hf.
    { apply map_lookup_filter_Some. split; [done|]. unfold P. simpl. rewrite Hc, Hu. apply str_eqb_refl. }
    destruct (decide (size (filter P (request_logs l)) = 0%nat)) as [H0|H0]; [|lia].
    apply map_size_empty_inv in H0. by rewrite H0, lookup_empty in Hf.
Qed.

Lemma active_count u : u ∈ active_users dayStart dayEnd l ↔ 0 < count u.
Proof.
  rewrite count_pos. unfold active_users. rewrite elem_of_elements, elem_of_list_to_set, list_elem_of_fmap. split.
  - intros ([id row] & -> & Hin). apply list_elem_of_In, filter_In in Hin as [Hin Hc].
    apply list_elem_of_In, elem_of_map_to_list in Hin. exists id, row. done.
  - intros (id & row & Hr & Hc & <-). exists (id, row). split; [done|]. apply list_elem_of_In, filter_In.
    split; [|done]. by apply list_elem_of_In, elem_of_map_to_list.
Qed.

#[local] Instance ahead_total : Total ahead.
Proof.
  intros [u c] [u' c']. unfold ahead. simpl. destruct (Z.lt_total c c') as [H|[->|H]]; [auto| |auto].
  destruct (total String.le u u'); auto.
Qed.
#[local] Instance ahead_trans : Transitive ahead.
Proof.
  intros [u c] [u' c'] [u'' c'']. unfold ahead. simpl.
  intros [H|[-> H]] [H'|[-> H']]; [left; lia|left; lia|left; lia|right; split; [done|by etransitivity]].
Qed.

Abbreviation ranked := (merge_sort ahead ((λ u, (u, count u)) <$> active_users dayStart dayEnd l)).

Lemma ranked_in u c : (u, c) ∈ ranked ↔ c = count u ∧ 0 < count u.
Proof.
  rewrite merge_sort_Permutation, list_elem_of_fmap. split.
  - intros (u' & [= -> ->] & Hu). split; [done|]. by apply active_count.
  - intros [-> Hu]. exists u. split; [done|]. by apply active_count.
Qed.

(** The ten users with the most requests of the day, the best first; ties by user id. *)
Lemma ranking_spec :
  (length results ≤ LeaderboardTopN)%nat ∧ StronglySorted ahead results ∧
  (∀ u c, (u, c) ∈ results → c = count u ∧ 0 < c) ∧
  (∀ u, 0 < count u → (u, count u) ∈ results ∨
     length results = LeaderboardTopN ∧ ∀ uc, uc ∈ results → ahead uc (u, count u)).
Proof.
  unfold leaderboardAggregationQuery. pose proof (StronglySorted_merge_sort ahead ((λ u, (u, count u)) <$> active_users dayStart dayEnd l)) as Hs.
  set (r := ranked) in *. rewrite <- (take_drop LeaderboardTopN r) in Hs. apply StronglySorted_app in Hs as (Hahead & Hs & _).
  split_and!.
  - rewrite length_take. lia.
  - exact Hs.
  - intros u c (i & Hi & _)%elem_of_take. apply list_elem_of_lookup_2, ranked_in in Hi as [-> ?]. done.
  - intros u Hu. assert ((u, count u) ∈ r) as Hin by (by apply ranked_in).
    rewrite <- (take_drop LeaderboardTopN r) in Hin. apply elem_of_app in Hin as [Hin|Hin]; [by left|]. right. split.
    + rewrite length_take. destruct (decide (length r ≤ LeaderboardTopN)%nat) as [Hle|Hgt]; [|lia].
      rewrite drop_ge in Hin by done. by apply not_elem_of_nil in Hin.
    + intros uc Huc. by apply Hahead.
Qed.
End ranking.

Lemma str_app_inj p x y : p +:+ x = p +:+ y → x = y.
Proof.
  induction p as [|c p IH]; [done|]. change (String c (p +:+ x) = String c (p +:+ y) → x = y). intros [= H]. by apply IH.
Qed.

Lemma rank_id_inj p a b : 1 ≤ a ≤ 10 → 1 ≤ b ≤ 10 → rank_id p a = rank_id p b → a = b.
Proof.
  intros Ha Hb H. unfold rank_id in H. apply str_app_inj, str_app_inj in H.
  assert (∀ z, 1 ≤ z ≤ 10 → z = 1 ∨ z = 2 ∨ z = 3 ∨ z = 4 ∨ z = 5 ∨ z = 6 ∨ z = 7 ∨ z = 8 ∨ z = 9 ∨ z = 10) as Hz by lia.
  apply Hz in Ha. apply Hz in Hb. clear Hz. 
  repeat match goal with H : _ ∨ _ |- _ => destruct H as [->|H] end; subst; first [reflexivity|vm_compute in H; discriminate H].
Qed.

(** The rows that the loop writes for [results] from [rank] on. *)
Definition day_row (dateStr : string) (now rank : Z) (uc : string * Z) : leaderboard_row :=
  {| lb_date_str := dateStr; lb_rank := rank; lb_user_id := uc.1; lb_request_count := uc.2; lb_updated_at := now |}.

Lemma upsert_ranks_spec dateStr prefix now results rank m :
  1 ≤ rank → rank + Z.of_nat (length results) ≤ 11 →
  (∀ k, rank ≤ k ≤ 10 → m !! rank_id prefix k = None) →
  (∀ i uc, results !! i = Some uc →
     upsert_ranks dateStr prefix now rank results m !! rank_id prefix (rank + Z.of_nat i)
     = Some (day_row dateStr now (rank + Z.of_nat i) uc)) ∧
  (∀ id, (∀ i, (i < length results)%nat → id ≠ rank_id prefix (rank + Z.of_nat i)) →
     upsert_ranks dateStr prefix now rank results m !! id = m !! id).
Proof.
  revert rank m. induction results as [|uc rest IH]; intros rank m Hr Hlen Hnone; [done|].
  cbn [length] in Hlen. cbn [upsert_ranks].
  assert (upsert_rank dateStr prefix now rank uc m = <[rank_id prefix rank := day_row dateStr now rank uc]> m) as ->.
  { unfold upsert_rank. by rewrite (Hnone rank) by lia. }
  destruct (IH (rank + 1) (<[rank_id prefix rank := day_row dateStr now rank uc]> m)) as [H1 H2]; [lia|lia| |].
  { intros k Hk. rewrite lookup_insert_ne; [apply Hnone; lia|]. intros He%rank_id_inj; lia. }
  split.
  - intros [|i] x Hx.
    + injection Hx as <-. rewrite Z.add_0_r, H2, lookup_insert_eq; [done|].
      intros i Hi He%rank_id_inj; lia.
    + specialize (H1 i x Hx). replace (rank + Z.of_nat (S i)) with (rank + 1 + Z.of_nat i) by lia. exact H1.
  - intros id Hid. rewrite H2.
    + rewrite lookup_insert_ne; [done|]. intros He. apply (Hid 0%nat); [simpl; lia|]. by rewrite Z.add_0_r.
    + intros i Hi He. apply (Hid (S i)); [simpl; lia|]. rewrite He. f_equal. lia.
Qed.

(** An update replaces the board of the day by the ranking: afterwards the rows
    of the day are exactly the ten users with the most successful retrieval and enhancement
    requests of that Shanghai day, in order, with their counts and without gaps in the ranks, no
    row of an earlier update is left, and the rows of other days are untouched. The ids of the
    rows name their day. *)
Theorem leaderboard_exact dayStart dayEnd dateStr prefix now seen l l' :
  let results := leaderboardAggregationQuery dayStart dayEnd seen in
  (∀ k row, 1 ≤ k ≤ 10 → leaderboard l !! rank_id prefix k = Some row → lb_date_str row = dateStr) →
  replace_day_tx dateStr prefix results now l = Ok (tt, l') →
  (∀ id row, leaderboard l' !! id = Some row ∧ lb_date_str row = dateStr ↔
     ∃ i uc, results !! i = Some uc ∧ id = rank_id prefix (1 + Z.of_nat i) ∧
             row = day_row dateStr now (1 + Z.of_nat i) uc) ∧
  (∀ id row, lb_date_str row ≠ dateStr → leaderboard l' !! id = Some row ↔ leaderboard l !! id = Some row) ∧
  StronglySorted ahead results ∧
  (∀ u, 0 < requests_of dayStart dayEnd seen u → (u, requests_of dayStart dayEnd seen u) ∈ results ∨
     length results = LeaderboardTopN ∧ ∀ uc, uc ∈ results → ahead uc (u, requests_of dayStart dayEnd seen u)) ∧
  (∀ u c, (u, c) ∈ results → c = requests_of dayStart dayEnd seen u).
Proof.
  cbv zeta. set (results := leaderboardAggregationQuery dayStart dayEnd seen). intros Hkeys [= <-].
  destruct (ranking_spec dayStart dayEnd seen) as (Hlen & Hsort & Hcount & Htop). fold results in Hlen, Hsort, Hcount, Htop.
  set (m := delete_where (λ _ row, str_eqb (lb_date_str row) dateStr) (leaderboard l)).
  assert (∀ k, 1 ≤ k ≤ 10 → m !! rank_id prefix k = None) as Hnone.
  { intros k Hk. apply delete_where_None. intros v Hv. apply str_eqb_true. by eapply Hkeys. }
  destruct (upsert_ranks_spec dateStr prefix now results 1 m) as [H1 H2]; [lia|unfold LeaderboardTopN in Hlen; lia|done|].
  assert (∀ id, (∃ i uc, results !! i = Some uc ∧ id = rank_id prefix (1 + Z.of_nat i)) ∨
    upsert_ranks dateStr prefix now 1 results m !! id = m !! id) as Hcases.
  { intros id. destruct (decide (id ∈ (λ i, rank_id prefix (1 + Z.of_nat i)) <$> seq 0 (length results))) as [Hin|Hout].
    - left. apply list_elem_of_fmap in Hin as (i & -> & Hi%elem_of_seq).
      destruct (lookup_lt_is_Some_2 results i) as [uc Huc]; [lia|]. eauto.
    - right. apply H2. intros i Hi ->. apply Hout. apply list_elem_of_fmap. exists i. split; [done|]. apply elem_of_seq. lia. }
  simpl. fold m. split_and!.
  - intros id row. split.
    + intros [Hrow Hdate]. destruct (Hcases id) as [(i & uc & Huc & ->)|Hid].
      * rewrite (H1 i uc Huc) in Hrow. injection Hrow as <-. eauto.
      * rewrite Hid in Hrow. apply delete_where_lookup in Hrow as [_ Hf]. by apply str_eqb_false in Hf.
    + intros (i & uc & Huc & -> & ->). split; [by apply H1|done].
  - intros id row Hdate. destruct (Hcases id) as [(i & uc & Huc & ->)|Hid].
    + assert (1 ≤ 1 + Z.of_nat i ≤ 10) as Hi.
      { apply lookup_lt_Some in Huc. unfold LeaderboardTopN in Hlen. lia. }
      rewrite (H1 i uc Huc). split; [intros [= <-]; done|]. intros Hl. exfalso. apply Hdate. by eapply Hkeys.
    + rewrite Hid. unfold m. rewrite delete_where_lookup. split; [by intros [? _]|]. intros Hl. split; [done|].
      by apply str_eqb_false.
  - exact Hsort.
  - exact Htop.
  - intros u c Huc. by destruct (Hcount u c Huc).
Qed.

Lemma leaderboard_exact_witness :
  let log u := {| rl_user := u; rl_tenant := u; rl_status := StatusCompleted; rl_status_code := Some 200;
                  rl_path := LeaderboardRetrievalPath; rl_method := "POST"; rl_timestamp := 5; rl_duration_ms := Some 1;
                  rl_client_ip := ""; rl_updated_at := 6 |} in
  let seen := set_request_logs (λ _, {[ "1" := log "bob"; "2" := log "ann"; "3" := log "bob" ]}) empty_logs in
  match replace_day_tx "1970-01-01" "19700101" (leaderboardAggregationQuery 0 10 seen) 9 seen with
  | Ok (_, l') => leaderboard l' !! "19700101_01" = Some (day_row "1970-01-01" 9 1 ("bob", 2))
  | Err _ => False
  end.
Proof.
  cbv zeta. destruct (replace_day_tx _ _ _ _ _) as [[[] l']|e] eqn:Er; [|discriminate Er].
  refine (proj1 (proj2 (proj1 (leaderboard_exact 0 10 "1970-01-01" "19700101" 9 _ _ l' _ Er) "19700101_01" (day_row "1970-01-01" 9 1 ("bob", 2))) _)).
  - intros k row _ Hk. discriminate Hk.
  - exists 0%nat, ("bob", 2). split_and!; vm_compute; reflexivity.
Defined.
