(* ===== verification/McpServer.v ===== *)
(** * The MCP endpoint (main.go, modelconfig.go)

    Sessions, event streams, the list of tools and the calls of tools.  A handler returns the
    response that the source writes; request logs are written in the background and are in
    [RequestLogs]. *)
From Stdlib Require Import Ascii String SpecFloat.
From S2P Require Import Prelude GoStrings Floats Paths Sha256 Base64 Manifest Failure Json Lce ToolPolicy Sse.
From S2P Require Import Sessions SessionSteps Store Effects Leases ClientVersion RedisCommands.
From S2P Require Import QuotaLimits Quota IndexStatements IndexJobs IndexTool RootDeletion RootAdmin.
From S2P Require Import Admission Auth.
Open Scope Z_scope.

(** ** The user's own rerank configuration *)

Definition initModelConfigKey (secret : string) : option string :=
  if str_eqb secret "" then None else Some (bytes_string (Sum256_bytes (string_bytes secret))).

Definition gcm_nonce_size : Z := 12.
Definition gcm_overhead : Z := 16.

(** ** Replies *)

Inductive tool_reply :=
| RpcError (code : Z) (message : string)
| IndexAnswer (payload : index_payload)                       (* in an envelope with ok = true *)
| IndexFailed (e : error)                                     (* its envelope *)
| StatusAnswer (roots : list indexRootView) (requested : string) (available : list indexRootView) (not_found : bool)
| StatusFailed (message : string)
| SwiftRefused (e : swiftQuotaError)
| UpstreamFailed (text : string)                              (* a JSON-RPC error with code -32000 *)
| ToolText (text : string) (isError : bool)
| ClientGone.                                                 (* nothing is written *)

Inductive post_reply :=
| Refused (r : refusal)                                       (* admitDeferredMCPQuota *)
| HttpError (status : Z) (code : Z) (message : string)        (* a JSON-RPC error *)
| Initialized (sessionID : string)
| Accepted
| ToolList (tools : list json)
| ToolCalled (r : tool_reply).

(** ** acceptsMCPEventStream *)

Section accept.
Context (unicode_lower : string → string).

Definition float_positive (q : spec_float) : bool :=
  match q with S754_finite false _ _ | S754_infinity false => true | _ => false end.

(** [strings.Trim] of one byte. *)
Fixpoint trim_left_byte (c : ascii) (s : string) : string :=
  match s with
  | String d s' => if Ascii.eqb d c then trim_left_byte c s' else s
  | EmptyString => ""
  end.
Definition Trim_byte (c : ascii) (s : string) : string := trim_right_byte c (trim_left_byte c s).

(** Whether the last readable [q] of a media range is positive; it is 1 without one. *)
Fixpoint quality_positive (parameters : list string) (positive : bool) : bool :=
  match parameters with
  | [] => positive
  | parameter :: rest =>
      let '(key, value, ok) := Cut "=" (TrimSpace parameter) in
      let positive' :=
        if ok && EqualFold "q" (TrimSpace key) then
          match ParseFloat (Trim_byte DQ (TrimSpace value)) with
          | Some f => float_positive f
          | None => positive
          end
        else positive in
      quality_positive rest positive'
  end.

(** The last range for event streams and the last one for everything. *)
Fixpoint accept_loop (parts : list string) (event wildcard : option bool) : option bool * option bool :=
  match parts with
  | [] => (event, wildcard)
  | part :: rest =>
      match Split ";" part with
      | [] => accept_loop rest event wildcard
      | first :: parameters =>
          let mediaType := ToLower unicode_lower (TrimSpace first) in
          let q := quality_positive parameters true in
          if str_eqb mediaType "text/event-stream" then accept_loop rest (Some q) wildcard
          else if str_eqb mediaType "*/*" then accept_loop rest event (Some q)
          else accept_loop rest event wildcard
      end
  end.
Definition acceptsMCPEventStream (accept : string) : bool :=
  match accept_loop (Split "," accept) None None with
  | (Some q, _) => q
  | (None, Some q) => q
  | (None, None) => false
  end.
End accept.

(** ** Request paths *)

Definition normalizedMCPRequestPath (rpc : jsonRPCRequest) : string :=
  if str_eqb (rpc_method rpc) "initialize" then "/mcp/initialize"
  else if str_eqb (rpc_method rpc) "notifications/initialized" then "/mcp/notifications/initialized"
  else if str_eqb (rpc_method rpc) "tools/list" then "/mcp/tools/list"
  else if str_eqb (rpc_method rpc) "tools/call" then
    match rpc_params rpc with
    | Some JNull => "/mcp/tools/call"
    | Some (JObj m) =>
        match string_field "name" m with
        | Some n => if isChatMCPToolAllowed (TrimSpace n) then "/mcp/tools/call/" +:+ TrimSpace n else "/mcp/tools/call"
        | None => "/mcp/tools/call"
        end
    | _ => "/mcp/tools/call"
    end
  else "/mcp".

Section handlers.
(** [strict]: what [decodeStrictIndexArgs] makes of an arguments object. *)
Context (E : Env) (strconv_Quote : string → string) (strict : list (string * json) → index_call).

(** ** Model configuration *)

Definition getUserModelConfigRow (userID : string) : M (option string) :=
  r ← try (query_accounts E (λ _ a, Ok (user_model_configs a !! userID)));
  match r with
  | Ok None => mret None
  | Ok (Some enc) => mret (Some (default "" enc))
  | Err e => throw (Errorf ("model config lookup failed: " +:+ error_text e))
  end.

Definition decryptModelConfig (key enc : string) : result error (list (string * json)) :=
  match Std_DecodeString false enc with
  | None => Err (Errorf "base64 decode")
  | Some data =>
      reject len data <? gcm_nonce_size + gcm_overhead with Errorf "ciphertext too short" in
      let nonce := String.substring 0 12 data in
      match env_gcm_Open E key nonce (String.substring 12 (String.length data - 12) data) with
      | None => Err (Errorf "gcm open")
      | Some plain =>
          match decoded plain with
          | Some (JObj m) => Ok m
          | Some JNull => Ok []
          | _ => Err (Errorf "config json")
          end
      end
  end.

Definition loadRerankModelConfigArg (userID : string) : M (option json) :=
  match modelConfigKey (env_config E) with
  | None => mret None
  | Some key =>
      row ← getUserModelConfigRow userID;
      match row with
      | None => mret None
      | Some enc =>
          if str_eqb enc "" then mret None else
          match decryptModelConfig key enc with
          | Err _ => throw (Errorf "model config decrypt failed")
          | Ok cfg =>
              match jget "rerank" cfg with
              | None | Some JNull => mret None
              | Some rerank => mret (Some (JObj [("rerank", rerank)]))
              end
          end
      end
  end.

(** ** The list of tools *)

Definition toolsCacheTTL : Z := 5 * Minute.

Definition readToolsCache : M (option (list json)) :=
  now ← time_Now E;
  with_mutex E (λ p, (match toolsCache p with
                      | Some (tools, at_) => if now - at_ <? toolsCacheTTL then Some tools else None
                      | None => None
                      end, p)).

(** Only one request at a time is between the second reading of the cache and the end. *)
Definition getCachedToolsList : M (list json) :=
  cached ← readToolsCache;
  match cached with
  | Some tools => mret tools
  | None =>
      again ← readToolsCache;
      match again with
      | Some tools => mret tools
      | None =>
          raw ← fetchToolsList E;
          tools ← lift (publish_tools strconv_Quote raw);
          now ← time_Now E;
          with_mutex E (λ p, (tt, set_tools (Some (tools, now)) p));;
          mret tools
      end
  end.

(** ** Calls of tools *)

(** The roots that [codebase_index_status] reports. *)
Definition select_roots (requested : string) (roots : list indexRootView) : list indexRootView :=
  if str_eqb requested "" then roots
  else take 1 (List.filter (λ r, str_eqb (rv_RootID r) requested) roots).

Definition call_status_tool (tenantID : string) (args : list (string * json)) : M tool_reply :=
  match validateCodebaseIndexStatusArgs strconv_Quote args with
  | Err e => mret (RpcError (-32602) (error_text e))
  | Ok _ =>
      r ← try (loadIndexRoots E tenantID);
      match r with
      | Err e => mret (StatusFailed (error_text e))
      | Ok all =>
          let requested := TrimSpace (match jget "root_id" args with Some (JStr s) => s | _ => "" end) in
          let roots := select_roots requested all in
          mret (StatusAnswer roots requested all
                  (negb (str_eqb requested "") && (length roots =? 0)%nat))
      end
  end.

Definition call_index_tool (c : request_ctx) (tenantID : string) (args : list (string * json)) : M tool_reply :=
  r ← try (handleCodebaseIndex E tenantID (cu_org (gc_caller c)) (gc_tier c) (strict args));
  match r with
  | Ok payload => mret (IndexAnswer payload)
  | Err e => gone ← canceled E; mret (if (gone : bool) then ClientGone else IndexFailed e)
  end.

(** The arguments that are forwarded: the tenant is always the caller's. *)
Definition forwarded_args (tenantID : string) (cfg : option json) (args : list (string * json)) : list (string * json) :=
  let args := jset "tenant_id" (JStr tenantID) args in
  match cfg with Some v => jset "model_config" v args | None => args end.

(** The running job that a successful retrieval reports; a failing lookup reports none. *)
Definition active_job_of (tenantID name : string) (args : list (string * json)) (isError : bool) : M (option index_job) :=
  if str_eqb name "codebase-retrieval" && negb isError then
    let rootID := match jget "root_id" args with Some (JStr s) => s | _ => "" end in
    r ← try (query E (λ d, Ok (if negb (str_eqb rootID "") then loadActiveIndexJobForRoot tenantID rootID d
                               else loadActiveIndexJob tenantID d)));
    mret (match r with Ok (Some (_, j)) => Some j | _ => None end)
  else mret None.

Definition forward_tool (userID tenantID name : string) (args : list (string * json)) : M tool_reply :=
  cfg ← try (if chatMCPToolUsesRerankConfig name then loadRerankModelConfigArg userID else mret None);
  match cfg with
  | Err e => mret (RpcError (-32000) (error_text e))
  | Ok cfg =>
      let args := forwarded_args tenantID cfg args in
      reply ← callTool E {| lr_tool := name; lr_args := args |};
      match reply with
      | Err text => gone ← canceled E; mret (if (gone : bool) then ClientGone else UpstreamFailed text)
      | Ok result =>
          active ← active_job_of tenantID name args (IsError result);
          mret (ToolText (injectRetrievalIndexStatus (Content result) active) (IsError result))
      end
  end.

Definition call_public_tool (c : request_ctx) (userID tenantID name : string) (args : list (string * json)) : M tool_reply :=
  match validateChatMCPToolArgs name args with
  | Err e => mret (RpcError (-32602) (error_text e))
  | Ok _ =>
      refused ← (if str_eqb name swiftSyncToolName
                 then reserveSwiftUpload E tenantID (cu_org (gc_caller c)) (gc_tier c) args else mret None);
      match refused with
      | Some e => mret (SwiftRefused e)
      | None => forward_tool userID tenantID name args
      end
  end.

Definition handleMCPToolsCall (c : request_ctx) (params : option json) (userID : string) : M tool_reply :=
  let tenantID := if str_eqb (requestTenantID (gc_caller c)) "" then userID else requestTenantID (gc_caller c) in
  match call_params params with
  | None => mret (RpcError (-32602) "Invalid params")
  | Some (n, arguments) =>
      let name := TrimSpace n in
      if negb (isChatMCPToolAllowed name)
      then mret (RpcError (-32601) ("Tool not available through chat MCP: " +:+ name)) else
      let args := default [] arguments in
      if str_eqb name codebaseIndexToolName then call_index_tool c tenantID args
      else if str_eqb name codebaseIndexStatusToolName then call_status_tool tenantID args
      else call_public_tool c userID tenantID name args
  end.

(** ** Sessions and streams *)

Definition mcp_section {A} (f : McpRun → A * McpRun) : M A :=
  with_mutex E (λ p, ((f (mcp p)).1, set_mcp (f (mcp p)).2 p)).

Definition close_session_stream (sid : string) : M unit :=
  previous ← mcp_section (take_stream sid);
  match previous with
  | Some p => mcp_section (λ r, (tt, finish_stream p r))
  | None => mret tt
  end.
Fixpoint closeMCPSSEStreams (ids : list string) : M unit :=
  match ids with
  | [] => mret tt
  | id :: rest => close_session_stream id;; closeMCPSSEStreams rest
  end.

Definition sweepExpiredMCPSessions : M unit :=
  now ← time_Now E;
  ids ← mcp_section (section (sweep_sessions now));
  closeMCPSSEStreams ids.

Definition handle_initialize (userID : string) : M post_reply :=
  now ← time_Now E;
  newSID ← uuid_New E;
  ids ← mcp_section (section (initialize_session (mcpMaxSessionsPerUser (env_config E))
                                (mcpMaxSessions (env_config E)) newSID userID now));
  closeMCPSSEStreams ids;;
  mret (Initialized newSID).

(** The dispatch of a request with a live session. *)
Definition dispatch (c : request_ctx) (rpc : jsonRPCRequest) : M post_reply :=
  if str_eqb (rpc_method rpc) "notifications/initialized" then mret Accepted
  else if str_eqb (rpc_method rpc) "tools/list" then
    r ← try getCachedToolsList;
    mret (match r with
          | Ok tools => ToolList tools
          | Err e => HttpError 200 (-32000) ("upstream error: " +:+ error_text e)
          end)
  else if str_eqb (rpc_method rpc) "tools/call" then
    r ← handleMCPToolsCall c (rpc_params rpc) (cu_user (gc_caller c)); mret (ToolCalled r)
  else mret (HttpError 200 (-32601) ("Method not found: " +:+ rpc_method rpc)).

(** [k], unless the deferred quota refuses. *)
Definition after_quota (c : request_ctx) (deferred : bool) (rpc : jsonRPCRequest) (k : M post_reply) : M post_reply :=
  r ← admitDeferredMCPQuota E c deferred rpc;
  match r with (Some refused, _) => mret (Refused refused) | (None, _) => k end.

Definition handleMCPPost (c : request_ctx) (deferred : bool) (session : string) (body : client_body) : M post_reply :=
  if cb_failed body then
    after_quota c deferred no_rpc (mret (HttpError 400 (-32700) "failed to read request body"))
  else if maxClientMCPBody <? cb_len body then
    after_quota c deferred no_rpc (mret (HttpError 413 (-32600) "MCP request body exceeds 32 MiB"))
  else match cb_rpc body with
  | None => after_quota c deferred no_rpc (mret (HttpError 400 (-32700) "Parse error"))
  | Some rpc =>
      after_quota c deferred rpc (
      if str_eqb (rpc_method rpc) "initialize" then
        if negb (str_eqb session "") then mret (HttpError 400 (-32600) "initialize must not include Mcp-Session-Id")
        else handle_initialize (cu_user (gc_caller c))
      else if str_eqb session "" then mret (HttpError 400 (-32000) "Missing Mcp-Session-Id header")
      else
        now ← time_Now E;
        ok ← mcp_section (section (touch_session session (cu_user (gc_caller c)) now));
        if negb ok then mret (HttpError 404 (-32000) "Invalid or expired session")
        else dispatch c rpc)
  end.

Definition handleMCPDelete (c : request_ctx) (session : string) : M Z :=
  if str_eqb session "" then mret 400 else
  existed ← mcp_section (section (delete_session session (cu_user (gc_caller c))));
  if (existed : bool) then close_session_stream session;; mret 204 else mret 404.

(** *** The event stream of a session *)

Definition stream_closed (p : nat) (r : McpRun) : bool :=
  match stream_heap (run_st r) !! p with Some s => done_closed s | None => true end.
Definition session_alive (sid userID : string) (now : Z) (r : McpRun) : bool :=
  match serverSessions (run_st r) !! sid with
  | Some s => str_eqb (sess_userID s) userID && (now - lastActivity s <=? mcpSessionTTL)
  | None => false
  end.

(** One turn of the loop per element of the fuel, until the client goes away; a turn whose
    case is not ready passes. Returns what was written. *)
Fixpoint sse_loop (fuel : nat) (sid userID : string) (p : nat) (written : list sse_chunk) : M (list sse_chunk) :=
  match fuel with
  | O => mret written
  | S fuel' =>
      n ← select_case E;
      match n with
      | O =>
          closed ← mcp_section (λ r, (stream_closed p r, r));
          if (closed : bool) then mret written else sse_loop fuel' sid userID p written
      | 1%nat =>
          payload ← mcp_section (section (receive_event p));
          match payload with
          | Some text =>
              ok ← write_client E;
              if (ok : bool) then sse_loop fuel' sid userID p (written ++ [SData text]) else mret written
          | None => sse_loop fuel' sid userID p written
          end
      | _ =>
          now ← time_Now E;
          valid ← mcp_section (λ r, (session_alive sid userID now r, r));
          if negb valid then mret written else
          ok ← write_client E;
          if (ok : bool) then sse_loop fuel' sid userID p (written ++ [SComment "keepalive"]) else mret written
      end
  end.

Definition close_own_stream (sid : string) (p : nat) : M unit :=
  mcp_section (λ r, (tt, unregister_stream sid p r));; mcp_section (λ r, (tt, finish_stream p r)).

(** The largest event. *)
Definition maxSSEEvent : Z := Z.shiftl 1 20.

(** A consumer whose queue is full loses its stream. *)
Definition publishMCPSSEEvent (sid payload : string) : M bool :=
  if maxSSEEvent <? len payload then mret false else
  stream ← mcp_section (λ r, (mcpSSEStreams (run_st r) !! sid, r));
  match stream with
  | None => mret false
  | Some p =>
      n ← select_case E;
      outcome ← mcp_section (section (send_event (Nat.even n) p payload));
      match outcome with
      | Sent => mret true
      | StreamDone => mret false
      | StreamFull => close_own_stream sid p;; mret false
      end
  end.

(** The locked part of registerMCPSSEStream, then the closing of the stream it replaces. *)
Definition open_stream (sid : string) : M nat :=
  r ← mcp_section (λ r, let '(p, previous, r') := register_stream sid r in ((p, previous), r'));
  let '(p, previous) := r in
  (match previous with Some q => mcp_section (λ r, (tt, finish_stream q r)) | None => mret tt end);;
  mret p.

(** Status and what was written; the response writer can flush. *)
Definition handleMCPGet (c : request_ctx) (accept session : string) : M (Z * list sse_chunk) :=
  if negb (acceptsMCPEventStream (env_unicode_lower E) accept) then mret (406, []) else
  if str_eqb session "" then mret (400, []) else
  let userID := cu_user (gc_caller c) in
  now ← time_Now E;
  valid ← mcp_section (section (touch_session session userID now));
  if negb valid then mret (404, []) else
  p ← open_stream session;
  finally (
    ok ← write_client E;
    if negb ok then mret (200, []) else
    turns ← polls E;
    written ← sse_loop turns session userID p [SComment "connected"];
    mret (200, written)) (close_own_stream session p).

(** *** Statistics *)

Definition job_phase_text (ph : job_phase) : string :=
  match ph with
  | Created => "created" | Uploading => "uploading" | Indexing => "indexing" | Publishing => "publishing" | Done => "done"
  end.
Definition activeJobPayload (j : index_job) : json :=
  JObj [("root_id", JStr (root_id (meta j))); ("indexed_files", JInt (indexed_count (prog j)));
        ("total_files", JInt (total_files (meta j))); ("phase", JStr (job_phase_text (phase (prog j))))].

Definition completed_jobs (tenantID : string) (d : DB) : Z :=
  rows_where (λ _ j, owned tenantID j && bool_decide (status (prog j) = Completed)) (index_jobs d).

(** [null] decodes into a nil map; storing the count into it panics, and the recovery
    middleware answers without a body. *)
Definition stats_panic : http := {| http_code := 500; http_body := [] |}.

Definition handleTenantStats (c : caller) : M http :=
  if str_eqb (cu_user c) "" then mret (respond 401 "unauthorized") else
  let tenantID := requestTenantID c in
  reply ← callTool E {| lr_tool := "codebase_tenant_stats"; lr_args := [("tenant_id", JStr tenantID)] |};
  match reply with
  | Err text => mret (respond 500 ("获取统计失败: " +:+ text))
  | Ok result =>
      if IsError result then
        mret {| http_code := 500; http_body := [("error", JStr "获取统计失败"); ("detail", JStr (raw (Content result)))] |}
      else
        match decoded (Content result) with
        | Some (JObj m) =>
            n ← try (query E (λ d, Ok (completed_jobs tenantID d)));
            let m := jset "indexingCount" (JInt (match n with Ok k => k | Err _ => 0 end)) m in
            active ← try (query E (λ d, Ok (loadActiveIndexJob tenantID d)));
            mret {| http_code := 200;
                    http_body := match active with
                                 | Ok (Some (_, j)) => jset "active_job" (activeJobPayload j) m
                                 | _ => m
                                 end |}
        | Some JNull => ignore (query E (λ _, Ok tt));; mret stats_panic
        | _ => mret {| http_code := 200; http_body := [("raw", JStr (raw (Content result)))] |}
        end
  end.
End handlers.
