(* ===== verification/Router.v ===== *)
(** * Serving a request (main.go: main, authMiddleware)

    The routes of the server and what runs around a handler: the console routes without an
    account, then authentication, the request log, the barrier of the platform configuration, the
    handler, and the completion of the log with the status that was answered.  The log's
    background writes run here at the place where they are started. *)
From Stdlib Require Import Ascii String.
From S2P Require Import Prelude GoStrings Paths Manifest Failure Json Lce ToolPolicy Sse Sessions SessionSteps.
From S2P Require Import Store Effects Leases ClientVersion QuotaLimits Quota IndexStatements IndexJobs IndexTool.
From S2P Require Import RootDeletion PlatformConfig RootAdmin Admission Auth Console RequestLogs McpServer.
Open Scope Z_scope.

Inductive route :=
| Metrics | Healthz | GetModelConfig | SaveModelConfig | GetVersionPolicy | SaveVersionPolicy
| McpPost | McpDelete | McpGet | ClearIndex | TenantStats | ListRoots | DismissRootFailure | DeleteRoot
| CreateRootDeletion | ListRootDeletions | NoRoute.

#[export] Instance route_eq_dec : EqDecision route.
Proof. solve_decision. Defined.

(** The table of routes; [/metrics] exists only with a token. *)
Definition routes (metricsToken : string) : list (string * string * route) :=
  (if str_eqb metricsToken "" then [] else [("GET", "/metrics", Metrics)]) ++
  [("GET", "/healthz", Healthz);
   ("GET", "/internal/platform-model-config", GetModelConfig);
   ("POST", "/internal/platform-model-config", SaveModelConfig);
   ("GET", "/internal/client-version-policy", GetVersionPolicy);
   ("POST", "/internal/client-version-policy", SaveVersionPolicy);
   ("POST", "/mcp", McpPost); ("DELETE", "/mcp", McpDelete); ("GET", "/mcp", McpGet);
   ("POST", "/mcp/clear-index", ClearIndex); ("GET", "/mcp/tenant-stats", TenantStats);
   ("GET", "/mcp/roots", ListRoots); ("POST", "/mcp/dismiss-root-failure", DismissRootFailure);
   ("POST", "/mcp/delete-root", DeleteRoot); ("POST", "/mcp/root-deletions", CreateRootDeletion);
   ("GET", "/mcp/root-deletions", ListRootDeletions)].

Fixpoint find_route (table : list (string * string * route)) (method path : string) : route :=
  match table with
  | [] => NoRoute
  | (m, p, r) :: rest => if str_eqb m method && str_eqb p path then r else find_route rest method path
  end.

(** Routes registered before the authentication. *)
Definition open_route (r : route) : bool :=
  match r with
  | Metrics | Healthz | GetModelConfig | SaveModelConfig | GetVersionPolicy | SaveVersionPolicy => true
  | _ => false
  end.

(** What the decoders of the handlers make of the body and the query. *)
Record incoming := {
  in_request : http_request;
  in_operation : string;                        (* the query parameter [operation] *)
  in_ip : string;
  in_client : client_body;                      (* POST /mcp *)
  in_save : option save_request;
  in_version : option (list (string * json));
  in_root : option string;                      (* [root_id] of a deletion or dismissal *)
  in_deletion : option (string * string)        (* [root_id] and [retry_job_id] *)
}.

Inductive response :=
| RHttp (h : http)
| RRefused (r : refusal)
| RConsole (r : console_reply)
| RPost (r : post_reply)
| RStatus (status : Z)
| RStream (status : Z) (written : list sse_chunk)
| RRoots (h : http) (roots : list indexRootView)
| RDeletion (h : http) (job : option rootDeletionJob)
| RDeletions (h : http) (jobs : list rootDeletionJob)
| RMetrics.

(** ** What the request log records *)

(** Status, source and text of the error detail ([""]: none); [None]: the log is not completed. *)
Abbreviation logged := (option (Z * string * string)).
Definition plainly (status : Z) : logged := Some (status, "", "").

(** The text of an error response after [prefix]. *)
Definition error_after (prefix : string) (h : http) : option string :=
  match jget "error" (http_body h) with Some (JStr t) => strip_prefix prefix t | _ => None end.
Definition with_detail (source prefix : string) (h : http) : logged :=
  match error_after prefix h with
  | Some text => Some (http_code h, source, text)
  | None => plainly (http_code h)
  end.

Definition tool_logged (r : tool_reply) : logged :=
  match r with
  | ClientGone => plainly 499
  | IndexFailed e => Some (200, match e with IndexUpstreamError _ _ => "lce" | _ => "relay" end, error_text e)
  | StatusFailed text => Some (200, "relay", text)
  | SwiftRefused e => Some (200, "relay", se_Message e)
  | UpstreamFailed text => Some (200, "lce", text)
  | RpcError _ _ | IndexAnswer _ | StatusAnswer _ _ _ _ | ToolText _ _ => plainly 200
  end.

(** A refusal by the deferred quota is logged only when the body was a request. *)
Definition post_logged (body : client_body) (r : post_reply) : logged :=
  match r with
  | Refused f =>
      if negb (cb_failed body) && (cb_len body <=? maxClientMCPBody) && bool_decide (is_Some (cb_rpc body))
      then plainly (http_code (rf_http f)) else None
  | HttpError status code message =>
      if (status =? 200) && (code =? -32000)
      then Some (status, "lce", default "" (strip_prefix "upstream error: " message))
      else plainly status
  | Initialized _ | ToolList _ => plainly 200
  | Accepted => plainly 202
  | ToolCalled t => tool_logged t
  end.

Definition logged_of (r : route) (x : incoming) (a : response) : logged :=
  match a with
  | RPost p => post_logged (in_client x) p
  | RStatus status | RStream status _ => plainly status
  | RRoots h _ | RDeletions h _ => plainly (http_code h)
  | RDeletion h _ =>
      match error_after "retry_job_id must be a UUID" h with Some _ => None | None => plainly (http_code h) end
  | RHttp h =>
      match r with
      | ClearIndex => with_detail "lce" "清除索引失败: " h
      | TenantStats => if bool_decide (http_body h = []) then None else with_detail "lce" "获取统计失败: " h
      | DismissRootFailure => with_detail "lce" "清除云端索引失败: " h
      | DeleteRoot =>
          match error_after "清除 Relay 索引状态失败: " h with
          | Some text => Some (http_code h, "relay", text)
          | None => with_detail "lce" "清除云端索引失败: " h
          end
      | _ => plainly (http_code h)
      end
  | RRefused _ | RConsole _ | RMetrics => None
  end.

(** [ContextKeyMetricsPath] when the handler returns; [""]: the path of the request is kept. *)
Definition logged_path (r : route) (x : incoming) : string :=
  match r with
  | McpPost =>
      if cb_failed (in_client x) || (maxClientMCPBody <? cb_len (in_client x)) then ""
      else match cb_rpc (in_client x) with Some rpc => normalizedMCPRequestPath rpc | None => "" end
  | McpDelete => "/mcp/session/terminate"
  | McpGet => "/mcp/session/listen"
  | _ => ""
  end.

Section serve.
Context (E : Env) (strconv_Quote : string → string) (strict : list (string * json) → index_call).
(** [METRICS_TOKEN], without surrounding blanks. *)
Context (metricsToken : string).

(** The routes without authentication. *)
Definition open_handler (r : route) (x : incoming) : M response :=
  let q := in_request x in
  match r with
  | Metrics =>
      mret (if str_eqb (q_authorization q) ("Bearer " +:+ metricsToken) then RMetrics
            else RHttp (respond 404 "route not found"))
  | GetModelConfig => a ← handleGetPlatformModelConfig E q (in_operation x); mret (RConsole a)
  | SaveModelConfig => a ← handleSavePlatformModelConfig E q (in_save x); mret (RConsole a)
  | GetVersionPolicy => a ← handleGetClientVersionPolicy E q; mret (RConsole a)
  | SaveVersionPolicy => a ← handleSaveClientVersionPolicy E q (in_version x); mret (RConsole a)
  | _ => mret (RHttp {| http_code := 200; http_body := [("ok", JBool true)] |})
  end.

(** A stream whose client went away is logged with status 499. *)
Definition stream_response (a : Z * list sse_chunk) : M response :=
  if a.1 =? 200 then gone ← canceled E; mret (RStream (if (gone : bool) then 499 else 200) a.2)
  else mret (RStream a.1 a.2).

Definition handler (r : route) (ad : admitted) (x : incoming) : M response :=
  let c := ad_ctx ad in
  let u := gc_caller c in
  let q := in_request x in
  match r with
  | McpPost => a ← handleMCPPost E strconv_Quote strict c (ad_deferred ad) (q_session q) (in_client x); mret (RPost a)
  | McpDelete => a ← handleMCPDelete E c (q_session q); mret (RStatus a)
  | McpGet => a ← handleMCPGet E c (q_accept q) (q_session q); stream_response a
  | ClearIndex => a ← handleClearIndex E u; mret (RHttp a)
  | TenantStats => a ← handleTenantStats E u; mret (RHttp a)
  | ListRoots => a ← handleListRoots E u; mret (RRoots a.1 a.2)
  | DismissRootFailure => a ← handleDismissRootFailure E u (in_root x); mret (RHttp a)
  | DeleteRoot => a ← handleDeleteRoot E u (in_root x); mret (RHttp a)
  | CreateRootDeletion => a ← handleCreateRootDeletion E u (in_deletion x); mret (RDeletion a.1 a.2)
  | ListRootDeletions => a ← handleListRootDeletions E u; mret (RDeletions a.1 a.2)
  | _ => mret (RHttp (respond 404 "route not found"))
  end.

(** After a successful clear the user's completed logs go, too. *)
Definition after_clear (r : route) (ad : admitted) (a : response) : M unit :=
  match r, a with
  | ClearIndex, RHttp h =>
      if http_code h =? 200 then deleteUserLogsAsync E (cu_user (gc_caller (ad_ctx ad))) (ad_start ad) else mret tt
  | _, _ => mret tt
  end.

Definition complete_request (r : route) (ad : admitted) (x : incoming) (a : response) : M unit :=
  match logged_of r x a with
  | None => mret tt
  | Some (status, source, detail) =>
      e ← getRequestLogEntry E (ad_log_id ad) (logged_path r x) (Some (ad_start ad)) (negb (ad_console ad)) status;
      completeRequestLogWithErrorAsync E e source detail
  end.

Definition handle_logged (r : route) (ad : admitted) (x : incoming) : M response :=
  a ← handler r ad x;
  after_clear r ad a;;
  complete_request r ad x a;;
  mret a.

(** The rest of the middleware, and the barrier. *)
Definition serve_admitted (r : route) (ad : admitted) (x : incoming) : M response :=
  let q := in_request x in
  let u := gc_caller (ad_ctx ad) in
  (if ad_console ad then mret tt
   else insert_request_log E (ad_log_id ad) (cu_user u) (cu_tenant u) (q_path q) (q_method q) (in_ip x) (ad_start ad));;
  a ← platformModelConfigReadBarrier E q (handle_logged r ad x);
  mret (match a with inl f => RRefused f | inr b => b end).

Definition serve (x : incoming) : M response :=
  let q := in_request x in
  let r := find_route (routes metricsToken) (q_method q) (q_path q) in
  if open_route r then open_handler r x else
  a ← authMiddleware E q (in_client x);
  match a with
  | inl f => mret (RRefused f)
  | inr ad => serve_admitted r ad x
  end.
End serve.
