(* ===== verification/Settings.v ===== *)
(** * Configuration, log lines and route labels (main.go, obslog.go, metrics.go)

    What the process reads from its environment at the start, the text of a structured log line
    and the labels under which requests are counted. *)
From Stdlib Require Import Ascii String.
From S2P Require Import Prelude GoStrings Paths Sha256 Manifest Json Lce ToolPolicy Sse Store Effects.
From S2P Require Import RootAdmin Admission Auth TenantAssertion McpServer.
Open Scope Z_scope.

(** ** Environment variables *)

Section settings.
(** [Getenv]: the empty text when unset. The parsers of durations, addresses and IPs are those
    of Go's packages time and net. *)
Context (Getenv : string → string) (ParseDuration : string → option Z)
        (SplitHostPort : string → option string) (IsLoopbackIP : string → bool).

Definition getEnv (key defaultValue : string) : string :=
  if str_eqb (Getenv key) "" then defaultValue else Getenv key.
Definition getEnvInt (key : string) (defaultValue : Z) : Z :=
  if str_eqb (Getenv key) "" then defaultValue
  else match ParseInt (Getenv key) with Ok n => n | Err _ => defaultValue end.
Definition getEnvInt64 (key : string) (defaultValue : Z) : Z := getEnvInt key defaultValue.
Definition getEnvDuration (key : string) (defaultValue : Z) : Z :=
  if str_eqb (Getenv key) "" then defaultValue else default defaultValue (ParseDuration (Getenv key)).

Definition isLoopbackServerAddr (addr : string) : bool :=
  let host := default addr (SplitHostPort addr) in
  str_eqb host "localhost" || IsLoopbackIP host.

Definition parsePathSet (value : string) : gset string :=
  list_to_set (omap (λ raw,
    let path := TrimSpace raw in
    if str_eqb path "" then None
    else if negb (str_eqb path "*") && negb (HasPrefix path "/") then Some ("/" +:+ path) else Some path)
    (Split "," value)).
Definition parseTrustedProxies (value : string) : list string :=
  List.filter (λ proxy, negb (str_eqb proxy "")) (map TrimSpace (Split "," value)).

Definition defaultDailyIndexBytes : Z := Z.shiftl 2 30.

Record settings := {
  serverAddr : string; lceMCPURL : string; lceHealthURL : string; lcePlatformConfigURL : string;
  lcePlatformConfigToken : string; tenantAssertions : tenantAssertionSigner; trustedProxies : list string;
  debugCapturePaths : gset string; debugCaptureMaxBytes : Z; configured_min_version : string; relay_config : Config
}.

(** [Err]: the process stops. [offset] is that of the quota time zone. *)
Definition loadConfig (offset : Z) : result error settings :=
  let addr := getEnv "SERVER_ADDR" "127.0.0.1:8080" in
  let url := getEnv "LCE_MCP_URL" "http://127.0.0.1:3000/mcp" in
  let secret := Getenv "LCE_TENANT_ASSERTION_SECRET" in
  match newTenantAssertionSigner secret with
  | Err e => Err e
  | Ok signer =>
      reject (match signer with None => negb (isLoopbackServerAddr addr) | Some _ => false end)
        with Errorf ("LCE_TENANT_ASSERTION_SECRET is required when binding to a non-loopback address (" +:+ addr +:+ ")") in
      Ok {| serverAddr := addr; lceMCPURL := url;
            lceHealthURL := trim_right_byte "/" url +:+ "/health";
            lcePlatformConfigURL := trim_right_byte "/" url +:+ "/platform-model-config";
            lcePlatformConfigToken := if str_eqb secret "" then "" else sha256_hex ("lce-platform-model-config-auth:" +:+ secret);
            tenantAssertions := signer; trustedProxies := parseTrustedProxies (getEnv "TRUSTED_PROXIES" "");
            debugCapturePaths := parsePathSet (getEnv "DEBUG_CAPTURE_PATHS" "");
            debugCaptureMaxBytes := getEnvInt "DEBUG_CAPTURE_MAX_BYTES" 4096;
            configured_min_version := TrimSpace (getEnv "MIN_CLIENT_VERSION" "");
            relay_config := {|
              defaultDailyRequestLimit := getEnvInt "DEFAULT_DAILY_REQUEST_LIMIT" 0;
              dailyIndexBytesLimit := getEnvInt64 "DAILY_INDEX_BYTES_LIMIT" defaultDailyIndexBytes;
              proDailyRequestLimit := getEnvInt "PRO_DAILY_REQUEST_LIMIT" 0;
              proDailyIndexBytesLimit := getEnvInt64 "PRO_DAILY_INDEX_BYTES_LIMIT" 0;
              bannedCacheTTL := getEnvDuration "BANNED_CACHE_TTL" (5 * Minute);
              mcpMaxSessions := Z.max 1 (getEnvInt "MCP_MAX_SESSIONS" 1000);
              mcpMaxSessionsPerUser := Z.max 1 (getEnvInt "MCP_MAX_SESSIONS_PER_USER" 16);
              trustedConsoleToken := configureTrustedConsole (getEnv "CONSOLE_API_SECRET" "");
              modelConfigKey := initModelConfigKey (getEnv "MODEL_CONFIG_SECRET" "");
              quotaLocation_offset := offset |} |}
  end.
End settings.

Definition shouldDebugCapture (s : settings) (path : string) : bool :=
  bool_decide ("*" ∈ debugCapturePaths s) || bool_decide (path ∈ debugCapturePaths s).

(** The relay never serves a network unsigned: when the
    configuration is accepted, calls of LCE are signed with a secret of at least 32 bytes or the
    server listens on a loopback address only; and both session limits are positive, as the
    bounds on sessions require. *)
Theorem unsigned_only_on_loopback Getenv ParseDuration SplitHostPort IsLoopbackIP offset s :
  loadConfig Getenv ParseDuration SplitHostPort IsLoopbackIP offset = Ok s →
  match tenantAssertions s with
  | Some secret => minTenantAssertionSecretLength ≤ len secret
  | None => isLoopbackServerAddr SplitHostPort IsLoopbackIP (serverAddr s) = true
  end ∧ 0 < mcpMaxSessions (relay_config s) ∧ 0 < mcpMaxSessionsPerUser (relay_config s).
Proof.
  unfold loadConfig, newTenantAssertionSigner.
  destruct (str_eqb (TrimSpace (Getenv "LCE_TENANT_ASSERTION_SECRET")) "") eqn:E1.
  - destruct (negb (isLoopbackServerAddr _ _ _)) eqn:E2; [done|]. intros [= <-]. cbn -[Z.max].
    apply negb_false_iff in E2. split; [exact E2|lia].
  - destruct (_ <? minTenantAssertionSecretLength) eqn:E2; [done|]. intros [= <-]. cbn -[Z.max].
    apply Z.ltb_ge in E2. split; [exact E2|lia].
Qed.

(** The token of the configuration endpoint is derived from the secret as it was given. *)
Lemma loadConfig_token Getenv ParseDuration SplitHostPort IsLoopbackIP offset s :
  loadConfig Getenv ParseDuration SplitHostPort IsLoopbackIP offset = Ok s →
  let secret := Getenv "LCE_TENANT_ASSERTION_SECRET" in
  lcePlatformConfigToken s =
    (if str_eqb secret "" then "" else sha256_hex ("lce-platform-model-config-auth:" +:+ secret)) ∧
  (secret = "" → tenantAssertions s = None).
Proof.
  unfold loadConfig. destruct (newTenantAssertionSigner _) as [signer|e] eqn:E; [|done].
  destruct (match signer with None => _ | Some _ => _ end); [done|]. intros [= <-]. split; [done|].
  intros Hs. rewrite Hs in E. by injection E as <-.
Qed.

Definition ex_getenv (key : string) : string :=
  if str_eqb key "SERVER_ADDR" then "0.0.0.0:8080"
  else if str_eqb key "LCE_TENANT_ASSERTION_SECRET" then " 0123456789abcdef0123456789abcdef " else "".

Lemma unsigned_only_on_loopback_witness :
  match loadConfig ex_getenv (λ _, None) (λ _, Some "0.0.0.0") (λ _, false) 28800 with
  | Ok s => match tenantAssertions s with
            | Some secret => minTenantAssertionSecretLength ≤ len secret
            | None => isLoopbackServerAddr (λ _, Some "0.0.0.0") (λ _, false) (serverAddr s) = true
            end
  | Err _ => False
  end.
Proof.
  destruct (loadConfig ex_getenv (λ _, None) (λ _, Some "0.0.0.0") (λ _, false) 28800) as [s|e] eqn:E; [|discriminate E].
  destruct (unsigned_only_on_loopback ex_getenv (λ _, None) (λ _, Some "0.0.0.0") (λ _, false) 28800 s E) as [H _]. exact H.
Defined.

(** ** Log lines *)

Section log_lines.
(** [strconv_Quote]: strconv.Quote. *)
Context (strconv_Quote : string → string).

Definition needsLogfmtQuoting (value : string) : bool :=
  str_eqb value "" || existsb (λ c, has_byte c value) [" "; ascii_of_nat 9; CR; LF; DQ; "="]%char.

Definition log_value (value : string) : string := if needsLogfmtQuoting value then strconv_Quote value else value.

(** The pairs after the first; an odd last key has an empty value. *)
Fixpoint log_pairs (pairs : list string) : string :=
  match pairs with
  | [] => ""
  | [key] => " " +:+ key +:+ "=" +:+ log_value ""
  | key :: value :: rest => " " +:+ key +:+ "=" +:+ log_value value +:+ log_pairs rest
  end.
Definition formatLogEvent (event : string) (pairs : list string) : string := "evt=" +:+ event +:+ log_pairs pairs.

(** The data of a log or a response, at most [maxBytes] bytes of it. *)
Definition previewBytesForLog (data : string) (maxBytes : Z) : string :=
  let limit := if maxBytes <=? 0 then 4096 else maxBytes in
  let limit := if len data <? limit then len data else limit in
  let preview := String.substring 0 (Z.to_nat limit) data in
  strconv_Quote (if limit <? len data
                 then preview +:+ "...[truncated " +:+ FormatInt (len data - limit) +:+ " bytes]" else preview).

(** The keys of a sequence of pairs. *)
Fixpoint log_keys (pairs : list string) : list string :=
  match pairs with
  | [] => []
  | [key] => [key]
  | key :: _ :: rest => key :: log_keys rest
  end.

Lemma log_value_one_line v : (∀ s, has_byte LF (strconv_Quote s) = false) → has_byte LF (log_value v) = false.
Proof.
  intros HQ. unfold log_value. destruct (needsLogfmtQuoting v) eqn:E; [apply HQ|].
  unfold needsLogfmtQuoting in E. apply orb_false_iff in E as [_ E]. cbn [existsb] in E.
  repeat (apply orb_false_iff in E as [? E]). done.
Qed.

(** A log event is one line, whatever the values hold: a client cannot forge log lines. *)
Lemma log_event_one_line event pairs :
  (∀ s, has_byte LF (strconv_Quote s) = false) → has_byte LF event = false →
  Forall (λ k, has_byte LF k = false) (log_keys pairs) → has_byte LF (formatLogEvent event pairs) = false.
Proof.
  intros HQ He Hk. unfold formatLogEvent. rewrite !has_byte_app, He. change (has_byte LF "evt=") with false. cbn [orb].
  cut (∀ n l, (length l ≤ n)%nat → Forall (λ k, has_byte LF k = false) (log_keys l) → has_byte LF (log_pairs l) = false);
    [intros H; exact (H _ pairs (le_n _) Hk)|].
  clear Hk He. induction n as [|n IH]; intros [|k [|v rest]] Hn Hk; simpl in Hn; try done; try lia.
  - inv Hk. cbn [log_pairs]. rewrite !has_byte_app, log_value_one_line by done. by repeat (apply orb_false_iff; split).
  - cbn [log_keys] in Hk. inv Hk. cbn [log_pairs]. rewrite !has_byte_app, log_value_one_line, IH by (done || lia).
    by repeat (apply orb_false_iff; split).
Qed.
End log_lines.

(** ** Labels of requests *)

(** The context value set by a handler, the route template, or a constant. *)
Definition metricsPathLabel (context fullPath : string) : string :=
  if negb (str_eqb context "") then context else if negb (str_eqb fullPath "") then fullPath else "unmatched".

(** Every path under which a POST of the endpoint is counted and logged. *)
Definition request_paths : list string :=
  ["/mcp"; "/mcp/initialize"; "/mcp/notifications/initialized"; "/mcp/tools/list"; "/mcp/tools/call"]
  ++ map (λ name, "/mcp/tools/call/" +:+ name) (codebaseIndexToolName :: codebaseIndexStatusToolName :: map fst chatMCPToolPolicies).

Lemma assoc_in {A} k (l : list (string * A)) v : assoc k l = Some v → k ∈ l.*1.
Proof.
  induction l as [|[k' v'] l IH]; [done|]. cbn [assoc]. rewrite fmap_cons. cbn [fst]. rewrite elem_of_cons.
  destruct (str_eqb k k') eqn:E; [apply str_eqb_true in E; auto|auto].
Qed.

Lemma allowed_listed name :
  TrimSpace name = name → isChatMCPToolAllowed name = true →
  name ∈ codebaseIndexToolName :: codebaseIndexStatusToolName :: map fst chatMCPToolPolicies.
Proof.
  unfold isChatMCPToolAllowed. intros ->. rewrite !elem_of_cons.
  destruct (str_eqb name codebaseIndexToolName) eqn:E1; [apply str_eqb_true in E1; auto|].
  destruct (str_eqb name codebaseIndexStatusToolName) eqn:E2; [apply str_eqb_true in E2; auto|].
  cbn [orb]. unfold policy_of. destruct (assoc name chatMCPToolPolicies) eqn:Ea; [|done].
  intros _. right. right. apply assoc_in in Ea. exact Ea.
Qed.

(** The paths of requests form a fixed list, whatever a client sends. *)
Lemma request_path_bounded rpc : normalizedMCPRequestPath rpc ∈ request_paths.
Proof.
  unfold normalizedMCPRequestPath, request_paths. rewrite elem_of_app.
  assert (∀ name, isChatMCPToolAllowed (TrimSpace name) = true →
    "/mcp/tools/call/" +:+ TrimSpace name ∈ map (λ name, "/mcp/tools/call/" +:+ name)
      (codebaseIndexToolName :: codebaseIndexStatusToolName :: map fst chatMCPToolPolicies)) as Hname.
  { intros name Ha. apply allowed_listed in Ha; [|apply TrimSpace_idemp].
    apply list_elem_of_In, in_map. by apply list_elem_of_In. }
  repeat case_match; first [left; rewrite !elem_of_cons; tauto | right; by apply Hname].
Qed.
