(* ===== verification/Readers.v ===== *)
(** * Parts of handlers that write no table

    Quota lookups and charges (Redis and the account tables), calls to LCE and plain
    reads: they respect every preorder on the tables that the other parties respect.
    Refinement, isolation and the control properties all walk through them. *)
From Stdlib Require Import Ascii String.
From S2P Require Import Prelude GoStrings Paths Sha256 Manifest Failure Json Lce ToolPolicy Sse Sessions.
From S2P Require Import SessionSteps Store Effects.
From S2P Require Import Leases ClientVersion QuotaLimits Quota IndexStatements IndexJobs IndexTool.
From S2P Require Import RootDeletion.
From S2P Require Import PlatformConfig RootAdmin Admission Auth Console RequestLogs McpServer Router.
Open Scope Z_scope.

Section readers.
Context (R : relation DB) `{!PreOrder R} (E : Env) (HE : env_respects R E).

(** ** Quota *)

Lemma user_limit_reads key limit col plan user : respects R (user_limit E key limit col plan user).
Proof. unfold user_limit, cached, cache_get, cache_set, getUserPlanQuotaLimits. respects_tac. Qed.
Lemma org_owner_reads org : respects R (getOrgOwnerQuotaLimits E org).
Proof. unfold getOrgOwnerQuotaLimits. respects_tac. Qed.
Hint Resolve user_limit_reads org_owner_reads : eff.
Lemma org_limits_reads org : respects R (getOrgQuotaLimits E org).
Proof. unfold getOrgQuotaLimits, inherit_from_owner, cached, cache_get, cache_set. respects_tac. Qed.
Hint Resolve org_limits_reads : eff.
Lemma charge_files_reads tenant org tier root files :
  respects R (chargeIndexFiles E tenant org tier root files).
Proof. unfold chargeIndexFiles, resolveIndexBytesQuota, getUserIndexBytesLimit. respects_tac. Qed.

(** ** Jobs and calls *)

Lemma load_job_reads user id : respects R (loadIndexJob E user id).
Proof. unfold loadIndexJob. respects_tac. Qed.
Lemma remote_call_reads prefix args : respects R (remote_index_call E prefix args).
Proof. unfold remote_index_call. respects_tac. Qed.
Hint Resolve load_job_reads remote_call_reads : eff.
Lemma begin_attempts_reads left args : respects R (begin_attempts E left args).
Proof. induction left as [|left IH]; simpl; respects_tac. Qed.
Hint Resolve begin_attempts_reads : eff.
Lemma begin_job_reads user id root b : respects R (beginLCEIndexJob E user id root b).
Proof. unfold beginLCEIndexJob. respects_tac. Qed.
Lemma abort_job_reads user id root : respects R (abortLCEIndexJob E user id root).
Proof. unfold abortLCEIndexJob. respects_tac. Qed.
Hint Resolve begin_job_reads abort_job_reads : eff.
Lemma for_each_respects {A} (f : A → M unit) l :
  (∀ x, respects R (f x)) → respects R (for_each f l).
Proof. intros Hf. induction l as [|x l IH]; simpl; respects_tac. Qed.
Lemma abort_unpublished_reads user kv : respects R (abort_unpublished E user kv).
Proof. unfold abort_unpublished. respects_tac. Qed.
Lemma publication_call_reads c op : respects R (publicationCall E c op).
Proof. unfold publicationCall. respects_tac. Qed.

(** ** The tool and the version policy *)

Lemma current_version_reads : respects R (currentMinClientVersion E).
Proof. unfold currentMinClientVersion. respects_tac. Qed.
Lemma get_job_reads user id : respects R (getIndexJob E user id).
Proof. unfold getIndexJob. respects_tac. Qed.
Lemma renew_staging_reads user id root : respects R (renew_staging E user id root).
Proof. unfold renew_staging. respects_tac. Qed.
Lemma set_version_reads version : respects R (setMinClientVersion E version).
Proof. unfold setMinClientVersion. respects_tac. Qed.
Hint Resolve current_version_reads set_version_reads : eff.
Lemma migrate_version_reads Q : respects R (migrateClientVersionPolicy E Q).
Proof.
  unfold migrateClientVersionPolicy, check_configured_version, load_stored_version. respects_tac.
  apply respects_atomically; [apply _|exact HE|]. by intros ? ? ? ? [= _ <-].
Qed.

(** ** Administration *)

Lemma load_config_reads id : respects R (loadPlatformConfigJob E id).
Proof. unfold loadPlatformConfigJob. respects_tac. Qed.
Lemma drain_reads fuel : respects R (drain E fuel).
Proof. induction fuel as [|fuel IH]; simpl; respects_tac. Qed.
Lemma cooldown_reads tenant : respects R (checkClearIndexCooldown E tenant).
Proof. unfold checkClearIndexCooldown. respects_tac. Qed.
Lemma or_respond_respects {A} (m : M A) c prefix k :
  respects R m → (∀ a, respects R (k a)) → respects R (or_respond m c prefix k).
Proof. intros Hm Hk. unfold or_respond. respects_tac. Qed.
Lemma load_roots_reads tenant : respects R (loadIndexRoots E tenant).
Proof. unfold loadIndexRoots. respects_tac. Qed.
Hint Resolve load_roots_reads load_config_reads : eff.
Lemma list_roots_reads c : respects R (handleListRoots E c).
Proof. unfold handleListRoots. respects_tac. Qed.
Lemma list_deletions_reads c : respects R (handleListRootDeletions E c).
Proof.
  unfold handleListRootDeletions, loadRootDeletions. respects_tac.
  apply respects_atomically; [apply _|exact HE|]. by intros ? ? ? ? [= _ <-].
Qed.
Lemma tenant_stats_reads c : respects R (handleTenantStats E c).
Proof. unfold handleTenantStats. respects_tac. Qed.

(** ** Admission and authentication *)

Lemma member_limit_reads org user : respects R (getMemberDailyLimit E org user).
Proof. unfold getMemberDailyLimit, cached, cache_get, cache_set. respects_tac. Qed.
Hint Resolve member_limit_reads : eff.
Lemma check_request_reads user org tier : respects R (checkRequestQuotaDetailed E user org tier).
Proof. unfold checkRequestQuotaDetailed, getUserDailyLimit, reserveRequestQuota. respects_tac. Qed.
Hint Resolve check_request_reads : eff.
Lemma admit_daily_reads c : respects R (admitDailyRequestQuota E c).
Proof. unfold admitDailyRequestQuota. respects_tac. Qed.
Hint Resolve admit_daily_reads : eff.
Lemma admit_deferred_reads c b rpc : respects R (admitDeferredMCPQuota E c b rpc).
Proof. unfold admitDeferredMCPQuota. respects_tac. Qed.
Lemma reserve_swift_reads tenant org tier args : respects R (reserveSwiftUpload E tenant org tier args).
Proof.
  unfold reserveSwiftUpload, resolveIndexBytesQuota, getUserIndexBytesLimit, chargeSwiftPart. respects_tac.
Qed.
Hint Resolve admit_deferred_reads reserve_swift_reads : eff.
Lemma organization_reads id : respects R (authorizeOrganizationIdentity E id).
Proof. unfold authorizeOrganizationIdentity. respects_tac. Qed.
Hint Resolve organization_reads : eff.
Lemma authenticate_reads header : respects R (authenticateRequest E header).
Proof. unfold authenticateRequest, lookupAPIKey, cache_put. respects_tac. Qed.
Lemma banned_reads user : respects R (isUserBanned E user).
Proof. unfold isUserBanned, cache_get, cache_set. respects_tac. Qed.
Hint Resolve authenticate_reads banned_reads : eff.
Lemma middleware_reads q body : respects R (authMiddleware E q body).
Proof. unfold authMiddleware, admit_identity, admit_quota. respects_tac. Qed.

(** ** The MCP endpoint *)

Lemma section_reads {A} (f : McpRun → A * McpRun) : respects R (mcp_section E f).
Proof. unfold mcp_section. respects_tac. Qed.
Hint Resolve section_reads : eff.
Lemma close_stream_reads sid : respects R (close_session_stream E sid).
Proof. unfold close_session_stream. respects_tac. Qed.
Lemma close_own_reads sid p : respects R (close_own_stream E sid p).
Proof. unfold close_own_stream. respects_tac. Qed.
Hint Resolve close_stream_reads close_own_reads : eff.
Lemma close_streams_reads ids : respects R (closeMCPSSEStreams E ids).
Proof. induction ids as [|id ids IH]; simpl; respects_tac. Qed.
Hint Resolve close_streams_reads : eff.
Lemma sweep_sessions_reads : respects R (sweepExpiredMCPSessions E).
Proof. unfold sweepExpiredMCPSessions. respects_tac. Qed.
Lemma mcp_delete_reads c sid : respects R (handleMCPDelete E c sid).
Proof. unfold handleMCPDelete. respects_tac. Qed.
Lemma sse_loop_reads fuel sid user p written : respects R (sse_loop E fuel sid user p written).
Proof. revert written. induction fuel as [|fuel IH]; intros written; simpl; respects_tac. Qed.
Hint Resolve sse_loop_reads : eff.
Lemma mcp_get_reads c accept sid : respects R (handleMCPGet E c accept sid).
Proof. unfold handleMCPGet, open_stream. respects_tac. Qed.
Lemma tools_list_reads Q : respects R (getCachedToolsList E Q).
Proof. unfold getCachedToolsList, readToolsCache. respects_tac. Qed.
Lemma rerank_reads user : respects R (loadRerankModelConfigArg E user).
Proof. unfold loadRerankModelConfigArg, getUserModelConfigRow. respects_tac. Qed.
Hint Resolve tools_list_reads rerank_reads : eff.
Lemma status_tool_reads Q tenant args : respects R (call_status_tool E Q tenant args).
Proof. unfold call_status_tool. respects_tac. Qed.
Lemma public_tool_reads c user tenant name args : respects R (call_public_tool E c user tenant name args).
Proof. unfold call_public_tool, forward_tool, active_job_of. respects_tac. Qed.
Hint Resolve status_tool_reads public_tool_reads : eff.

(** The index tool is the only call that writes tables. *)
Lemma mcp_post_respects Q strict c b sid body :
  (∀ call, respects R (handleCodebaseIndex E
     (if str_eqb (requestTenantID (gc_caller c)) "" then cu_user (gc_caller c) else requestTenantID (gc_caller c))
     (cu_org (gc_caller c)) (gc_tier c) call)) →
  respects R (handleMCPPost E Q strict c b sid body).
Proof.
  intros Hindex. unfold handleMCPPost, after_quota, handle_initialize, dispatch, handleMCPToolsCall, call_index_tool.
  respects_tac.
Qed.

(** ** Request logs *)

Lemma insert_log_reads id user tenant path method ip start :
  respects R (insert_request_log E id user tenant path method ip start).
Proof. unfold insert_request_log. respects_tac. Qed.
Lemma delete_logs_reads user before : respects R (deleteUserLogsAsync E user before).
Proof. unfold deleteUserLogsAsync, deleteCompletedUserLogsBefore. respects_tac. Qed.
Hint Resolve insert_log_reads delete_logs_reads : eff.
Lemma complete_request_reads r ad x a : respects R (complete_request E r ad x a).
Proof.
  unfold complete_request, getRequestLogEntry, completeRequestLogWithErrorAsync, completeRequestLogAsync,
    completeRequestLogRecordAsync, persistRequestLogCompletion, await_insert. respects_tac.
Qed.
Hint Resolve complete_request_reads : eff.

(** A served request moves the tables as its handler does. *)
Lemma serve_admitted_respects Q strict r ad x :
  respects R (handler E Q strict r ad x) → respects R (serve_admitted E Q strict r ad x).
Proof.
  intros Hh. unfold serve_admitted, platformModelConfigReadBarrier, handle_logged, after_clear. respects_tac.
Qed.
End readers.

#[export] Hint Resolve user_limit_reads org_owner_reads org_limits_reads charge_files_reads
  load_job_reads remote_call_reads begin_attempts_reads begin_job_reads abort_job_reads
  for_each_respects abort_unpublished_reads publication_call_reads load_config_reads drain_reads
  cooldown_reads current_version_reads get_job_reads renew_staging_reads set_version_reads
  migrate_version_reads load_roots_reads list_roots_reads list_deletions_reads tenant_stats_reads
  middleware_reads mcp_delete_reads mcp_get_reads sweep_sessions_reads : eff.

(** Walk through an HTTP handler. *)
Ltac respects_http := repeat first [progress respects_tac | apply or_respond_respects].
