(* ===== verification/System.v ===== *)
(** * The system

    The database as a state machine: one constructor of [step] per atomic statement or
    transaction of the relay, whoever runs it.  A property that every step preserves
    holds in every reachable state, for any number of instances, any interleaving of
    requests and workers and any failure between two steps.  [Class StepInvariant]
    states the contract, its instances discharge it per component, and
    [Refinement] shows that every handler only makes such steps. *)
From Stdlib Require Import Ascii String.
From S2P Require Import Prelude GoStrings Paths Manifest Failure Json Lce Store Effects Leases.
From S2P Require Import IndexStatements IndexJobs RootDeletion PlatformConfig RootAdmin.
Open Scope Z_scope.

Inductive step : DB → DB → Prop :=
(* index_operations.go *)
| step_acquire user resource kind token md now d b d' :
    tryAcquireIndexOperation user resource kind token md now d = Ok (b, d') → step d d'
| step_renew user token now d b d' : renew_lease user token now d = Ok (b, d') → step d d'
| step_release user token d : step d (release_lease user token d)
(* index_jobs.go *)
| step_inspect ul user ws now d r d' : inspect_tx ul user ws now d = Ok (r, d') → step d d'
| step_create user id req0 req files now d p o d' p' :
    check_start req0 = Ok (req, files) →
    create_tx user id req files now d p = (Ok (o, d'), p') → step d d'
| step_start_upload user id now d b d' : start_upload user id now d = Ok (b, d') → step d d'
| step_commit user id files chunks fallback sent now d d' :
    commitIndexBatch user id files chunks fallback sent now d = Ok (tt, d') → step d d'
| step_begin_publication user id now d b d' : begin_publication user id now d = Ok (b, d') → step d d'
| step_keep_publishing user id now d d' : keep_publishing user id now d = Ok (tt, d') → step d d'
| step_record_revision user id rev now d d' : record_revision user id rev now d = Ok (tt, d') → step d d'
| step_complete user id root rev now d d' : complete_tx user id root rev now d = Ok (tt, d') → step d d'
| step_finish_failed ul user id msg now d b d' : finish_failed_tx ul user id msg now d = Ok (b, d') → step d d'
| step_fail user id msg diag now d r d' : fail_tx user id msg diag now d = Ok (r, d') → step d d'
| step_fail_begin ul user id msg now d d' : fail_begin ul user id msg now d = Ok (tt, d') → step d d'
| step_drop_files id d d' : drop_job_files id d = Ok (tt, d') → step d d'
| step_clear_user user d : step d (clearUserIndexStateTx user d)
| step_clear_root user root d : step d (clearRootIndexStateTx user root d).2
| step_sweep locked now d r d' : sweep_tx locked now d = Ok (r, d') → step d d'
| step_touch user id now d d' : touch_publication user id now d = Ok (tt, d') → step d d'
(* mcp_index_tool.go *)
| step_heartbeat user id now d d' : heartbeat_job user id now d = Ok (tt, d') → step d d'
(* client_version_policy.go *)
| step_save_setting key value d : step d (set_settings (insert key value) d)
(* root_admin.go *)
| step_dismiss user root published d : step d (dismissRootFailureState_tx user root published d).2
(* root_deletion_jobs.go *)
| step_submit tenant actor root retry id now d p r d' p' :
    submitRootDeletion_tx tenant actor root retry id now d p = (Ok (r, d'), p') → step d d'
| step_claim attempt locked now d r d' : claimRootDeletion_tx attempt locked now d = Ok (r, d') → step d d'
| step_defer job deferOnly now d d' :
    rd_attempt_count (dj_row job) ≤ rootDeletionMaxAttempts →
    recordRootDeletionError_tx job deferOnly now d = Ok (tt, d') → step d d'
| step_finish job count now d d' : finishRootDeletion_tx job count now d = Ok (tt, d') → step d d'
| step_prune locked now d d' : pruneRootDeletionHistory_tx locked now d = Ok (tt, d') → step d d'
(* platform_config_jobs.go *)
| step_enqueue_config id section changed now d r d' :
    enqueuePlatformConfigJob_tx id section changed now d = Ok (r, d') → step d d'
| step_recover_config id now d d' : recoverPlatformConfigJob_tx id now d = Ok (tt, d') → step d d'
| step_claim_config attempt locked now d r d' :
    claimPlatformConfigJob_tx attempt locked now d = Ok (r, d') → step d d'
| step_defer_config job now d d' : deferPlatformConfigJob_tx job now d = Ok (tt, d') → step d d'
| step_finish_config job r now d d' : finishPlatformConfigJob_tx job r now d = Ok (tt, d') → step d d'.

Definition reachable (d : DB) : Prop := rtc step empty_db d.

(** What a component promises to the rest of the system. *)
Class StepInvariant (I : DB → Prop) : Prop := {
  inv_init : I empty_db;
  inv_step : ∀ d d', step d d' → I d → I d'
}.

Lemma inv_rtc (I : DB → Prop) `{!StepInvariant I} d d' : rtc step d d' → I d → I d'.
Proof. induction 1 as [|x y z Hs _ IH]; [done|]. intros Hx. apply IH. by eapply inv_step. Qed.

Lemma inv_reachable (I : DB → Prop) `{!StepInvariant I} d : reachable d → I d.
Proof. intros H. exact (inv_rtc I empty_db d H inv_init). Qed.

#[export] Instance StepInvariant_and I J :
  StepInvariant I → StepInvariant J → StepInvariant (λ d, I d ∧ J d).
Proof.
  intros HI HJ. split; [split; apply inv_init|].
  intros d d' Hs [H1 H2]. split; eapply inv_step; eauto.
Qed.

(** ** Shapes of steps

    Which tables a step leaves alone; most steps are about one component. *)

Ltac step_cases H :=
  inversion H; subst;
  unfold start_upload, begin_publication, keep_publishing, record_revision, fail_begin,
    drop_job_files, touch_publication, heartbeat_job, recordRootDeletionError_tx, pruneRootDeletionHistory_tx,
    recoverPlatformConfigJob_tx, deferPlatformConfigJob_tx, renew_lease, sweep_tx in *;
  simplify_eq/=.

Lemma reclaim_frame ul user now l d :
  index_operation_leases (foldl (reclaim ul user now) d l) = index_operation_leases d ∧
  root_deletion_jobs (foldl (reclaim ul user now) d l) = root_deletion_jobs d ∧
  platform_config_jobs (foldl (reclaim ul user now) d l) = platform_config_jobs d ∧
  indexed_files (foldl (reclaim ul user now) d l) = indexed_files d.
Proof.
  revert d. induction l as [|kv l IH]; intros d; simpl; [done|].
  destruct (IH (reclaim ul user now d kv)) as (-> & -> & -> & ->). done.
Qed.

(** A step that leaves the leases as they are, unless it is a lease operation or the
    clearing of everything. *)
Lemma create_leases user id req files now d p o d' p' :
  create_tx user id req files now d p = (Ok (o, d'), p') →
  index_operation_leases d' = index_operation_leases d ∧
  root_deletion_jobs d' = root_deletion_jobs d ∧ platform_config_jobs d' = platform_config_jobs d ∧
  indexed_files d' = indexed_files d.
Proof. unfold create_tx. intros H. repeat case_match; by simplify_eq. Qed.

Lemma commit_frame user id files chunks fb sent now d d' :
  commitIndexBatch user id files chunks fb sent now d = Ok (tt, d') →
  index_operation_leases d' = index_operation_leases d ∧
  root_deletion_jobs d' = root_deletion_jobs d ∧ platform_config_jobs d' = platform_config_jobs d ∧
  indexed_files d' = indexed_files d.
Proof.
  unfold commitIndexBatch. destruct (find_job _ _ _); [|done]. destruct (negb (is_running _)); [done|].
  destruct (mark_files _ _); [|done]. destruct (negb (in_int64 _)); [done|]. by intros [= <-].
Qed.

Lemma complete_frame user id root rev now d d' :
  complete_tx user id root rev now d = Ok (tt, d') →
  index_operation_leases d' = index_operation_leases d ∧
  root_deletion_jobs d' = root_deletion_jobs d ∧ platform_config_jobs d' = platform_config_jobs d.
Proof.
  unfold complete_tx. destruct (find_job _ _ _); [|done]. destruct (complete_guard _); [|done].
  by intros [= <-].
Qed.

Lemma inspect_frame ul user ws now d r d' :
  inspect_tx ul user ws now d = Ok (r, d') →
  index_operation_leases d' = index_operation_leases d ∧
  root_deletion_jobs d' = root_deletion_jobs d ∧ platform_config_jobs d' = platform_config_jobs d ∧
  indexed_files d' = indexed_files d.
Proof.
  unfold inspect_tx. intros H. repeat case_match; simplify_eq; [|done]. apply reclaim_frame.
Qed.

Lemma finish_failed_frame ul user id msg now d b d' :
  finish_failed_tx ul user id msg now d = Ok (b, d') →
  index_operation_leases d' = index_operation_leases d ∧
  root_deletion_jobs d' = root_deletion_jobs d ∧ platform_config_jobs d' = platform_config_jobs d ∧
  indexed_files d' = indexed_files d.
Proof.
  unfold finish_failed_tx. destruct (markIndexJobFailed _ _ _ _ _ _) as [u d1] eqn:E.
  injection E as _ <-. destruct u; by intros [= _ <-].
Qed.

Lemma fail_frame user id msg diag now d r d' :
  fail_tx user id msg diag now d = Ok (r, d') →
  index_operation_leases d' = index_operation_leases d ∧
  root_deletion_jobs d' = root_deletion_jobs d ∧ platform_config_jobs d' = platform_config_jobs d ∧
  indexed_files d' = indexed_files d.
Proof.
  unfold fail_tx. destruct (find_job _ _ _); [|done].
  destruct (markIndexJobFailed _ _ _ _ _ _) as [u d1] eqn:E. injection E as _ <-.
  destruct u; [|done]. by intros [= _ <-].
Qed.

Lemma submit_frame tenant actor root retry id now d p r d' p' :
  submitRootDeletion_tx tenant actor root retry id now d p = (Ok (r, d'), p') →
  index_operation_leases d' = index_operation_leases d ∧
  platform_config_jobs d' = platform_config_jobs d ∧ index_jobs d' = index_jobs d ∧
  index_job_files d' = index_job_files d ∧ indexed_files d' = indexed_files d.
Proof. unfold submitRootDeletion_tx. intros H. repeat case_match; by simplify_eq. Qed.

Lemma claim_frame attempt locked now d r d' :
  claimRootDeletion_tx attempt locked now d = Ok (r, d') →
  index_operation_leases d' = index_operation_leases d ∧
  platform_config_jobs d' = platform_config_jobs d ∧ index_jobs d' = index_jobs d ∧
  index_job_files d' = index_job_files d ∧ indexed_files d' = indexed_files d.
Proof. unfold claimRootDeletion_tx. intros H. repeat case_match; by simplify_eq. Qed.

Lemma enqueue_frame id section changed now d r d' :
  enqueuePlatformConfigJob_tx id section changed now d = Ok (r, d') →
  index_operation_leases d' = index_operation_leases d ∧
  root_deletion_jobs d' = root_deletion_jobs d ∧ index_jobs d' = index_jobs d ∧
  index_job_files d' = index_job_files d ∧ indexed_files d' = indexed_files d.
Proof. unfold enqueuePlatformConfigJob_tx. intros H. repeat case_match; by simplify_eq. Qed.

Lemma claim_config_frame attempt locked now d r d' :
  claimPlatformConfigJob_tx attempt locked now d = Ok (r, d') →
  index_operation_leases d' = index_operation_leases d ∧
  root_deletion_jobs d' = root_deletion_jobs d ∧ index_jobs d' = index_jobs d ∧
  index_job_files d' = index_job_files d ∧ indexed_files d' = indexed_files d.
Proof. unfold claimPlatformConfigJob_tx. intros H. repeat case_match; by simplify_eq. Qed.

(** The shape of the two finishing transactions. *)
Lemma finish_inv job count now d d' :
  finishRootDeletion_tx job count now d = Ok (tt, d') →
  matches (dj_ID job) (attempt_current job now) (root_deletion_jobs d) = true ∧
  ∃ n, d' = set_deletions (update_row (dj_ID job)
              (λ r, str_eqb (rd_user r) (rd_user (dj_row job))
                    && bool_decide (rd_attempt_id r = rd_attempt_id (dj_row job)))
              (succeed_row n now))
              (clearRootIndexStateTx (rd_user (dj_row job)) (rd_root (dj_row job)) d).2.
Proof.
  unfold finishRootDeletion_tx. destruct (matches _ _ _); [|done]. simpl. intros [= <-].
  split; [done|]. by eexists.
Qed.

Lemma finish_config_inv job r now d d' :
  finishPlatformConfigJob_tx job r now d = Ok (tt, d') →
  matches (cj_ID job) (config_attempt_current job now) (platform_config_jobs d) = true ∧
  ∃ st n msg d1, (st = CSucceeded ∨ st = CRejected) ∧
    (d1 = d ∨ d1 = (clearAllRelayIndexStateTx d).2) ∧
    d' = set_configs (update_row (cj_ID job)
           (λ c, bool_decide (pc_attempt_id c = pc_attempt_id (cj_row job)))
           (finish_config_row st n msg now)) d1.
Proof.
  unfold finishPlatformConfigJob_tx. destruct (matches _ _ _); [|done]. simpl.
  destruct (negb _ && _); intros [= <-]; (split; [done|]); eexists _, _, _, _;
    (split; [|split; [|reflexivity]]); auto; by destruct (str_eqb _ _); auto.
Qed.

(** ** Leases *)

#[export] Instance leases_invariant : StepInvariant (λ d, leases_ok (index_operation_leases d)).
Proof.
  split.
  { split; [done|]. intros user resource. unfold upload_count. rewrite rows_where_zero; done. }
  intros d d' Hs Hok. step_cases Hs; try done;
    try (by eapply tryAcquire_leases_ok); try (by apply release_leases_ok).
  - exact (renew_leases_ok user token now d _ _ eq_refl Hok).
  - by destruct (inspect_frame _ _ _ _ _ _ _ H) as [-> _].
  - by destruct (create_leases _ _ _ _ _ _ _ _ _ _ H0) as [-> _].
  - by destruct (commit_frame _ _ _ _ _ _ _ _ _ H) as [-> _].
  - by destruct (complete_frame _ _ _ _ _ _ _ H) as [-> _].
  - by destruct (finish_failed_frame _ _ _ _ _ _ _ _ H) as [-> _].
  - by destruct (fail_frame _ _ _ _ _ _ _ _ H) as [-> _].
  - unfold dismissRootFailureState_tx. by destruct published.
  - by destruct (submit_frame _ _ _ _ _ _ _ _ _ _ _ H) as [-> _].
  - by destruct (claim_frame _ _ _ _ _ _ H) as [-> _].
  - destruct (finish_inv _ _ _ _ _ H) as (_ & n & ->). done.
  - by destruct (enqueue_frame _ _ _ _ _ _ _ H) as [-> _].
  - by destruct (claim_config_frame _ _ _ _ _ _ H) as [-> _].
  - destruct (finish_config_inv _ _ _ _ _ H) as (_ & st & n & msg & d1 & _ & [->| ->] & ->); [done|].
    simpl. split; [done|]. intros user resource. unfold upload_count. by rewrite rows_where_zero.
Qed.

(** ** Deletions and configuration jobs *)

Record control_ok (d : DB) : Prop := {
  co_deletion : ∀ i1 i2 r1 r2, root_deletion_jobs d !! i1 = Some r1 →
    root_deletion_jobs d !! i2 = Some r2 → deletion_active r1 = true → deletion_active r2 = true →
    rd_user r1 = rd_user r2 → i1 = i2;
  co_config : ∀ i1 i2 c1 c2, platform_config_jobs d !! i1 = Some c1 →
    platform_config_jobs d !! i2 = Some c2 → config_active c1 = true → config_active c2 = true →
    i1 = i2;
  co_fence : ∀ i c k r, platform_config_jobs d !! i = Some c → pc_embedding_changed c = true →
    config_active c = true → root_deletion_jobs d !! k = Some r → deletion_active r = false;
  co_attempts : ∀ i r, root_deletion_jobs d !! i = Some r → rd_attempt_count r ≤ rootDeletionMaxAttempts;
  co_config_attempts : ∀ i c, platform_config_jobs d !! i = Some c →
    pc_attempt_count c ≤ platformConfigJobMaxAttempts
}.

Lemma control_ok_ext d d' :
  root_deletion_jobs d' = root_deletion_jobs d → platform_config_jobs d' = platform_config_jobs d →
  control_ok d → control_ok d'.
Proof. intros E1 E2 [H1 H2 H3 H4 H5]. split; rewrite ?E1, ?E2; done. Qed.

(** Updating rows of existing deletions without activating any. *)
Definition deletion_le (r r' : root_deletion) : Prop :=
  rd_user r' = rd_user r ∧ (deletion_active r' = true → deletion_active r = true) ∧
  rd_attempt_count r' ≤ rootDeletionMaxAttempts.

Lemma control_ok_deletions d d' :
  control_ok d → platform_config_jobs d' = platform_config_jobs d →
  (∀ i r', root_deletion_jobs d' !! i = Some r' →
     ∃ r, root_deletion_jobs d !! i = Some r ∧ deletion_le r r') →
  control_ok d'.
Proof.
  intros [H1 H2 H3 H4 H5] E Hle. split; rewrite ?E; try done.
  - intros i1 i2 r1 r2 L1 L2 A1 A2 U.
    destruct (Hle _ _ L1) as (s1 & M1 & U1 & B1 & _), (Hle _ _ L2) as (s2 & M2 & U2 & B2 & _).
    apply (H1 i1 i2 s1 s2); auto. congruence.
  - intros i c k r Hc He Ha Hr. destruct (Hle _ _ Hr) as (s & M & _ & B & _).
    specialize (H3 i c k s Hc He Ha M). destruct (deletion_active r); [|done].
    rewrite B in H3 by done. done.
  - intros i r Hr. by destruct (Hle _ _ Hr) as (s & _ & _ & _ & Hn).
Qed.

Definition config_le (c c' : config_job) : Prop :=
  pc_embedding_changed c' = pc_embedding_changed c ∧ (config_active c' = true → config_active c = true) ∧
  pc_attempt_count c' ≤ platformConfigJobMaxAttempts.

Lemma control_ok_configs d d' :
  control_ok d → root_deletion_jobs d' = root_deletion_jobs d →
  (∀ i c', platform_config_jobs d' !! i = Some c' →
     ∃ c, platform_config_jobs d !! i = Some c ∧ config_le c c') →
  control_ok d'.
Proof.
  intros [H1 H2 H3 H4 H5] E Hle. split; rewrite ?E; try done.
  - intros i1 i2 c1 c2 L1 L2 A1 A2.
    destruct (Hle _ _ L1) as (s1 & M1 & _ & B1 & _), (Hle _ _ L2) as (s2 & M2 & _ & B2 & _).
    apply (H2 i1 i2 s1 s2); auto.
  - intros i c k r Hc He Ha Hr. destruct (Hle _ _ Hc) as (s & M & U & B & _).
    apply (H3 i s k r); auto. congruence.
  - intros i c Hc. by destruct (Hle _ _ Hc) as (s & _ & _ & _ & Hn).
Qed.

Lemma deletion_le_refl d i r :
  control_ok d → root_deletion_jobs d !! i = Some r → deletion_le r r.
Proof. intros Hok Hr. split_and!; [done..|]. by eapply co_attempts. Qed.
Lemma config_le_refl d i c :
  control_ok d → platform_config_jobs d !! i = Some c → config_le c c.
Proof. intros Hok Hc. split_and!; [done..|]. by eapply co_config_attempts. Qed.

Lemma foldl_insert_lookup {V} (f : V → V) (m0 m : gmap string V) (l : list (string * V)) k v' :
  (∀ kv, kv ∈ l → m0 !! kv.1 = Some kv.2) →
  foldl (λ m kv, <[kv.1 := f kv.2]> m) m l !! k = Some v' →
  m !! k = Some v' ∨ ∃ v, m0 !! k = Some v ∧ (k, v) ∈ l ∧ v' = f v.
Proof.
  revert m. induction l as [|[k0 v0] l IH]; intros m Hl Hk; simpl in Hk; [by left|].
  apply IH in Hk as [Hk|(v & Hv & Hin & ->)].
  - apply lookup_insert_Some in Hk as [[-> <-]|[_ Hk]]; [right|by left].
    exists v0. split_and!; [|by apply elem_of_cons; left|done].
    apply (Hl (k, v0)), elem_of_cons. by left.
  - right. exists v. split_and!; [done|by apply elem_of_cons; right|done].
  - intros kv Hkv. apply Hl, elem_of_cons. by right.
Qed.

Lemma foldl_delete_lookup {V} (m : gmap string V) (l : list (string * V)) k v :
  foldl (λ m kv, delete kv.1 m) m l !! k = Some v → m !! k = Some v.
Proof.
  revert m. induction l as [|kv l IH]; intros m Hk; simpl in Hk; [done|].
  apply IH, lookup_delete_Some in Hk as [_ Hk]. done.
Qed.

Lemma sorted_rows_in {V} (R : relation (string * V)) `{!RelDecision R} P (m : gmap string V) k v :
  (k, v) ∈ merge_sort R (List.filter P (map_to_list m)) → m !! k = Some v ∧ P (k, v) = true.
Proof.
  intros H. apply merge_sort_in, list_elem_of_In, List.filter_In in H as [H HP].
  split; [|done]. by apply elem_of_map_to_list, list_elem_of_In.
Qed.
Lemma in_take {A} n (l : list A) x : x ∈ take n l → x ∈ l.
Proof. intros (i & Hi & _)%elem_of_take. by eapply list_elem_of_lookup_2. Qed.

Lemma deletions_in_order_in locked P d k r :
  (k, r) ∈ deletions_in_order locked P d → root_deletion_jobs d !! k = Some r ∧ P r = true.
Proof.
  intros H. apply sorted_rows_in in H as [H HP]. split; [done|].
  by apply andb_true_iff in HP as [_ HP].
Qed.

Lemma active_deletion_None tenant d i r :
  active_deletion tenant d = None → root_deletion_jobs d !! i = Some r → rd_user r = tenant →
  deletion_active r = false.
Proof.
  unfold active_deletion. intros Hh Hr Hu. destruct (deletion_active r) eqn:Ea; [|done].
  exfalso. apply head_None in Hh.
  assert ((i, r) ∈ List.filter (λ kv : string * root_deletion,
            str_eqb (rd_user kv.2) tenant && deletion_active kv.2) (map_to_list (root_deletion_jobs d)))
    as Hin.
  { apply list_elem_of_In, List.filter_In. split; [by apply list_elem_of_In, elem_of_map_to_list|].
    simpl. rewrite Hu, str_eqb_refl, Ea. done. }
  rewrite Hh in Hin. by apply not_elem_of_nil in Hin.
Qed.

Lemma active_deletion_Some tenant d i r :
  active_deletion tenant d = Some (i, r) →
  root_deletion_jobs d !! i = Some r ∧ rd_user r = tenant ∧ deletion_active r = true.
Proof.
  unfold active_deletion. intros Hh. apply head_Some_elem_of in Hh.
  apply list_elem_of_In, List.filter_In in Hh as [Hin HP]. simpl in HP. reflect_bools.
  split_and!; [by apply elem_of_map_to_list, list_elem_of_In|by apply str_eqb_true|done].
Qed.

Lemma submit_control tenant actor root retry id now d p r d' p' :
  submitRootDeletion_tx tenant actor root retry id now d p = (Ok (r, d'), p') →
  control_ok d → control_ok d'.
Proof.
  unfold submitRootDeletion_tx. intros H Hok.
  destruct (active_deletion tenant d) as [[i r0]|] eqn:Ea.
  - destruct (_ || _); [done|]. destruct (_ && _); simplify_eq; [|done].
    apply active_deletion_Some in Ea as (Hr0 & Hu & Hact).
    apply (control_ok_deletions d); [done|done|]. simpl. intros k r' Hk.
    apply lookup_insert_Some in Hk as [[-> <-]|[_ Hk]]; [|eauto using deletion_le_refl].
    exists r0. split; [done|]. split_and!; [done|done|]. done.
  - destruct (negb _); [by repeat case_match; simplify_eq|].
    destruct (tenant_busy tenant now d) eqn:Eb; [done|].
    destruct (checkDeleteRootRateLimit _ _ _ _) as [wait p1]. destruct (0 <? wait); [done|].
    destruct (root_deletion_jobs d !! id) eqn:Eid; [done|]. simplify_eq.
    unfold tenant_busy in Eb. apply orb_false_iff in Eb as [_ Eemb].
    unfold embedding_change_active in Eemb. rewrite exists_where_false in Eemb.
    destruct Hok as [H1 H2 H3 H4 H5]. split; simpl; try done.
    + intros i1 i2 r1 r2 L1 L2 A1 A2 U. rewrite lookup_insert_Some in L1, L2.
      destruct L1 as [[-> <-]|[N1 L1]], L2 as [[-> <-]|[N2 L2]]; [done| | |by eapply H1].
      * pose proof (active_deletion_None _ _ _ _ Ea L2 ltac:(by rewrite <- U)). congruence.
      * pose proof (active_deletion_None _ _ _ _ Ea L1 U). congruence.
    + intros i c k r Hc He Ha Hk. specialize (Eemb i c Hc). rewrite He, Ha in Eemb. done.
    + intros i r Hi. apply lookup_insert_Some in Hi as [[-> <-]|[_ Hi]]; [done|by eapply H4].
Qed.

Lemma claim_control attempt locked now d r d' :
  claimRootDeletion_tx attempt locked now d = Ok (r, d') → control_ok d → control_ok d'.
Proof.
  unfold claimRootDeletion_tx. intros H Hok.
  set (parked := take 100 _) in H.
  assert (∀ k r', foldl (λ m kv, <[kv.1 := exhaust_row now kv.2]> m) (root_deletion_jobs d) parked !! k
            = Some r' → ∃ r, root_deletion_jobs d !! k = Some r ∧ deletion_le r r') as Hp.
  { intros k r' Hk. apply (foldl_insert_lookup _ (root_deletion_jobs d)) in Hk
      as [Hk|(v & Hv & _ & ->)].
    - exists r'. eauto using deletion_le_refl.
    - exists v. split; [done|]. split_and!; [done|done|]. simpl. by eapply co_attempts.
    - intros [k0 v0] Hin. by apply in_take, deletions_in_order_in in Hin as [Hin _]. }
  destruct (deletions_in_order locked (deletion_claimable now) d) as [|[i r0] rest] eqn:El; simplify_eq;
    (apply (control_ok_deletions d); [done|done|]); simpl; [done|].
  intros k r' Hk. apply lookup_insert_Some in Hk as [[<- <-]|[_ Hk]]; [|by apply Hp].
  assert ((i, r0) ∈ deletions_in_order locked (deletion_claimable now) d) as Hin
    by (rewrite El; apply elem_of_cons; by left).
  apply deletions_in_order_in in Hin as [Hin Hc]. exists r0. split; [done|].
  unfold deletion_claimable in Hc. reflect_bools. split_and!; [done| |simpl; lia].
  intros _. unfold deletion_active. apply orb_true_iff. destruct H as [H|H]; reflect_bools.
  - left. by apply bool_decide_eq_true.
  - right. by apply bool_decide_eq_true.
Qed.

Lemma defer_control job deferOnly now d :
  rd_attempt_count (dj_row job) ≤ rootDeletionMaxAttempts → control_ok d →
  control_ok (set_deletions (update_row (dj_ID job) (attempt_current job now)
    (defer_row (if deferOnly : bool then Z.max 0 (rd_attempt_count (dj_row job) - 1)
                else rd_attempt_count (dj_row job)) now)) d).
Proof.
  intros Hn Hok. apply (control_ok_deletions d); [done|done|]. simpl. intros k r' Hk.
  apply update_row_Some in Hk as (r & Hr & [->|(_ & HP & ->)]); [eauto using deletion_le_refl|].
  exists r. split; [done|]. unfold attempt_current in HP. reflect_bools. split_and!; [done| |].
  - intros _. unfold deletion_active. apply orb_true_iff. right. by apply bool_decide_eq_true.
  - simpl. unfold rootDeletionMaxAttempts in *. destruct deferOnly; lia.
Qed.

Lemma finish_control job count now d d' :
  finishRootDeletion_tx job count now d = Ok (tt, d') → control_ok d → control_ok d'.
Proof.
  intros (_ & n & ->)%finish_inv Hok. apply (control_ok_deletions d); [done|done|]. simpl.
  intros k r' Hk. apply update_row_Some in Hk as (r & Hr & [->|(_ & _ & ->)]);
    [eauto using deletion_le_refl|].
  exists r. split; [done|]. split_and!; [done|done|]. simpl. by eapply co_attempts.
Qed.

Lemma prune_control locked now d d' :
  pruneRootDeletionHistory_tx locked now d = Ok (tt, d') → control_ok d → control_ok d'.
Proof.
  unfold pruneRootDeletionHistory_tx. intros [= <-] Hok. apply (control_ok_deletions d); [done|done|].
  simpl. intros k r Hk%foldl_delete_lookup. eauto using deletion_le_refl.
Qed.

Lemma enqueue_control id section changed now d r d' :
  enqueuePlatformConfigJob_tx id section changed now d = Ok (r, d') → control_ok d → control_ok d'.
Proof.
  unfold enqueuePlatformConfigJob_tx. intros H Hok.
  destruct (platform_config_jobs d !! id) as [c|] eqn:Eid; [by destruct (_ || _); simplify_eq|].
  destruct (config_busy changed now d) eqn:Eb; simplify_eq.
  unfold config_busy in Eb. apply orb_false_iff in Eb as [Eact Edel].
  rewrite exists_where_false in Eact. destruct Hok as [H1 H2 H3 H4 H5]. split; simpl; try done.
  - intros i1 i2 c1 c2 L1 L2 A1 A2. rewrite lookup_insert_Some in L1, L2.
    destruct L1 as [[-> <-]|[N1 L1]], L2 as [[-> <-]|[N2 L2]]; [done| | |by eapply H2].
    + by rewrite (Eact _ _ L2) in A2.
    + by rewrite (Eact _ _ L1) in A1.
  - intros i c k r Hc He Ha Hr. apply lookup_insert_Some in Hc as [[-> <-]|[_ Hc]]; [|by eapply H3].
    simpl in He. subst changed. simpl in Edel. apply orb_false_iff in Edel as [_ Edel].
    rewrite exists_where_false in Edel. by apply (Edel k).
  - intros i c Hc. apply lookup_insert_Some in Hc as [[-> <-]|[_ Hc]]; [done|by eapply H5].
Qed.

Lemma update_config_control d id P f :
  control_ok d →
  (∀ c, platform_config_jobs d !! id = Some c → P c = true → config_le c (f c)) →
  control_ok (set_configs (update_row id P f) d).
Proof.
  intros Hok Hf. apply (control_ok_configs d); [done|done|]. simpl. intros k c' Hk.
  apply update_row_Some in Hk as (c & Hc & [->|(<- & HP & ->)]); eauto using config_le_refl.
Qed.

Lemma claim_config_control attempt locked now d r d' :
  claimPlatformConfigJob_tx attempt locked now d = Ok (r, d') → control_ok d → control_ok d'.
Proof.
  unfold claimPlatformConfigJob_tx. intros H Hok. set (l := merge_sort _ _) in H.
  assert (∀ k c', map_imap (λ _ c, Some (if config_exhausted now c then exhaust_config_row now c else c))
                    (platform_config_jobs d) !! k = Some c' →
            ∃ c, platform_config_jobs d !! k = Some c ∧ config_le c c') as Hp.
  { intros k c'. rewrite map_lookup_imap. destruct (platform_config_jobs d !! k) as [c|] eqn:Ec; [|done].
    simpl. intros [= <-]. exists c. split; [done|]. pose proof (config_le_refl _ _ _ Hok Ec) as Hr.
    destruct (config_exhausted now c); [|done]. split_and!; [done|done|]. apply Hr. }
  assert (∀ i c, (i, c) ∈ l → platform_config_jobs d !! i = Some c ∧ config_claimable now c = true) as Hl.
  { intros i c Hin. apply sorted_rows_in in Hin as [Hin Hc]. simpl in Hc. reflect_bools. done. }
  clearbody l. destruct l as [|[i c0] rest]; simplify_eq;
    (apply (control_ok_configs d); [done|done|]); simpl; [done|].
  intros k c' Hk. apply lookup_insert_Some in Hk as [[<- <-]|[_ Hk]]; [|by apply Hp].
  destruct (Hl i c0) as [Hin Hc]; [apply elem_of_cons; by left|]. exists c0. split; [done|].
  unfold config_claimable, config_running in Hc. reflect_bools.
  split_and!; [done| |simpl; lia].
  intros _. unfold config_active. apply orb_true_iff.
  match goal with H : _ ∨ _ |- _ => destruct H as [H|H]; reflect_bools end.
  - left. by apply bool_decide_eq_true.
  - right. by apply bool_decide_eq_true.
Qed.

Lemma finish_config_control job r now d d' :
  finishPlatformConfigJob_tx job r now d = Ok (tt, d') → control_ok d → control_ok d'.
Proof.
  intros (_ & st & n & msg & d1 & Hst & Hd1 & ->)%finish_config_inv Hok.
  assert (control_ok d1) as Hok1 by (destruct Hd1 as [->| ->]; [done|by apply (control_ok_ext d)]).
  apply update_config_control; [done|]. intros c Hc _. split_and!; [done| |].
  - by destruct Hst as [-> | ->].
  - simpl. by eapply co_config_attempts.
Qed.

#[export] Instance control_invariant : StepInvariant control_ok.
Proof.
  split; [split; done|]. intros d d' Hs Hok.
  step_cases Hs; try (by apply (control_ok_ext d)).
  - apply (control_ok_ext d); [..|done]; unfold tryAcquireIndexOperation in H;
      repeat case_match; by simplify_eq.
  - by destruct (inspect_frame _ _ _ _ _ _ _ H) as (_ & ? & ? & _); apply (control_ok_ext d).
  - by destruct (create_leases _ _ _ _ _ _ _ _ _ _ H0) as (_ & ? & ? & _); apply (control_ok_ext d).
  - by destruct (commit_frame _ _ _ _ _ _ _ _ _ H) as (_ & ? & ? & _); apply (control_ok_ext d).
  - by destruct (complete_frame _ _ _ _ _ _ _ H) as (_ & ? & ?); apply (control_ok_ext d).
  - by destruct (finish_failed_frame _ _ _ _ _ _ _ _ H) as (_ & ? & ? & _); apply (control_ok_ext d).
  - by destruct (fail_frame _ _ _ _ _ _ _ _ H) as (_ & ? & ? & _); apply (control_ok_ext d).
  - unfold dismissRootFailureState_tx. destruct published; by apply (control_ok_ext d).
  - by eapply submit_control.
  - by eapply claim_control.
  - by apply defer_control.
  - by eapply finish_control.
  - by apply (prune_control locked now d).
  - by eapply enqueue_control.
  - apply update_config_control; [done|]. intros c Hc HP. split_and!; [done|done|]. done.
  - by eapply claim_config_control.
  - apply update_config_control; [done|]. intros c Hc HP. split_and!; [done|done|].
    simpl. by eapply co_config_attempts.
  - by eapply finish_config_control.
Qed.
