(* ===== verification/JobLifecycle.v ===== *)
(** * The life of an index job

    How any step of the system may change an index job, the accounting that ties the
    job's counters to its staged files, and where a workspace snapshot comes from. *)
From Stdlib Require Import Ascii String.
From S2P Require Import Prelude GoStrings Paths Manifest Failure Json Lce Store Effects Leases.
From S2P Require Import IndexStatements IndexJobs RootDeletion PlatformConfig RootAdmin System.
Open Scope Z_scope.

(** ** Tables after the compound statements *)

Lemma delete_jobs_lookup P d id j :
  index_jobs (delete_jobs P d) !! id = Some j ↔ index_jobs d !! id = Some j ∧ P id j = false.
Proof. apply delete_where_lookup. Qed.

Lemma delete_jobs_files P d id fs :
  index_job_files (delete_jobs P d) !! id = Some fs →
  index_job_files d !! id = Some fs ∧ ∀ j, index_jobs d !! id = Some j → P id j = false.
Proof.
  unfold delete_jobs. simpl. intros [Hf Hm]%delete_where_lookup. split; [done|].
  intros j Hj. unfold matches in Hm. by rewrite Hj in Hm.
Qed.

Lemma clearRoot_jobs user root d :
  ∃ P, index_jobs (clearRootIndexStateTx user root d).2 = index_jobs (delete_jobs P d) ∧
       index_job_files (clearRootIndexStateTx user root d).2 = index_job_files (delete_jobs P d).
Proof. by eexists. Qed.

(** What [inspect_tx] does to each job row. *)
Lemma reclaim_jobs ul user now l d id j' :
  index_jobs (foldl (reclaim ul user now) d l) !! id = Some j' →
  ∃ j, index_jobs d !! id = Some j ∧
    (j' = j ∨ is_running j = true ∧ ∃ kv msg dg, kv ∈ l ∧ kv.1 = id ∧
                j' = terminate TimedOut msg dg true false now j).
Proof.
  revert d. induction l as [|kv l IH]; intros d Hj'; simpl in Hj'; [by exists j'; auto|].
  apply IH in Hj' as (j1 & Hj1 & Hcase). simpl in Hj1.
  apply update_row_Some in Hj1 as (j & Hj & [->|(Hid & HP & ->)]).
  - exists j. split; [done|]. destruct Hcase as [->|(Hr & kv' & m & dg & Hin & Hk & ->)]; [by left|].
    right. split; [done|]. exists kv', m, dg. split_and!; [by apply elem_of_cons; right|done..].
  - exists j. split; [done|]. right. unfold owned_running in HP. reflect_bools. split; [done|].
    destruct Hcase as [->|(Hr & _)]; [|done]. exists kv. do 2 eexists.
    split_and!; [by apply elem_of_cons; left|done|reflexivity].
Qed.

Lemma reclaim_files ul user now l d id fs :
  index_job_files (foldl (reclaim ul user now) d l) !! id = Some fs → index_job_files d !! id = Some fs.
Proof.
  revert d. induction l as [|kv l IH]; intros d H; simpl in H; [done|].
  apply IH in H. simpl in H. by apply lookup_delete_Some in H as [_ H].
Qed.

Lemma reclaim_dom ul user now l d id :
  is_Some (index_jobs d !! id) → is_Some (index_jobs (foldl (reclaim ul user now) d l) !! id).
Proof.
  revert d. induction l as [|kv l IH]; intros d H; simpl; [done|]. apply IH. simpl.
  rewrite update_row_lookup. destruct H as [j Hj]. rewrite Hj. case_decide; by eexists.
Qed.

Lemma running_jobs_in user ws d id j :
  (id, j) ∈ running_jobs user ws d →
  index_jobs d !! id = Some j ∧ owned_running user j = true ∧ workspace_id (meta j) = ws.
Proof.
  intros H. apply sorted_rows_in in H as [H HP]. simpl in HP. reflect_bools.
  split_and!; [done|done|]. by apply str_eqb_true.
Qed.

(** ** One step of a job *)

Record job_moves (j j' : index_job) : Prop := {
  jm_meta : meta j' = meta j;
  jm_running : status (prog j) = Running;
  jm_count : indexed_count (prog j) ≤ indexed_count (prog j');
  jm_sent : deletions_sent (prog j) = true → deletions_sent (prog j') = true;
  jm_since : is_Some (publishing_since (prog j)) → publishing_since (prog j') = publishing_since (prog j);
  jm_end : status (prog j') ≠ Running → phase (prog j') = Done ∧ is_Some (completed_at (prog j'));
  jm_superseded : status (prog j') ≠ Superseded;
  jm_publishing : phase (prog j) = Publishing → status (prog j') ≠ TimedOut;
  jm_completed : status (prog j') = Completed → complete_guard j = Ok tt
}.
Definition job_step (j j' : index_job) : Prop := j' = j ∨ job_moves j j'.

Definition fresh_job (j : index_job) : Prop :=
  status (prog j) = Running ∧ phase (prog j) = Created ∧ indexed_count (prog j) = 0 ∧
  fail j = no_failure ∧ cloud_revision (prog j) = 0.

(** How a row of [index_jobs] may change. *)
Definition row_step (o o' : option index_job) : Prop :=
  match o, o' with
  | Some j, Some j' => job_step j j'
  | None, Some j' => fresh_job j'
  | _, None => True
  end.

Lemma row_step_refl o : row_step o o.
Proof. destruct o; simpl; [by left|done]. Qed.

Lemma row_step_update id P f (m : gmap string index_job) k :
  (∀ j, P j = true → job_step j (f j)) → row_step (m !! k) (update_row id P f m !! k).
Proof.
  intros Hf. rewrite update_row_lookup. case_decide; [|apply row_step_refl].
  destruct (m !! k) as [j|]; simpl; [|done]. destruct (P j) eqn:EP; [by apply Hf|by left].
Qed.

Lemma row_step_delete P (m : gmap string index_job) k : row_step (m !! k) (delete_where P m !! k).
Proof.
  destruct (delete_where P m !! k) as [j'|] eqn:E; [|by destruct (m !! k)].
  apply delete_where_lookup in E as [-> _]. apply row_step_refl.
Qed.

Lemma owned_running_status user j : owned_running user j = true → status (prog j) = Running.
Proof. unfold owned_running, is_running. intros H. reflect_bools. done. Qed.

(** A running job keeps running: only phase, heartbeat and the like change. *)
Lemma keeps_running user ph hb rev since j :
  owned_running user j = true →
  (is_Some (publishing_since (prog j)) → since = publishing_since (prog j)) →
  job_step j (set_prog (λ p, {|
    phase := ph; status := status p; indexed_count := indexed_count p;
    failed_files := failed_files p; total_chunks := total_chunks p;
    indexed_chunks := indexed_chunks p; chunk_count_fallback := chunk_count_fallback p;
    deletions_sent := deletions_sent p; cloud_revision := rev;
    heartbeat_at := hb; completed_at := completed_at p; publishing_since := since |}) j).
Proof.
  intros Hr%owned_running_status Hs. right. split; simpl; try done; rewrite ?Hr; try done.
Qed.

Lemma terminate_step st msg dg b1 b2 now j :
  status (prog j) = Running → st = Failed ∨ st = TimedOut ∧ phase (prog j) ≠ Publishing →
  job_step j (terminate st msg dg b1 b2 now j).
Proof.
  intros Hr Hst. right. split; simpl; try done; destruct Hst as [->|[-> Hp]]; done.
Qed.

Lemma acquire_tables user resource kind token md now d b d' :
  tryAcquireIndexOperation user resource kind token md now d = Ok (b, d') →
  index_jobs d' = index_jobs d ∧ index_job_files d' = index_job_files d ∧
  indexed_files d' = indexed_files d.
Proof. unfold tryAcquireIndexOperation. intros H. repeat case_match; by simplify_eq. Qed.

Lemma inspect_rows ul user ws now d r d' id :
  inspect_tx ul user ws now d = Ok (r, d') → row_step (index_jobs d !! id) (index_jobs d' !! id).
Proof.
  unfold inspect_tx. destruct (List.filter _ _) as [|[i0 j0] rest] eqn:Ef; intros [= _ <-];
    [|apply row_step_refl].
  destruct (index_jobs (foldl _ d _) !! id) as [j'|] eqn:Ej; [|by destruct (index_jobs d !! id)].
  apply reclaim_jobs in Ej as (j & Hj & Hcase). rewrite Hj. simpl.
  destruct Hcase as [->|(Hr & [i j1] & msg & dg & Hin & Hi & ->)]; [by left|]. simpl in Hi. subst i.
  apply terminate_step; [by apply bool_decide_eq_true in Hr|]. right. split; [done|].
  pose proof Hin as Hin'. apply running_jobs_in in Hin' as (Hj1 & _ & _). simplify_eq.
  intros Hp. assert ((id, j) ∈ @nil (string * index_job)) as Hn; [|by apply not_elem_of_nil in Hn].
  rewrite <- Ef. apply list_elem_of_In, List.filter_In. split; [by apply list_elem_of_In|].
  simpl. by rewrite Hp.
Qed.

(** The three outcomes of the creating transaction. *)
Lemma create_inv user id req files now d p o d' p' :
  create_tx user id req files now d p = (Ok (o, d'), p') →
  (index_jobs d' = index_jobs d ∧ index_job_files d' = index_job_files d) ∨
  ∃ out pending deleted chunks md,
    graftUnreadablePaths (loadIndexedSnapshot user (WorkspaceID req) d) files (UnreadableFiles req) = Ok out ∧
    diffManifest (loadIndexedSnapshot user (WorkspaceID req) d) out = (pending, deleted, chunks) ∧
    index_jobs d !! id = None ∧
    index_jobs d' = <[id := new_job user req md (zlength out) (zlength pending) chunks
                               (zlength deleted) now]> (index_jobs d) ∧
    index_job_files d' = <[id := staged_rows pending out]> (index_job_files d) ∧
    o = CreateStarted pending deleted md.
Proof.
  unfold create_tx. destruct (graftUnreadablePaths _ _ _) as [out|] eqn:Eg; [|done].
  destruct (diffManifest _ out) as [[pending deleted] chunks] eqn:Ed.
  destruct (_ && _ && _); [intros [= _ <- _]; by left|].
  destruct (checkIndexStartRateLimit _ _ _ _) as [wait p1].
  destruct (0 <? wait); [intros [= _ <- _]; by left|].
  destruct (index_jobs d !! id) eqn:Ei; [done|]. intros [= <- <- _]. right.
  by eexists out, pending, deleted, chunks, _.
Qed.

Lemma create_rows user i req files now d p o d' p' id :
  create_tx user i req files now d p = (Ok (o, d'), p') →
  row_step (index_jobs d !! id) (index_jobs d' !! id).
Proof.
  intros [[-> _]|(out & pending & deleted & chunks & md & _ & _ & Hn & -> & _)]%create_inv;
    [apply row_step_refl|].
  destruct (decide (i = id)) as [->|Hne].
  - rewrite Hn, lookup_insert_eq. done.
  - rewrite lookup_insert_ne by done. apply row_step_refl.
Qed.

Lemma find_job_Some user id d j :
  find_job user id d = Some j → index_jobs d !! id = Some j ∧ owned user j = true.
Proof.
  unfold find_job. destruct (index_jobs d !! id) as [j0|]; [|done].
  destruct (owned user j0) eqn:E; [|done]. intros [= ->]. done.
Qed.

(** The shape of a committed batch and of a completed job. *)
Lemma commit_inv user id files chunks fb sent now d d' :
  commitIndexBatch user id files chunks fb sent now d = Ok (tt, d') →
  ∃ j rows, find_job user id d = Some j ∧ is_running j = true ∧
    mark_files files (files_of_job id d) = Ok rows ∧
    in_int64 (indexed_chunks (prog j) + chunks) = true ∧
    d' = set_job_files (λ m, if bool_decide (files = []) then m else <[id := rows]> m)
           (set_jobs (update_row id (λ _, true) (add_batch (zlength files) chunks fb sent now)) d).
Proof.
  unfold commitIndexBatch. destruct (find_job _ _ _) as [j|]; [|done].
  destruct (is_running j) eqn:Er; [|done]. simpl.
  destruct (mark_files _ _) as [rows|] eqn:Em; [|done].
  destruct (in_int64 _) eqn:Ei; [|done]. simpl. intros [= <-]. by exists j, rows.
Qed.

Lemma complete_inv user id root rev now d d' :
  complete_tx user id root rev now d = Ok (tt, d') →
  ∃ j, find_job user id d = Some j ∧ complete_guard j = Ok tt ∧
    let ws := workspace_id (meta j) in
    d' = delete_job_files id
           (set_jobs (update_row id (λ _, true) (complete_row rev now))
              (set_workspaces (insert (user, ws)
                 {| ws_name := workspace_name (meta j); ws_root := root; ws_branch := branch (meta j);
                    ws_revision := revision (meta j); ws_cloud_revision := rev; ws_indexed_at := now |})
                 (set_indexed (insert (user, ws) (snapshot_row <$> files_of_job id d)) d))).
Proof.
  unfold complete_tx. destruct (find_job _ _ _) as [j|]; [|done].
  destruct (complete_guard j) as [[]|] eqn:Eg; [|done]. intros [= <-]. by exists j.
Qed.

Lemma complete_guard_running j : complete_guard j = Ok tt → status (prog j) = Running.
Proof.
  unfold complete_guard, is_running. destruct (bool_decide (status (prog j) = Running)) eqn:E; [|done].
  intros _. by apply bool_decide_eq_true in E.
Qed.

Lemma commit_rows user i files chunks fb sent now d d' id :
  commitIndexBatch user i files chunks fb sent now d = Ok (tt, d') →
  row_step (index_jobs d !! id) (index_jobs d' !! id).
Proof.
  intros (j & rows & Hf & Hr & _ & _ & ->)%commit_inv. simpl. rewrite update_row_lookup.
  case_decide; [subst|apply row_step_refl]. apply find_job_Some in Hf as [-> _]. simpl. right.
  apply bool_decide_eq_true in Hr. split; simpl; try done; rewrite ?Hr; try done.
  - unfold zlength. lia.
  - intros ->. done.
Qed.

Lemma complete_rows user i root rev now d d' id :
  complete_tx user i root rev now d = Ok (tt, d') →
  row_step (index_jobs d !! id) (index_jobs d' !! id).
Proof.
  intros (j & Hf & Hg & ->)%complete_inv. simpl. rewrite update_row_lookup.
  case_decide; [subst|apply row_step_refl]. apply find_job_Some in Hf as [-> _]. simpl. right.
  pose proof (complete_guard_running j Hg). split; simpl; done.
Qed.

Lemma failed_rows user i msg dg now d id :
  row_step (index_jobs d !! id) (index_jobs (markIndexJobFailed user i msg dg now d).2 !! id).
Proof.
  simpl. apply row_step_update. intros j Hj. apply terminate_step; [|by left].
  by eapply owned_running_status.
Qed.

Lemma finish_failed_rows ul user i msg now d b d' id :
  finish_failed_tx ul user i msg now d = Ok (b, d') →
  row_step (index_jobs d !! id) (index_jobs d' !! id).
Proof.
  unfold finish_failed_tx. pose proof (failed_rows user i msg (classifyIndexFailure ul Failed msg) now d id).
  destruct (markIndexJobFailed _ _ _ _ _ _) as [u d1]. destruct u; intros [= _ <-]; [done|].
  apply row_step_refl.
Qed.

Lemma fail_rows user i msg dg now d r d' id :
  fail_tx user i msg dg now d = Ok (r, d') → row_step (index_jobs d !! id) (index_jobs d' !! id).
Proof.
  unfold fail_tx. pose proof (failed_rows user i msg dg now d id).
  destruct (find_job _ _ _); [|done]. destruct (markIndexJobFailed _ _ _ _ _ _) as [u d1].
  destruct u; [|done]. by intros [= _ <-].
Qed.

Lemma sweep_rows locked now d r d' id :
  sweep_tx locked now d = Ok (r, d') → row_step (index_jobs d !! id) (index_jobs d' !! id).
Proof.
  unfold sweep_tx. intros [= _ <-]. simpl. rewrite map_lookup_imap.
  destruct (index_jobs d !! id) as [j|]; simpl; [|done].
  destruct (_ && sweep_expired now j) eqn:E; [|by left]. apply andb_true_iff in E as [_ E].
  unfold sweep_expired in E. apply andb_true_iff in E as [Er Ee]. apply bool_decide_eq_true in Er.
  apply terminate_step; [done|]. right. split; [done|]. intros Hp. by rewrite Hp in Ee.
Qed.

