(* ===== verification/Accounting.v ===== *)
(** * Job accounting

    The invariant that ties the counters of a job to its staged files, and what follows
    for completion: a snapshot is only ever replaced by a manifest all of whose changed
    files were indexed. *)
From Stdlib Require Import Ascii String.
From S2P Require Import Prelude GoStrings Paths Manifest Failure Json Lce Store Effects Leases.
From S2P Require Import IndexStatements IndexJobs RootDeletion PlatformConfig RootAdmin System.
From S2P Require Import JobLifecycle.
Open Scope Z_scope.

Definition pending_in (fs : gmap string job_file) : Z := rows_where (λ _ f, pending_row f) fs.

Record jobs_ok (d : DB) : Prop := {
  jo_files : ∀ id, is_Some (index_job_files d !! id) → is_Some (index_jobs d !! id);
  jo_count : ∀ id j, index_jobs d !! id = Some j →
    0 ≤ indexed_count (prog j) ∧
    pending_in (files_of_job id d) + indexed_count (prog j) ≤ total_files (meta j)
}.

(** ** Batches *)

Lemma pending_in_mark p rows :
  matches p pending_row rows = true →
  pending_in (update_row p pending_row mark_indexed rows) = pending_in rows - 1.
Proof.
  unfold matches, update_row, pending_in. destruct (rows !! p) as [f|] eqn:Ef; [|done].
  intros HP. rewrite HP.
  assert (rows = <[p := f]> (delete p rows)) as ->.
  { rewrite insert_delete_eq. by rewrite insert_id. }
  rewrite insert_insert_eq.
  rewrite (rows_where_insert_fresh _ (delete p rows) p f) by (done || by rewrite lookup_delete_eq).
  rewrite rows_where_insert_skip; [lia| |].
  - unfold pending_row. simpl. by rewrite andb_false_r.
  - intros x Hx. by rewrite lookup_delete_eq in Hx.
Qed.

Lemma mark_files_count files rows rows' :
  mark_files files rows = Ok rows' → pending_in rows' = pending_in rows - zlength files.
Proof.
  revert rows. induction files as [|f files IH]; intros rows; simpl.
  - intros [= <-]. unfold zlength. simpl. lia.
  - destruct (matches (Path f) pending_row rows) eqn:Em; [|done]. simpl. intros H.
    apply IH in H. rewrite H, pending_in_mark by done. unfold zlength. simpl. lia.
Qed.

Lemma mark_files_dom files rows rows' :
  mark_files files rows = Ok rows' → dom rows' = dom rows.
Proof.
  revert rows. induction files as [|f files IH]; intros rows; simpl; [by intros [= <-]|].
  destruct (matches _ _ _); [|done]. simpl. intros ->%IH. apply set_eq. intros k.
  rewrite !elem_of_dom, update_row_lookup. case_decide; [|done]. by rewrite fmap_is_Some.
Qed.

(** ** Preservation *)

(** The job keeps its totals and its count. *)
Definition same_count (j j' : index_job) : Prop :=
  meta j' = meta j ∧ indexed_count (prog j') = indexed_count (prog j).

Lemma pending_in_empty : pending_in ∅ = 0.
Proof. by apply rows_where_zero. Qed.
Lemma pending_in_nonneg fs : 0 ≤ pending_in fs.
Proof. apply rows_where_nonneg. Qed.

Lemma jobs_ok_mono d d' :
  jobs_ok d →
  (∀ id j', index_jobs d' !! id = Some j' → ∃ j, index_jobs d !! id = Some j ∧ same_count j j') →
  (∀ id fs, index_job_files d' !! id = Some fs →
     index_job_files d !! id = Some fs ∧ is_Some (index_jobs d' !! id)) →
  jobs_ok d'.
Proof.
  intros [H1 H2] Hj Hf. split.
  - intros id [fs Hfs]. by destruct (Hf id fs Hfs).
  - intros id j' Hj'. destruct (Hj id j' Hj') as (j & Hjd & Hm & Hc).
    destruct (H2 id j Hjd) as [C1 C2]. rewrite Hc, Hm. split; [done|].
    etransitivity; [|exact C2]. apply Z.add_le_mono_r.
    unfold files_of_job. destruct (index_job_files d' !! id) as [fs|] eqn:Ef; simpl.
    + destruct (Hf id fs Ef) as [-> _]. done.
    + rewrite pending_in_empty. apply pending_in_nonneg.
Qed.

Lemma jobs_ok_ext d d' :
  index_jobs d' = index_jobs d → index_job_files d' = index_job_files d → jobs_ok d → jobs_ok d'.
Proof.
  intros E1 E2 [H1 H2]. split; unfold files_of_job in *; rewrite ?E1, ?E2; done.
Qed.

Lemma update_row_is_Some {V} id P f (m : gmap string V) k :
  is_Some (m !! k) → is_Some (update_row id P f m !! k).
Proof. intros [v Hv]. rewrite update_row_lookup, Hv. case_decide; by eexists. Qed.

(** An update of one job row, possibly dropping its files. *)
Lemma jobs_ok_update d id P f d' :
  (∀ j, same_count j (f j)) →
  index_jobs d' = update_row id P f (index_jobs d) →
  (index_job_files d' = index_job_files d ∨ index_job_files d' = delete id (index_job_files d)) →
  jobs_ok d → jobs_ok d'.
Proof.
  intros Hf Ej Ef Hok. apply (jobs_ok_mono d); [done| |].
  - intros k j' Hk. rewrite Ej in Hk.
    apply update_row_Some in Hk as (j & Hj & [->|(_ & _ & ->)]); eexists; (split; [done|]); [done|apply Hf].
  - intros k fs Hk. assert (index_job_files d !! k = Some fs) as Hfs.
    { destruct Ef as [E|E]; rewrite E in Hk; [done|]. by apply lookup_delete_Some in Hk as [_ Hk]. }
    split; [done|]. rewrite Ej. apply update_row_is_Some, (jo_files d Hok). by eexists.
Qed.

Lemma jobs_ok_delete P d d' :
  index_jobs d' = index_jobs (delete_jobs P d) → index_job_files d' = index_job_files (delete_jobs P d) →
  jobs_ok d → jobs_ok d'.
Proof.
  intros E1 E2 Hok. apply (jobs_ok_mono d); [done| |]; rewrite ?E1, ?E2.
  - intros id j' Hj. apply delete_jobs_lookup in Hj as [Hj _]. by exists j'.
  - intros id fs Hfs. apply delete_jobs_files in Hfs as [Hfs HP]. split; [done|].
    destruct (jo_files d Hok id) as [j Hj]; [by eexists|]. exists j.
    apply delete_jobs_lookup. auto.
Qed.

Lemma snapshot_keyed user ws d : keyed (loadIndexedSnapshot user ws d).
Proof.
  unfold loadIndexedSnapshot. intros p f. rewrite map_lookup_imap.
  destruct (files_of_workspace user ws d !! p); [|done]. by intros [= <-].
Qed.

(** What [create_tx] stages: one pending row per pending path. *)
Lemma staged_rows_pending pending out :
  NoDup (Path <$> out) → NoDup pending → (∀ p, p ∈ pending → p ∈ Path <$> out) →
  pending_in (staged_rows pending out) = zlength pending.
Proof.
  intros Hnd Hp Hsub. unfold pending_in, rows_where, zlength. f_equal.
  rewrite <- (size_dom (D := gset string)), <- (size_list_to_set (C := gset string) pending) by done.
  f_equal. apply set_eq. intros p. rewrite elem_of_list_to_set, elem_of_dom. split.
  - intros [f Hf]. apply map_lookup_filter_Some in Hf as [Hf HP]. simpl in HP.
    apply elem_of_list_to_map_2, list_elem_of_fmap in Hf as (g & [= -> ->] & Hg).
    unfold pending_row in HP. simpl in HP. rewrite andb_true_r in HP. by apply bool_decide_eq_true in HP.
  - intros Hin. pose proof Hin as Hg. apply Hsub, list_elem_of_fmap in Hg as (g & -> & Hg).
    eexists. apply map_lookup_filter_Some. split.
    + apply elem_of_list_to_map_1; [rewrite <- list_fmap_compose; exact Hnd|].
      apply list_elem_of_fmap. by exists g.
    + unfold pending_row. apply andb_true_iff. split; [by apply bool_decide_eq_true|done].
Qed.

Lemma check_start_nodup req0 req files :
  check_start req0 = Ok (req, files) → NoDup (Path <$> files).
Proof.
  unfold check_start. intros H. repeat (destruct (_ || _) || destruct (negb _) || destruct (str_eqb _ _)
    || destruct (maxIndexRootIDLen <? _)); try done.
  destruct (normalizeManifest _) as [out|] eqn:E; [|done]. simplify_eq.
  apply normalizeManifest_wf in E as [E _]. apply E.
Qed.

Lemma create_jobs_ok user id req0 req files now d p o d' p' :
  check_start req0 = Ok (req, files) → create_tx user id req files now d p = (Ok (o, d'), p') →
  jobs_ok d → jobs_ok d'.
Proof.
  intros Hc%check_start_nodup H Hok.
  apply create_inv in H as [[E1 E2]|(out & pending & deleted & chunks & md & Hg & Hd & Hn & Ej & Ef & _)];
    [by apply (jobs_ok_ext d)|].
  destruct (graftUnreadablePaths_spec _ _ _ _ (snapshot_keyed _ _ _) Hc Hg) as [Hnd _].
  assert (NoDup pending) as Hp.
  { unfold diffManifest in Hd. injection Hd as <- _ _. by apply NoDup_fmap_filter. }
  split.
  - intros k. rewrite Ef, Ej, !lookup_insert_is_Some'. intros [->|Hk]; [by left|].
    right. by apply (jo_files d Hok).
  - intros k j Hj. rewrite Ej in Hj. apply lookup_insert_Some in Hj as [[-> <-]|[Hne Hj]].
    + unfold files_of_job. rewrite Ef, lookup_insert_eq. simpl.
      rewrite staged_rows_pending; [lia|done|done|].
      intros q Hq. eapply diffManifest_pending in Hq as (f & Hf & <- & _); [|done].
      apply list_elem_of_fmap. by exists f.
    + unfold files_of_job. rewrite Ef, lookup_insert_ne by done. by apply (jo_count d Hok).
Qed.

Lemma commit_jobs_ok user id files chunks fb sent now d d' :
  commitIndexBatch user id files chunks fb sent now d = Ok (tt, d') → jobs_ok d → jobs_ok d'.
Proof.
  intros (j & rows & Hf & Hr & Hm & _ & ->)%commit_inv Hok.
  apply find_job_Some in Hf as [Hj _]. pose proof (mark_files_count _ _ _ Hm) as Hcnt.
  assert (∀ k, is_Some (index_jobs d !! k) → is_Some (update_row id (λ _ : index_job, true)
            (add_batch (zlength files) chunks fb sent now) (index_jobs d) !! k)) as Hdom
    by (intros; by apply update_row_is_Some).
  split; simpl.
  - intros k Hk. apply Hdom. case_bool_decide; [by apply (jo_files d Hok)|].
    apply lookup_insert_is_Some' in Hk as [<-|Hk]; [by eexists|by apply (jo_files d Hok)].
  - intros k j' Hj'. destruct (decide (k = id)) as [->|Hne].
    + rewrite (update_row_eq _ _ _ _ j Hj) in Hj'. injection Hj' as <-.
      destruct (jo_count d Hok id j Hj) as [C1 C2]. simpl.
      assert (pending_in (files_of_job id (set_job_files (λ m, if bool_decide (files = []) then m
                else <[id := rows]> m) (set_jobs (update_row id (λ _, true)
                  (add_batch (zlength files) chunks fb sent now)) d)))
              = pending_in (files_of_job id d) - zlength files) as ->.
      { unfold files_of_job in *. simpl. case_bool_decide as Hnil.
        - subst files. unfold zlength. simpl. lia.
        - rewrite lookup_insert_eq. done. }
      unfold zlength in *. lia.
    + rewrite update_row_ne in Hj' by done.
      destruct (jo_count d Hok k j' Hj') as [C1 C2]. split; [done|].
      unfold files_of_job in *. simpl. case_bool_decide; [done|]. by rewrite lookup_insert_ne.
Qed.

Lemma sweep_jobs_ok locked now d r d' :
  sweep_tx locked now d = Ok (r, d') → jobs_ok d → jobs_ok d'.
Proof.
  unfold sweep_tx. intros [= _ <-] Hok. apply (jobs_ok_mono d); [done| |]; simpl.
  - intros id j'. rewrite map_lookup_imap. destruct (index_jobs d !! id) as [j|]; simpl; [|done].
    intros [= <-]. exists j. split; [done|]. by destruct (_ && _).
  - intros id fs [Hfs _]%delete_where_lookup. split; [done|].
    destruct (jo_files d Hok id) as [j Hj]; [by eexists|]. rewrite map_lookup_imap, Hj. by eexists.
Qed.

Lemma inspect_jobs_ok ul user ws now d r d' :
  inspect_tx ul user ws now d = Ok (r, d') → jobs_ok d → jobs_ok d'.
Proof.
  unfold inspect_tx. destruct (List.filter _ _) as [|[]]; intros [= _ <-] Hok; [|done].
  apply (jobs_ok_mono d); [done| |].
  - intros id j' (j & Hj & Hcase)%reclaim_jobs. exists j. split; [done|].
    by destruct Hcase as [->|(_ & kv & msg & dg & _ & _ & ->)].
  - intros id fs Hfs%reclaim_files. split; [done|]. apply reclaim_dom, (jo_files d Hok). by eexists.
Qed.

Lemma failed_jobs_ok user id msg dg now d :
  jobs_ok d → jobs_ok (delete_job_files id (markIndexJobFailed user id msg dg now d).2).
Proof. intros Hok. eapply jobs_ok_update; [|reflexivity|right; reflexivity|done]. done. Qed.

#[export] Instance jobs_invariant : StepInvariant jobs_ok.
Proof.
  split; [split; [|done]; by intros id []|]. intros d d' Hs Hok.
  step_cases Hs; try (by apply (jobs_ok_ext d));
    try (eapply jobs_ok_update; [|reflexivity|left; reflexivity|done]; done).
  - destruct (acquire_tables _ _ _ _ _ _ _ _ _ H) as (? & ? & _). by apply (jobs_ok_ext d).
  - by eapply inspect_jobs_ok.
  - by eapply create_jobs_ok.
  - by eapply commit_jobs_ok.
  - destruct (complete_inv _ _ _ _ _ _ _ H) as (j & _ & _ & ->).
    by apply (jobs_ok_update d id (λ _, true) (complete_row rev now)); [..|right|].
  - unfold finish_failed_tx in H. pose proof (failed_jobs_ok user id msg (classifyIndexFailure ul Failed msg) now d Hok).
    destruct (markIndexJobFailed _ _ _ _ _ _) as [u d1]. by destruct u; simplify_eq.
  - unfold fail_tx in H. pose proof (failed_jobs_ok user id msg diag now d Hok).
    destruct (find_job _ _ _); [|done]. destruct (markIndexJobFailed _ _ _ _ _ _) as [u d1].
    by destruct u; simplify_eq/=.
  - apply (jobs_ok_mono d); [done|intros k j' Hk; by exists j'|]. simpl. intros k fs [_ Hk]%lookup_delete_Some.
    split; [done|]. apply (jo_files d Hok). by eexists.
  - by eapply (jobs_ok_delete (λ _ j, owned user j)).
  - by eapply (jobs_ok_delete (λ _ j, owned user j && root_matches root (root_id (meta j)))).
  - exact (sweep_jobs_ok locked now d _ _ eq_refl Hok).
  - unfold dismissRootFailureState_tx. destruct published; by eapply jobs_ok_delete.
  - destruct (submit_frame _ _ _ _ _ _ _ _ _ _ _ H) as (_ & _ & ? & ? & _). by apply (jobs_ok_ext d).
  - destruct (claim_frame _ _ _ _ _ _ H) as (_ & _ & ? & ? & _). by apply (jobs_ok_ext d).
  - destruct (finish_inv _ _ _ _ _ H) as (_ & n & ->). by eapply jobs_ok_delete.
  - destruct (enqueue_frame _ _ _ _ _ _ _ H) as (_ & _ & ? & ? & _). by apply (jobs_ok_ext d).
  - destruct (claim_config_frame _ _ _ _ _ _ H) as (_ & _ & ? & ? & _). by apply (jobs_ok_ext d).
  - destruct (finish_config_inv _ _ _ _ _ H) as (_ & st & n & msg & d1 & _ & [->| ->] & ->).
    + by apply (jobs_ok_ext d).
    + split; simpl; [|done]. by intros id [].
Qed.

(** ** Consequences *)

Lemma complete_guard_counts j :
  complete_guard j = Ok tt →
  indexed_count (prog j) = total_files (meta j) ∧
  (0 < deleted_count (meta j) → deletions_sent (prog j) = true).
Proof.
  unfold complete_guard. destruct (negb (is_running j)); [done|].
  destruct (indexed_count (prog j) =? total_files (meta j)) eqn:E1; [|done]. simpl.
  destruct (_ && _) eqn:E2; [done|]. intros _. reflect_bools. split; [done|].
  intros Hd. apply Z.ltb_lt in Hd. rewrite Hd in E2. destruct E2 as [E2|E2]; [done|].
  by apply negb_false_iff in E2.
Qed.

Lemma pending_in_pos fs p f :
  fs !! p = Some f → pending_row f = true → 1 ≤ pending_in fs.
Proof.
  intros Hf Hp. unfold pending_in.
  transitivity (rows_where (λ k (_ : job_file), str_eqb k p) {[p := f]}).
  - rewrite <- (insert_empty p f). rewrite rows_where_insert_fresh; [|done|by apply str_eqb_true].
    pose proof (rows_where_nonneg (λ k (_ : job_file), str_eqb k p) ∅). lia.
  - apply rows_where_le. intros k v [<- <-]%lookup_singleton_Some _. by exists f.
Qed.

Lemma completable_all_indexed d id j p f :
  jobs_ok d → index_jobs d !! id = Some j → complete_guard j = Ok tt →
  files_of_job id d !! p = Some f → needs_index f = true → indexed f = true.
Proof.
  intros Hok Hj [Hc _]%complete_guard_counts Hf Hn. destruct (jo_count d Hok id j Hj) as [_ Hle].
  destruct (indexed f) eqn:Ei; [done|]. exfalso.
  assert (pending_row f = true) as Hp by (unfold pending_row; by rewrite Hn, Ei).
  pose proof (pending_in_pos _ _ _ Hf Hp). lia.
Qed.

(** A step that changes [indexed_files] clears it or completes a job. *)
Lemma indexed_files_step d d' user ws :
  step d d' → indexed_files d' !! (user, ws) ≠ indexed_files d !! (user, ws) →
  indexed_files d' !! (user, ws) = None ∨
  ∃ id root rev now, complete_tx user id root rev now d = Ok (tt, d') ∧
    ∃ j, find_job user id d = Some j ∧ complete_guard j = Ok tt ∧ workspace_id (meta j) = ws ∧
      indexed_files d' !! (user, ws) = Some (snapshot_row <$> files_of_job id d).
Proof.
  assert (∀ P (m : gmap (string * string) (gmap string indexed_file)) k,
            delete_where P m !! k ≠ m !! k → delete_where P m !! k = None) as Hdel.
  { intros P m k Hk. destruct (delete_where P m !! k) eqn:E; [|done].
    apply delete_where_lookup in E as [E _]. congruence. }
  intros Hs Hne. step_cases Hs; try done; try (left; by apply Hdel).
  - by destruct (acquire_tables _ _ _ _ _ _ _ _ _ H) as (_ & _ & E); rewrite E in Hne.
  - by destruct (inspect_frame _ _ _ _ _ _ _ H) as (_ & _ & _ & E); rewrite E in Hne.
  - by destruct (create_leases _ _ _ _ _ _ _ _ _ _ H0) as (_ & _ & _ & E); rewrite E in Hne.
  - by destruct (commit_frame _ _ _ _ _ _ _ _ _ H) as (_ & _ & _ & E); rewrite E in Hne.
  - right. pose proof H as Hc. apply complete_inv in Hc as (j & Hf & Hg & Hd').
    rewrite Hd' in Hne. simpl in Hne.
    destruct (decide ((user0, workspace_id (meta j)) = (user, ws))) as [[= -> <-]|Hn];
      [|by rewrite lookup_insert_ne in Hne].
    exists id, root, rev, now. split; [done|]. exists j. split_and!; [done..|].
    rewrite Hd'. simpl. by rewrite lookup_insert_eq.
  - by destruct (finish_failed_frame _ _ _ _ _ _ _ _ H) as (_ & _ & _ & E); rewrite E in Hne.
  - by destruct (fail_frame _ _ _ _ _ _ _ _ H) as (_ & _ & _ & E); rewrite E in Hne.
  - unfold dismissRootFailureState_tx in Hne. by destruct published.
  - by destruct (submit_frame _ _ _ _ _ _ _ _ _ _ _ H) as (_ & _ & _ & _ & E); rewrite E in Hne.
  - by destruct (claim_frame _ _ _ _ _ _ H) as (_ & _ & _ & _ & E); rewrite E in Hne.
  - destruct (finish_inv _ _ _ _ _ H) as (_ & n & ->). left. by apply Hdel.
  - by destruct (enqueue_frame _ _ _ _ _ _ _ H) as (_ & _ & _ & _ & E); rewrite E in Hne.
  - by destruct (claim_config_frame _ _ _ _ _ _ H) as (_ & _ & _ & _ & E); rewrite E in Hne.
  - destruct (finish_config_inv _ _ _ _ _ H) as (_ & st & n & msg & d1 & _ & [->| ->] & ->); [done|].
    by left.
Qed.

(** [C10] Where a workspace snapshot comes from: in any reachable
    state, whatever step changes the recorded files of a workspace either clears them
    or completes a job of that tenant and workspace, installs exactly that job's
    manifest, and finds every file that the job had to index marked indexed. *)
Theorem snapshot_provenance d d' user ws :
  reachable d → step d d' → indexed_files d' !! (user, ws) ≠ indexed_files d !! (user, ws) →
  indexed_files d' !! (user, ws) = None ∨
  ∃ id j, index_jobs d !! id = Some j ∧ owned user j = true ∧ workspace_id (meta j) = ws ∧
    (status <$> (prog <$> index_jobs d' !! id)) = Some Completed ∧
    indexed_files d' !! (user, ws) = Some (snapshot_row <$> files_of_job id d) ∧
    ∀ p f, files_of_job id d !! p = Some f → needs_index f = true → indexed f = true.
Proof.
  intros Hr Hs Hne. destruct (indexed_files_step _ _ _ _ Hs Hne) as [Hn|Hc]; [by left|right].
  destruct Hc as (id & root & rev & now & Htx & j & Hf & Hg & Hws & Hsnap).
  pose proof (find_job_Some _ _ _ _ Hf) as [Hj Ho]. exists id, j. split_and!; try done.
  - apply complete_inv in Htx as (j0 & _ & _ & ->). simpl. by rewrite (update_row_eq _ _ _ _ j).
  - intros p f. apply (completable_all_indexed d id j); [|done|done].
    by apply (inv_reachable jobs_ok).
Qed.
