(* ===== verification/Refinement.v ===== *)
(** * Refinement

    Every handler and worker of the relay, run against any environment whose own moves
    are steps of the system, only makes steps of the system: what [System],
    [JobLifecycle] and [Accounting] prove of steps holds of the code as it runs, with
    every fault, interleaving and reply of LCE. *)
From Stdlib Require Import Ascii String.
From S2P Require Import Prelude GoStrings Paths Manifest Failure Json Lce Store Effects Leases.
From S2P Require Import ClientVersion RedisCommands QuotaLimits Quota IndexStatements IndexJobs.
From S2P Require Import IndexTool RootDeletion PlatformConfig RootAdmin Admission Auth Console RequestLogs.
From S2P Require Import McpServer Router Readers System JobLifecycle Accounting.
Open Scope Z_scope.

Create HintDb steps discriminated.
#[export] Hint Constants Opaque : steps.
#[export] Hint Constructors step : steps.

(** A transaction whose body is a step, or only reads. *)
Ltac one_step :=
  apply respects_atomically; [typeclasses eauto|assumption|];
  let n := fresh "n" in let d := fresh "d" in let a := fresh "a" in let d' := fresh "d'" in
  let H := fresh "H" in
  intros n d a d' H;
  first [ apply rtc_once; try destruct a; solve [eauto with steps]
        | injection H; intros; subst; 
          first [ apply rtc_refl
                | apply rtc_once; first [solve [eauto with steps] | apply step_clear_root
                                        | apply step_dismiss] ] ].

#[export] Hint Extern 2 (respects (rtc step) (atomically _ _)) => one_step : eff.

Section refinement.
Context (E : Env) (HE : env_respects (rtc step) E).

Ltac walk := unfold with_lease; respects_tac.

Lemma acquire_loop_steps fuel user resource kind token md :
  respects (rtc step) (acquire_loop E fuel user resource kind token md).
Proof. revert token. induction fuel as [|fuel IH]; intros token; simpl; walk. Qed.
Hint Resolve acquire_loop_steps : eff.

Lemma acquire_steps user resource kind md :
  respects (rtc step) (acquireIndexOperation E user resource kind md).
Proof. unfold acquireIndexOperation. walk. Qed.
Lemma try_operation_steps user resource kind md :
  respects (rtc step) (tryIndexOperation E user resource kind md).
Proof. unfold tryIndexOperation. walk. Qed.
Lemma release_steps user token : respects (rtc step) (Release E user token).
Proof. unfold Release. walk. Qed.
Hint Resolve acquire_steps try_operation_steps release_steps : eff.

Lemma acquire_shared_steps user resource kind :
  respects (rtc step) (acquireSharedIndexOperation E user resource kind).
Proof. apply acquire_steps. Qed.
Lemma acquire_exclusive_steps user kind :
  respects (rtc step) (acquireExclusiveIndexOperation E user kind).
Proof. apply acquire_steps. Qed.
Lemma try_exclusive_steps user kind : respects (rtc step) (tryExclusiveIndexOperation E user kind).
Proof. apply try_operation_steps. Qed.
Hint Resolve acquire_shared_steps acquire_exclusive_steps try_exclusive_steps : eff.

(** ** Index jobs *)

Lemma clear_root_steps user root : respects (rtc step) (clearRootIndexState E user root).
Proof. unfold clearRootIndexState. walk. Qed.
Lemma clear_user_steps user : respects (rtc step) (clearUserIndexState E user).
Proof. unfold clearUserIndexState. walk. Qed.
Hint Resolve clear_root_steps clear_user_steps : eff.
Lemma reset_binding_steps user ws old new :
  respects (rtc step) (resetWorkspaceRootBinding E user ws old new).
Proof. unfold resetWorkspaceRootBinding. walk. Qed.
Hint Resolve reset_binding_steps : eff.
Lemma inspect_steps user ws : respects (rtc step) (inspectActiveIndexJob E user ws).
Proof. unfold inspectActiveIndexJob. walk. Qed.
Lemma begin_created_steps user id root pending deleted md :
  respects (rtc step) (begin_created E user id root pending deleted md).
Proof. unfold begin_created. walk. Qed.
Hint Resolve inspect_steps begin_created_steps : eff.

Lemma create_tx_steps user id req0 req files :
  check_start req0 = Ok (req, files) →
  respects (rtc step) (transact E (create_tx user id req files)).
Proof.
  intros Hc. apply respects_transact; [apply _|done|]. intros n d p a d' p' H.
  apply rtc_once. by eapply step_create.
Qed.

Lemma create_steps user req : respects (rtc step) (createIndexJob E user req).
Proof.
  unfold createIndexJob. apply respects_lift_bind; [apply _|]. intros [req' files] Hc.
  pose proof (λ id, create_tx_steps user id req req' files Hc) as Htx. walk.
Qed.

Lemma upload_steps user org tier req : respects (rtc step) (uploadIndexBatch E user org tier req).
Proof. unfold uploadIndexBatch, admit_batch. walk. Qed.

Lemma finish_failed_steps user id msg : respects (rtc step) (finishFailedPublication E user id msg).
Proof. unfold finishFailedPublication. walk. Qed.
Hint Resolve finish_failed_steps : eff.
Lemma publish_steps user id root : respects (rtc step) (publish_revision E user id root).
Proof. unfold publish_revision. walk. Qed.
Hint Resolve publish_steps : eff.
Lemma complete_lease_steps user id known :
  respects (rtc step) (completeIndexJobUnderLease E user id known).
Proof. unfold completeIndexJobUnderLease. walk. Qed.
Hint Resolve complete_lease_steps : eff.
Lemma complete_steps user id : respects (rtc step) (completeIndexJob E user id).
Proof. unfold completeIndexJob. walk. Qed.
Lemma fail_steps user id msg dg : respects (rtc step) (failIndexJob E user id msg dg).
Proof. unfold failIndexJob. walk. Qed.
Lemma sweep_steps locked : respects (rtc step) (sweepExpiredIndexJobs E locked).
Proof. unfold sweepExpiredIndexJobs, abort_swept. walk. Qed.
Lemma reconcile_steps c : respects (rtc step) (reconcileIndexPublication E c).
Proof. unfold reconcileIndexPublication, reconcile_status, cancel_overdue. walk. Qed.
Hint Resolve reconcile_steps : eff.
Lemma reconcile_each_steps cs : respects (rtc step) (reconcile_each E cs).
Proof. induction cs as [|c cs IH]; simpl; walk. Qed.
Hint Resolve reconcile_each_steps : eff.
Lemma reconcile_all_steps : respects (rtc step) (reconcileIndexPublications E).
Proof. unfold reconcileIndexPublications. walk. Qed.

(** ** Root deletions *)

Lemma submit_steps tenant actor root retry :
  respects (rtc step) (submitRootDeletion E tenant actor root retry).
Proof.
  unfold submitRootDeletion. walk. apply respects_transact; [apply _|done|].
  intros n d p j d' p' H. apply rtc_once. by eapply step_submit.
Qed.
Lemma claim_steps locked : respects (rtc step) (claimRootDeletion E locked).
Proof. unfold claimRootDeletion. walk. Qed.
Hint Resolve submit_steps claim_steps : eff.

Lemma claimed_attempts locked w job w' :
  claimRootDeletion E locked w = (Ok job, w') →
  rd_attempt_count (dj_row job) ≤ rootDeletionMaxAttempts.
Proof.
  unfold claimRootDeletion. intros (t & w1 & _ & H)%bind_Ok. apply bind_Ok in H as (r & w2 & H & Hr).
  destruct r as [j|]; [|done]. injection Hr as -> _.
  apply atomically_Ok in H as (n & d' & H & _). unfold claimRootDeletion_tx in H.
  set (d := s_db _) in H.
  destruct (deletions_in_order locked (deletion_claimable n) d) as [|[i r] rest] eqn:El; [done|].
  injection H as <- _. simpl.
  assert ((i, r) ∈ deletions_in_order locked (deletion_claimable n) d) as Hin
    by (rewrite El; apply elem_of_cons; by left).
  apply deletions_in_order_in in Hin as [_ Hin]. unfold deletion_claimable in Hin. reflect_bools. lia.
Qed.

Lemma record_error_steps job b :
  rd_attempt_count (dj_row job) ≤ rootDeletionMaxAttempts →
  respects (rtc step) (recordRootDeletionError E job b).
Proof.
  intros Hn. unfold recordRootDeletionError. apply respects_ignore; [apply _|].
  apply respects_atomically; [apply _|done|]. intros n d [] d' H. apply rtc_once.
  by eapply step_defer.
Qed.
Hint Resolve record_error_steps : eff.

Lemma process_deletion_steps job :
  rd_attempt_count (dj_row job) ≤ rootDeletionMaxAttempts →
  respects (rtc step) (processRootDeletion E job).
Proof.
  intros Hn. unfold processRootDeletion, delete_under_lease, rootDeletionAttemptCurrent,
    lceClearIndexRootOperation, finishRootDeletion. walk.
Qed.

Lemma deletion_turn_steps locked : respects (rtc step) (deletion_worker_turn E locked).
Proof.
  unfold deletion_worker_turn.
  apply (respects_bind_post _ _ _ (λ r, ∀ job, r = Ok job →
           rd_attempt_count (dj_row job) ≤ rootDeletionMaxAttempts)).
  - apply respects_try. apply claim_steps.
  - intros w r w' H job ->. unfold try in H.
    destruct (claimRootDeletion E locked w) as [r0 w0] eqn:Ec. injection H as -> ->.
    by eapply claimed_attempts.
  - intros [job|e] Hj; [by apply process_deletion_steps, Hj|walk].
Qed.
Lemma prune_steps locked : respects (rtc step) (pruneRootDeletionHistory E locked).
Proof. unfold pruneRootDeletionHistory. walk. Qed.

(** ** Platform configuration *)

Lemma enqueue_config_steps id section b : respects (rtc step) (enqueuePlatformConfigJob E id section b).
Proof. unfold enqueuePlatformConfigJob. walk. Qed.
Lemma recover_config_steps id : respects (rtc step) (recoverPlatformConfigJob E id).
Proof. unfold recoverPlatformConfigJob. walk. Qed.
Lemma defer_config_steps job : respects (rtc step) (deferPlatformConfigJob E job).
Proof. unfold deferPlatformConfigJob. walk. Qed.
Lemma finish_config_steps job r : respects (rtc step) (finishPlatformConfigJob E job r).
Proof. unfold finishPlatformConfigJob. walk. Qed.
Hint Resolve defer_config_steps finish_config_steps : eff.
Lemma commit_config_steps job : respects (rtc step) (commit_config E job).
Proof. unfold commit_config. walk. Qed.
Hint Resolve commit_config_steps : eff.
Lemma config_turn_steps locked : respects (rtc step) (config_worker_turn E locked).
Proof. unfold config_worker_turn, claimPlatformConfigJob, processPlatformConfigJob. walk. Qed.

(** ** Administration *)

Lemma dismiss_steps c body : respects (rtc step) (handleDismissRootFailure E c body).
Proof.
  unfold handleDismissRootFailure, dismiss_under_lease, lceClearIndexRoot, dismissRootFailureState.
  respects_http.
Qed.
Lemma delete_root_steps c body : respects (rtc step) (handleDeleteRoot E c body).
Proof.
  unfold handleDeleteRoot, delete_root_under_lease, lceClearIndexRoot, deleteRootIndexState.
  respects_http.
Qed.
Lemma clear_index_steps c : respects (rtc step) (handleClearIndex E c).
Proof. unfold handleClearIndex, clear_under_lease, setClearIndexCooldown. respects_http. Qed.
Lemma create_deletion_steps c body : respects (rtc step) (handleCreateRootDeletion E c body).
Proof. unfold handleCreateRootDeletion. walk. Qed.

(** ** The tool and the version policy *)

Hint Resolve create_steps upload_steps complete_steps fail_steps : eff.

Lemma heartbeat_steps user id : respects (rtc step) (heartbeat_statement E user id).
Proof.
  apply respects_atomically; [apply _|exact HE|]. intros n d [] d'. destruct (negb _); [done|].
  intros H. by eapply rtc_once, step_heartbeat.
Qed.
Hint Resolve heartbeat_steps : eff.
Lemma index_tool_steps user org tier c : respects (rtc step) (handleCodebaseIndex E user org tier c).
Proof. unfold handleCodebaseIndex, status_or_heartbeat. walk. Qed.
Lemma save_version_steps version : respects (rtc step) (saveMinimumClientVersion E version).
Proof. unfold saveMinimumClientVersion. walk. Qed.
Hint Resolve save_version_steps enqueue_config_steps recover_config_steps : eff.

(** ** Requests *)

Lemma console_save_steps q body : respects (rtc step) (handleSavePlatformModelConfig E q body).
Proof.
  unfold handleSavePlatformModelConfig, recover_operation, list_models, locked_save, validate_and_save,
    confirmed_save, prepare_config. walk.
Qed.
Hint Resolve console_save_steps : eff.
Lemma open_handler_steps token r x : respects (rtc step) (open_handler E token r x).
Proof.
  unfold open_handler, handleGetPlatformModelConfig, handleGetClientVersionPolicy, handleSaveClientVersionPolicy,
    clientVersionPolicyResponse. walk.
Qed.
Hint Resolve dismiss_steps delete_root_steps clear_index_steps create_deletion_steps index_tool_steps : eff.
Lemma handler_steps Q strict r ad x : respects (rtc step) (handler E Q strict r ad x).
Proof.
  pose proof (λ b sid body, mcp_post_respects (rtc step) E HE Q strict (ad_ctx ad) b sid body
                              (λ call, index_tool_steps _ _ _ call)) as Hpost.
  unfold handler, stream_response. walk.
Qed.
Lemma serve_steps Q strict token x : respects (rtc step) (serve E Q strict token x).
Proof.
  unfold serve. pose proof open_handler_steps.
  pose proof (λ r ad, serve_admitted_respects (rtc step) E HE Q strict r ad x (handler_steps Q strict r ad x)). walk.
Qed.
End refinement.

(** ** The operations of the relay *)

Inductive operation :=
| OpStart (user : string) (req : indexStartRequest)
| OpUpload (user org tier : string) (req : indexUploadRequest)
| OpComplete (user id : string)
| OpFail (user id msg : string) (diag : indexFailureDiagnostic)
| OpSweep (locked : gset string)
| OpReconcile
| OpDeleteRoot (c : caller) (body : option string)
| OpDismiss (c : caller) (body : option string)
| OpClearIndex (c : caller)
| OpSubmitDeletion (c : caller) (body : option (string * string))
| OpDeletionWorker (locked : gset string)
| OpPruneDeletions (locked : gset string)
| OpEnqueueConfig (id section : string) (changed : bool)
| OpRecoverConfig (id : string)
| OpConfigWorker (locked : gset string)
| OpIndexTool (user org tier : string) (c : index_call)
| OpSaveVersion (version : string)
| OpMigrateVersion (strconv_Quote : string → string)
| OpServe (strconv_Quote : string → string) (strict : list (string * json) → index_call) (metricsToken : string)
    (x : incoming)
| OpSweepSessions
| OpReconcileLogs
| OpLeaderboard
| OpHealth (liveness : option bool) (failed : option string).

Definition run_operation (E : Env) (op : operation) : M unit :=
  match op with
  | OpStart user req => _ ← createIndexJob E user req; mret tt
  | OpUpload user org tier req => _ ← uploadIndexBatch E user org tier req; mret tt
  | OpComplete user id => _ ← completeIndexJob E user id; mret tt
  | OpFail user id msg diag => _ ← failIndexJob E user id msg diag; mret tt
  | OpSweep locked => sweepExpiredIndexJobs E locked
  | OpReconcile => reconcileIndexPublications E
  | OpDeleteRoot c body => _ ← handleDeleteRoot E c body; mret tt
  | OpDismiss c body => _ ← handleDismissRootFailure E c body; mret tt
  | OpClearIndex c => _ ← handleClearIndex E c; mret tt
  | OpSubmitDeletion c body => _ ← handleCreateRootDeletion E c body; mret tt
  | OpDeletionWorker locked => deletion_worker_turn E locked
  | OpPruneDeletions locked => pruneRootDeletionHistory E locked
  | OpEnqueueConfig id section changed => _ ← enqueuePlatformConfigJob E id section changed; mret tt
  | OpRecoverConfig id => _ ← recoverPlatformConfigJob E id; mret tt
  | OpConfigWorker locked => config_worker_turn E locked
  | OpIndexTool user org tier c => _ ← handleCodebaseIndex E user org tier c; mret tt
  | OpSaveVersion version => saveMinimumClientVersion E version
  | OpMigrateVersion Q => migrateClientVersionPolicy E Q
  | OpServe Q strict token x => _ ← serve E Q strict token x; mret tt
  | OpSweepSessions => sweepExpiredMCPSessions E
  | OpReconcileLogs => reconcileStaleRequestLogs E
  | OpLeaderboard => updateLeaderboardContext E
  | OpHealth liveness failed => runHealthProbe E liveness failed
  end.

Lemma operation_steps E op : env_respects (rtc step) E → respects (rtc step) (run_operation E op).
Proof.
  intros HE. destruct op; cbn [run_operation];
    unfold reconcileStaleRequestLogs, updateLeaderboardContext, runHealthProbe; respects_tac;
    eauto using serve_steps, create_steps, upload_steps, complete_steps, fail_steps, sweep_steps,
      reconcile_all_steps, delete_root_steps, dismiss_steps, clear_index_steps,
      create_deletion_steps, deletion_turn_steps, prune_steps, enqueue_config_steps,
      recover_config_steps, config_turn_steps, index_tool_steps, save_version_steps.
Qed.
