(* ===== verification/Guarantees.v ===== *)
(** * System guarantees

    The properties of the running system: what holds in every state that the relay can
    reach, with the witnesses that exercise them on a concrete run. *)
From Stdlib Require Import Ascii String.
From S2P Require Import Prelude GoStrings Paths Sha256 Manifest Failure Json Lce Store Effects.
From S2P Require Import Leases ClientVersion RedisCommands QuotaLimits Quota IndexStatements IndexJobs.
From S2P Require Import RootDeletion PlatformConfig RootAdmin System JobLifecycle Accounting.
From S2P Require Import Refinement.
Open Scope Z_scope.

(** ** A concrete run

    A tenant [u] takes the exclusive lease, starts a job for one file whose content is
    [abc], uploads it and completes the job. *)

Definition no_unicode (s : string) : string := s.
Definition ex_hash : string := sha256_hex "abc".
Definition ex_manifest_file : indexManifestFile :=
  {| Path := "a.go"; Hash := ex_hash; Size := 3; EstimatedChunks := 1; Manifest.Content := "" |}.
Definition ex_start : indexStartRequest := {|
  ProtocolVersion := 1; WorkspaceID := "w"; WorkspaceName := "W"; Branch := "main"; Revision := "r1";
  StartFiles := [ex_manifest_file]; UnreadableFiles := []; RootID := "root" |}.

Definition result_db {A} (r : result error (A * DB)) (d : DB) : DB :=
  match r with Ok (_, d') => d' | Err _ => d end.

Definition ex_leased : DB :=
  result_db (tryAcquireIndexOperation "u" "*" "create-job" "t1" LExclusive 0 empty_db) empty_db.
Definition ex_created : DB :=
  result_db (create_tx "u" "j1" ex_start [ex_manifest_file] 1 ex_leased empty_proc).1 ex_leased.
Definition ex_committed : DB :=
  result_db (commitIndexBatch "u" "j1" [ex_manifest_file] 1 false false 2 ex_created) ex_created.
Definition ex_completed : DB :=
  result_db (complete_tx "u" "j1" "root" 7 3 ex_committed) ex_committed.

Lemma ex_leased_step : step empty_db ex_leased.
Proof. eapply (step_acquire "u" "*" "create-job" "t1" LExclusive 0 _ true). reflexivity. Qed.
Lemma ex_created_step : step ex_leased ex_created.
Proof.
  eapply (step_create "u" "j1" ex_start ex_start [ex_manifest_file] 1 _ empty_proc
            (CreateStarted ["a.go"] [] Full)); [vm_compute; reflexivity|].
  vm_compute. reflexivity.
Qed.
Lemma ex_committed_step : step ex_created ex_committed.
Proof. eapply (step_commit "u" "j1" [ex_manifest_file] 1 false false 2). vm_compute. reflexivity. Qed.
Lemma ex_completed_step : step ex_committed ex_completed.
Proof. eapply (step_complete "u" "j1" "root" 7 3). vm_compute. reflexivity. Qed.
Lemma ex_leased_reachable : reachable ex_leased.
Proof. apply rtc_once, ex_leased_step. Qed.
Lemma ex_committed_reachable : reachable ex_committed.
Proof.
  eapply rtc_r; [eapply rtc_r; [apply ex_leased_reachable|apply ex_created_step]|apply ex_committed_step].
Qed.

(** ** Refinement *)

(** The code refines the state machine: from a reachable state,
    every handler and worker of the relay, with any input, any faults, any replies of LCE
    and any concurrent activity that itself consists of steps, ends in a reachable state.
    Every invariant of [step] therefore holds of the system as it runs. *)
Theorem relay_refines_steps E op w :
  env_respects (rtc step) E → reachable (db_of w) → reachable (db_of (run_operation E op w).2).
Proof.
  intros HE Hr. unfold reachable in *. etransitivity; [exact Hr|]. by apply operation_steps.
Qed.

Definition ex_config : Config := {|
  defaultDailyRequestLimit := 100; dailyIndexBytesLimit := 1000000; proDailyRequestLimit := 1000;
  proDailyIndexBytesLimit := 10000000; bannedCacheTTL := Minute;
  mcpMaxSessions := 1000; mcpMaxSessionsPerUser := 16; trustedConsoleToken := ""; modelConfigKey := None;
  quotaLocation_offset := 28800 |}.
Definition ex_shared (d : DB) : Shared :=
  {| s_db := d; s_acct := empty_accounts; s_proc := empty_proc; s_redis := empty_redis;
     s_logs := empty_logs |}.
Definition ex_world (d : DB) : World := {| shared := ex_shared d; ticks := 0; calls := [] |}.
(** LCE answers every call with an object; operations never fail. *)
Definition ex_reply : content := {| raw := "{}"; decoded := Some (JObj []) |}.
Definition ex_env : Env := {|
  env_now := λ n, Z.of_nat n * Second; env_fault := λ _, NoFault; env_uuid := λ n, "id" +:+ FormatInt (Z.of_nat n);
  env_lce := λ _ _, Ok {| Content := ex_reply; IsError := false |}; env_step := λ _ s, s;
  env_polls := λ _, 1%nat; env_config := ex_config; env_platform := λ _ _, Err "down";
  env_try_lock := λ _, true; env_uuid_parse := λ s, Some s;
  env_uuid_Validate := λ _, true;
  env_tools := λ _, Err "down"; env_select := λ _, 0%nat; env_write := λ _, true; env_canceled := λ _, false;
  env_gcm_Open := λ _ _ _, None;
  env_unicode_lower := no_unicode; env_unicode_upper := no_unicode |}.

Lemma relay_refines_steps_witness :
  let w := (run_operation ex_env (OpStart "u" ex_start) (ex_world empty_db)).2 in
  reachable (db_of w) ∧ size (index_jobs (db_of w)) = 1%nat.
Proof.
  split; [|vm_compute; reflexivity].
  apply (relay_refines_steps ex_env (OpStart "u" ex_start) (ex_world empty_db)).
  - intros n s. apply rtc_refl.
  - apply rtc_refl.
Defined.

(** ** The version policy *)

Lemma version_policy_survives_restart_witness :
  match saveMinimumClientVersion ex_env " 1.4.0 " (ex_world empty_db) with
  | (Ok tt, w1) => ∃ w2, migrateClientVersionPolicy ex_env no_unicode (restart "0.9.0" w1) = (Ok tt, w2) ∧
                         minClientVersion (s_proc (shared w2)) = "1.4.0"
  | _ => False
  end.
Proof.
  destruct (saveMinimumClientVersion ex_env " 1.4.0 " (ex_world empty_db)) as [[[]|e] w1] eqn:E;
    [|vm_compute in E; discriminate].
  apply (version_policy_survives_restart ex_env no_unicode " 1.4.0 " (ex_world empty_db) w1 "0.9.0");
    [split; reflexivity|exact E|right; reflexivity].
Defined.

(** ** Mutual exclusion *)



(** [C5] The durable control jobs exclude each other in every reachable
    state: a tenant has at most one active root deletion, the platform at most one active
    configuration change, a change of the embedding space is never active together with
    any root deletion, and no job is attempted more than five times without recovery. *)
Theorem control_exclusion d :
  reachable d →
  (∀ i1 i2 r1 r2, root_deletion_jobs d !! i1 = Some r1 → root_deletion_jobs d !! i2 = Some r2 →
     deletion_active r1 = true → deletion_active r2 = true → rd_user r1 = rd_user r2 → i1 = i2) ∧
  (∀ i1 i2 c1 c2, platform_config_jobs d !! i1 = Some c1 → platform_config_jobs d !! i2 = Some c2 →
     config_active c1 = true → config_active c2 = true → i1 = i2) ∧
  (embedding_change_active d = true → ∀ user, tenant_deleting user d = false) ∧
  (∀ i r, root_deletion_jobs d !! i = Some r → rd_attempt_count r ≤ 5) ∧
  (∀ i c, platform_config_jobs d !! i = Some c → pc_attempt_count c ≤ 5).
Proof.
  intros Hr. destruct (inv_reachable control_ok d Hr) as [H1 H2 H3 H4 H5].
  split_and!; [exact H1|exact H2| |exact H4|exact H5].
  unfold embedding_change_active, tenant_deleting. intros He user.
  apply exists_where_true in He as (i & c & Hc & He). apply andb_true_iff in He as [He Ha].
  apply exists_where_false. intros k r Hk. by rewrite (H3 i c k r Hc He Ha Hk), andb_false_r.
Qed.

Definition ex_deleting : DB :=
  result_db (submitRootDeletion_tx "u" "u" "root" "" "del1" 0 empty_db empty_proc).1 empty_db.
Lemma ex_deleting_reachable : reachable ex_deleting.
Proof.
  apply rtc_once. eapply (step_submit "u" "u" "root" "" "del1" 0 _ empty_proc). vm_compute. reflexivity.
Qed.

Lemma control_exclusion_witness :
  tenant_deleting "u" ex_deleting = true ∧
  ∀ i r, root_deletion_jobs ex_deleting !! i = Some r → rd_attempt_count r ≤ 5.
Proof.
  split; [vm_compute; reflexivity|].
  apply (control_exclusion ex_deleting), ex_deleting_reachable.
Defined.

(** ** Jobs *)


Lemma snapshot_provenance_witness :
  indexed_files ex_completed !! ("u", "w") = None ∨
  ∃ id j, index_jobs ex_committed !! id = Some j ∧ owned "u" j = true ∧ workspace_id (meta j) = "w" ∧
    (status <$> (prog <$> index_jobs ex_completed !! id)) = Some Completed ∧
    indexed_files ex_completed !! ("u", "w") = Some (snapshot_row <$> files_of_job id ex_committed) ∧
    ∀ p f, files_of_job id ex_committed !! p = Some f → needs_index f = true → indexed f = true.
Proof.
  apply (snapshot_provenance ex_committed ex_completed "u" "w");
    [apply ex_committed_reachable|apply ex_completed_step|vm_compute; done].
Defined.


