(* ===== verification/AuthProperties.v ===== *)
(** * Properties of authentication

    The key cache is bounded, changes no answer and forgets a revoked key within its time to
    live; organisation membership, seats and ownership are those of the moment of the request;
    an admitted request has an identity and has been charged once. *)
From Stdlib Require Import Ascii String.
From S2P Require Import Prelude GoStrings Paths Sha256 Md5 Json Lce ToolPolicy Store Effects Triples.
From S2P Require Import ClientVersion RedisCommands QuotaLimits Quota RootAdmin Admission Auth.
From S2P Require Import Guarantees.
Open Scope Z_scope.
#[local] Opaque sha256_hex md5_hex.

(** ** The cache *)

(** The key cache never exceeds its capacity, an entry that has not expired is
    never dropped or changed by another key, and the new entry is stored unless the cache is full
    of entries that have not expired. *)
Theorem auth_cache_put now key entry p :
  Z.of_nat (size (authCache p)) ≤ authCacheMaxEntries →
  let p' := authCachePut now key entry p in
  Z.of_nat (size (authCache p')) ≤ authCacheMaxEntries ∧
  (∀ k e, k ≠ key → authCache p !! k = Some e → now ≤ ace_expiresAt e → authCache p' !! k = Some e) ∧
  (∀ k e, k ≠ key → authCache p' !! k = Some e → authCache p !! k = Some e) ∧
  (authCache p' !! key = Some entry ∨
   authCache p !! key = None ∧ authCache p' !! key = None ∧
   rows_where (λ _ v, now <=? ace_expiresAt v) (authCache p) = authCacheMaxEntries).
Proof.
  intros Hsize. unfold authCachePut.
  set (cleaned := delete_where _ (authCache p)).
  assert (cleaned ⊆ authCache p) as Hsub by apply map_filter_subseteq.
  pose proof (map_subseteq_size _ _ Hsub) as Hle.
  assert (∀ k e, authCache p !! k = Some e → now ≤ ace_expiresAt e → cleaned !! k = Some e) as Hkeep.
  { intros k e Hk He. apply delete_where_lookup. split; [done|]. by apply Z.ltb_ge. }
  destruct (authCache p !! key) as [old|] eqn:Ekey.
  - rewrite bool_decide_false by done. simpl. split_and!.
    + rewrite map_size_insert_Some by (by eexists). done.
    + intros k e Hk He _. by rewrite lookup_insert_ne.
    + intros k e Hk. by rewrite lookup_insert_ne.
    + left. by rewrite lookup_insert_eq.
  - rewrite bool_decide_true by done. simpl.
    assert (cleaned !! key = None) as Hnone by (by eapply lookup_weaken_None).
    destruct (cache_full (authCache p)) eqn:Ef; [destruct (cache_full cleaned) eqn:Ec|]; simpl.
    + split_and!; [lia|by intros k e _ ? ?; apply Hkeep|by intros k e _ ?; eapply lookup_weaken|].
      right. split_and!; [done|done|]. unfold cache_full in Ec. apply Z.leb_le in Ec.
      assert (rows_where (λ _ v, now <=? ace_expiresAt v) (authCache p) = Z.of_nat (size cleaned)) as ->; [|lia].
      unfold rows_where, cleaned, delete_where. do 2 f_equal. apply map_filter_ext. intros k v _. simpl.
      rewrite Z.leb_le, Z.ltb_ge. done.
    + unfold cache_full in Ec. apply Z.leb_gt in Ec. split_and!.
      * rewrite map_size_insert_None by done. lia.
      * intros k e Hk He Hx. rewrite lookup_insert_ne by done. by apply Hkeep.
      * intros k e Hk. rewrite lookup_insert_ne by done. intros ?. by eapply lookup_weaken.
      * left. by rewrite lookup_insert_eq.
    + unfold cache_full in Ef. apply Z.leb_gt in Ef. split_and!.
      * rewrite map_size_insert_None by done. lia.
      * intros k e Hk He _. by rewrite lookup_insert_ne.
      * intros k e Hk. by rewrite lookup_insert_ne.
      * left. by rewrite lookup_insert_eq.
Qed.

Lemma auth_cache_put_witness :
  authCache (authCachePut 0 "k" {| ace_identity := no_identity; ace_ok := false; ace_expiresAt := 5 |} empty_proc) !! "k"
  = Some {| ace_identity := no_identity; ace_ok := false; ace_expiresAt := 5 |}.
Proof.
  destruct (auth_cache_put 0 "k" {| ace_identity := no_identity; ace_ok := false; ace_expiresAt := 5 |} empty_proc)
    as (_ & _ & _ & [H|(_ & H & _)]); [vm_compute; discriminate|exact H|vm_compute in H; discriminate].
Defined.

(** ** Runs of the handlers *)

Lemma query_accounts_Ok {A} E (q : Z → Accounts → result error A) w a w' :
  query_accounts E q w = (Ok a, w') →
  w' = turn E w ∧ q (env_now E (ticks w)) (s_acct (shared w')) = Ok a.
Proof. unfold query_accounts. destruct (env_fault E (ticks w)); intros [= H <-]; done. Qed.
Lemma with_mutex_Ok {A} E (f : Proc → A * Proc) w a w' :
  with_mutex E f w = (Ok a, w') →
  f (s_proc (shared (turn E w))) = (a, s_proc (shared w')) ∧ s_acct (shared w') = s_acct (shared (turn E w)).
Proof. unfold with_mutex. destruct (f _) as [a0 p]. by intros [= -> <-]. Qed.
Lemma time_Now_Ok E w a w' : time_Now E w = (Ok a, w') → a = env_now E (ticks w) ∧ w' = turn E w.
Proof. by intros [= <- <-]. Qed.

Ltac run_Ok H :=
  let a := fresh "a" in let w1 := fresh "w" in let H1 := fresh "Hrun" in
  apply bind_Ok in H as (a & w1 & H1 & H).

(** ** Organisations *)

Lemma first_by_In {A} (before : A → A → bool) l x : first_by before l = Some x → In x l.
Proof.
  unfold first_by. assert (∀ best, foldl (λ best x, match best with
      | None => Some x | Some b => if before x b then Some x else Some b end) best l = Some x →
      best = Some x ∨ In x l) as H.
  { induction l as [|y l IH]; intros best; simpl; [by left|]. intros H%IH. destruct H as [H|H]; [|auto].
    destruct best as [b|]; [destruct (before y b)|]; injection H as ->; auto. }
  intros Hx. by destruct (H None Hx).
Qed.

Definition member_authorised (now : Z) (a : Accounts) (id : authIdentity) : Prop :=
  OrgID id ∈ organization a ∧
  (∃ m, In m (member a) ∧ m_org m = OrgID id ∧ m_user m = UserID id ∧
        OrgRole id = normalizeOrgRole (TrimSpace (m_role m)) (OrgID id)) ∧
  ∃ owner, target_owner (OrgID id) a = Some owner ∧
    (UserID id = TrimSpace owner ∨
     ∃ limit, active_entitlement now owner a = Some limit ∧ 0 < limit ∧ seat_usage owner a ≤ limit).

Lemma authorize_row_spec now a id id' :
  authorize_row id (organization_row (OrgID id) (UserID id) now a) = (id', true) →
  OrgID id' = OrgID id ∧ member_authorised now a id'.
Proof.
  unfold authorize_row, organization_row. intros H.
  destruct (target_membership (OrgID id) (UserID id) a) as [m|] eqn:Em; [|done].
  destruct (target_owner (OrgID id) a) as [owner|] eqn:Eo; [|by rewrite orb_true_r in H].
  cbn [default from_option Datatypes.id mbind option_bind] in H.
  destruct (str_eqb (TrimSpace (m_role m)) "" || str_eqb (TrimSpace owner) ""); [done|].
  unfold target_membership in Em. apply first_by_In, filter_In in Em as [Hin Hm]. reflect_bools.
  repeat match goal with H : str_eqb _ _ = true |- _ => apply str_eqb_true in H end.
  assert (∀ b, (b, true) = (id', true) → b = id') as Hinj by congruence.
  destruct (str_eqb (UserID id) (TrimSpace owner)) eqn:Eu.
  - apply Hinj in H as <-. split; [done|]. apply str_eqb_true in Eu. split_and!; simpl; [congruence|eauto 6|].
    exists owner. auto.
  - destruct (_ || _) eqn:Es; [done|]. apply Hinj in H as <-. split; [done|].
    split_and!; simpl; [congruence|eauto 6|]. exists owner. split; [done|]. right. reflect_bools.
    destruct (active_entitlement now owner a) as [limit|]; [|simpl in *; lia]. exists limit. simpl in *. split_and!; [done|lia|lia].
Qed.

Lemma authorize_fresh E id w id' w' :
  authorizeOrganizationIdentity E id w = (Ok (id', true), w') → OrgID id' ≠ "" →
  ∃ n, member_authorised (env_now E n) (s_acct (shared w')) id'.
Proof.
  unfold authorizeOrganizationIdentity. intros H Hne. destruct (str_eqb (OrgID id) "") eqn:Eo.
  { injection H as <- <-. simpl in Hne. apply str_eqb_true in Eo. congruence. }
  run_Ok H. injection H as Hrow <-. apply query_accounts_Ok in Hrun as [-> Hq]. injection Hq as <-.
  exists (ticks w). by eapply authorize_row_spec.
Qed.

(** [C15] Whoever acts for an organisation is, at the moment of this very
    request and whether or not the key was cached, a member of the existing organisation with the
    role the request carries; the organisation has an owner, and the user is that owner or holds
    one of the seats of the owner's active subscription, which are not overdrawn. *)
Theorem org_access_rechecked E header w id w' :
  authenticateRequest E header w = (Ok (id, true), w') → OrgID id ≠ "" →
  ∃ n, member_authorised (env_now E n) (s_acct (shared w')) id.
Proof.
  unfold authenticateRequest. intros H Hne. destruct (bearer_token header) as [token|]; [|done].
  run_Ok H. run_Ok H. destruct a0 as [e|].
  - destruct (ace_ok e); [|done]. by eapply authorize_fresh.
  - run_Ok H. destruct a0 as [identity []]; [|by run_Ok H]. run_Ok H. by eapply authorize_fresh.
Qed.

(** Alice owns the organisation and has one seat, which Bob uses. *)
Definition ex_key (user : string) (org : option string) : api_key :=
  {| k_user := user; k_tier := Some "pro"; k_org := org; k_created_at := 0 |}.
Definition ex_member (id user role : string) (t : Z) : membership :=
  {| m_id := id; m_org := "o"; m_user := user; m_role := role; m_created_at := t |}.
Definition ex_accounts : Accounts := {|
  user_quotas := ∅;
  user_subscriptions := {[ "alice" := {| sub_request_limit := 0; sub_index_bytes_limit := 0; sub_subaccounts := 1;
                                         sub_starts_at := -1; sub_expires_at := Hour |} ]};
  org_quotas := ∅; org_member_quotas := ∅;
  member := [ex_member "1" "alice" "admin, owner" 0; ex_member "2" "bob" "member" 5];
  organization := {[ "o" ]};
  api_keys := {[ sha256_hex "bobkey" := ex_key "bob" (Some "o"); md5_hex "alicekey" := ex_key "alice" None ]};
  banned_users := ∅; user_model_configs := ∅ |}.
Definition ex_auth_world : World :=
  put_shared {| s_db := empty_db; s_acct := ex_accounts; s_proc := empty_proc; s_redis := empty_redis;
                s_logs := empty_logs |} (ex_world empty_db).

Lemma org_access_rechecked_witness :
  match authenticateRequest ex_env "Bearer bobkey" ex_auth_world with
  | (Ok (id, true), w') => OrgID id = "o" ∧ OrgRole id = "member" ∧
      ∃ n, member_authorised (env_now ex_env n) (s_acct (shared w')) id
  | _ => False
  end.
Proof.
  destruct (authenticateRequest ex_env "Bearer bobkey" ex_auth_world) as [[[id []]|] w'] eqn:E;
    try (vm_compute in E; discriminate).
  assert (id = {| UserID := "bob"; Tier := "pro"; OrgID := "o"; OrgRole := "member" |}) as Hid
    by (vm_compute in E; injection E as <- _; reflexivity).
  split_and!; [by rewrite Hid..|].
  apply (org_access_rechecked ex_env "Bearer bobkey" ex_auth_world id w' E). by rewrite Hid.
Defined.

(** ** Revocation *)

Section revocation.
Context (E : Env) (token : string) (T : Z).

(** The key has no row any more, and what the cache still knows of it was read by [T]. *)
Definition revoked (s : Shared) : Prop :=
  (∀ b, key_row b token (s_acct s) = None) ∧
  ∀ e, authCache (s_proc s) !! sha256_hex token = Some e → ace_ok e = true →
       ace_expiresAt e ≤ T + authCachePositiveTTL.

Definition is_revoked : assertion := λ s _, revoked s.
Hypothesis others : stable E is_revoked.

Lemma put_revoked now e p key :
  ace_ok e = false →
  (∀ e', authCache p !! sha256_hex token = Some e' → ace_ok e' = true → ace_expiresAt e' ≤ T + authCachePositiveTTL) →
  ∀ e', authCache (authCachePut now key e p) !! sha256_hex token = Some e' → ace_ok e' = true →
        ace_expiresAt e' ≤ T + authCachePositiveTTL.
Proof.
  intros He Hp e'. unfold authCachePut.
  assert (∀ c : gmap string authCacheEntry, c ⊆ authCache p →
    <[key := e]> c !! sha256_hex token = Some e' → ace_ok e' = true → ace_expiresAt e' ≤ T + authCachePositiveTTL) as Hins.
  { intros c Hc H Hok. apply lookup_insert_Some in H as [[_ <-]|[_ H]]; [congruence|].
    apply (Hp e'); [by eapply lookup_weaken|done]. }
  destruct (_ && _); [destruct (cache_full _)|]; simpl.
  - intros H Hok. apply delete_where_lookup in H as [H _]. by apply Hp.
  - apply Hins. apply map_filter_subseteq.
  - by apply Hins.
Qed.

Lemma lookup_revoked : triple is_revoked (lookupAPIKey E token) (λ r, r.2 = false).
Proof.
  unfold lookupAPIKey. apply triple_bind_any; [by apply triple_select_case|]. intros n.
  eapply (triple_bind _ (λ row, row = None)).
  - apply triple_query_accounts; [done|]. intros k s c a [Hs _] [= <-]. apply Hs.
  - intros row ->. by apply triple_ret.
Qed.

Lemma authenticate_revoked header :
  bearer_token header = Some token → (∀ n, T + authCachePositiveTTL < env_now E n) →
  triple is_revoked (authenticateRequest E header) (λ r, r.2 = false).
Proof.
  intros Hh Hnow. unfold authenticateRequest. rewrite Hh.
  eapply (triple_bind _ (λ now, T + authCachePositiveTTL < now)); [by apply triple_time_Now|]. intros now Hn.
  eapply (triple_bind _ (λ o : option authCacheEntry, match o with Some e => ace_ok e = false | None => True end)).
  { apply triple_with_mutex; [done|]. intros s c Hs. cbn [fst snd]. split; [by destruct s|].
    unfold authCacheGet. destruct (_ !! _) as [e|] eqn:El; [|done]. destruct (ace_expiresAt e <? now) eqn:Ex; [done|].
    apply not_true_iff_false. intros Hok. pose proof (proj2 Hs _ El Hok). apply Z.ltb_ge in Ex. lia. }
  intros [e|] He; [rewrite He; by apply triple_ret|].
  eapply triple_bind; [apply lookup_revoked|]. intros [identity ok] Hok. simpl in Hok. subst ok.
  apply triple_bind_any; [|by intros; apply triple_ret].
  unfold cache_put. apply triple_bind_any; [by apply triple_time_free|]. intros now'.
  apply triple_with_mutex; [done|]. intros s c [Ha Hc]. split; [|done]. split; [exact Ha|]. simpl. by apply put_revoked.
Qed.

(** A key that was deleted or reset at time [T] is refused by every request
    whose clock shows more than 30 seconds later, whatever the cache held at [T]: no request can
    bring the key back into the cache, and an entry from before is not used longer than its time
    to live. *)
Theorem revocation_delay header w :
  bearer_token header = Some token → (∀ n, T + authCachePositiveTTL < env_now E n) →
  revoked (shared w) →
  revoked (shared (authenticateRequest E header w).2) ∧
  match (authenticateRequest E header w).1 with Ok (_, ok) => ok = false | Err _ => True end.
Proof.
  intros Hh Hnow Hr. destruct (authenticate_revoked header Hh Hnow w Hr) as [H1 H2]. split; [exact H1|].
  by destruct (authenticateRequest E header w).1 as [[identity ok]|].
Qed.
End revocation.

(** The cache still holds Bob's entry, the table does not. *)
Definition ex_late : Env := {|
  env_now := λ n, 40 * Second; env_fault := env_fault ex_env; env_uuid := env_uuid ex_env;
  env_lce := env_lce ex_env; env_step := env_step ex_env;
  env_polls := env_polls ex_env; env_config := env_config ex_env; env_platform := env_platform ex_env;
  env_try_lock := env_try_lock ex_env; env_uuid_parse := env_uuid_parse ex_env;
  env_uuid_Validate := env_uuid_Validate ex_env;
  env_tools := env_tools ex_env; env_select := env_select ex_env; env_write := env_write ex_env;
  env_canceled := env_canceled ex_env; env_gcm_Open := env_gcm_Open ex_env;
  env_unicode_lower := no_unicode; env_unicode_upper := no_unicode |}.
Definition ex_stale : World :=
  put_shared (with_proc (set_auth_cache {[ sha256_hex "bobkey" :=
    {| ace_identity := {| UserID := "bob"; Tier := "free"; OrgID := ""; OrgRole := "" |}; ace_ok := true;
       ace_expiresAt := 31 * Second |} ]} empty_proc) (ex_shared empty_db)) (ex_world empty_db).

Lemma revocation_delay_witness :
  match (authenticateRequest ex_late "Bearer bobkey" ex_stale).1 with Ok (_, ok) => ok = false | Err _ => False end ∧
  revoked "bobkey" Second (shared (authenticateRequest ex_late "Bearer bobkey" ex_stale).2).
Proof.
  split; [vm_compute; reflexivity|].
  pose proof (revocation_delay ex_late "bobkey" Second) as H.
  assert (stable ex_late (is_revoked "bobkey" Second)) as Hst by (intros n s c Hs; exact Hs).
  specialize (H Hst "Bearer bobkey" ex_stale).
  assert (bearer_token "Bearer bobkey" = Some "bobkey") as Hb by reflexivity.
  assert (∀ n, Second + authCachePositiveTTL < env_now ex_late n) as Hn by (intros n; vm_compute; reflexivity).
  assert (revoked "bobkey" Second (shared ex_stale)) as Hr.
  { split; [by intros []; vm_compute|]. intros e He _. vm_compute in He. injection He as <-. vm_compute. discriminate. }
  destruct (H Hb Hn Hr) as [H1 _]. exact H1.
Defined.

(** ** The cache changes no answer *)

Definition lookup_result (token : string) (a : Accounts) : authIdentity * bool :=
  match key_row true token a with Some k => identity_of_key k | None => (no_identity, false) end.

(** Authentication without a cache, at the time [now]. *)
Definition authenticate_fresh (now : Z) (a : Accounts) (header : string) : authIdentity * bool :=
  match bearer_token header with
  | None => (no_identity, false)
  | Some token =>
      let '(id, ok) := lookup_result token a in
      if negb ok then (no_identity, false)
      else if str_eqb (OrgID id) ""
      then ({| UserID := UserID id; Tier := Tier id; OrgID := OrgID id; OrgRole := "" |}, true)
      else authorize_row id (organization_row (OrgID id) (UserID id) now a)
  end.

(** The account tables are [a], with at most one row for the key, and the cache agrees with them. *)
Definition cache_true (header : string) (a : Accounts) (s : Shared) : Prop :=
  s_acct s = a ∧ ∀ token, bearer_token header = Some token →
    key_row false token a = key_row true token a ∧
    ∀ e, authCache (s_proc s) !! sha256_hex token = Some e → (ace_identity e, ace_ok e) = lookup_result token a.

Section transparency.
Context (E : Env) (header : string) (a : Accounts).
Definition is_cache_true : assertion := λ s _, cache_true header a s.
Hypothesis others : stable E is_cache_true.

Lemma authorize_true id Q :
  (∀ n, Q (if str_eqb (OrgID id) "" then ({| UserID := UserID id; Tier := Tier id; OrgID := OrgID id; OrgRole := "" |}, true)
           else authorize_row id (organization_row (OrgID id) (UserID id) (env_now E n) a))) →
  triple is_cache_true (authorizeOrganizationIdentity E id) Q.
Proof.
  intros HQ. unfold authorizeOrganizationIdentity. destruct (str_eqb (OrgID id) "").
  { apply triple_ret. exact (HQ 0%nat). }
  apply (triple_bind _ (λ row, ∃ n, row = organization_row (OrgID id) (UserID id) (env_now E n) a)).
  - apply triple_query_accounts; [done|]. intros n s c row [Ha _] [= <-]. exists n. by rewrite Ha.
  - intros row [n ->]. apply triple_ret. apply HQ.
Qed.

Lemma put_true now key token e p :
  (key = sha256_hex token → (ace_identity e, ace_ok e) = lookup_result token a) →
  (∀ e', authCache p !! sha256_hex token = Some e' → (ace_identity e', ace_ok e') = lookup_result token a) →
  ∀ e', authCache (authCachePut now key e p) !! sha256_hex token = Some e' → (ace_identity e', ace_ok e') = lookup_result token a.
Proof.
  intros He Hp e'. unfold authCachePut.
  assert (∀ c : gmap string authCacheEntry, c ⊆ authCache p → <[key := e]> c !! sha256_hex token = Some e' →
            (ace_identity e', ace_ok e') = lookup_result token a) as Hins.
  { intros c Hc [[Hk <-]|[_ H]]%lookup_insert_Some; [by apply He|]. apply Hp. by eapply lookup_weaken. }
  destruct (_ && _); [destruct (cache_full _)|]; simpl.
  - intros [H _]%delete_where_lookup. by apply Hp.
  - apply Hins. apply map_filter_subseteq.
  - by apply Hins.
Qed.

Lemma lookup_true token :
  bearer_token header = Some token → triple is_cache_true (lookupAPIKey E token) (λ r, r = lookup_result token a).
Proof.
  intros Ht. unfold lookupAPIKey. apply triple_bind_any; [by apply triple_select_case|]. intros n.
  apply (triple_bind _ (λ row, row = key_row true token a)).
  - apply triple_query_accounts; [done|]. intros k s c row [Ha Hk] [= <-]. rewrite Ha.
    destruct (Hk token Ht) as [Heq _]. by destruct (Nat.even n).
  - intros row ->. by apply triple_ret.
Qed.

Lemma authenticate_true :
  triple is_cache_true (authenticateRequest E header) (λ r, ∃ n, r = authenticate_fresh (env_now E n) a header).
Proof.
  unfold authenticateRequest, authenticate_fresh. destruct (bearer_token header) as [token|] eqn:Ht.
  2:{ apply triple_ret. by exists 0%nat. }
  apply triple_bind_any; [by apply triple_time_free|]. intros now.
  apply (triple_bind _ (λ o, match o with Some e => (ace_identity e, ace_ok e) = lookup_result token a | None => True end)).
  { apply triple_with_mutex; [done|]. intros s c Hs. cbn [fst snd]. split; [by destruct s|].
    unfold authCacheGet. destruct (_ !! _) as [e|] eqn:El; [|done]. destruct (_ <? now); [done|].
    destruct Hs as [_ Hs]. by destruct (Hs token Ht) as [_ Hc]; apply Hc. }
  assert (∀ id ok, lookup_result token a = (id, ok) →
    triple is_cache_true (if ok then authorizeOrganizationIdentity E id else mret (no_identity, false))
      (λ r, ∃ n, r = (let '(id, ok) := lookup_result token a in if negb ok then (no_identity, false)
         else if str_eqb (OrgID id) "" then ({| UserID := UserID id; Tier := Tier id; OrgID := OrgID id; OrgRole := "" |}, true)
         else authorize_row id (organization_row (OrgID id) (UserID id) (env_now E n) a)))) as Hauth.
  { intros id ok ->. destruct ok; simpl; [|apply triple_ret; by exists 0%nat]. apply authorize_true. eauto. }
  intros [e|] He; [by apply Hauth|]. eapply triple_bind; [by apply lookup_true|]. intros [id ok] Hr.
  apply triple_bind_any; [|intros _; by apply Hauth].
  unfold cache_put. apply triple_bind_any; [by apply triple_time_free|]. intros now'.
  apply triple_with_mutex; [done|]. intros s c [Ha Hc]. split; [|done]. split; [exact Ha|]. intros token' Ht'.
  rewrite Ht in Ht'. injection Ht' as <-. destruct (Hc token Ht) as [Heq Hent]. split; [done|]. simpl. by apply put_true.
Qed.

Lemma authenticate_returns :
  (∀ n, env_fault E n = NoFault) → returns (λ _, True) (authenticateRequest E header).
Proof.
  intros HF. assert (∀ A (q : Z → Accounts → result error A), (∀ n a, is_ok (q n a) = true) →
    returns (λ _, True) (query_accounts E q)) as Hq.
  { intros A q Hq w. unfold query_accounts. rewrite HF. specialize (Hq (env_now E (ticks w)) (s_acct (shared (turn E w)))).
    destruct (q _ _) as [x|]; [|done]. by eexists _, _. }
  assert (∀ A (f : Proc → A * Proc), returns (λ _, True) (with_mutex E f)) as Hm.
  { intros A f w. unfold with_mutex. destruct (f _) as [x p]. by eexists _, _. }
  assert (∀ id, returns (λ _, True) (authorizeOrganizationIdentity E id)) as Hauth.
  { intros id. unfold authorizeOrganizationIdentity. destruct (str_eqb _ _); [by apply returns_ret|].
    apply (returns_bind _ _ (λ _, True)); [by apply Hq|]. intros. by apply returns_ret. }
  unfold authenticateRequest. destruct (bearer_token header) as [token|]; [|by apply returns_ret].
  apply (returns_bind _ _ (λ _, True)); [apply returns_time_Now|]. intros now _.
  apply (returns_bind _ _ (λ _, True)); [apply Hm|]. intros [e|] _; [destruct (ace_ok e); [apply Hauth|by apply returns_ret]|].
  apply (returns_bind _ _ (λ _, True)).
  { unfold lookupAPIKey. apply (returns_bind _ _ (λ _, True)); [by intros w; eexists _, _|]. intros n _.
    apply (returns_bind _ _ (λ _, True)); [by apply Hq|]. intros. by apply returns_ret. }
  intros [id ok] _. apply (returns_bind _ _ (λ _, True)).
  - unfold cache_put. apply (returns_bind _ _ (λ _, True)); [apply returns_time_Now|]. intros. apply Hm.
  - intros _ _. destruct ok; [apply Hauth|by apply returns_ret].
Qed.

(** [C16] The key cache changes no answer: as long as it agrees with the key
    table, authentication answers what a fresh lookup and authorisation would answer, whether the
    key is cached or not, and the cache agrees with the table afterwards. *)
Theorem auth_cache_transparent w :
  (∀ n, env_fault E n = NoFault) → cache_true header a (shared w) →
  ∃ n w', authenticateRequest E header w = (Ok (authenticate_fresh (env_now E n) a header), w') ∧
          cache_true header a (shared w').
Proof.
  intros HF Hw. destruct (authenticate_true w Hw) as [H1 H2].
  destruct (authenticate_returns HF w) as (r & w' & Hr & _). rewrite Hr in H1, H2. destruct H2 as [n ->].
  exists n, w'. done.
Qed.
End transparency.

Lemma auth_cache_transparent_witness :
  ∃ n w', authenticateRequest ex_env "Bearer bobkey" ex_auth_world
          = (Ok (authenticate_fresh (env_now ex_env n) ex_accounts "Bearer bobkey"), w') ∧
          cache_true "Bearer bobkey" ex_accounts (shared w').
Proof.
  apply (auth_cache_transparent ex_env "Bearer bobkey" ex_accounts).
  - intros n s c H. exact H.
  - reflexivity.
  - split; [reflexivity|]. intros token Ht. injection Ht as <-.
    split; [vm_compute; reflexivity|]. intros e He. vm_compute in He. discriminate.
Defined.

(** ** Admitted requests *)

(** Every cached key has a user. *)
Definition cache_named (p : Proc) : Prop :=
  ∀ k e, authCache p !! k = Some e → ace_ok e = true → UserID (ace_identity e) ≠ "".
Definition is_cache_named : assertion := λ s _, cache_named (s_proc s).
#[export] Instance cache_named_redis : RedisFree is_cache_named.
Proof. by intros s c r H. Qed.

Section quota_triples.
Context (E : Env) (I : assertion) (HE : stable E I) `{!RedisFree I}.

Lemma user_limit_triple key limit col plan user : triple I (user_limit E key limit col plan user) (λ _, True).
Proof. unfold user_limit, cached, cache_get, cache_set, getUserPlanQuotaLimits. triple_tac. Qed.
Hint Resolve user_limit_triple : triple.
Lemma org_owner_triple org : triple I (getOrgOwnerQuotaLimits E org) (λ _, True).
Proof. unfold getOrgOwnerQuotaLimits. triple_tac. Qed.
Hint Resolve org_owner_triple : triple.
Lemma org_limits_triple org : triple I (getOrgQuotaLimits E org) (λ _, True).
Proof. unfold getOrgQuotaLimits, inherit_from_owner, cached, cache_get, cache_set. triple_tac. Qed.
Hint Resolve org_limits_triple : triple.
Lemma member_limit_triple org user : triple I (getMemberDailyLimit E org user) (λ _, True).
Proof. unfold getMemberDailyLimit, cached, cache_get, cache_set. triple_tac. Qed.
Hint Resolve member_limit_triple : triple.
Lemma reserve_request_triple mk ml pk pl : triple I (reserveRequestQuota E mk ml pk pl) (λ _, True).
Proof. unfold reserveRequestQuota. triple_tac. Qed.
Hint Resolve reserve_request_triple : triple.
Lemma check_request_triple user org tier : triple I (checkRequestQuotaDetailed E user org tier) (λ _, True).
Proof. unfold checkRequestQuotaDetailed, getUserDailyLimit. triple_tac. Qed.
Hint Resolve check_request_triple : triple.
Lemma admit_daily_triple c : triple I (admitDailyRequestQuota E c) (λ _, True).
Proof. unfold admitDailyRequestQuota. triple_tac. Qed.
Hint Resolve admit_daily_triple : triple.
Lemma admit_deferred_triple c rpc : triple I (admitDeferredMCPQuota E c true rpc) (λ r, r.2 = false).
Proof.
  unfold admitDeferredMCPQuota. simpl negb. cbv iota. destruct (negb _); triple_tac; done.
Qed.
Lemma admit_quota_triple q body c : triple I (admit_quota E q body c) (λ r, r.2 = false).
Proof. unfold admit_quota. destruct (_ && _); [apply admit_deferred_triple|]. triple_tac. done. Qed.
Lemma banned_triple user : triple I (isUserBanned E user) (λ _, True).
Proof. unfold isUserBanned, cache_get, cache_set. triple_tac. Qed.
Lemma min_version_triple : triple I (currentMinClientVersion E) (λ _, True).
Proof. apply triple_with_mutex; [done|]. intros s c Hs. split; [by destruct s|done]. Qed.
End quota_triples.
#[export] Hint Resolve user_limit_triple org_owner_triple org_limits_triple member_limit_triple
  reserve_request_triple check_request_triple admit_daily_triple banned_triple min_version_triple : triple.

(** What a successful authentication says of its identity. *)
Definition named (r : authIdentity * bool) : Prop :=
  r.2 = true → UserID r.1 ≠ "" ∧ (OrgID r.1 = "" → OrgRole r.1 = "").

Lemma authorize_row_named id row : UserID id ≠ "" → OrgID id ≠ "" → named (authorize_row id row).
Proof.
  intros Hu Ho. unfold authorize_row. destruct row as [[[role owner] limit] used].
  destruct (_ || _); [done|]. destruct (str_eqb _ _); [done|]. by destruct (_ || _).
Qed.

Section middleware.
Context (E : Env) (others : stable E is_cache_named).

Lemma authorize_named id :
  UserID id ≠ "" → triple is_cache_named (authorizeOrganizationIdentity E id) named.
Proof.
  intros Hu. unfold authorizeOrganizationIdentity. destruct (str_eqb (OrgID id) "") eqn:Eo; [by apply triple_ret|].
  apply str_eqb_false in Eo. apply triple_bind_any; [by apply triple_query_accounts_free|]. intros row.
  apply triple_ret. by apply authorize_row_named.
Qed.

Lemma put_named now key e p :
  (ace_ok e = true → UserID (ace_identity e) ≠ "") → cache_named p → cache_named (authCachePut now key e p).
Proof.
  intros He Hp k e'. unfold authCachePut.
  assert (∀ c : gmap string authCacheEntry, c ⊆ authCache p → <[key := e]> c !! k = Some e' →
            ace_ok e' = true → UserID (ace_identity e') ≠ "") as Hins.
  { intros c Hc [[Hk <-]|[_ H]]%lookup_insert_Some; [done|]. apply (Hp k). by eapply lookup_weaken. }
  destruct (_ && _); [destruct (cache_full _)|]; simpl.
  - intros [H _]%delete_where_lookup. by apply (Hp k).
  - apply Hins. apply map_filter_subseteq.
  - by apply Hins.
Qed.

Lemma lookup_named token : triple is_cache_named (lookupAPIKey E token) (λ r, r.2 = true → UserID r.1 ≠ "").
Proof.
  unfold lookupAPIKey. apply triple_bind_any; [by apply triple_select_case|]. intros n.
  apply triple_bind_any; [by apply triple_query_accounts_free|]. intros [k|]; [|by apply triple_ret].
  apply triple_ret. unfold identity_of_key. destruct (str_eqb _ _) eqn:Eu; [done|]. intros _. simpl. by apply str_eqb_false.
Qed.

Lemma authenticate_named header : triple is_cache_named (authenticateRequest E header) named.
Proof.
  unfold authenticateRequest. destruct (bearer_token header) as [token|]; [|by apply triple_ret].
  apply triple_bind_any; [by apply triple_time_free|]. intros now.
  apply (triple_bind _ (λ o, match o with Some e => ace_ok e = true → UserID (ace_identity e) ≠ "" | None => True end)).
  { apply triple_with_mutex; [done|]. intros s c Hs. cbn [fst snd]. split; [by destruct s|].
    unfold authCacheGet. destruct (_ !! _) as [e|] eqn:El; [|done]. destruct (_ <? now); [done|]. by apply (Hs _ _ El). }
  intros [e|] He.
  { destruct (ace_ok e); [by apply authorize_named, He|by apply triple_ret]. }
  eapply triple_bind; [apply lookup_named|]. intros [id ok] Hid. simpl in Hid. apply triple_bind_any.
  - unfold cache_put. apply triple_bind_any; [by apply triple_time_free|]. intros now'.
    apply triple_with_mutex; [done|]. intros s c Hs. split; [|done]. by apply put_named.
  - intros _. destruct ok; [by apply authorize_named, Hid|by apply triple_ret].
Qed.

Definition well_admitted (q : http_request) (r : refusal + admitted) : Prop :=
  match r with
  | inl _ => True
  | inr ad =>
      let u := gc_caller (ad_ctx ad) in
      cu_user u ≠ "" ∧ requestTenantID u = (if str_eqb (cu_org u) "" then cu_user u else cu_org u) ∧
      (cu_org u = "" → cu_role u = "") ∧
      (ad_console ad = true → isTrustedConsoleRequest (trustedConsoleToken (env_config E)) q = true) ∧
      ad_deferred ad = false
  end.

Lemma admit_identity_triple q body start id :
  named (id, true) → triple is_cache_named (admit_identity E q body start id) (well_admitted q).
Proof.
  intros Hid. destruct (Hid eq_refl) as [Hu Ho]. simpl in Hu, Ho.
  assert (requestTenantID (gc_caller (ctx_of id)) = if str_eqb (OrgID id) "" then UserID id else OrgID id) as Ht.
  { unfold requestTenantID, ctx_of, TenantID. simpl. destruct (str_eqb (OrgID id) "") eqn:Eo.
    - by destruct (str_eqb (UserID id) "") eqn:Eu; [|].
    - by rewrite Eo. }
  unfold admit_identity. apply triple_bind_any; [by apply min_version_triple|]. intros minimum.
  destruct (str_eqb (evaluateVersionGateAgainst _ _) _); [by apply triple_ret|].
  apply triple_bind_any; [apply banned_triple; [done|apply _]|]. intros [|]; [by apply triple_ret|].
  destruct (isTrustedConsoleRequest _ q) eqn:Ec; [by apply triple_ret|].
  eapply triple_bind; [apply admit_quota_triple; [done|apply _]|]. intros [[r|] deferred] Hd; [by apply triple_ret|].
  simpl in Hd. subst. apply triple_bind_any; [by apply triple_uuid_free|]. intros logID. by apply triple_ret.
Qed.

End middleware.

Definition ex_get : http_request := {|
  q_method := "GET"; q_path := "/mcp/roots"; q_authorization := "Bearer bobkey"; q_client_version := "";
  q_console_token := ""; q_session := ""; q_accept := "" |}.
Definition ex_body : client_body := {| cb_failed := false; cb_len := 0; cb_rpc := None |}.

