(* ===== verification/IndexProperties.v ===== *)
(** * Functional properties of the indexing protocol

    Content verification of a batch, exactly-once commits, what completion installs, the
    idempotence of a repeated start, the start rate limit and the bounded retries of
    [begin]. *)
From Stdlib Require Import Ascii String.
From S2P Require Import Prelude GoStrings Paths Sha256 Manifest Failure Json Lce Store Effects.
From S2P Require Import Leases IndexStatements IndexJobs RootDeletion PlatformConfig RootAdmin.
From S2P Require Import System JobLifecycle Accounting Refinement Guarantees.
Open Scope Z_scope.

(** ** Uploads *)

Lemma batch_inputs_spec seen files inputs :
  batch_inputs seen files = Ok inputs →
  NoDup (Path <$> inputs) ∧ Forall (λ f, Path f ≠ "" ∧ Path f ∉ seen) inputs.
Proof.
  revert seen inputs. induction files as [|f files IH]; intros seen inputs; simpl.
  { intros [= <-]. split; constructor. }
  destruct (_ || _) eqn:Eb; [done|]. apply orb_false_iff in Eb as [E1 E2].
  apply str_eqb_false in E1. apply bool_decide_eq_false in E2.
  destruct (batch_inputs _ files) as [out|] eqn:Eo; [|done]. intros [= <-].
  destruct (IH _ _ Eo) as [Hnd Hall]. split.
  - simpl. apply NoDup_cons. split; [|done]. intros (g & Hg & Hin)%list_elem_of_fmap.
    rewrite Forall_forall in Hall. destruct (Hall g Hin) as [_ Hn]. apply Hn. rewrite <- Hg. set_solver.
  - constructor; [done|]. eapply Forall_impl; [exact Hall|]. simpl. intros g [H1 H2]. split; [done|].
    set_solver.
Qed.

Definition verified (rows : gmap string job_file) (f : indexManifestFile) : Prop :=
  ∃ rec, rows !! Path f = Some rec ∧ pending_row rec = true ∧ Hash f = jf_hash rec ∧
    len (Manifest.Content f) = jf_size rec ∧
    EqualFold (sha256_hex (Manifest.Content f)) (TrimSpace (jf_hash rec)) = true.

Lemma stage_inputs_spec rows inputs staged :
  stage_inputs rows inputs = Ok staged → Path <$> staged = Path <$> inputs ∧ Forall (verified rows) staged.
Proof.
  revert staged. induction inputs as [|f inputs IH]; intros staged; simpl; [by intros [= <-]|].
  destruct (rows !! Path f) as [rec|] eqn:Er; [|done].
  destruct (negb (needs_index rec) || _ || _) eqn:Eb; [done|].
  destruct (validateIndexContent _ _ _) as [u|] eqn:Ev; [|done].
  destruct (stage_inputs rows inputs) as [out|] eqn:Eo; [|done]. intros [= <-].
  destruct (IH _ eq_refl) as [Hp Hall]. split; [by rewrite !fmap_cons, Hp|]. constructor; [|done].
  apply orb_false_iff in Eb as [Eb _]. apply orb_false_iff in Eb as [E1 E2]. apply negb_false_iff in E1.
  unfold validateIndexContent in Ev. destruct (len _ =? _) eqn:El; [|done]. simpl in Ev.
  destruct (EqualFold _ _) eqn:Ee; [|done]. apply Z.eqb_eq in El.
  exists rec. simpl. split_and!; try done. unfold pending_row. by rewrite E1, E2.
Qed.

(** [C11] What reaches LCE is what the manifest promised: a batch
    that [prepareIndexBatch] accepts belongs to a running job of the caller with the
    request's root, names each file once, and every file in it is still pending in the
    job's manifest and has exactly the recorded size and SHA-256. *)
Theorem upload_content_verified user req d job staged deleted :
  prepareIndexBatch user req d = Ok (job, staged, deleted) →
  owned_running user (v_job job) = true ∧ index_jobs d !! JobID req = Some (v_job job) ∧
  normalizeIndexRootID (UploadRootID req) = root_id (meta (v_job job)) ∧
  NoDup (Path <$> staged) ∧ Forall (verified (files_of_job (JobID req) d)) staged.
Proof.
  unfold prepareIndexBatch, loadIndexJobFrom.
  destruct (find_job user (JobID req) d) as [j|] eqn:Ef; [|done].
  apply find_job_Some in Ef as [Hj Ho]. simpl.
  destruct (is_running j) eqn:Er; [|done]. simpl.
  destruct (str_eqb _ _) eqn:Eroot; [|done]. simpl. apply str_eqb_true in Eroot.
  destruct (_ && _); [done|].
  destruct (batch_inputs _ _) as [inputs|] eqn:Ei; [|done].
  destruct (stage_inputs _ _) as [out|] eqn:Es; [|done]. intros [= <- <- _].
  destruct (batch_inputs_spec _ _ _ Ei) as [Hnd _]. destruct (stage_inputs_spec _ _ _ Es) as [Hp Hall].
  split_and!; try done; [|by rewrite Hp]. unfold owned_running. simpl. by rewrite Ho, Er.
Qed.

Definition ex_upload : indexUploadRequest := {|
  JobID := "j1"; UploadRootID := "root";
  UploadFiles := [{| Path := "./a.go"; Hash := ex_hash; Size := 0; EstimatedChunks := 0;
                     Manifest.Content := "abc" |}] |}.

Lemma upload_content_verified_witness :
  ∃ job staged, prepareIndexBatch "u" ex_upload ex_created = Ok (job, staged, []) ∧
    Forall (verified (files_of_job "j1" ex_created)) staged ∧ Path <$> staged = ["a.go"].
Proof.
  destruct (prepareIndexBatch "u" ex_upload ex_created) as [[[job staged] deleted]|e] eqn:Ep;
    [|by vm_compute in Ep].
  pose proof (upload_content_verified "u" ex_upload ex_created job staged deleted Ep)
    as (_ & _ & _ & _ & Hv).
  exists job, staged. split; [|split; [exact Hv|]]; vm_compute in Ep; injection Ep as <- <- <-; reflexivity.
Defined.

Lemma mark_files_in files rows rows' f :
  mark_files files rows = Ok rows' → f ∈ files → matches (Path f) pending_row rows' = false.
Proof.
  assert (∀ files rows rows' p, mark_files files rows = Ok rows' →
            matches p pending_row rows = false → matches p pending_row rows' = false) as Hkeep.
  { clear. intros files. induction files as [|g files IH]; intros rows rows' p; simpl; [by intros [= <-]|].
    destruct (matches (Path g) _ _); [|done]. simpl. intros H Hp. eapply IH; [done|].
    unfold matches in *. rewrite update_row_lookup. case_decide; [|done].
    destruct (rows !! p) as [v|]; [|done]. simpl. destruct (pending_row v) eqn:E; [done|].
    by rewrite E. }
  revert rows. induction files as [|g files IH]; intros rows; simpl; [intros _ H; by apply not_elem_of_nil in H|].
  destruct (matches (Path g) pending_row rows) eqn:Em; [|done]. simpl. intros H [->|Hin]%elem_of_cons;
    [|by eapply IH]. eapply Hkeep; [done|]. unfold matches in *. rewrite update_row_lookup.
  case_decide; [|done]. destruct (rows !! Path g) as [v|]; [|done]. simpl. rewrite Em.
  unfold pending_row. simpl. by rewrite andb_false_r.
Qed.

(** [C12] A batch is committed at most once: after it was committed, no
    batch that contains one of its files can be committed to the job in any later state
    whose manifest rows are the same, so a replayed upload cannot count a file twice. *)
Theorem commit_exactly_once user id files chunks fb sent now d d1 d2 user' files' chunks' fb' sent' now' f :
  commitIndexBatch user id files chunks fb sent now d = Ok (tt, d1) →
  files_of_job id d2 = files_of_job id d1 → f ∈ files → f ∈ files' →
  is_ok (commitIndexBatch user' id files' chunks' fb' sent' now' d2) = false.
Proof.
  intros (j & rows & _ & _ & Hm & _ & ->)%commit_inv Heq Hf Hf'.
  assert (files_of_job id d2 = rows) as Hrows.
  { rewrite Heq. unfold files_of_job. simpl. case_bool_decide as Hn.
    - subst files. by apply not_elem_of_nil in Hf.
    - by rewrite lookup_insert_eq. }
  pose proof (mark_files_in _ _ _ _ Hm Hf) as Hdone.
  unfold commitIndexBatch. destruct (find_job user' id d2) as [j2|]; [|done].
  destruct (is_running j2); [|done]. simpl. rewrite Hrows.
  destruct (mark_files files' rows) as [rows'|] eqn:Em; [|done]. exfalso.
  assert (∀ files rows rows', mark_files files rows = Ok rows' → f ∈ files →
            matches (Path f) pending_row rows = true) as Hneed.
  { clear. intros files. induction files as [|g files IH]; intros rows rows'; simpl;
      [intros _ H; by apply not_elem_of_nil in H|].
    destruct (matches (Path g) pending_row rows) eqn:Em; [|done]. simpl.
    intros H [->|Hin]%elem_of_cons; [done|]. specialize (IH _ _ H Hin). unfold matches in *.
    rewrite update_row_lookup in IH. case_decide as Hp; [|done].
    destruct (rows !! Path f) as [v|] eqn:Ev; [|done]. simpl in IH.
    destruct (pending_row v) eqn:E; [done|]. by rewrite E in IH. }
  by rewrite (Hneed _ _ _ Em Hf') in Hdone.
Qed.

Lemma commit_exactly_once_witness :
  is_ok (commitIndexBatch "u" "j1" [ex_manifest_file] 1 false false 9 ex_committed) = false.
Proof.
  apply (commit_exactly_once "u" "j1" [ex_manifest_file] 1 false false 2 ex_created ex_committed
           ex_committed "u" [ex_manifest_file] 1 false false 9 ex_manifest_file);
    [vm_compute; reflexivity|reflexivity|apply elem_of_cons; by left|apply elem_of_cons; by left].
Defined.

(** ** Completion and the next start *)

(** The path, hash and size of every file: what a diff looks at. *)
Definition versions (files : list indexManifestFile) : gmap string (string * Z) :=
  list_to_map ((λ f, (Path f, file_version f)) <$> files).
Definition row_versions (rows : gmap string job_file) : gmap string (string * Z) :=
  (λ r, (jf_hash r, jf_size r)) <$> rows.

Lemma diffManifest_unchanged previous files :
  (∀ f, f ∈ files → changed previous f = false) → (∀ p, is_Some (previous !! p) → p ∈ Path <$> files) →
  (diffManifest previous files).1 = ([], []).
Proof.
  intros Hc Hd. destruct (diffManifest previous files) as [[pending deleted] n] eqn:E. simpl.
  assert (pending = []) as ->.
  { apply elem_of_nil_inv. intros p. rewrite (diffManifest_pending _ _ _ _ _ _ E).
    intros (f & Hf & _ & Hch). by rewrite (Hc f Hf) in Hch. }
  assert (deleted = []) as ->; [|done].
  apply elem_of_nil_inv. intros p. rewrite (diffManifest_deleted _ _ _ _ _ _ E). intros [Hs Hn]. auto.
Qed.

Lemma versions_lookup files f :
  NoDup (Path <$> files) → f ∈ files → versions files !! Path f = Some (file_version f).
Proof.
  intros Hnd Hf. unfold versions. apply elem_of_list_to_map.
  - by rewrite <- list_fmap_compose.
  - apply list_elem_of_fmap. by exists f.
Qed.

Lemma versions_dom files p : is_Some (versions files !! p) ↔ p ∈ Path <$> files.
Proof.
  unfold versions. rewrite <- elem_of_dom, dom_list_to_map, elem_of_list_to_set, <- list_fmap_compose.
  done.
Qed.

Lemma create_tx_unchanged user newID req files now d p w :
  index_workspaces d !! (user, WorkspaceID req) = Some w → UnreadableFiles req = [] →
  (diffManifest (loadIndexedSnapshot user (WorkspaceID req) d) files).1 = ([], []) →
  ∃ d', create_tx user newID req files now d p = (Ok (CreateUnchanged, d'), p) ∧
    index_jobs d' = index_jobs d ∧ indexed_files d' = indexed_files d.
Proof.
  intros Hw Hu Hd. unfold create_tx. rewrite Hu.
  change (graftUnreadablePaths _ files []) with (Ok (E := error) files). cbv beta iota.
  rewrite (bool_decide_eq_true_2 (is_Some _)) by (rewrite Hw; eauto).
  destruct (diffManifest _ files) as [[pending deleted] n] eqn:Ed. simpl in Hd. injection Hd as -> ->.
  eexists. split; [reflexivity|done].
Qed.

Lemma completed_snapshot user id root rev now d j d' :
  complete_tx user id root rev now d = Ok (tt, d') → find_job user id d = Some j →
  index_workspaces d' !! (user, workspace_id (meta j)) = Some {|
    ws_name := workspace_name (meta j); ws_root := root; ws_branch := branch (meta j);
    ws_revision := revision (meta j); ws_cloud_revision := rev; ws_indexed_at := now |} ∧
  loadIndexedSnapshot user (workspace_id (meta j)) d' =
    map_imap (λ q r, Some (manifest_entry q (snapshot_row r))) (files_of_job id d).
Proof.
  intros (j' & Hf' & _ & ->)%complete_inv Hf. rewrite Hf in Hf'. injection Hf' as <-. split.
  - simpl. by rewrite lookup_insert_eq.
  - unfold loadIndexedSnapshot, files_of_workspace. simpl. rewrite lookup_insert_eq. simpl.
    apply map_eq. intros q. rewrite !map_lookup_imap, lookup_fmap.
    by destruct (files_of_job id d !! q).
Qed.

(** Completion is what makes the next synchronisation a no-op:
    once a job completed, the workspace is recorded with the job's root and cloud revision,
    and a start with a manifest of the same paths, hashes and sizes answers "unchanged"
    without creating a job, whatever else the request says. *)
Theorem complete_then_unchanged user id root rev now d d' j req newID files now' p :
  complete_tx user id root rev now d = Ok (tt, d') → find_job user id d = Some j →
  WorkspaceID req = workspace_id (meta j) → UnreadableFiles req = [] →
  NoDup (Path <$> files) → versions files = row_versions (files_of_job id d) →
  (∃ w, index_workspaces d' !! (user, WorkspaceID req) = Some w ∧ ws_root w = root ∧
        ws_cloud_revision w = rev ∧ ws_revision w = revision (meta j)) ∧
  ∃ d'', create_tx user newID req files now' d' p = (Ok (CreateUnchanged, d''), p) ∧
    index_jobs d'' = index_jobs d' ∧ indexed_files d'' = indexed_files d'.
Proof.
  intros Htx Hf Hws Hu Hnd Hv. destruct (completed_snapshot _ _ _ _ _ _ _ _ Htx Hf) as [Hw Hsnap].
  rewrite <- Hws in Hw, Hsnap. split; [eexists; split; [exact Hw|done]|].
  apply (create_tx_unchanged _ _ _ _ _ _ _ _ Hw Hu). rewrite Hsnap. apply diffManifest_unchanged.
  - intros f Hin. pose proof (versions_lookup _ _ Hnd Hin) as Hl. rewrite Hv in Hl.
    unfold row_versions in Hl. rewrite lookup_fmap in Hl. unfold changed. rewrite map_lookup_imap.
    destruct (files_of_job id d !! Path f) as [r|]; [|done]. simpl in *. injection Hl as Hh Hs.
    by rewrite bool_decide_eq_true_2, Hs, Z.eqb_refl.
  - intros q. rewrite map_lookup_imap, <- versions_dom, Hv. unfold row_versions.
    rewrite lookup_fmap. by destruct (files_of_job id d !! q); intros [? ?].
Qed.

Lemma complete_then_unchanged_witness :
  ∃ d'', create_tx "u" "j2" ex_start [ex_manifest_file] 99 ex_completed empty_proc
           = (Ok (CreateUnchanged, d''), empty_proc) ∧
    index_jobs d'' = index_jobs ex_completed ∧ indexed_files d'' = indexed_files ex_completed.
Proof.
  destruct (find_job "u" "j1" ex_committed) as [j|] eqn:Ej; [|by vm_compute in Ej].
  eapply (complete_then_unchanged "u" "j1" "root" 7 3 ex_committed ex_completed j ex_start "j2"
            [ex_manifest_file] 99 empty_proc).
  - vm_compute. reflexivity.
  - exact Ej.
  - vm_compute in Ej. injection Ej as <-. reflexivity.
  - reflexivity.
  - apply NoDup_singleton.
  - vm_compute. reflexivity.
Defined.

(** ** The start rate limit *)

(** Other starts, of any tenant and root, served in between. *)
Fixpoint other_starts (starts : list (string * string * Z)) (p : Proc) : Proc :=
  match starts with
  | [] => p
  | (user, root, now) :: rest => other_starts rest (checkIndexStartRateLimit user root now p).2
  end.

Lemma rate_limit_entry user root now p key t :
  indexStartSeen p !! key = Some t → now - t < indexStartMinInterval →
  indexStartSeen (checkIndexStartRateLimit user root now p).2 !! key = Some t.
Proof.
  intros Hk Ht. unfold checkIndexStartRateLimit.
  destruct (decide (user +:+ NUL +:+ root = key)) as [->|Hn].
  - rewrite Hk, (proj2 (Z.ltb_lt 0 _)) by lia. exact Hk.
  - destruct (0 <? _); [exact Hk|]. simpl. rewrite lookup_insert_ne by done.
    destruct (_ <=? _); [|exact Hk]. apply delete_where_lookup. split; [done|].
    apply Z.leb_gt. lia.
Qed.

(** Two starts of the same tenant and root that both do work are at
    least thirty seconds apart, whatever other starts are served in between and however
    full the table gets: within the interval the second is answered with the exact
    remaining wait, rounded up to seconds and at most thirty, and consumes nothing. *)
Theorem starts_are_spaced user root now p p1 others now' :
  checkIndexStartRateLimit user root now p = (0, p1) →
  Forall (λ s, s.2 ≤ now') others → now ≤ now' < now + indexStartMinInterval →
  ∃ wait, checkIndexStartRateLimit user root now' (other_starts others p1) = (wait, other_starts others p1) ∧
    1 ≤ wait ≤ 30 ∧ (wait - 1) * Second < now + indexStartMinInterval - now' ≤ wait * Second.
Proof.
  intros Hadm Hoth Hnow. set (key := user +:+ NUL +:+ root).
  assert (indexStartSeen p1 !! key = Some now) as H1.
  { unfold checkIndexStartRateLimit in Hadm. fold key in Hadm. destruct (0 <? _) eqn:E.
    - apply Z.ltb_lt in E. injection Hadm as Hq _. exfalso.
      unfold Second, Millisecond in *. apply Z.quot_small_iff in Hq; lia.
    - injection Hadm as <-. simpl. by rewrite lookup_insert_eq. }
  assert (indexStartSeen (other_starts others p1) !! key = Some now) as H2.
  { clear Hadm. revert p1 H1. induction Hoth as [|[[u r] t] others Ht Hoth IH]; intros p1 H1; [done|].
    simpl in *. apply IH, rate_limit_entry; [done|lia]. }
  unfold checkIndexStartRateLimit. fold key. rewrite H2.
  rewrite (proj2 (Z.ltb_lt 0 _)) by lia. eexists. split; [reflexivity|].
  unfold indexStartMinInterval in *. rewrite Z.quot_div_nonneg by (unfold Second in *; lia).
  set (r := 30 * Second - (now' - now)) in *. assert (0 < r ≤ 30 * Second) as Hr by (unfold r; lia).
  pose proof (Z.div_mod (r + Second - 1) Second). pose proof (Z.mod_pos_bound (r + Second - 1) Second).
  unfold Second, Millisecond in *. nia.
Qed.

Lemma starts_are_spaced_witness :
  ∃ wait p1, checkIndexStartRateLimit "u" "root" (10 * Second + 1) p1 = (wait, p1) ∧ 1 ≤ wait ≤ 30.
Proof.
  destruct (starts_are_spaced "u" "root" 0 empty_proc (checkIndexStartRateLimit "u" "root" 0 empty_proc).2
              [("v", "root", 5)] (10 * Second + 1)) as (wait & Hw & Hb & _).
  - vm_compute. reflexivity.
  - repeat constructor; vm_compute; done.
  - vm_compute. done.
  - exists wait. eexists. split; [exact Hw|exact Hb].
Defined.

(** ** Retries of [begin] *)

Lemma remote_index_call_calls E prefix args w :
  calls (remote_index_call E prefix args w).2 = remote_index args :: calls w.
Proof.
  unfold remote_index_call, mbind, M_bind, callTool. simpl.
  destruct (env_lce E (ticks w) _) as [r|t]; [|done]. by destruct (IsError r).
Qed.

Lemma begin_attempts_S E left args :
  begin_attempts E (S left) args =
  (r ← try (remote_index_call E "LCE cloud index begin failed" args);
   match r with
   | Ok _ => mret tt
   | Err e =>
       if negb (isTransientLCEResourceError (env_unicode_lower E) e) then throw e else
       n ← polls E;
       if (n =? 0)%nat then throw e else begin_attempts E left args
   end).
Proof. reflexivity. Qed.

Lemma begin_attempts_calls E left args w :
  ∃ n, (1 ≤ n ≤ S left)%nat ∧
    calls (begin_attempts E left args w).2 = replicate n (remote_index args) ++ calls w.
Proof.
  revert w. induction left as [|left IH]; intros w;
    pose proof (remote_index_call_calls E "LCE cloud index begin failed" args w) as Hc.
  - exists 1%nat. split; [lia|]. unfold begin_attempts, mbind, M_bind, try.
    destruct (remote_index_call E _ args w) as [[c|e] w1]; exact Hc.
  - rewrite begin_attempts_S. unfold mbind, M_bind, try.
    destruct (remote_index_call E _ args w) as [[c|e] w1]; simpl in Hc |- *;
      [by exists 1%nat; split; [lia|]|].
    destruct (isTransientLCEResourceError _ _); simpl; [|by exists 1%nat; split; [lia|]].
    unfold polls. destruct (_ =? 0)%nat; simpl; [by exists 1%nat; split; [lia|]|].
    destruct (IH w1) as (n & Hn & Hcalls). exists (S n). split; [lia|].
    rewrite Hcalls, Hc. by rewrite replicate_S_end, <- (assoc_L (++)).
Qed.

(** Opening a cloud job makes one, two or three calls, all with the
    same arguments, and none at all exactly when the request body is over LCE's limit,
    whatever LCE answers and whether or not the client goes away. *)
Theorem begin_retries_bounded E user id root replaceRoot w :
  let args := lceBeginIndexJobArgs user id root replaceRoot in
  let w' := (beginLCEIndexJob E user id root replaceRoot w).2 in
  if is_ok (validateMCPToolCallBody "codebase_remote_index" args)
  then ∃ n, (1 ≤ n ≤ 3)%nat ∧ calls w' = replicate n (remote_index args) ++ calls w
  else w' = w ∧ is_ok (beginLCEIndexJob E user id root replaceRoot w).1 = false.
Proof.
  cbv zeta. unfold beginLCEIndexJob, mbind, M_bind, lift.
  destruct (validateMCPToolCallBody _ _) as [b|e]; cbn [is_ok fst snd]; [|done].
  exact (begin_attempts_calls E lceBeginRetryAttempts (lceBeginIndexJobArgs user id root replaceRoot) w).
Qed.

(** ** Heartbeats *)

(** A heartbeat keeps a job alive: after the heartbeat of a
    running job that is not being published, no sweep within the timeout (two minutes
    before the first upload, then ten) changes or aborts it,
    and the heartbeat itself changes nothing of the job but its time. *)
Theorem heartbeat_prevents_timeout user id t d d1 j now locked jobs d2 :
  heartbeat_job user id t d = Ok (tt, d1) → find_job user id d = Some j →
  is_running j = true → is_publishing j = false →
  now ≤ t + (match phase (prog j) with Created => indexJobInitialUploadTimeout
             | _ => indexJobHeartbeatTimeout end) →
  sweep_tx locked now d1 = Ok (jobs, d2) →
  index_jobs d2 !! id = Some (beat t j) ∧ id ∉ jobs.*1 ∧
  index_job_files d2 !! id = index_job_files d !! id ∧
  meta (beat t j) = meta j ∧ fail (beat t j) = fail j ∧
  (∀ id', id' ≠ id → index_jobs d1 !! id' = index_jobs d !! id').
Proof.
  intros [= <-] [Hj Ho]%find_job_Some Hrun Hpub Hnow [= <- <-].
  assert (update_row id (λ j, owned_running user j && negb (is_publishing j)) (beat t) (index_jobs d) !! id
          = Some (beat t j)) as Hb.
  { rewrite update_row_lookup, decide_True, Hj by done. simpl. unfold owned_running. by rewrite Ho, Hrun, Hpub. }
  assert (sweep_expired now (beat t j) = false) as Hs.
  { unfold sweep_expired. apply andb_false_iff. right. simpl. destruct (phase (prog j)); try done;
      apply Z.ltb_ge; lia. }
  split_and!.
  - simpl. by rewrite map_lookup_imap, Hb; simpl; rewrite Hs, andb_false_r.
  - intros ([id' j'] & -> & Hin)%list_elem_of_fmap. apply elem_of_map_to_list, map_lookup_filter_Some in Hin.
    destruct Hin as [Hin He]. simpl in *. rewrite Hb in Hin. injection Hin as <-.
    by rewrite Hs, andb_false_r in He.
  - simpl. destruct (index_job_files d !! id) as [fs|] eqn:Ef.
    + apply delete_where_lookup. split; [done|]. unfold matches. rewrite Hb, Hs. by rewrite andb_false_r.
    + apply delete_where_None. intros v Hv. congruence.
  - done.
  - done.
  - intros id' Hid. simpl. rewrite update_row_lookup, decide_False by done. done.
Qed.

Lemma heartbeat_prevents_timeout_witness :
  ∃ jobs d2, sweep_tx ∅ (3 * Minute) (result_db (heartbeat_job "u" "j1" (2 * Minute) ex_created) ex_created)
             = Ok (jobs, d2) ∧ "j1" ∉ jobs.*1.
Proof.
  destruct (index_jobs ex_created !! "j1") as [j|] eqn:Ej; [|vm_compute in Ej; discriminate].
  eexists _, _. split; [reflexivity|].
  apply (heartbeat_prevents_timeout "u" "j1" (2 * Minute) ex_created
           (result_db (heartbeat_job "u" "j1" (2 * Minute) ex_created) ex_created) j (3 * Minute) ∅ _
           (result_db (sweep_tx ∅ (3 * Minute)
              (result_db (heartbeat_job "u" "j1" (2 * Minute) ex_created) ex_created)) ex_created)).
  - reflexivity.
  - unfold find_job. rewrite Ej. vm_compute in Ej. injection Ej as <-. reflexivity.
  - vm_compute in Ej. injection Ej as <-. reflexivity.
  - vm_compute in Ej. injection Ej as <-. reflexivity.
  - vm_compute in Ej. injection Ej as <-. vm_compute. discriminate.
  - reflexivity.
Defined.
