(* ===== verification/ControlProperties.v ===== *)
(** * Properties of the control jobs and of root administration

    Fencing and atomicity of root deletions and configuration changes, what an
    unconfirmed outcome may not do, the order of cloud and local deletion, and the
    effect of a durable deletion marker on indexing. *)
From Stdlib Require Import Ascii String.
From S2P Require Import Prelude GoStrings Paths Manifest Failure Json Lce Store Effects Leases.
From S2P Require Import IndexStatements IndexJobs RootDeletion PlatformConfig RootAdmin System.
From S2P Require Import Auth Console Readers JobLifecycle Guarantees.
Open Scope Z_scope.

(** ** Root deletions *)

Lemma set_deletions_id f d : f (root_deletion_jobs d) = root_deletion_jobs d → set_deletions f d = d.
Proof. destruct d. unfold set_deletions. simpl. by intros ->. Qed.

Lemma claim_inv attempt locked now d job d' :
  claimRootDeletion_tx attempt locked now d = Ok (Some job, d') →
  ∃ r, dj_row job = claim_row attempt now r ∧ root_deletion_jobs d !! dj_ID job = Some r ∧
    deletion_claimable now r = true ∧ root_deletion_jobs d' !! dj_ID job = Some (dj_row job).
Proof.
  unfold claimRootDeletion_tx. destruct (deletions_in_order _ _ _) as [|[id r] l] eqn:E; [done|].
  intros [= <- <-]. exists r.
  destruct (deletions_in_order_in locked (deletion_claimable now) d id r) as [Hr Hc].
  { rewrite E. apply elem_of_cons. by left. }
  split_and!; try done. simpl. by rewrite lookup_insert_eq.
Qed.

(** [C28] A claim fences the workers before it: once an attempt was claimed, a
    worker that still holds an older attempt of the same deletion can neither finish it
    nor record an error against it, at any later time. *)
Theorem stale_worker_fenced attempt locked now d job d' old count deferOnly now' :
  claimRootDeletion_tx attempt locked now d = Ok (Some job, d') → dj_ID old = dj_ID job →
  rd_attempt_id (dj_row old) ≠ Some attempt →
  finishRootDeletion_tx old count now' d' = Err ErrNoRows ∧
  recordRootDeletionError_tx old deferOnly now' d' = Ok (tt, d').
Proof.
  intros (r & Hrow & _ & _ & Hd')%claim_inv Hid Ha.
  assert (matches (dj_ID old) (attempt_current old now') (root_deletion_jobs d') = false) as Hm.
  { unfold matches. rewrite Hid, Hd', Hrow. unfold attempt_current. simpl.
    rewrite (bool_decide_eq_false_2 (Some attempt = _)) by congruence.
    by rewrite andb_false_r. }
  unfold finishRootDeletion_tx, recordRootDeletionError_tx. rewrite Hm. split; [done|].
  f_equal. f_equal. by apply set_deletions_id, update_row_id.
Qed.

Definition ex_claim (attempt : string) (now : Z) (d : DB) : option rootDeletionJob * DB :=
  match claimRootDeletion_tx attempt ∅ now d with Ok r => r | Err _ => (None, d) end.
Definition ex_claimed : DB := (ex_claim "a1" Second ex_deleting).2.
Definition ex_old_worker : rootDeletionJob :=
  default {| dj_ID := ""; dj_row := new_deletion "" "" "" 0 |} (ex_claim "a1" Second ex_deleting).1.

Lemma stale_worker_fenced_witness :
  ∃ job d', claimRootDeletion_tx "a2" ∅ Hour ex_claimed = Ok (Some job, d') ∧
    finishRootDeletion_tx ex_old_worker 0 (Hour + 1) d' = Err ErrNoRows.
Proof.
  destruct (claimRootDeletion_tx "a2" ∅ Hour ex_claimed) as [[[job|] d']|e] eqn:E;
    [|by vm_compute in E..].
  exists job, d'. split; [done|].
  apply (stale_worker_fenced "a2" ∅ Hour ex_claimed job d' ex_old_worker 0 false (Hour + 1) E).
  - vm_compute in E. injection E as <- _. reflexivity.
  - vm_compute. done.
Defined.

(** The transaction that finishes a deletion marks it succeeded and
    clears exactly the root: no job, workspace or file of the tenant's root is left, and
    the jobs with their manifests and the files of everything else are as before. *)
Theorem deletion_finish_atomic job count now d d' :
  let u := rd_user (dj_row job) in
  let root := rd_root (dj_row job) in
  finishRootDeletion_tx job count now d = Ok (tt, d') →
  (∃ r, root_deletion_jobs d' !! dj_ID job = Some r ∧ rd_status r = Succeeded ∧ rd_user r = u) ∧
  (∀ id j, index_jobs d' !! id = Some j ↔
     index_jobs d !! id = Some j ∧ owned u j && root_matches root (root_id (meta j)) = false) ∧
  (∀ k w, index_workspaces d' !! k = Some w ↔
     index_workspaces d !! k = Some w ∧ str_eqb k.1 u && root_matches root (ws_root w) = false) ∧
  (∀ k, indexed_files d' !! k = if workspace_of_root u root d k then None else indexed_files d !! k) ∧
  (∀ id fs, index_job_files d' !! id = Some fs ↔ index_job_files d !! id = Some fs ∧
     matches id (λ j, owned u j && root_matches root (root_id (meta j))) (index_jobs d) = false).
Proof.
  intros u root (Hm & n & ->)%finish_inv. fold u root. split_and!.
  - unfold matches in Hm. destruct (root_deletion_jobs d !! dj_ID job) as [r|] eqn:Er; [|done].
    unfold attempt_current in Hm. fold u in Hm. simpl. erewrite update_row_eq by exact Er.
    rewrite <- !andb_assoc in Hm. apply andb_true_iff in Hm as [Hu [Ha _]%andb_true_iff].
    rewrite Hu, Ha. eexists. split; [reflexivity|]. split; [done|]. by apply str_eqb_true.
  - intros id j. apply (delete_where_lookup (λ _ j, owned u j && root_matches root (root_id (meta j)))).
  - intros k w. apply (delete_where_lookup (λ k w, str_eqb k.1 u && root_matches root (ws_root w))).
  - intros k. simpl. destruct (workspace_of_root u root d k) eqn:Ew.
    + apply delete_where_None. by intros v _.
    + destruct (indexed_files d !! k) as [fs|] eqn:E.
      * by apply (delete_where_lookup (λ k _, workspace_of_root u root d k)).
      * apply delete_where_None. intros v Hv. congruence.
  - intros id fs. apply (delete_where_lookup (λ id _, matches id
      (λ j, owned u j && root_matches root (root_id (meta j))) (index_jobs d))).
Qed.

Lemma deletion_finish_atomic_witness :
  ∃ d', finishRootDeletion_tx ex_old_worker 3 Minute ex_claimed = Ok (tt, d') ∧
    ∃ r, root_deletion_jobs d' !! "del1" = Some r ∧ rd_status r = Succeeded ∧ rd_user r = "u".
Proof.
  destruct (finishRootDeletion_tx ex_old_worker 3 Minute ex_claimed) as [[[] d']|e] eqn:E;
    [|by vm_compute in E].
  exists d'. split; [done|].
  exact (proj1 (deletion_finish_atomic ex_old_worker 3 Minute ex_claimed d' E)).
Defined.

(** Repeating a recovery request is harmless: a submission that names
    a deletion to retry returns that deletion, creates none, charges no rate limit and
    touches no index; when the deletion is no longer active nothing changes at all, so a
    late retry cannot delete a root that was indexed again. *)
Theorem recovery_never_redeletes tenant actor root retry newID now d p job d' p' :
  submitRootDeletion_tx tenant actor root retry newID now d p = (Ok (job, d'), p') → retry ≠ "" →
  dj_ID job = retry ∧ p' = p ∧ dom (root_deletion_jobs d') = dom (root_deletion_jobs d) ∧
  index_jobs d' = index_jobs d ∧ indexed_files d' = indexed_files d ∧
  (tenant_deleting tenant d = false → d' = d).
Proof.
  unfold submitRootDeletion_tx. intros H Hretry. apply str_eqb_false in Hretry.
  destruct (active_deletion tenant d) as [[id r]|] eqn:Ea.
  - apply active_deletion_Some in Ea as (Hr & Hu & Hact). rewrite Hretry in H. simpl in H.
    destruct (negb (str_eqb (rd_root r) root) || _) eqn:Eb; [done|].
    apply orb_false_iff in Eb as [_ Eid]. apply negb_false_iff, str_eqb_true in Eid as <-.
    assert (tenant_deleting tenant d = false → d' = d) as Hno.
    { intros Hn. exfalso. unfold tenant_deleting in Hn. rewrite exists_where_false in Hn.
      specialize (Hn _ _ Hr). simpl in Hn. by rewrite Hu, str_eqb_refl, Hact in Hn. }
    destruct (rd_recovery_required r); injection H as <- <- <-; split_and!; try done.
    simpl. by apply dom_insert_lookup_L.
  - rewrite Hretry in H. simpl in H. destruct (root_deletion_jobs d !! retry) as [r|]; [|done].
    destruct (_ && _); [|done]. by injection H as <- <- <-.
Qed.

Lemma recovery_never_redeletes_witness :
  ∃ job d', submitRootDeletion_tx "u" "u" "root" "del1" "new" Hour ex_claimed empty_proc
              = (Ok (job, d'), empty_proc) ∧ dj_ID job = "del1" ∧
    dom (root_deletion_jobs d') = dom (root_deletion_jobs ex_claimed).
Proof.
  destruct (submitRootDeletion_tx "u" "u" "root" "del1" "new" Hour ex_claimed empty_proc)
    as [[[job d']|e] p'] eqn:E; [|by vm_compute in E].
  destruct (recovery_never_redeletes "u" "u" "root" "del1" "new" Hour ex_claimed empty_proc job d' p' E)
    as (Hid & -> & Hdom & _); [discriminate|].
  exists job, d'. split; [reflexivity|split; [exact Hid|exact Hdom]].
Defined.

(** The retry delay doubles from five seconds, never exceeds ten minutes,
    never decreases with the number of attempts and fits a Go duration. *)
Theorem retry_delay_bounds a b :
  5 * Second ≤ rootDeletionRetryDelay a ≤ 10 * Minute ∧
  (a ≤ b → rootDeletionRetryDelay a ≤ rootDeletionRetryDelay b) ∧
  (1 ≤ a ≤ 7 → rootDeletionRetryDelay a = 5 * Second * 2 ^ (a - 1)) ∧
  (8 ≤ a → rootDeletionRetryDelay a = 10 * Minute) ∧
  in_int64 (5 * Second * 2 ^ 7) = true.
Proof.
  unfold rootDeletionRetryDelay. rewrite !Z.shiftl_1_l.
  assert (∀ n, 0 ≤ n ≤ 7 → 1 ≤ 2 ^ n ≤ 128) as Hp.
  { intros n Hn. change 128 with (2 ^ 7). change 1 with (2 ^ 0) at 1.
    split; apply Z.pow_le_mono_r; lia. }
  set (x := Z.min (Z.max (a - 1) 0) 7). set (y := Z.min (Z.max (b - 1) 0) 7).
  assert (0 ≤ x ≤ 7) as Hx by lia. pose proof (Hp x Hx). unfold Minute, Second, Millisecond.
  split_and!.
  - lia.
  - lia.
  - intros Hab. assert (2 ^ x ≤ 2 ^ y) by (apply Z.pow_le_mono_r; lia). lia.
  - intros Ha. replace x with (a - 1) by lia. assert (2 ^ (a - 1) ≤ 2 ^ 6) by (apply Z.pow_le_mono_r; lia).
    change (2 ^ 6) with 64 in *. lia.
  - intros Ha. replace x with 7 by lia. done.
  - reflexivity.
Qed.

(** ** Configuration changes *)

(** [C29] A configuration job is finished in one transaction by the attempt
    that holds its claim: a committed change of the embedding space leaves no lease, job,
    manifest, snapshot or workspace of any tenant and records how many there were; a
    rejected change or one that keeps the embedding space leaves them all as they were. *)
Theorem config_commit_atomic job r now d d' :
  finishPlatformConfigJob_tx job r now d = Ok (tt, d') →
  let rejected := str_eqb (co_State r) "rejected" in
  let cleared := negb rejected && pc_embedding_changed (cj_row job) in
  (∃ c, platform_config_jobs d' !! cj_ID job = Some c ∧ config_active c = false ∧
        pc_status c = (if rejected then CRejected else CSucceeded) ∧
        pc_result c = Some (if cleared then (clearAllRelayIndexStateTx d).1 else no_cleared)) ∧
  root_deletion_jobs d' = root_deletion_jobs d ∧
  (if cleared
   then index_jobs d' = ∅ ∧ index_job_files d' = ∅ ∧ indexed_files d' = ∅ ∧ index_workspaces d' = ∅ ∧
        index_operation_leases d' = ∅
   else d' = set_configs (λ _, platform_config_jobs d') d).
Proof.
  unfold finishPlatformConfigJob_tx. destruct (matches _ _ _) eqn:Em; [|done]. simpl.
  unfold matches in Em. destruct (platform_config_jobs d !! cj_ID job) as [c|] eqn:Ec; [|done].
  unfold config_attempt_current in Em. apply andb_true_iff in Em as [[Ha _]%andb_true_iff _].
  destruct (str_eqb (co_State r) "rejected"), (pc_embedding_changed (cj_row job)); simpl;
    intros [= <-]; simpl; erewrite update_row_eq by exact Ec; rewrite Ha;
    (split_and!; [eexists; split; [reflexivity|done]|done..]).
Qed.

Definition ex_config_job (d : DB) : platformConfigJob * DB :=
  match enqueuePlatformConfigJob_tx "cfg" "embeddings" true (5 * Minute) d with
  | Ok (_, d1) =>
      match claimPlatformConfigJob_tx "a1" ∅ (6 * Minute) d1 with
      | Ok (Some job, d2) => (job, d2)
      | _ => ({| cj_ID := ""; cj_row := new_config_job "" false 0 |}, d1)
      end
  | Err _ => ({| cj_ID := ""; cj_row := new_config_job "" false 0 |}, d)
  end.
Definition ex_receipt : cloudPlatformConfigOperation :=
  {| co_OperationID := "cfg"; co_State := "completed"; co_EmbeddingChanged := true; co_Error := "" |}.

Lemma config_commit_atomic_witness :
  ∃ d', finishPlatformConfigJob_tx (ex_config_job ex_completed).1 ex_receipt (7 * Minute)
          (ex_config_job ex_completed).2 = Ok (tt, d') ∧
    size (indexed_files (ex_config_job ex_completed).2) = 1%nat ∧ indexed_files d' = ∅.
Proof.
  destruct (finishPlatformConfigJob_tx (ex_config_job ex_completed).1 ex_receipt (7 * Minute)
              (ex_config_job ex_completed).2) as [[[] d']|e] eqn:E; [|by vm_compute in E].
  exists d'. split_and!; [done|vm_compute; reflexivity|].
  destruct (config_commit_atomic (ex_config_job ex_completed).1 ex_receipt (7 * Minute)
             (ex_config_job ex_completed).2 d' E) as (_ & _ & H).
  replace (negb (str_eqb (co_State ex_receipt) "rejected") &&
           pc_embedding_changed (cj_row (ex_config_job ex_completed).1)) with true in H
    by (vm_compute; reflexivity).
  by destruct H as (_ & _ & H & _).
Defined.

(** ** Unconfirmed outcomes *)

(** The index of every tenant, and the tenant's deletion marker, are kept. *)
Definition index_kept (d d' : DB) : Prop :=
  index_jobs d' = index_jobs d ∧ index_job_files d' = index_job_files d ∧
  indexed_files d' = indexed_files d ∧ index_workspaces d' = index_workspaces d.
Definition marker_kept (tenant : string) (d d' : DB) : Prop :=
  tenant_deleting tenant d = true → tenant_deleting tenant d' = true.
Definition deletion_kept (tenant : string) (d d' : DB) : Prop :=
  index_kept d d' ∧ marker_kept tenant d d'.

#[export] Instance index_kept_preorder : PreOrder index_kept.
Proof.
  split; [done|]. intros d1 d2 d3 (?&?&?&?) (?&?&?&?). unfold index_kept. split_and!; congruence.
Qed.
#[export] Instance marker_kept_preorder tenant : PreOrder (marker_kept tenant).
Proof. split; [intros d H; exact H|]. intros d1 d2 d3 H1 H2 H. auto. Qed.
#[export] Instance deletion_kept_preorder tenant : PreOrder (deletion_kept tenant).
Proof.
  split; [intros d; split; reflexivity|]. intros d1 d2 d3 [??] [??]. split; by etransitivity.
Qed.

Lemma tenant_deleting_ext tenant d d' :
  root_deletion_jobs d' = root_deletion_jobs d → tenant_deleting tenant d' = tenant_deleting tenant d.
Proof. unfold tenant_deleting. by intros ->. Qed.

Lemma acquire_kept tenant user resource kind token md now d b d' :
  tryAcquireIndexOperation user resource kind token md now d = Ok (b, d') → deletion_kept tenant d d'.
Proof.
  unfold tryAcquireIndexOperation. destruct (_ && _); [destruct (_ !! token); [done|]|];
    (intros [= _ <-]; split; [done|intros H; exact H]).
Qed.

Lemma defer_kept tenant job deferOnly now d d' :
  recordRootDeletionError_tx job deferOnly now d = Ok (tt, d') → deletion_kept tenant d d'.
Proof.
  intros [= <-]. split; [done|]. unfold marker_kept, tenant_deleting. rewrite !exists_where_true.
  intros (k & r & Hr & Hk). simpl.
  destruct (decide (dj_ID job = k)) as [<-|Hn]; [|exists k, r; by rewrite update_row_ne].
  exists (dj_ID job). erewrite update_row_eq by exact Hr. eexists. split; [reflexivity|].
  destruct (attempt_current job now r); [|done]. apply andb_true_iff in Hk as [Hk _]. simpl. by rewrite Hk.
Qed.

Section kept.
Context (E : Env) (tenant : string) (HE : env_respects (deletion_kept tenant) E).

Lemma try_exclusive_kept user kind : respects (deletion_kept tenant) (tryExclusiveIndexOperation E user kind).
Proof.
  unfold tryExclusiveIndexOperation, tryIndexOperation. respects_tac.
  apply respects_atomically; [typeclasses eauto|exact HE|]. intros now d b d'. apply acquire_kept.
Qed.

Lemma release_kept user token : respects (deletion_kept tenant) (Release E user token).
Proof.
  unfold Release. respects_tac. apply respects_atomically; [typeclasses eauto|exact HE|].
  intros ???? [= _ <-]. split; [done|intros H; exact H].
Qed.

Lemma record_error_kept job deferOnly : respects (deletion_kept tenant) (recordRootDeletionError E job deferOnly).
Proof.
  unfold recordRootDeletionError. respects_tac. apply respects_atomically; [typeclasses eauto|exact HE|].
  intros now d [] d'. apply defer_kept.
Qed.
End kept.

#[export] Hint Resolve try_exclusive_kept release_kept record_error_kept : eff.

(** No reply of LCE is a receipt for this deletion. *)
Definition never_confirmed (E : Env) (job : rootDeletionJob) : Prop :=
  ∀ n req result, env_lce E n req = Ok result → IsError result = false →
    is_ok (rootDeletionReceipt (Content result) job) = false.

Lemma delete_unconfirmed E tenant job :
  env_respects (deletion_kept tenant) E → never_confirmed E job →
  respects (deletion_kept tenant) (delete_under_lease E job).
Proof.
  intros HE Hn. unfold delete_under_lease. apply respects_bind; [apply _| |].
  - apply respects_try. unfold rootDeletionAttemptCurrent.
    apply respects_atomically; [apply _|exact HE|]. by intros ???? [= _ <-].
  - intros [[]|e]; [|by respects_tac..].
    apply (respects_bind_post _ _ _ (λ reply, ∀ result, reply = Ok result → IsError result = false →
             is_ok (rootDeletionReceipt (Content result) job) = false));
      [by apply respects_callTool| |].
    + intros w a w' [= Ha _] result ->. exact (Hn _ _ result Ha).
    + intros [result|text] Hr; [|by apply record_error_kept]. specialize (Hr result eq_refl).
      destruct (IsError result); [by apply record_error_kept|]. specialize (Hr eq_refl).
      destruct (rootDeletionReceipt _ job); [done|by apply record_error_kept].
Qed.

(** [C27] A deletion whose outcome LCE does not confirm with a receipt
    for that very operation and root removes nothing: the worker leaves the relay's
    jobs, manifests, snapshots and workspaces as they are and keeps the durable marker,
    whatever fails on the way. *)
Theorem unconfirmed_deletion_keeps_index E tenant job w :
  env_respects (deletion_kept tenant) E → never_confirmed E job →
  deletion_kept tenant (db_of w) (db_of (processRootDeletion E job w).2).
Proof.
  intros HE Hn. revert w. change (respects (deletion_kept tenant) (processRootDeletion E job)).
  unfold processRootDeletion. pose proof (delete_unconfirmed E tenant job HE Hn). respects_tac;
    try done; first [by apply try_exclusive_kept|by apply release_kept|by apply record_error_kept].
Qed.

Lemma unconfirmed_deletion_keeps_index_witness :
  deletion_kept "u" ex_claimed (db_of (processRootDeletion ex_env ex_old_worker (ex_world ex_claimed)).2)
  ∧ tenant_deleting "u" ex_claimed = true.
Proof.
  split; [|vm_compute; reflexivity].
  apply (unconfirmed_deletion_keeps_index ex_env "u" ex_old_worker (ex_world ex_claimed)).
  - intros n s. simpl. reflexivity.
  - intros n req result [= <-] _. vm_compute. reflexivity.
Defined.

(** ** Cloud first *)

(** Deleting a root asks the cloud first: when LCE does not confirm the
    deletion, the request leaves every index table as it was, so the root stays visible
    and the deletion can be retried. *)
Theorem delete_root_cloud_first E c body w :
  env_respects index_kept E → (∀ n req, clear_detail (env_lce E n req) ≠ None) →
  index_kept (db_of w) (db_of (handleDeleteRoot E c body w).2).
Proof.
  intros HE Hlce. revert w. change (respects index_kept (handleDeleteRoot E c body)).
  unfold handleDeleteRoot. respects_tac.
  - unfold tryExclusiveIndexOperation, tryIndexOperation. respects_tac.
    apply respects_atomically; [apply _|exact HE|]. intros now d b d' H.
    exact (proj1 (acquire_kept "" _ _ _ _ _ _ _ _ _ H)).
  - unfold delete_root_under_lease. apply or_respond_respects; [apply _|by respects_tac|].
    intros []; [by respects_tac|].
    apply respects_bind; [apply _|by respects_tac|intros now].
    apply respects_bind; [apply _|by respects_tac|intros wait]. destruct (0 <? wait); [by respects_tac|].
    apply (respects_bind_post _ _ _ (λ reply, clear_detail reply ≠ None)); [by apply respects_callTool| |].
    + intros w' reply w'' [= <- _]. apply Hlce.
    + intros reply Hr. destruct (clear_detail reply); [|done]. by respects_tac.
  - unfold Release. respects_tac. apply respects_atomically; [apply _|exact HE|].
    by intros ???? [= _ <-].
Qed.

Definition ex_down : Env := {|
  env_now := env_now ex_env; env_fault := env_fault ex_env; env_uuid := env_uuid ex_env;
  env_lce := λ _ _, Err "connection refused"; env_step := env_step ex_env;
  env_polls := env_polls ex_env; env_config := env_config ex_env; env_platform := env_platform ex_env;
  env_try_lock := env_try_lock ex_env; env_uuid_parse := env_uuid_parse ex_env;
  env_uuid_Validate := env_uuid_Validate ex_env;
  env_tools := env_tools ex_env; env_select := env_select ex_env; env_write := env_write ex_env;
  env_canceled := env_canceled ex_env; env_gcm_Open := env_gcm_Open ex_env;
  env_unicode_lower := no_unicode; env_unicode_upper := no_unicode |}.
Definition ex_caller : caller := {| cu_user := "u"; cu_tenant := ""; cu_org := ""; cu_role := "" |}.

Lemma delete_root_cloud_first_witness :
  index_kept ex_completed (db_of (handleDeleteRoot ex_down ex_caller (Some "root") (ex_world ex_completed)).2)
  ∧ size (indexed_files ex_completed) = 1%nat.
Proof.
  split; [|vm_compute; reflexivity].
  apply (delete_root_cloud_first ex_down ex_caller (Some "root") (ex_world ex_completed)).
  - intros n s. simpl. reflexivity.
  - intros n req. discriminate.
Defined.

(** ** A durable deletion stops indexing *)

(** While the tenant's deletion is pending, [m] fails, calls nobody and changes no index. *)
Definition refused {A} (tenant : string) (m : M A) : Prop :=
  ∀ w, tenant_deleting tenant (db_of w) = true →
    is_ok (m w).1 = false ∧ calls (m w).2 = calls w ∧ deletion_kept tenant (db_of w) (db_of (m w).2).

Lemma refused_throw A tenant e : refused tenant (@throw A e).
Proof. intros w Hw. split_and!; [done..|reflexivity]. Qed.

Lemma refused_bind A B tenant (m : M A) (f : A → M B) : refused tenant m → refused tenant (m ≫= f).
Proof.
  intros Hm w Hw. destruct (Hm w Hw) as (Hr & Hc & Hd). unfold mbind, M_bind.
  by destruct (m w) as [[a|e] w'].
Qed.

Lemma refused_lift_bind A B tenant (r : result error A) (f : A → M B) :
  (∀ a, refused tenant (f a)) → refused tenant (lift r ≫= f).
Proof. intros Hf. destruct r as [a|e]; [exact (Hf a)|exact (refused_throw B tenant e)]. Qed.

Section refused.
Context (E : Env) (tenant : string) (HE : env_respects (deletion_kept tenant) E).

Lemma refused_turn A (f : World → result error A * World) :
  (∀ w, tenant_deleting tenant (db_of (turn E w)) = true →
     is_ok (f w).1 = false ∧ calls (f w).2 = calls w ∧ deletion_kept tenant (db_of (turn E w)) (db_of (f w).2)) →
  refused tenant f.
Proof.
  intros Hf w Hw. pose proof (turn_respects _ E HE w) as Ht. destruct (Hf w) as (Hr & Hc & Hd).
  { by apply Ht. }
  split_and!; [done..|]. by transitivity (db_of (turn E w)).
Qed.

Lemma acquire_loop_refused fuel resource kind token md :
  str_eqb kind "delete-root-job" = false → refused tenant (acquire_loop E fuel tenant resource kind token md).
Proof.
  intros Hk. apply refused_turn. intros w Hw. destruct fuel; simpl; rewrite Hk;
    unfold mbind, M_bind, query, atomically, transact; unfold db_of in Hw; simpl in Hw;
    destruct (env_fault E (ticks w)); simpl; try (split_and!; [done..|reflexivity]);
    rewrite Hw; (split_and!; [done..|reflexivity]).
Qed.

Lemma acquire_refused resource kind md :
  str_eqb kind "delete-root-job" = false → refused tenant (acquireIndexOperation E tenant resource kind md).
Proof.
  intros Hk. unfold acquireIndexOperation. destruct (_ || _); [apply refused_throw|].
  apply refused_turn. intros w Hw. unfold mbind, M_bind, uuid_New, polls.
  destruct (acquire_loop_refused (env_polls E (ticks (turn E w))) resource kind
              (env_uuid E (ticks w)) md Hk (turn E w) Hw) as (Hr & Hc & Hd).
  split_and!; [exact Hr|exact Hc|exact Hd].
Qed.

Lemma tryAcquire_refused resource kind token md :
  str_eqb kind "delete-root-job" = false →
  refused tenant (b ← atomically E (tryAcquireIndexOperation tenant resource kind token md);
                  if (b : bool) then mret token else throw ErrIndexOperationBusy).
Proof.
  intros Hk. apply refused_turn. intros w Hw. unfold mbind, M_bind, atomically, transact.
  assert (∃ d', tryAcquireIndexOperation tenant resource kind token md (env_now E (ticks w))
                  (db_of (turn E w)) = Ok (false, d')) as [d' Hd'].
  { unfold tryAcquireIndexOperation. rewrite Hw, Hk, !andb_false_r. by eexists. }
  pose proof (acquire_kept tenant _ _ _ _ _ _ _ _ _ Hd') as Hkept. unfold db_of in Hd'. rewrite Hd'.
  destruct (env_fault E (ticks w)); simpl; split_and!; done || reflexivity || exact Hkept.
Qed.

Lemma try_refused resource kind md :
  str_eqb kind "delete-root-job" = false → refused tenant (tryIndexOperation E tenant resource kind md).
Proof.
  intros Hk. unfold tryIndexOperation. apply refused_turn. intros w Hw.
  unfold mbind at 1, M_bind at 1, uuid_New. unfold mbind at 1, M_bind at 1.
  exact (tryAcquire_refused resource kind (env_uuid E (ticks w)) md Hk (turn E w) Hw).
Qed.
End refused.

(** [C14] A durable deletion marker stops all indexing of its tenant: as long
    as the marker stands, starting, uploading, completing, failing or reconciling a job
    fails before any call to LCE and without changing a job, manifest, snapshot or
    workspace. *)
Theorem deletion_stops_indexing E tenant :
  env_respects (deletion_kept tenant) E →
  (∀ req, refused tenant (createIndexJob E tenant req)) ∧
  (∀ org tier req, refused tenant (uploadIndexBatch E tenant org tier req)) ∧
  (∀ id, refused tenant (completeIndexJob E tenant id)) ∧
  (∀ id failure diagnostic, refused tenant (failIndexJob E tenant id failure diagnostic)) ∧
  (∀ c, pc_user c = tenant → refused tenant (reconcileIndexPublication E c)).
Proof.
  intros HE. split_and!.
  - intros req. unfold createIndexJob. apply refused_lift_bind. intros [req' files].
    apply refused_bind. by apply acquire_refused.
  - intros org tier req. unfold uploadIndexBatch. destruct (_ || _); [apply refused_throw|].
    apply refused_lift_bind. intros _. apply refused_bind. by apply acquire_refused.
  - intros id. unfold completeIndexJob. destruct (str_eqb _ _); [apply refused_throw|].
    apply refused_bind. by apply acquire_refused.
  - intros id failure diagnostic. unfold failIndexJob. destruct (str_eqb _ _); [apply refused_throw|].
    apply refused_bind. by apply acquire_refused.
  - intros c <-. unfold reconcileIndexPublication. apply refused_bind. by apply try_refused.
Qed.

Lemma deletion_stops_indexing_witness :
  is_ok (createIndexJob ex_env "u" ex_start (ex_world ex_deleting)).1 = false ∧
  calls (createIndexJob ex_env "u" ex_start (ex_world ex_deleting)).2 = [].
Proof.
  destruct (deletion_stops_indexing ex_env "u") as [Hc _].
  { intros n s. simpl. reflexivity. }
  destruct (Hc ex_start (ex_world ex_deleting)) as (Hr & Hcalls & _).
  - vm_compute. reflexivity.
  - split; [exact Hr|exact Hcalls].
Defined.

(** ** A renewal does not look at the expiry *)


(** ** Saving the platform configuration *)

(** LCE validates and prepares a change of the embedding space as operation op. *)
Definition ex_console : Env := {|
  env_now := env_now ex_env; env_fault := env_fault ex_env; env_uuid := env_uuid ex_env;
  env_lce := env_lce ex_env; env_step := env_step ex_env; env_polls := env_polls ex_env;
  env_config := {|
    defaultDailyRequestLimit := 100; dailyIndexBytesLimit := 1000000; proDailyRequestLimit := 1000;
    proDailyIndexBytesLimit := 10000000; bannedCacheTTL := Minute; mcpMaxSessions := 1000; mcpMaxSessionsPerUser := 16;
    trustedConsoleToken := "tok"; modelConfigKey := None; quotaLocation_offset := 0 |};
  env_platform := λ _ _, Ok (200, {| raw := ""; decoded := Some (JObj [
    ("embeddingChanged", JBool true); ("validationTicket", JStr "t");
    ("operation", JObj [("operationId", JStr "op"); ("state", JStr "prepared"); ("embeddingChanged", JBool true)])]) |});
  env_try_lock := env_try_lock ex_env; env_uuid_parse := env_uuid_parse ex_env;
  env_uuid_Validate := env_uuid_Validate ex_env;
  env_tools := env_tools ex_env; env_select := env_select ex_env; env_write := env_write ex_env;
  env_canceled := env_canceled ex_env; env_gcm_Open := env_gcm_Open ex_env;
  env_unicode_lower := no_unicode; env_unicode_upper := no_unicode |}.
Definition ex_save_http : http_request := {|
  q_method := "POST"; q_path := "/internal/platform-model-config"; q_authorization := ""; q_client_version := "";
  q_console_token := "tok"; q_session := ""; q_accept := "" |}.
Definition ex_save : save_request := {|
  sr_Action := ""; sr_Section := "embeddings"; sr_Kind := ""; sr_Provider := ""; sr_BaseURL := ""; sr_APIKey := "";
  sr_Config := Some (JObj [("embeddings", JObj [])]); sr_ConfirmEmbeddingReset := true; sr_OperationID := "op" |}.

Lemma config_save_guarded_witness :
  let after := platform_config_jobs (db_of (handleSavePlatformModelConfig ex_console ex_save_http (Some ex_save) (ex_world empty_db)).2) in
  after ≠ ∅ ∧
  (after = ∅ ∨ isTrustedConsoleRequest "tok" ex_save_http = true ∧
   ∃ id row, (∅ : gmap string config_job) !! id = None ∧ saved_row ex_console ex_save id row ∧ after = <[id := row]> ∅).
Proof.
  cbv zeta. split; [vm_compute; discriminate|].
  apply (config_save_guarded ex_console ex_save_http ex_save (ex_world empty_db)); [reflexivity|discriminate].
Defined.
