(* ===== verification/Isolation.v ===== *)
(** * Tenant isolation

    An operation made on behalf of one tenant leaves the jobs, manifests, snapshots,
    workspaces, leases and deletions of every other tenant as they were.  The handlers
    are walked through once more, with the relation [isolated] in the place of the steps
    of [System]. *)
From Stdlib Require Import Ascii String.
From S2P Require Import Prelude GoStrings Paths Manifest Failure Json Lce Store Effects Leases.
From S2P Require Import QuotaLimits Quota IndexStatements IndexJobs IndexTool RootDeletion.
From S2P Require Import PlatformConfig RootAdmin Admission Auth McpServer Router.
From S2P Require Import Readers System JobLifecycle Refinement Guarantees AuthProperties.
Open Scope Z_scope.

Record isolated (u : string) (d d' : DB) : Prop := {
  iso_jobs : ∀ id j, user_id (meta j) ≠ u → index_jobs d' !! id = Some j ↔ index_jobs d !! id = Some j;
  iso_manifests : ∀ id j, user_id (meta j) ≠ u → index_jobs d !! id = Some j →
    index_job_files d' !! id = index_job_files d !! id;
  iso_snapshots : ∀ k, k.1 ≠ u → indexed_files d' !! k = indexed_files d !! k;
  iso_workspaces : ∀ k, k.1 ≠ u → index_workspaces d' !! k = index_workspaces d !! k;
  iso_leases : ∀ t e, l_user e ≠ u →
    index_operation_leases d' !! t = Some e ↔ index_operation_leases d !! t = Some e;
  iso_deletions : ∀ i r, rd_user r ≠ u →
    root_deletion_jobs d' !! i = Some r ↔ root_deletion_jobs d !! i = Some r;
  iso_configs : platform_config_jobs d' = platform_config_jobs d;
  iso_settings : relay_runtime_settings d' = relay_runtime_settings d
}.

#[export] Instance isolated_preorder u : PreOrder (isolated u).
Proof.
  split; [by intros d; split|]. intros d1 d2 d3 [a1 b1 c1 e1 f1 g1 h1 i1] [a2 b2 c2 e2 f2 g2 h2 i2]. split.
  - intros id j Hu. by rewrite a2, a1.
  - intros id j Hu Hj. rewrite (b2 id j Hu), (b1 id j Hu); [done..|]. by apply a1.
  - intros k Hk. by rewrite c2, c1.
  - intros k Hk. by rewrite e2, e1.
  - intros t e He. by rewrite f2, f1.
  - intros i r Hr. by rewrite g2, g1.
  - by rewrite h2, h1.
  - by rewrite i2, i1.
Qed.

(** ** Statement forms *)

Section forms.
Context (u : string).

Lemma owned_true user j : owned user j = true ↔ user_id (meta j) = user.
Proof. apply str_eqb_true. Qed.

(** A row update keeps the rows outside its condition. *)
Lemma update_row_other {V} (own : V → string) (k : string) P f (m : gmap string V) k' v :
  (∀ x, m !! k = Some x → P x = true → own x = u ∧ own (f x) = u) → own v ≠ u →
  update_row k P f m !! k' = Some v ↔ m !! k' = Some v.
Proof.
  intros Hown Hv. rewrite update_row_lookup. case_decide as Hk; [subst k'|done].
  destruct (m !! k) as [x|]; [|done]. simpl. destruct (P x) eqn:EP; [|done].
  destruct (Hown x eq_refl EP) as [H1 H2]. split; intros [= <-]; done.
Qed.

Lemma iso_update id P f d :
  (∀ j, index_jobs d !! id = Some j → P j = true → owned u j = true) →
  (∀ j, user_id (meta (f j)) = user_id (meta j)) → isolated u d (set_jobs (update_row id P f) d).
Proof.
  intros HP Hf. split; try done. intros k j Hj. apply (update_row_other (λ j, user_id (meta j))); [|done].
  intros x Hx HPx. pose proof (proj1 (owned_true _ _) (HP x Hx HPx)). by rewrite Hf.
Qed.

Lemma iso_delete_files id d :
  (∀ j, index_jobs d !! id = Some j → user_id (meta j) = u) → isolated u d (delete_job_files id d).
Proof.
  intros Hid. split; try done. intros k j Hu Hj. simpl. rewrite lookup_delete_ne; [done|].
  intros ->. by apply Hu, Hid.
Qed.

Lemma iso_delete_jobs P d : (∀ id j, P id j = true → owned u j = true) → isolated u d (delete_jobs P d).
Proof.
  intros HP. split; try done.
  - intros id j Hj. rewrite delete_jobs_lookup. split; [by intros [? _]|]. intros H. split; [done|].
    destruct (P id j) eqn:E; [|done]. by apply HP, owned_true in E.
  - intros id j Hu Hj. unfold delete_jobs. simpl.
    destruct (index_job_files d !! id) as [fs|] eqn:Ef.
    + apply delete_where_lookup. split; [done|]. unfold matches. rewrite Hj.
      destruct (P id j) eqn:E; [|done]. by apply HP, owned_true in E.
    + apply delete_where_None. intros v Hv. congruence.
Qed.

Lemma delete_where_other {K V} `{Countable K} (P : K → V → bool) (m : gmap K V) k :
  (∀ v, P k v = false) → delete_where P m !! k = m !! k.
Proof.
  intros HP. destruct (m !! k) as [v|] eqn:E; [by apply delete_where_lookup|].
  apply delete_where_None. intros v Hv. congruence.
Qed.

Lemma iso_snapshots_of f d :
  (∀ k, k.1 ≠ u → f (indexed_files d) !! k = indexed_files d !! k) → isolated u d (set_indexed f d).
Proof. by split. Qed.
Lemma iso_workspaces_of f d :
  (∀ k, k.1 ≠ u → f (index_workspaces d) !! k = index_workspaces d !! k) → isolated u d (set_workspaces f d).
Proof. by split. Qed.
Lemma iso_leases_of f d :
  (∀ t e, l_user e ≠ u → f (index_operation_leases d) !! t = Some e ↔ index_operation_leases d !! t = Some e) →
  isolated u d (set_leases f d).
Proof. by split. Qed.
Lemma iso_deletions_of f d :
  (∀ i r, rd_user r ≠ u → f (root_deletion_jobs d) !! i = Some r ↔ root_deletion_jobs d !! i = Some r) →
  isolated u d (set_deletions f d).
Proof. by split. Qed.
End forms.

(** ** The statements of one tenant *)

Lemma owned_running_owned u j : owned_running u j = true → owned u j = true.
Proof. intros H. by apply andb_true_iff in H as [H _]. Qed.

Section statements.
Context (u : string).

Lemma acquire_isolated resource kind token md now d b d' :
  tryAcquireIndexOperation u resource kind token md now d = Ok (b, d') → isolated u d d'.
Proof.
  unfold tryAcquireIndexOperation. set (kept := delete_where _ _).
  assert (∀ t e, l_user e ≠ u → kept !! t = Some e ↔ index_operation_leases d !! t = Some e) as Hk.
  { intros t e He. unfold kept. rewrite delete_where_lookup. split; [by intros [? _]|]. intros H.
    split; [done|]. by rewrite (proj2 (str_eqb_false _ _)). }
  destruct (_ && _); [destruct (_ !! token) eqn:Et; [done|]|]; intros [= _ <-]; apply iso_leases_of; [|done].
  intros t e He. simpl. rewrite <- Hk by done. rewrite lookup_insert. case_decide as Ht; [subst t|done].
  split; [intros [= <-]; done|]. intros [Ht _]%delete_where_lookup. congruence.
Qed.

Lemma release_isolated token d : isolated u d (release_lease u token d).
Proof.
  apply iso_leases_of. intros t e He. rewrite delete_where_lookup. split; [by intros [? _]|]. intros H.
  split; [done|]. by rewrite (proj2 (str_eqb_false _ _)).
Qed.

Lemma closed_isolated id P f d :
  (∀ j, index_jobs d !! id = Some j → owned u j = true) →
  (∀ j, user_id (meta (f j)) = user_id (meta j)) →
  isolated u d (delete_job_files id (set_jobs (update_row id P f) d)).
Proof.
  intros Hid Hf. transitivity (set_jobs (update_row id P f) d).
  - apply iso_update; [|exact Hf]. intros j Hj _. by apply Hid.
  - apply iso_delete_files. simpl. intros j Hj. apply update_row_Some in Hj as (j0 & Hj0 & Hor).
    apply owned_true. apply Hid, owned_true in Hj0. destruct Hor as [->|(_ & _ & ->)]; apply owned_true;
      by rewrite ?Hf.
Qed.

Lemma terminated_isolated id P f d :
  (∀ j, P j = true → owned u j = true) → (∀ j, user_id (meta (f j)) = user_id (meta j)) →
  matches id P (index_jobs d) = true →
  isolated u d (delete_job_files id (set_jobs (update_row id P f) d)).
Proof.
  intros HP Hf Hm. apply closed_isolated; [|exact Hf]. intros j Hj. unfold matches in Hm.
  rewrite Hj in Hm. by apply HP.
Qed.

Lemma reclaim_isolated ul now d l :
  (∀ kv, kv ∈ l → ∃ j, index_jobs d !! kv.1 = Some j ∧ owned u j = true) →
  isolated u d (foldl (reclaim ul u now) d l).
Proof.
  revert d. induction l as [|kv l IH]; intros d Hl; simpl; [reflexivity|].
  assert (isolated u d (reclaim ul u now d kv)) as H1.
  { apply closed_isolated; [|done]. intros j Hj. destruct (Hl kv) as (j' & Hj' & Ho);
      [apply elem_of_cons; by left|]. congruence. }
  etransitivity; [exact H1|]. apply IH. intros kv' Hin. destruct (Hl kv') as (j' & Hj' & Ho');
    [apply elem_of_cons; by right|].
  simpl. rewrite update_row_lookup. case_decide; [|by exists j']. rewrite Hj'. eexists.
  split; [reflexivity|]. by destruct (owned_running u j').
Qed.

Lemma inspect_isolated ul ws now d r d' :
  inspect_tx ul u ws now d = Ok (r, d') → isolated u d d'.
Proof.
  unfold inspect_tx. destruct (List.filter _ _) as [|[id j] l].
  - intros [= _ <-]. apply reclaim_isolated. intros [id j] Hin.
    apply running_jobs_in in Hin as (Hj & Ho & _). exists j. split; [done|].
    by apply owned_running_owned.
  - by intros [= _ <-].
Qed.

Lemma create_isolated id req files now d p o d' p' :
  create_tx u id req files now d p = (Ok (o, d'), p') → isolated u d d'.
Proof.
  unfold create_tx. destruct (graftUnreadablePaths _ _ _) as [out|]; [|done].
  destruct (diffManifest _ _) as [[pending deleted] chunks]. destruct (_ && _ && _).
  - intros [= _ <- _]. apply iso_workspaces_of. intros k Hk. rewrite update_row_lookup.
    case_decide as E; [by subst k|done].
  - destruct (checkIndexStartRateLimit _ _ _ _) as [wait p1]. destruct (0 <? wait); [by intros [= _ <- _]|].
    destruct (index_jobs d !! id) as [j|] eqn:Ej; [done|]. intros [= _ <- _]. split; try done.
    + intros k j Hu. simpl. rewrite lookup_insert. case_decide as Hk; [subst k|done].
      split; [intros [= <-]; by destruct Hu|congruence].
    + intros k j Hu Hj. simpl. rewrite lookup_insert_ne; [done|]. intros ->. congruence.
Qed.

(** After a start, the new job's identifier belongs to the tenant. *)
Lemma create_owns id req files now d p pending deleted md d' p' :
  create_tx u id req files now d p = (Ok (CreateStarted pending deleted md, d'), p') →
  ∀ j, index_jobs d' !! id = Some j → user_id (meta j) = u.
Proof.
  unfold create_tx. destruct (graftUnreadablePaths _ _ _) as [out|]; [|done].
  destruct (diffManifest _ _) as [[pend del] chunks]. destruct (_ && _ && _); [done|].
  destruct (checkIndexStartRateLimit _ _ _ _) as [wait p1]. destruct (0 <? wait); [done|].
  destruct (index_jobs d !! id); [done|]. intros [= _ _ _ <- _] j. simpl. rewrite lookup_insert_eq.
  by intros [= <-].
Qed.

Lemma commit_isolated id files chunks fb sent now d a d' :
  commitIndexBatch u id files chunks fb sent now d = Ok (a, d') → isolated u d d'.
Proof.
  destruct a. intros (j & rows & [Hj Ho]%find_job_Some & _ & _ & _ & ->)%commit_inv.
  transitivity (set_jobs (update_row id (λ _, true) (add_batch (zlength files) chunks fb sent now)) d).
  - apply iso_update; [|done]. congruence.
  - split; try done. intros k j' Hu Hj'. simpl in *. case_bool_decide; [done|].
    rewrite lookup_insert_ne; [done|]. intros ->. erewrite update_row_eq in Hj' by exact Hj.
    injection Hj' as <-. by apply Hu, owned_true.
Qed.

Lemma complete_isolated id root rev now d a d' :
  complete_tx u id root rev now d = Ok (a, d') → isolated u d d'.
Proof.
  destruct a. intros (j & [Hj Ho]%find_job_Some & _ & ->)%complete_inv.
  etransitivity; [|apply closed_isolated; [|done]].
  - etransitivity; [apply iso_snapshots_of|apply iso_workspaces_of];
      (intros k Hk; rewrite lookup_insert_ne; [done|intros <-; by apply Hk]).
  - simpl. congruence.
Qed.

Lemma finish_failed_isolated ul id msg now d b d' :
  finish_failed_tx ul u id msg now d = Ok (b, d') → isolated u d d'.
Proof.
  unfold finish_failed_tx, markIndexJobFailed. destruct (matches _ _ _) eqn:Em; intros [= _ <-]; [|done].
  apply terminated_isolated; [apply owned_running_owned|done|done].
Qed.

Lemma fail_isolated id msg diag now d r d' :
  fail_tx u id msg diag now d = Ok (r, d') → isolated u d d'.
Proof.
  unfold fail_tx, markIndexJobFailed. destruct (find_job _ _ _); [|done].
  destruct (matches _ _ _) eqn:Em; simpl; [|done]. intros [= _ <-].
  apply terminated_isolated; [apply owned_running_owned|done|done].
Qed.

Lemma running_update_isolated id P f d :
  (∀ j, P j = true → owned_running u j = true) → (∀ j, user_id (meta (f j)) = user_id (meta j)) →
  isolated u d (set_jobs (update_row id P f) d).
Proof. intros HP Hf. apply iso_update; [|done]. intros j _ H. by apply owned_running_owned, HP. Qed.

Lemma clear_user_isolated d : isolated u d (clearUserIndexStateTx u d).
Proof.
  unfold clearUserIndexStateTx.
  transitivity (delete_jobs (λ _ j, owned u j) d); [apply iso_delete_jobs; by intros id j|].
  etransitivity; [apply iso_snapshots_of|apply iso_workspaces_of];
    intros k Hk; apply delete_where_other; intros v; by apply str_eqb_false.
Qed.

Lemma clear_root_isolated root d : isolated u d (clearRootIndexStateTx u root d).2.
Proof.
  unfold clearRootIndexStateTx. simpl.
  transitivity (delete_jobs (λ _ j, owned u j && root_matches root (root_id (meta j))) d).
  { apply iso_delete_jobs. intros id j H. by apply andb_true_iff in H as [H _]. }
  etransitivity; [apply iso_snapshots_of|apply iso_workspaces_of];
    intros k Hk; apply delete_where_other; intros v; unfold workspace_of_root;
    by rewrite (proj2 (str_eqb_false _ _)).
Qed.

Lemma dismiss_isolated root published d : isolated u d (dismissRootFailureState_tx u root published d).2.
Proof.
  unfold dismissRootFailureState_tx. simpl. set (d1 := delete_jobs _ d).
  assert (isolated u d d1) as H1.
  { apply iso_delete_jobs. intros id j H. apply andb_true_iff in H as [H _].
    by apply andb_true_iff in H as [H _]. }
  destruct published; [done|]. etransitivity; [exact H1|]. apply iso_workspaces_of. intros k Hk.
  apply delete_where_other. intros v. by rewrite (proj2 (str_eqb_false _ _)).
Qed.

Lemma submit_isolated actor root retry id now d p job d' p' :
  submitRootDeletion_tx u actor root retry id now d p = (Ok (job, d'), p') → isolated u d d'.
Proof.
  unfold submitRootDeletion_tx. destruct (active_deletion u d) as [[i r]|] eqn:Ea.
  - apply active_deletion_Some in Ea as (Hr & Hu & _). destruct (_ || _); [done|]. simpl.
    destruct (_ && _); intros [= _ <- _]; [|done]. apply iso_deletions_of. intros k r' Hr'.
    rewrite lookup_insert. case_decide; [subst k|done]. rewrite Hr. split; intros [= <-]; done.
  - destruct (negb _); [by destruct (root_deletion_jobs d !! retry); [destruct (_ && _)|];
                        [intros [= _ <- _]|..]|].
    destruct (tenant_busy _ _ _); [done|]. destruct (checkDeleteRootRateLimit _ _ _ _) as [wait p1].
    destruct (0 <? wait); [done|]. destruct (root_deletion_jobs d !! id) eqn:Ei; [done|].
    intros [= _ <- _]. apply iso_deletions_of. intros k r' Hr'. rewrite lookup_insert.
    case_decide; [subst k|done]. rewrite Ei. split; [intros [= <-]; by destruct Hr'|done].
Qed.

Lemma defer_isolated job b now d :
  rd_user (dj_row job) = u →
  isolated u d (set_deletions (update_row (dj_ID job) (attempt_current job now) (defer_row b now)) d).
Proof.
  intros Hu. apply iso_deletions_of. intros k r Hr. apply (update_row_other u rd_user); [|done].
  intros x _ Hx. unfold attempt_current in Hx. rewrite <- !andb_assoc in Hx.
  apply andb_true_iff in Hx as [Hx%str_eqb_true _]. simpl. rewrite Hx. done.
Qed.

Lemma finish_isolated job count now d a d' :
  rd_user (dj_row job) = u → finishRootDeletion_tx job count now d = Ok (a, d') → isolated u d d'.
Proof.
  destruct a. intros Hu (Hm & n & ->)%finish_inv. rewrite Hu.
  etransitivity; [apply (clear_root_isolated (rd_root (dj_row job)))|].
  apply iso_deletions_of. intros k r Hr. apply (update_row_other u rd_user); [|done].
  intros x _ Hx. apply andb_true_iff in Hx as [Hx%str_eqb_true _]. simpl. rewrite Hx. done.
Qed.
End statements.

(** ** The handlers of one tenant *)

Create HintDb iso discriminated.
#[export] Hint Constants Opaque : iso.
#[export] Hint Resolve acquire_isolated release_isolated inspect_isolated commit_isolated
  complete_isolated finish_failed_isolated fail_isolated clear_user_isolated clear_root_isolated
  dismiss_isolated finish_isolated : iso.

(** A statement that updates running rows of the tenant. *)
Ltac running_update :=
  unfold start_upload, begin_publication, keep_publishing, record_revision, fail_begin,
    touch_publication, heartbeat_job in *;
  simplify_eq/=; apply running_update_isolated;
  [intros ?; first [done | let H := fresh in intros H; by apply andb_true_iff in H as [H _]] | done].

Ltac isolated_tx :=
  apply respects_atomically; [typeclasses eauto|assumption|];
  let n := fresh "n" in let d := fresh "d" in let a := fresh "a" in let d' := fresh "d'" in
  let H := fresh "H" in
  intros n d a d' H;
  first [ solve [eauto with iso]
        | injection H; intros; subst; first [reflexivity | solve [eauto with iso] | apply clear_root_isolated
                                             | apply dismiss_isolated]
        | running_update ].

#[export] Hint Extern 2 (respects (isolated _) (atomically _ _)) => isolated_tx : eff.

Section handlers.
Context (E : Env) (u : string) (HE : env_respects (isolated u) E).

Ltac walk := unfold with_lease; respects_tac.

Lemma acquire_loop_isolated fuel resource kind token md :
  respects (isolated u) (acquire_loop E fuel u resource kind token md).
Proof. revert token. induction fuel as [|fuel IH]; intros token; simpl; walk. Qed.
Hint Resolve acquire_loop_isolated : eff.
Lemma acquire_op_isolated resource kind md : respects (isolated u) (acquireIndexOperation E u resource kind md).
Proof. unfold acquireIndexOperation. walk. Qed.
Lemma try_op_isolated resource kind md : respects (isolated u) (tryIndexOperation E u resource kind md).
Proof. unfold tryIndexOperation. walk. Qed.
Lemma release_op_isolated token : respects (isolated u) (Release E u token).
Proof. unfold Release. walk. Qed.
Hint Resolve acquire_op_isolated try_op_isolated release_op_isolated : eff.

Lemma clear_root_op_isolated root : respects (isolated u) (clearRootIndexState E u root).
Proof. unfold clearRootIndexState. walk. Qed.
Hint Resolve clear_root_op_isolated : eff.
Lemma reset_binding_isolated ws old new : respects (isolated u) (resetWorkspaceRootBinding E u ws old new).
Proof. unfold resetWorkspaceRootBinding. walk. Qed.
Lemma inspect_op_isolated ws : respects (isolated u) (inspectActiveIndexJob E u ws).
Proof. unfold inspectActiveIndexJob. walk. Qed.
Hint Resolve reset_binding_isolated inspect_op_isolated : eff.

Lemma upload_op_isolated org tier req : respects (isolated u) (uploadIndexBatch E u org tier req).
Proof. unfold uploadIndexBatch, acquireSharedIndexOperation, admit_batch. walk. Qed.
Lemma finish_failed_op_isolated id msg : respects (isolated u) (finishFailedPublication E u id msg).
Proof. unfold finishFailedPublication. walk. Qed.
Hint Resolve finish_failed_op_isolated : eff.
Lemma publish_op_isolated id root : respects (isolated u) (publish_revision E u id root).
Proof. unfold publish_revision. walk. Qed.
Hint Resolve publish_op_isolated : eff.
Lemma complete_lease_isolated id known : respects (isolated u) (completeIndexJobUnderLease E u id known).
Proof. unfold completeIndexJobUnderLease. walk. Qed.
Hint Resolve complete_lease_isolated : eff.
Lemma complete_op_isolated id : respects (isolated u) (completeIndexJob E u id).
Proof. unfold completeIndexJob, acquireSharedIndexOperation. walk. Qed.
Lemma fail_op_isolated id msg diag : respects (isolated u) (failIndexJob E u id msg diag).
Proof. unfold failIndexJob, acquireSharedIndexOperation. walk. Qed.
Lemma reconcile_op_isolated c : pc_user c = u → respects (isolated u) (reconcileIndexPublication E c).
Proof.
  intros Hu. unfold reconcileIndexPublication, reconcile_status, cancel_overdue. rewrite Hu. walk.
Qed.

(** *** The new job's identifier

    [createIndexJob] drops the manifest of the job it just created by identifier alone;
    the identifier belongs to the tenant in every state that follows. *)
Definition owns (id : string) (d : DB) : Prop :=
  ∀ j, index_jobs d !! id = Some j → user_id (meta j) = u.
Definition guarded (id : string) (d d' : DB) : Prop := owns id d → isolated u d d' ∧ owns id d'.

Lemma owns_stable id d d' : isolated u d d' → owns id d → owns id d'.
Proof.
  intros Hi Ho j Hj. destruct (decide (user_id (meta j) = u)) as [|Hn]; [done|].
  apply Ho. by apply (iso_jobs u d d' Hi).
Qed.

#[local] Instance guarded_preorder id : PreOrder (guarded id).
Proof.
  split; [intros d H; by split|]. intros d1 d2 d3 H1 H2 Ho. destruct (H1 Ho) as [Hi Ho'].
  destruct (H2 Ho') as [Hi' Ho'']. split; [|done]. by transitivity d2.
Qed.

Lemma guarded_of id A (m : M A) : respects (isolated u) m → respects (guarded id) m.
Proof. intros Hm w Ho. split; [apply Hm|]. by eapply owns_stable; [apply Hm|]. Qed.

Lemma begin_created_guarded id root pending deleted md :
  respects (guarded id) (begin_created E u id root pending deleted md).
Proof.
  assert (env_respects (guarded id) E) as HE'.
  { intros n s Ho. split; [apply HE|]. by eapply owns_stable; [apply HE|]. }
  unfold begin_created. respects_tac.
  - apply guarded_of. isolated_tx.
  - apply respects_atomically; [apply _|exact HE'|]. intros n d x d' [= _ <-] Ho.
    assert (isolated u d (delete_job_files id d)) as Hi by (apply iso_delete_files; exact Ho).
    split; [exact Hi|]. by eapply owns_stable.
Qed.

Lemma bind_guarded A B (m : M A) (f : A → M B) (id : A → option string) :
  respects (isolated u) m →
  (∀ w a w' i, m w = (Ok a, w') → id a = Some i → owns i (db_of w')) →
  (∀ a, match id a with Some i => respects (guarded i) (f a) | None => respects (isolated u) (f a) end) →
  respects (isolated u) (m ≫= f).
Proof.
  intros Hm Ho Hf w. unfold mbind, M_bind. specialize (Hm w). specialize (Ho w).
  destruct (m w) as [[a|e] w']; simpl in *; [|done]. specialize (Hf a).
  transitivity (db_of w'); [done|]. destruct (id a) as [i|] eqn:Ei; [|apply Hf].
  by apply Hf, (Ho a w' i).
Qed.

Lemma create_op_isolated req : respects (isolated u) (createIndexJob E u req).
Proof.
  unfold createIndexJob. apply respects_lift_bind; [apply _|]. intros [req' files] _.
  unfold with_lease, acquireExclusiveIndexOperation.
  apply respects_bind; [apply _|by respects_tac|intros token].
  apply respects_finally; [apply _| |by respects_tac].
  apply respects_bind; [apply _|by respects_tac|intros [job|]]; [by respects_tac|].
  apply respects_bind; [apply _|by respects_tac|intros stored].
  apply respects_bind; [apply _|by respects_tac|intros _].
  apply respects_bind; [apply _|by respects_tac|intros jobID].
  eapply (bind_guarded _ _ _ _ (λ o, match o with CreateStarted _ _ _ => Some jobID | _ => None end)).
  - apply respects_transact; [apply _|exact HE|]. intros n d p o d' p'. apply create_isolated.
  - intros w o w' i Htx Hi. destruct o; [done..|]. injection Hi as <-.
    apply transact_Ok in Htx as (n & p & d' & p' & Htx & ->). exact (create_owns u _ _ _ _ _ _ _ _ _ _ _ Htx).
  - intros []; [by respects_tac..|]. apply begin_created_guarded.
Qed.
Hint Resolve create_op_isolated upload_op_isolated complete_op_isolated fail_op_isolated : eff.

Lemma heartbeat_op_isolated id : respects (isolated u) (heartbeat_statement E u id).
Proof.
  apply respects_atomically; [apply _|exact HE|]. intros n d [] d'. destruct (negb _); [done|].
  intros H. running_update.
Qed.
Hint Resolve heartbeat_op_isolated : eff.
Lemma index_tool_isolated org tier c : respects (isolated u) (handleCodebaseIndex E u org tier c).
Proof. unfold handleCodebaseIndex, status_or_heartbeat. walk. Qed.
End handlers.

Section admin.
Context (E : Env) (u : string) (HE : env_respects (isolated u) E).
Hint Resolve acquire_op_isolated try_op_isolated release_op_isolated : eff.

Lemma dismiss_op_isolated c body :
  requestTenantID c = u → respects (isolated u) (handleDismissRootFailure E c body).
Proof.
  intros <-. unfold handleDismissRootFailure, dismiss_under_lease, lceClearIndexRoot,
    dismissRootFailureState, acquireExclusiveIndexOperation. respects_http.
Qed.

Lemma delete_root_op_isolated c body :
  requestTenantID c = u → respects (isolated u) (handleDeleteRoot E c body).
Proof.
  intros <-. unfold handleDeleteRoot, delete_root_under_lease, lceClearIndexRoot,
    deleteRootIndexState, tryExclusiveIndexOperation. respects_http.
Qed.

Lemma clear_index_op_isolated c :
  requestTenantID c = u → respects (isolated u) (handleClearIndex E c).
Proof.
  intros <-. unfold handleClearIndex, clear_under_lease, setClearIndexCooldown,
    clearUserIndexState, acquireExclusiveIndexOperation. respects_http.
Qed.

Lemma submit_op_isolated actor root retry :
  respects (isolated u) (submitRootDeletion E u actor root retry).
Proof.
  unfold submitRootDeletion. respects_tac. apply respects_transact; [apply _|exact HE|].
  intros n d p job d' p'. apply submit_isolated.
Qed.
Hint Resolve submit_op_isolated : eff.

Lemma create_deletion_op_isolated c body :
  requestTenantID c = u → respects (isolated u) (handleCreateRootDeletion E c body).
Proof. intros Hu. unfold handleCreateRootDeletion. rewrite Hu. respects_tac. Qed.

Lemma record_error_isolated job b :
  rd_user (dj_row job) = u → respects (isolated u) (recordRootDeletionError E job b).
Proof.
  intros Hu. unfold recordRootDeletionError. apply respects_ignore; [apply _|].
  apply respects_atomically; [apply _|done|]. intros n d [] d' [= <-]. by apply defer_isolated.
Qed.
Hint Resolve record_error_isolated : eff.

Lemma process_deletion_isolated job :
  rd_user (dj_row job) = u → respects (isolated u) (processRootDeletion E job).
Proof.
  intros Hu. unfold processRootDeletion, delete_under_lease, rootDeletionAttemptCurrent,
    lceClearIndexRootOperation, finishRootDeletion, tryExclusiveIndexOperation. rewrite Hu. respects_tac.
Qed.
End admin.

(** ** The operations made for a tenant *)

Definition tenant_of (op : operation) : option string :=
  match op with
  | OpStart user _ | OpUpload user _ _ _ | OpComplete user _ | OpFail user _ _ _
  | OpIndexTool user _ _ _ => Some user
  | OpDeleteRoot c _ | OpDismiss c _ | OpClearIndex c | OpSubmitDeletion c _ => Some (requestTenantID c)
  | _ => None
  end.

(** Whatever a tenant asks of the relay (any call of the index tool;
    start, upload, complete or fail an index; delete, dismiss or clear roots; submit a
    deletion), with any input, any faults and any replies of LCE, the jobs, manifests,
    snapshots, workspaces, leases and deletions of every other tenant, the configuration
    jobs and the settings are afterwards what they were; only concurrent activity of other tenants could change them. *)
Theorem tenant_isolation E op u w :
  tenant_of op = Some u → env_respects (isolated u) E →
  isolated u (db_of w) (db_of (run_operation E op w).2).
Proof.
  intros Hop HE. apply (λ H : respects (isolated u) (run_operation E op), H w).
  destruct op; simplify_eq/=; respects_tac;
    eauto using create_op_isolated, upload_op_isolated, complete_op_isolated, fail_op_isolated,
      delete_root_op_isolated, dismiss_op_isolated, clear_index_op_isolated, create_deletion_op_isolated,
      index_tool_isolated.
Qed.

(** A tenant that clears its index does not touch the job another tenant has running. *)
Lemma tenant_isolation_witness :
  let c := {| cu_user := "v"; cu_tenant := ""; cu_org := ""; cu_role := "" |} in
  let d' := db_of (run_operation ex_env (OpClearIndex c) (ex_world ex_committed)).2 in
  size (index_jobs d') = 1%nat ∧ isolated "v" ex_committed d'.
Proof.
  split; [vm_compute; reflexivity|].
  apply (tenant_isolation ex_env (OpClearIndex _) "v" (ex_world ex_committed)); [reflexivity|].
  intros n s. reflexivity.
Defined.

(** ** Requests *)

Lemma tenant_default c :
  (if str_eqb (requestTenantID c) "" then cu_user c else requestTenantID c) = requestTenantID c.
Proof.
  unfold requestTenantID. destruct (str_eqb (cu_tenant c) "") eqn:Et; [by destruct (str_eqb (cu_user c) "")|].
  by rewrite Et.
Qed.

Section requests.
Context (E : Env) (u : string) (HE : env_respects (isolated u) E).
Hint Resolve dismiss_op_isolated delete_root_op_isolated clear_index_op_isolated create_deletion_op_isolated : eff.

Lemma handler_isolated Q strict r ad x :
  requestTenantID (gc_caller (ad_ctx ad)) = u → respects (isolated u) (handler E Q strict r ad x).
Proof.
  intros Hu.
  assert (∀ b sid body, respects (isolated u) (handleMCPPost E Q strict (ad_ctx ad) b sid body)) as Hpost.
  { intros b sid body. apply mcp_post_respects; [apply _|exact HE|]. intros call. rewrite tenant_default, Hu.
    by apply index_tool_isolated. }
  unfold handler, stream_response. respects_tac.
Qed.
End requests.

(** [C3] A request to any route but the console's changes only what belongs to
    the tenant that its key was authenticated for, and a request that is not authenticated changes
    nothing: whatever the method, path, headers and body, the faults and the replies of LCE, the
    tables of every other tenant, the configuration jobs and the settings stay as they were. *)
Theorem request_isolation E Q strict token x u w :
  env_respects (isolated u) E →
  open_route (find_route (routes token) (q_method (in_request x)) (q_path (in_request x))) = false →
  (∀ ad w', authMiddleware E (in_request x) (in_client x) w = (Ok (inr ad), w') →
            requestTenantID (gc_caller (ad_ctx ad)) = u) →
  isolated u (db_of w) (db_of (serve E Q strict token x w).2).
Proof.
  intros HE Hr Ha. unfold serve. rewrite Hr. pose proof (middleware_reads (isolated u) E HE (in_request x) (in_client x) w) as Hm.
  unfold mbind, M_bind. destruct (authMiddleware E (in_request x) (in_client x) w) as [[[f|ad]|e] w1]; try exact Hm.
  etransitivity; [exact Hm|]. apply (serve_admitted_respects (isolated u) E HE), (handler_isolated E u HE).
  by eapply Ha.
Qed.

(** Alice clears her index; the job of tenant [u] stays. *)
Definition ex_incoming (key method path : string) (root : option string) : incoming := {|
  in_request := {| q_method := method; q_path := path; q_authorization := "Bearer " +:+ key; q_client_version := "";
                   q_console_token := ""; q_session := ""; q_accept := "" |};
  in_operation := ""; in_ip := "::1"; in_client := ex_body; in_save := None; in_version := None; in_root := root;
  in_deletion := (λ r, (r, "")) <$> root |}.
Definition ex_strict (raw : list (string * json)) : index_call := {|
  ic_raw := raw; ic_start := Err (Errorf "no"); ic_upload := Err (Errorf "no"); ic_job := Err (Errorf "no");
  ic_fail := Err (Errorf "no") |}.
Definition ex_auth_committed : World :=
  put_shared (with_db ex_committed (shared ex_auth_world)) ex_auth_world.

Lemma request_isolation_witness :
  let w' := (serve ex_env no_unicode ex_strict "" (ex_incoming "alicekey" "POST" "/mcp/clear-index" None) ex_auth_committed).2 in
  index_jobs (db_of w') !! "j1" = index_jobs ex_committed !! "j1" ∧ isolated "alice" ex_committed (db_of w').
Proof.
  split; [vm_compute; reflexivity|].
  apply (request_isolation ex_env no_unicode ex_strict "" (ex_incoming "alicekey" "POST" "/mcp/clear-index" None) "alice" ex_auth_committed).
  - intros n s. reflexivity.
  - reflexivity.
  - intros ad w1 H. vm_compute in H. injection H as <- _. reflexivity.
Defined.
