(* ===== verification/Requests.v ===== *)
(** * Requests and LCE

    Every tool call that a request makes names the tenant the request was authenticated for:
    the handlers are walked through for any assertion that such calls preserve.  The same walks
    show that no handler touches the log tables, which gives what the request log records. *)
From Stdlib Require Import Ascii String.
From S2P Require Import Prelude GoStrings Paths Manifest Failure Json Lce ToolPolicy Sse Sessions SessionSteps.
From S2P Require Import Store Effects Triples Leases ClientVersion RedisCommands QuotaLimits Quota.
From S2P Require Import IndexStatements IndexJobs IndexTool RootDeletion PlatformConfig RootAdmin Admission Auth.
From S2P Require Import Console RequestLogs McpServer Router Readers System Guarantees AuthProperties Isolation.
Open Scope Z_scope.

(** The tools that only the relay itself calls. *)
Definition relay_tool (tool : string) : bool :=
  has tool ["codebase_remote_index"; "codebase_clear_index"; "codebase_tenant_stats"].

(** A call on behalf of [u]: one of the relay's own tools, or a public tool with checked arguments
    in which the tenant was overwritten. *)
Inductive tenant_call (u : string) : lce_request → Prop :=
| own_call tool args :
    relay_tool tool = true → jget "tenant_id" args = Some (JStr u) →
    tenant_call u {| lr_tool := tool; lr_args := args |}
| chat_call name cfg args r :
    isChatMCPToolAllowed name = true → validateChatMCPToolArgs name args = Ok r →
    tenant_call u {| lr_tool := name; lr_args := forwarded_args u cfg args |}.

Lemma tenant_call_named u req : tenant_call u req → jget "tenant_id" (lr_args req) = Some (JStr u).
Proof.
  intros [tool args _ H|name cfg args r _ _]; [exact H|]. simpl. unfold forwarded_args.
  destruct cfg; [rewrite jget_jset_ne by done|]; apply jget_jset.
Qed.

#[export] Hint Extern 1 (tenant_call _ (remote_index _)) => apply own_call; reflexivity : triple.
#[export] Hint Extern 1 (tenant_call _ (clear_index _)) => apply own_call; reflexivity : triple.

(** ** What the handlers of the session tables promise to the others *)

Class SessionsKept (E : Env) (I : assertion) : Prop := {
  kept_initialize user : triple I (handle_initialize E user) (λ _, True);
  kept_touch sid user now : triple I (mcp_section E (section (touch_session sid user now))) (λ _, True);
  kept_delete c sid : triple I (handleMCPDelete E c sid) (λ _, True);
  kept_get c accept sid : triple I (handleMCPGet E c accept sid) (λ _, True)
}.
#[export] Hint Resolve kept_initialize kept_touch kept_delete kept_get : triple.
#[export] Hint Extern 1 (SessionsKept _ _) => typeclasses eauto : triple.

(** An assertion that does not look at the process state. *)
Section proc_free.
Context (E : Env) (I : assertion) (HE : stable E I) `{!ProcFree I}.
Lemma section_triple {A} (f : McpRun → A * McpRun) : triple I (mcp_section E f) (λ _, True).
Proof. unfold mcp_section. triple_tac. Qed.
Hint Resolve section_triple : triple.
Lemma close_stream_triple sid : triple I (close_session_stream E sid) (λ _, True).
Proof. unfold close_session_stream. triple_tac. Qed.
Hint Resolve close_stream_triple : triple.
Lemma close_streams_triple ids : triple I (closeMCPSSEStreams E ids) (λ _, True).
Proof. induction ids as [|id ids IH]; simpl; triple_tac. Qed.
Lemma sse_loop_triple fuel sid user p written : triple I (sse_loop E fuel sid user p written) (λ _, True).
Proof. revert written. induction fuel as [|fuel IH]; intros written; simpl; triple_tac. Qed.
Hint Resolve close_streams_triple sse_loop_triple : triple.
Lemma proc_free_sessions : SessionsKept E I.
Proof.
  split; intros; unfold handle_initialize, handleMCPDelete, handleMCPGet, open_stream, close_own_stream; triple_tac.
Qed.
End proc_free.

(** Transactions with process state leave the session tables alone. *)
Lemma create_tx_mcp user id req files n d p : mcp (create_tx user id req files n d p).2 = mcp p.
Proof. unfold create_tx, checkIndexStartRateLimit. by repeat case_match; simplify_eq/=. Qed.
Lemma submit_tx_mcp tenant actor root retry id n d p :
  mcp (submitRootDeletion_tx tenant actor root retry id n d p).2 = mcp p.
Proof. unfold submitRootDeletion_tx, checkDeleteRootRateLimit. by repeat case_match; simplify_eq/=. Qed.
Lemma delete_rate_mcp tenant root now p : mcp (checkDeleteRootRateLimit tenant root now p).2 = mcp p.
Proof. unfold checkDeleteRootRateLimit. by repeat case_match; simplify_eq/=. Qed.
Lemma cache_put_mcp now key e p : mcp (authCachePut now key e p) = mcp p.
Proof. unfold authCachePut. by repeat case_match. Qed.
#[export] Hint Resolve create_tx_mcp submit_tx_mcp delete_rate_mcp : triple.
#[export] Hint Extern 1 (∀ _, mcp _ = mcp _) => intros; simpl; apply cache_put_mcp : triple.

Section handlers.
Context (E : Env) (I : assertion) (HE : stable E I) `{!DbFree I, !ProcKept I, !RedisFree I, !SessionsKept E I}.
Context (u : string) (Hcall : ∀ req s c, tenant_call u req → I s c → I s (req :: c)).

Ltac walk := unfold with_lease; triple_tac.

Lemma call_triple req : tenant_call u req → triple I (callTool E req) (λ _, True).
Proof. intros Hr. apply triple_callTool; [exact HE|intros s c; by apply Hcall|done]. Qed.
Hint Resolve call_triple : triple.

(** ** Leases *)

Lemma acquire_loop_triple fuel user resource kind token md :
  triple I (acquire_loop E fuel user resource kind token md) (λ _, True).
Proof. revert token. induction fuel as [|fuel IH]; intros token; simpl; walk. Qed.
Hint Resolve acquire_loop_triple : triple.
Lemma acquire_triple user resource kind md : triple I (acquireIndexOperation E user resource kind md) (λ _, True).
Proof. unfold acquireIndexOperation. walk. Qed.
Lemma try_operation_triple user resource kind md : triple I (tryIndexOperation E user resource kind md) (λ _, True).
Proof. unfold tryIndexOperation. walk. Qed.
Lemma release_triple user token : triple I (Release E user token) (λ _, True).
Proof. unfold Release. walk. Qed.
Hint Resolve acquire_triple try_operation_triple release_triple : triple.

(** ** Index jobs *)

Lemma remote_call_triple prefix args :
  tenant_call u (remote_index args) → triple I (remote_index_call E prefix args) (λ _, True).
Proof. intros. unfold remote_index_call. walk. Qed.
Hint Resolve remote_call_triple : triple.
Lemma begin_attempts_triple left args :
  tenant_call u (remote_index args) → triple I (begin_attempts E left args) (λ _, True).
Proof. intros Ha. induction left as [|left IH]; simpl; walk. Qed.
Hint Resolve begin_attempts_triple : triple.
Lemma begin_job_triple id root b : triple I (beginLCEIndexJob E u id root b) (λ _, True).
Proof. unfold beginLCEIndexJob. walk. Qed.
Lemma abort_job_triple id root : triple I (abortLCEIndexJob E u id root) (λ _, True).
Proof. unfold abortLCEIndexJob. walk. Qed.
Lemma load_job_triple id : triple I (loadIndexJob E u id) (λ _, True).
Proof. unfold loadIndexJob. walk. Qed.
Lemma for_each_triple {A} (f : A → M unit) l :
  (∀ x, triple I (f x) (λ _, True)) → triple I (for_each f l) (λ _, True).
Proof. intros Hf. induction l as [|x l IH]; simpl; walk. Qed.
Hint Resolve begin_job_triple abort_job_triple load_job_triple for_each_triple : triple.
Lemma reset_binding_triple ws old new : triple I (resetWorkspaceRootBinding E u ws old new) (λ _, True).
Proof. unfold resetWorkspaceRootBinding, clearRootIndexState. walk. Qed.
Lemma abort_unpublished_triple kv : triple I (abort_unpublished E u kv) (λ _, True).
Proof. unfold abort_unpublished. walk. Qed.
Hint Resolve abort_unpublished_triple : triple.
Lemma inspect_triple ws : triple I (inspectActiveIndexJob E u ws) (λ _, True).
Proof. unfold inspectActiveIndexJob. walk. Qed.
Lemma begin_created_triple id root pending deleted md :
  triple I (begin_created E u id root pending deleted md) (λ _, True).
Proof. unfold begin_created. walk. Qed.
Hint Resolve reset_binding_triple inspect_triple begin_created_triple : triple.
Lemma create_triple req : triple I (createIndexJob E u req) (λ _, True).
Proof. unfold createIndexJob, acquireExclusiveIndexOperation. walk. Qed.
Lemma charge_files_triple org tier root files : triple I (chargeIndexFiles E u org tier root files) (λ _, True).
Proof. unfold chargeIndexFiles, resolveIndexBytesQuota, getUserIndexBytesLimit. walk. Qed.
Hint Resolve charge_files_triple : triple.
Lemma upload_triple org tier req : triple I (uploadIndexBatch E u org tier req) (λ _, True).
Proof. unfold uploadIndexBatch, acquireSharedIndexOperation, admit_batch. walk. Qed.
Lemma finish_failed_triple id msg : triple I (finishFailedPublication E u id msg) (λ _, True).
Proof. unfold finishFailedPublication. walk. Qed.
Hint Resolve finish_failed_triple : triple.
Lemma publish_triple id root : triple I (publish_revision E u id root) (λ _, True).
Proof. unfold publish_revision. walk. Qed.
Hint Resolve publish_triple : triple.
Lemma complete_lease_triple id known : triple I (completeIndexJobUnderLease E u id known) (λ _, True).
Proof. unfold completeIndexJobUnderLease. walk. Qed.
Hint Resolve complete_lease_triple : triple.
Lemma complete_triple id : triple I (completeIndexJob E u id) (λ _, True).
Proof. unfold completeIndexJob, acquireSharedIndexOperation. walk. Qed.
Lemma fail_triple id msg diag : triple I (failIndexJob E u id msg diag) (λ _, True).
Proof. unfold failIndexJob, acquireSharedIndexOperation. walk. Qed.
Hint Resolve create_triple upload_triple complete_triple fail_triple : triple.
Lemma heartbeat_triple id : triple I (heartbeat_statement E u id) (λ _, True).
Proof. unfold heartbeat_statement. walk. Qed.
Hint Resolve heartbeat_triple min_version_triple : triple.
Lemma index_tool_triple org tier c : triple I (handleCodebaseIndex E u org tier c) (λ _, True).
Proof. unfold handleCodebaseIndex, status_or_heartbeat, getIndexJob, renew_staging. walk. Qed.
Hint Resolve index_tool_triple : triple.

(** ** Administration *)

Lemma or_respond_triple {A} (m : M A) c prefix k :
  triple I m (λ _, True) → (∀ a, triple I (k a) (λ _, True)) → triple I (or_respond m c prefix k) (λ _, True).
Proof. intros Hm Hk. unfold or_respond. walk. Qed.
Ltac http_walk := repeat first [progress triple_tac | apply or_respond_triple].

Lemma clear_root_call_triple root : triple I (lceClearIndexRoot E u root) (λ _, True).
Proof. unfold lceClearIndexRoot. walk. Qed.
Hint Resolve clear_root_call_triple : triple.
Lemma dismiss_triple c body :
  requestTenantID c = u → triple I (handleDismissRootFailure E c body) (λ _, True).
Proof.
  intros Hu. unfold handleDismissRootFailure, dismiss_under_lease, dismissRootFailureState,
    acquireExclusiveIndexOperation. rewrite Hu. http_walk.
Qed.
Lemma delete_root_triple c body : requestTenantID c = u → triple I (handleDeleteRoot E c body) (λ _, True).
Proof.
  intros Hu. unfold handleDeleteRoot, delete_root_under_lease, deleteRootIndexState, tryExclusiveIndexOperation.
  rewrite Hu. http_walk.
Qed.
Lemma clear_index_triple c : requestTenantID c = u → triple I (handleClearIndex E c) (λ _, True).
Proof.
  intros Hu. unfold handleClearIndex, clear_under_lease, setClearIndexCooldown, checkClearIndexCooldown,
    clearUserIndexState, acquireExclusiveIndexOperation. rewrite Hu. http_walk.
Qed.
Lemma create_deletion_triple c body : triple I (handleCreateRootDeletion E c body) (λ _, True).
Proof. unfold handleCreateRootDeletion, submitRootDeletion. walk. Qed.
Lemma load_roots_triple tenant : triple I (loadIndexRoots E tenant) (λ _, True).
Proof. unfold loadIndexRoots. walk. Qed.
Hint Resolve load_roots_triple : triple.
Lemma list_roots_triple c : triple I (handleListRoots E c) (λ _, True).
Proof. unfold handleListRoots. walk. Qed.
Lemma list_deletions_triple c : triple I (handleListRootDeletions E c) (λ _, True).
Proof. unfold handleListRootDeletions, loadRootDeletions. walk. Qed.
Lemma tenant_stats_triple c : requestTenantID c = u → triple I (handleTenantStats E c) (λ _, True).
Proof.
  intros Hu. unfold handleTenantStats. rewrite Hu.
  assert (tenant_call u {| lr_tool := "codebase_tenant_stats"; lr_args := [("tenant_id", JStr u)] |})
    by (by apply own_call). walk.
Qed.
Hint Resolve dismiss_triple delete_root_triple clear_index_triple create_deletion_triple list_roots_triple
  list_deletions_triple tenant_stats_triple : triple.

(** ** The MCP endpoint *)

Lemma tools_list_triple Q : triple I (getCachedToolsList E Q) (λ _, True).
Proof. unfold getCachedToolsList, readToolsCache. walk. Qed.
Lemma rerank_triple user : triple I (loadRerankModelConfigArg E user) (λ _, True).
Proof. unfold loadRerankModelConfigArg, getUserModelConfigRow. walk. Qed.
Lemma reserve_swift_triple org tier args : triple I (reserveSwiftUpload E u org tier args) (λ _, True).
Proof. unfold reserveSwiftUpload, resolveIndexBytesQuota, getUserIndexBytesLimit, chargeSwiftPart. walk. Qed.
Hint Resolve tools_list_triple rerank_triple reserve_swift_triple : triple.
Lemma forward_triple user name args r :
  isChatMCPToolAllowed name = true → validateChatMCPToolArgs name args = Ok r →
  triple I (forward_tool E user u name args) (λ _, True).
Proof.
  intros Hn Ha. pose proof (λ cfg, chat_call u name cfg args r Hn Ha). unfold forward_tool, active_job_of. walk.
Qed.
Lemma public_tool_triple c user name args :
  isChatMCPToolAllowed name = true → triple I (call_public_tool E c user u name args) (λ _, True).
Proof.
  intros Hn. unfold call_public_tool. destruct (validateChatMCPToolArgs name args) as [r|e] eqn:Ha; [|by walk].
  pose proof (forward_triple user name args r Hn Ha). walk.
Qed.
Lemma tools_call_triple Q strict c params :
  requestTenantID (gc_caller c) = u →
  triple I (handleMCPToolsCall E Q strict c params (cu_user (gc_caller c))) (λ _, True).
Proof.
  intros Hu. unfold handleMCPToolsCall, call_status_tool, call_index_tool. rewrite tenant_default, Hu.
  destruct (call_params params) as [[n arguments]|]; [|by walk].
  destruct (isChatMCPToolAllowed (TrimSpace n)) eqn:En; cbv iota beta zeta delta [negb]; [|by walk].
  pose proof (public_tool_triple c (cu_user (gc_caller c)) (TrimSpace n) (default [] arguments) En). walk.
Qed.
Hint Resolve tools_call_triple : triple.
Lemma deferred_triple c b rpc : triple I (admitDeferredMCPQuota E c b rpc) (λ _, True).
Proof. unfold admitDeferredMCPQuota. walk. Qed.
Hint Resolve deferred_triple : triple.
Lemma mcp_post_triple Q strict c b sid body :
  requestTenantID (gc_caller c) = u → triple I (handleMCPPost E Q strict c b sid body) (λ _, True).
Proof. intros Hu. unfold handleMCPPost, after_quota, dispatch. walk. Qed.
Hint Resolve mcp_post_triple : triple.

Lemma handler_triple Q strict r ad x :
  requestTenantID (gc_caller (ad_ctx ad)) = u → triple I (handler E Q strict r ad x) (λ _, True).
Proof. intros Hu. unfold handler, stream_response. walk. Qed.
End handlers.

(** ** A request that is served *)

Section served.
Context (E : Env) (I : assertion) (HE : stable E I) `{!DbFree I, !ProcKept I, !RedisFree I}.

Lemma organization_triple id : triple I (authorizeOrganizationIdentity E id) (λ _, True).
Proof. unfold authorizeOrganizationIdentity. triple_tac. Qed.
Hint Resolve organization_triple : triple.
Lemma authenticate_triple header : triple I (authenticateRequest E header) (λ _, True).
Proof. unfold authenticateRequest, lookupAPIKey, cache_put. triple_tac. Qed.
Hint Resolve authenticate_triple deferred_triple : triple.
Lemma middleware_triple q body : triple I (authMiddleware E q body) (λ _, True).
Proof. unfold authMiddleware, admit_identity, admit_quota. triple_tac. Qed.
Lemma load_config_triple id : triple I (loadPlatformConfigJob E id) (λ _, True).
Proof. unfold loadPlatformConfigJob. triple_tac. Qed.
Hint Resolve load_config_triple : triple.
Lemma open_handler_triple token r x : triple I (open_handler E token r x) (λ _, True).
Proof.
  unfold open_handler, handleGetPlatformModelConfig, handleGetClientVersionPolicy, handleSaveClientVersionPolicy,
    clientVersionPolicyResponse, saveMinimumClientVersion, setMinClientVersion, handleSavePlatformModelConfig,
    recover_operation, list_models, locked_save, validate_and_save, confirmed_save, prepare_config,
    recoverPlatformConfigJob, enqueuePlatformConfigJob. triple_tac.
Qed.

Context `{!LogsFree I, !SessionsKept E I} (u : string) (Hcall : ∀ req s c, tenant_call u req → I s c → I s (req :: c)).

Lemma complete_request_triple r ad x a : triple I (complete_request E r ad x a) (λ _, True).
Proof.
  unfold complete_request, getRequestLogEntry, completeRequestLogWithErrorAsync, completeRequestLogAsync,
    completeRequestLogRecordAsync, persistRequestLogCompletion, await_insert. triple_tac.
Qed.
Hint Resolve complete_request_triple handler_triple : triple.
Lemma serve_admitted_triple Q strict r ad x :
  requestTenantID (gc_caller (ad_ctx ad)) = u → triple I (serve_admitted E Q strict r ad x) (λ _, True).
Proof.
  intros Hu. unfold serve_admitted, platformModelConfigReadBarrier, handle_logged, after_clear, insert_request_log,
    deleteUserLogsAsync, deleteCompletedUserLogsBefore. triple_tac.
Qed.
End served.

(** The calls made since [before] are calls on behalf of [u]. *)
Definition calls_of (u : string) (before : list lce_request) : assertion := λ _ c,
  ∃ made, c = made ++ before ∧ Forall (tenant_call u) made.
#[export] Instance calls_of_db u b : DbFree (calls_of u b).
Proof. by intros s c d H. Qed.
#[export] Instance calls_of_proc u b : ProcFree (calls_of u b).
Proof. by intros s c d H. Qed.
#[export] Instance calls_of_redis u b : RedisFree (calls_of u b).
Proof. by intros s c d H. Qed.
#[export] Instance calls_of_logs u b : LogsFree (calls_of u b).
Proof. by intros s c d H. Qed.
Lemma calls_of_call u b req s c : tenant_call u req → calls_of u b s c → calls_of u b s (req :: c).
Proof. intros Hr (made & -> & Hm). exists (req :: made). auto. Qed.

(** Whatever a request asks, every tool call that LCE receives while it is
    served is one of the relay's own tools with the tenant of the request's key, or a public tool
    whose arguments passed the policy, with the tenant overwritten by that of the key. *)
Theorem calls_name_tenant E Q strict token x u w :
  (∀ ad w', authMiddleware E (in_request x) (in_client x) w = (Ok (inr ad), w') →
            requestTenantID (gc_caller (ad_ctx ad)) = u) →
  ∃ made, calls (serve E Q strict token x w).2 = made ++ calls w ∧ Forall (tenant_call u) made ∧
          Forall (λ req, jget "tenant_id" (lr_args req) = Some (JStr u)) made.
Proof.
  intros Ha. assert (stable E (calls_of u (calls w))) as HE by (by intros n s c H).
  assert (holds (calls_of u (calls w)) w) as Hw by (by exists []).
  assert (holds (calls_of u (calls w)) (serve E Q strict token x w).2) as (made & Hm & Hf).
  { unfold serve. destruct (open_route _); [exact (proj1 (open_handler_triple _ _ HE _ _ _ w Hw))|].
    pose proof (middleware_triple _ _ HE (in_request x) (in_client x) w Hw) as [H1 _].
    unfold mbind, M_bind. destruct (authMiddleware E (in_request x) (in_client x) w) as [[[f|ad]|e] w1]; try exact H1.
    pose proof (proc_free_sessions _ _ HE) as Hs.
    refine (proj1 (serve_admitted_triple _ _ HE u _ _ _ _ _ _ _ w1 H1)); [intros req s c; apply calls_of_call|by eapply Ha]. }
  exists made. split_and!; [exact Hm|exact Hf|]. eapply Forall_impl; [exact Hf|]. intros req. apply tenant_call_named.
Qed.

(** Alice clears her index: LCE is asked to clear tenant [alice]. *)
Lemma calls_name_tenant_witness :
  let x := ex_incoming "alicekey" "POST" "/mcp/clear-index" None in
  let w' := (serve ex_env no_unicode ex_strict "" x ex_auth_committed).2 in
  calls w' = [clear_index [("tenant_id", JStr "alice")]] ∧
  ∃ made, calls w' = made ++ [] ∧ Forall (tenant_call "alice") made ∧
          Forall (λ req, jget "tenant_id" (lr_args req) = Some (JStr "alice")) made.
Proof.
  split; [vm_compute; reflexivity|].
  apply (calls_name_tenant ex_env no_unicode ex_strict "" (ex_incoming "alicekey" "POST" "/mcp/clear-index" None)
           "alice" ex_auth_committed).
  intros ad w1 H. vm_compute in H. injection H as <- _. reflexivity.
Defined.
