(* ===== verification/RequestTrail.v ===== *)
(** * The trail of a request

    A request that was admitted is answered, and its log row ends up completed with the status
    that was answered, unless the code path leaves the row alone. *)
From Stdlib Require Import Ascii String.
From S2P Require Import Prelude GoStrings Paths Manifest Failure Json Lce ToolPolicy Sse Sessions SessionSteps.
From S2P Require Import Store Effects Triples Leases ClientVersion RedisCommands QuotaLimits Quota.
From S2P Require Import IndexStatements IndexJobs IndexTool RootDeletion PlatformConfig RootAdmin Admission Auth.
From S2P Require Import Console RequestLogs McpServer Router Readers System Guarantees AuthProperties Isolation Requests.
Open Scope Z_scope.

(** ** Every handler answers *)

Section answers.
Context (E : Env).

Lemma returns_callTool req : returns (λ _, True) (callTool E req).
Proof. intros w. by eexists _, _. Qed.
Lemma returns_with_mutex {A} (f : Proc → A * Proc) : returns (λ _, True) (with_mutex E f).
Proof. intros w. unfold with_mutex. destruct (f _) as [a p]. by eexists _, _. Qed.
Lemma returns_select_case : returns (λ _, True) (select_case E).
Proof. intros w. by eexists _, _. Qed.
Lemma returns_write_client : returns (λ _, True) (write_client E).
Proof. intros w. by eexists _, _. Qed.
Lemma returns_canceled : returns (λ _, True) (canceled E).
Proof. intros w. by eexists _, _. Qed.
Lemma returns_polls : returns (λ _, True) (polls E).
Proof. intros w. by eexists _, _. Qed.
Lemma returns_uuid_New : returns (λ _, True) (uuid_New E).
Proof. intros w. by eexists _, _. Qed.
Lemma returns_try_barrier : returns (λ _, True) (try_barrier E).
Proof. intros w. by eexists _, _. Qed.
Lemma returns_finally {A} (m : M A) c : returns (λ _, True) m → returns (λ _, True) (finally m c).
Proof.
  intros Hm w. unfold finally. destruct (Hm w) as (a & w1 & Ha & _). unfold try, mbind, M_bind. rewrite Ha.
  destruct (c w1) as [r w2]. by exists a, w2.
Qed.
Hint Resolve returns_callTool returns_with_mutex returns_select_case returns_write_client returns_canceled
  returns_polls returns_uuid_New returns_try_barrier returns_finally : eff.

Lemma or_respond_returns {A} (m : M A) c prefix k :
  (∀ a, returns (λ _, True) (k a)) → returns (λ _, True) (or_respond m c prefix k).
Proof. intros Hk. unfold or_respond. returns_tac. Qed.

Ltac answer_step :=
  lazymatch goal with
  | |- True => exact I
  | |- ∀ _, _ => intros
  | |- returns _ (mret _) => apply returns_ret
  | |- returns _ (_ ≫= _) => first [solve [eauto 3 with eff] | eapply (returns_bind _ _ (λ _, True))]
  | |- returns _ (try _) => apply returns_try
  | |- returns _ (ignore _) => apply returns_ignore
  | |- returns _ (finally _ _) => apply returns_finally
  | |- returns _ (or_respond _ _ _ _) => apply or_respond_returns
  | |- returns _ (match ?x with _ => _ end) => destruct x
  | |- returns _ _ => solve [eauto 3 with eff]
  end.
Ltac answer_tac := repeat answer_step.

Lemma dismiss_returns c body : returns (λ _, True) (handleDismissRootFailure E c body).
Proof. unfold handleDismissRootFailure, dismiss_under_lease, lceClearIndexRoot. answer_tac. Qed.
Lemma delete_root_returns c body : returns (λ _, True) (handleDeleteRoot E c body).
Proof. unfold handleDeleteRoot, delete_root_under_lease, lceClearIndexRoot. answer_tac. Qed.
Lemma clear_index_returns c : returns (λ _, True) (handleClearIndex E c).
Proof. unfold handleClearIndex, clear_under_lease, checkClearIndexCooldown, setClearIndexCooldown. answer_tac. Qed.
Lemma create_deletion_returns c body : returns (λ _, True) (handleCreateRootDeletion E c body).
Proof. unfold handleCreateRootDeletion. answer_tac. Qed.
Lemma list_roots_returns c : returns (λ _, True) (handleListRoots E c).
Proof. unfold handleListRoots. answer_tac. Qed.
Lemma list_deletions_returns c : returns (λ _, True) (handleListRootDeletions E c).
Proof. unfold handleListRootDeletions. answer_tac. Qed.
Lemma tenant_stats_returns c : returns (λ _, True) (handleTenantStats E c).
Proof. unfold handleTenantStats. answer_tac. Qed.
Hint Resolve dismiss_returns delete_root_returns clear_index_returns create_deletion_returns list_roots_returns
  list_deletions_returns tenant_stats_returns : eff.

Lemma section_returns {A} (f : McpRun → A * McpRun) : returns (λ _, True) (mcp_section E f).
Proof. apply returns_with_mutex. Qed.
Hint Resolve section_returns : eff.
Lemma close_stream_returns sid : returns (λ _, True) (close_session_stream E sid).
Proof. unfold close_session_stream. answer_tac. Qed.
Hint Resolve close_stream_returns : eff.
Lemma close_streams_returns ids : returns (λ _, True) (closeMCPSSEStreams E ids).
Proof. induction ids as [|id ids IH]; simpl; answer_tac. Qed.
Hint Resolve close_streams_returns : eff.
Lemma mcp_delete_returns c sid : returns (λ _, True) (handleMCPDelete E c sid).
Proof. unfold handleMCPDelete. answer_tac. Qed.
Lemma sse_loop_returns fuel sid user p written : returns (λ _, True) (sse_loop E fuel sid user p written).
Proof. revert written. induction fuel as [|fuel IH]; intros written; simpl; answer_tac. Qed.
Hint Resolve sse_loop_returns : eff.
Lemma mcp_get_returns c accept sid : returns (λ _, True) (handleMCPGet E c accept sid).
Proof. unfold handleMCPGet, open_stream. answer_tac. Qed.
Lemma org_limits_returns org : returns (λ _, True) (getOrgQuotaLimits E org).
Proof. intros w. destruct (getOrgQuotaLimits_returns E org w) as (l & w' & H & _). eauto. Qed.
Lemma user_limit_returns key limit col plan user : returns (λ _, True) (user_limit E key limit col plan user).
Proof. unfold user_limit, cached, cache_set, getUserPlanQuotaLimits. answer_tac. Qed.
Hint Resolve org_limits_returns user_limit_returns : eff.
Lemma reserve_swift_returns tenant org tier args : returns (λ _, True) (reserveSwiftUpload E tenant org tier args).
Proof. unfold reserveSwiftUpload, resolveIndexBytesQuota, getUserIndexBytesLimit, chargeSwiftPart. answer_tac. Qed.
Hint Resolve reserve_swift_returns : eff.
Lemma tools_call_returns Q strict c params user : returns (λ _, True) (handleMCPToolsCall E Q strict c params user).
Proof.
  unfold handleMCPToolsCall, call_status_tool, call_index_tool, call_public_tool, forward_tool, active_job_of.
  answer_tac.
Qed.
Hint Resolve tools_call_returns : eff.
Lemma deferred_returns c b rpc : returns (λ _, True) (admitDeferredMCPQuota E c b rpc).
Proof.
  unfold admitDeferredMCPQuota, admitDailyRequestQuota, checkRequestQuotaDetailed, getUserDailyLimit,
    reserveRequestQuota. answer_tac.
Qed.
Hint Resolve deferred_returns : eff.
Lemma mcp_post_returns Q strict c b sid body : returns (λ _, True) (handleMCPPost E Q strict c b sid body).
Proof. unfold handleMCPPost, after_quota, handle_initialize, dispatch. answer_tac. Qed.
Hint Resolve mcp_post_returns mcp_get_returns mcp_delete_returns : eff.
Lemma handler_returns Q strict r ad x : returns (λ _, True) (handler E Q strict r ad x).
Proof. unfold handler, stream_response. answer_tac. Qed.
Hint Resolve handler_returns : eff.
Lemma serve_admitted_returns Q strict r ad x : returns (λ _, True) (serve_admitted E Q strict r ad x).
Proof.
  unfold serve_admitted, platformModelConfigReadBarrier, handle_logged, after_clear, insert_request_log,
    deleteUserLogsAsync, complete_request, getRequestLogEntry, completeRequestLogWithErrorAsync,
    completeRequestLogAsync, completeRequestLogRecordAsync. answer_tac.
Qed.
Lemma open_handler_returns token r x : returns (λ _, True) (open_handler E token r x).
Proof.
  unfold open_handler, handleGetPlatformModelConfig, handleGetClientVersionPolicy, handleSaveClientVersionPolicy,
    clientVersionPolicyResponse, currentMinClientVersion, handleSavePlatformModelConfig, recover_operation, list_models,
    locked_save, validate_and_save, confirmed_save, prepare_config. answer_tac.
Qed.
Lemma banned_returns user : returns (λ _, True) (isUserBanned E user).
Proof. unfold isUserBanned, cache_set. answer_tac. Qed.
Hint Resolve banned_returns : eff.
Lemma middleware_returns q body : returns (λ _, True) (authMiddleware E q body).
Proof.
  unfold authMiddleware, admit_identity, admit_quota, admitDailyRequestQuota, checkRequestQuotaDetailed,
    getUserDailyLimit, reserveRequestQuota, currentMinClientVersion. answer_tac.
Qed.
Hint Resolve serve_admitted_returns open_handler_returns middleware_returns : eff.

End answers.

(** ** The log row *)

(** The columns of [request_logs] hold the request. *)
Definition fits_columns (x : incoming) (u : caller) : bool :=
  (RuneCountInString (q_path (in_request x)) <=? 512) && (RuneCountInString (q_method (in_request x)) <=? 10)
  && (RuneCountInString (in_ip x) <=? 45) && (RuneCountInString (cu_user u) <=? 255)
  && (RuneCountInString (cu_tenant u) <=? 255).

Section trail.
Context (E : Env) (id : string) (HF : ∀ n, env_fault E n = NoFault).
(** The others leave this row alone, and the insertion is never waited for in vain. *)
Context (Hothers : ∀ n s, request_logs (s_logs (env_step E n s)) !! id = request_logs (s_logs s) !! id).
Context (Hsel : ∀ n, Nat.even (env_select E n) = true).

Definition log_row (row : request_log) : assertion := λ s _, request_logs (s_logs s) !! id = Some row.
#[local] Instance log_row_db row : DbFree (log_row row).
Proof. by intros s c d H. Qed.
#[local] Instance log_row_proc row : ProcFree (log_row row).
Proof. by intros s c d H. Qed.
#[local] Instance log_row_redis row : RedisFree (log_row row).
Proof. by intros s c d H. Qed.
Lemma log_row_stable row : stable E (log_row row).
Proof. intros n s c H. unfold log_row. by rewrite Hothers. Qed.

Lemma log_tx_run {A} (body : Z → Logs → result error (A * Logs)) w :
  log_tx E body w =
  match body (env_now E (ticks w)) (s_logs (shared (turn E w))) with
  | Ok (a, l) => (Ok a, put_shared (with_logs l (shared (turn E w))) (turn E w))
  | Err e => (Err e, turn E w)
  end.
Proof. unfold log_tx. by rewrite HF. Qed.

Lemma insert_runs user tenant path method ip start w w' :
  (512 <? RuneCountInString path) || (10 <? RuneCountInString method) || (45 <? RuneCountInString ip)
    || (255 <? RuneCountInString user) || (255 <? RuneCountInString tenant) = false →
  request_logs (s_logs (shared w)) !! id = None →
  insert_request_log E id user tenant path method ip start w = (Ok tt, w') →
  ∃ now, holds (log_row (pending_log_row user tenant path method ip start now)) w'.
Proof.
  intros Hfit Hnone. rewrite <- (Hothers (ticks w)) in Hnone. unfold insert_request_log, ignore, try, mbind, M_bind, mret, M_ret. rewrite log_tx_run.
  unfold insert_log_tx. rewrite Hfit. simpl in Hnone. change (shared (turn E w)) with (env_step E (ticks w) (shared w)). rewrite Hnone. intros [= <-]. eexists. unfold holds, log_row. simpl.
  apply lookup_insert_eq.
Qed.

(** A pending row is not among those that a clear deletes. *)
Lemma after_clear_keeps r ad a row :
  rl_status row = StatusPending → triple (log_row row) (after_clear E r ad a) (λ _, True).
Proof.
  intros Hp. unfold after_clear, deleteUserLogsAsync, deleteCompletedUserLogsBefore. pose proof (log_row_stable row).
  triple_tac. apply triple_log_tx; [done|]. intros n s c k l Hs [= _ <-]. split; [|done]. unfold log_row. simpl.
  apply delete_where_lookup. split; [exact Hs|]. unfold deletable. rewrite Hp. apply andb_false_r.
Qed.

Lemma await_runs e row w :
  holds (log_row row) w → ∃ w', await_insert E e w = (Ok tt, w') ∧ holds (log_row row) w'.
Proof.
  intros Hw. unfold await_insert. destruct (InsertDone e); [|by exists w].
  exists (turn E w). split; [|by apply holds_turn, Hw; apply log_row_stable].
  unfold mbind, M_bind, select_case. by rewrite Hsel.
Qed.

Definition detail_of (source detail : string) : error_detail :=
  {| ed_request_id := id; ed_source := source; ed_error := detail |}.

Lemma complete_runs e source detail row w :
  id ≠ "" → LogID e = id → RuneCountInString source ≤ 20 → holds (log_row row) w →
  ∃ now w', completeRequestLogWithErrorAsync E e source detail w = (Ok tt, w') ∧
    holds (log_row (completed_log_row e now row)) w' ∧
    (detail ≠ "" → detail_of source detail ∈ error_details (s_logs (shared w'))).
Proof.
  intros Hid He Hs Hw. destruct (await_runs e row w Hw) as (w1 & Ha & Hw1).
  assert (request_logs (s_logs (shared (turn E w1))) !! LogID e = Some row) as Hrow
    by (rewrite He; apply (holds_turn E _ (log_row_stable row)), Hw1).
  unfold completeRequestLogWithErrorAsync, completeRequestLogAsync, completeRequestLogRecordAsync,
    persistRequestLogCompletion, ignore. rewrite He, (proj2 (str_eqb_false _ _) Hid).
  destruct (str_eqb detail "") eqn:Ed.
  - apply str_eqb_true in Ed. unfold try, mbind, M_bind, mret, M_ret. rewrite Ha, log_tx_run.
    unfold complete_log_tx, complete_log. rewrite Hrow. eexists _, _. split; [reflexivity|].
    split; [|by intros []]. unfold holds, log_row. simpl. rewrite He. apply lookup_insert_eq.
  - unfold try, mbind, M_bind, mret, M_ret. rewrite Ha. cbn [Message]. rewrite Ed, log_tx_run.
    unfold complete_with_detail_tx, complete_log. cbn [Source Message].
    rewrite (proj2 (Z.ltb_ge _ _) Hs), Hrow. cbn [request_logs set_error_details]. rewrite Hrow.
    eexists _, _. split; [reflexivity|]. split.
    + unfold holds, log_row. simpl. rewrite He. apply lookup_insert_eq.
    + intros _. simpl. rewrite He. apply elem_of_app. right. by apply list_elem_of_singleton.
Qed.

Lemma logged_source r x a status source detail :
  logged_of r x a = Some (status, source, detail) → source = "" ∨ source = "lce" ∨ source = "relay".
Proof.
  assert (∀ s, plainly s = Some (status, source, detail) → source = "" ∨ source = "lce" ∨ source = "relay") as Hp
    by (intros s [= _ <- _]; auto).
  assert (∀ p h, with_detail "lce" p h = Some (status, source, detail) →
            source = "" ∨ source = "lce" ∨ source = "relay") as Hd.
  { intros p h. unfold with_detail. destruct (error_after p h); [intros [= _ <- _]; auto|apply Hp]. }
  unfold logged_of, post_logged, tool_logged. intros H.
  repeat (match type of H with context [match ?v with _ => _ end] => destruct v end);
    first [discriminate | by eapply Hp | by eapply Hd | injection H as _ <- _; auto].
Qed.

Lemma triple_run {A} (I : assertion) (m : M A) Q w r w' : triple I m Q → holds I w → m w = (r, w') → holds I w'.
Proof. intros Hm Hw H. destruct (Hm w Hw) as [Hi _]. by rewrite H in Hi. Qed.

(** What is known of the row when the request [x] of [ad] was answered with [a]. *)
Definition logged_row (r : route) (ad : admitted) (x : incoming) (a : response) (l : Logs) : Prop :=
  ∃ row, request_logs l !! id = Some row ∧
    rl_user row = cu_user (gc_caller (ad_ctx ad)) ∧ rl_tenant row = cu_tenant (gc_caller (ad_ctx ad)) ∧
    rl_timestamp row = ad_start ad ∧
    match logged_of r x a with
    | Some (status, source, detail) =>
        rl_status row = StatusCompleted ∧ rl_status_code row = Some status ∧
        (detail ≠ "" → detail_of source detail ∈ error_details l)
    | None => rl_status row = StatusPending
    end.

Lemma completed_trail r ad x a row w w' u :
  id ≠ "" → ad_log_id ad = id → rl_status row = StatusPending →
  rl_user row = cu_user (gc_caller (ad_ctx ad)) → rl_tenant row = cu_tenant (gc_caller (ad_ctx ad)) →
  rl_timestamp row = ad_start ad → holds (log_row row) w →
  complete_request E r ad x a w = (Ok u, w') → logged_row r ad x a (s_logs (shared w')).
Proof.
  intros Hid Had Hp Hu Ht Hts Hw. unfold complete_request, logged_row.
  destruct (logged_of r x a) as [[[status source] detail]|] eqn:El; [|intros [= _ <-]; eauto 10].
  intros H. run_Ok H.
  assert (holds (log_row row) w0 ∧ LogID a0 = id ∧ StatusCode a0 = status) as (Hw0 & Hl & Hst).
  { unfold getRequestLogEntry in Hrun. run_Ok Hrun. run_Ok Hrun. injection Hrun as <- <-. split; [|done].
    injection Hrun0 as <- <-. injection Hrun1 as <- <-. apply holds_turn; [apply log_row_stable|exact Hw]. }
  assert (RuneCountInString source ≤ 20) as Hlen
    by (destruct (logged_source _ _ _ _ _ _ El) as [->|[->| ->]]; vm_compute; discriminate).
  destruct (complete_runs a0 source detail row w0 Hid Hl Hlen Hw0) as (now & w2 & Hrun2 & Hrow & Hdet).
  rewrite Hrun2 in H. injection H as _ <-. eexists. split; [exact Hrow|]. simpl. rewrite Hst. auto 10.
Qed.

Lemma admitted_trail Q strict r ad x w a w' :
  id ≠ "" → ad_log_id ad = id → ad_console ad = false → fits_columns x (gc_caller (ad_ctx ad)) = true →
  request_logs (s_logs (shared w)) !! id = None →
  serve_admitted E Q strict r ad x w = (Ok a, w') → logged_row r ad x a (s_logs (shared w')).
Proof.
  intros Hid Had Hc Hfit Hnone H. unfold serve_admitted in H. rewrite Hc, Had in H. run_Ok H. destruct a0.
  apply insert_runs in Hrun as [now Hrow]; [|unfold fits_columns in Hfit; reflect_bools; rewrite !orb_false_iff, !Z.ltb_ge; auto 10|done].
  set (row := pending_log_row _ _ _ _ _ _ _) in Hrow. pose proof (log_row_stable row) as Hst.
  assert (∀ wa b wb, handle_logged E Q strict r ad x wa = (Ok b, wb) → holds (log_row row) wa →
            logged_row r ad x b (s_logs (shared wb))) as Hh.
  { intros wa b wb Hrun Ha. unfold handle_logged in Hrun. run_Ok Hrun. run_Ok Hrun. run_Ok Hrun.
    injection Hrun as <- <-. refine (completed_trail r ad x _ row _ _ _ Hid Had eq_refl eq_refl eq_refl eq_refl _ Hrun2).
    eapply triple_run; [by apply (after_clear_keeps r ad a0 row)| |exact Hrun1].
    eapply triple_run; [|exact Ha|exact Hrun0]. pose proof (proc_free_sessions _ _ Hst).
    eapply (handler_triple E (log_row row) Hst); [|reflexivity]. by intros req s c _ Hs. }
  apply bind_Ok in H as (b & wb & Hb & H). injection H as <- <-.
  unfold platformModelConfigReadBarrier in Hb. destruct (_ && _).
  - run_Ok Hb. injection Hb as <- <-. by eapply Hh.
  - apply bind_Ok in Hb as (free & wc & Hlock & Hb). injection Hlock as _ <-. apply (holds_turn E _ Hst) in Hrow.
    destruct free.
    + run_Ok Hb. injection Hb as <- <-. by eapply Hh.
    + injection Hb as <- <-. exists row. split; [exact Hrow|done].
Qed.
End trail.


Definition ex_admitted : option (admitted * World) :=
  match authMiddleware ex_env (in_request (ex_incoming "alicekey" "POST" "/mcp/clear-index" None)) ex_body ex_auth_committed with
  | (Ok (inr ad), w) => Some (ad, w)
  | _ => None
  end.

