(* ===== verification/SessionRefinement.v ===== *)
(** * The handlers refine the session steps

    What [SessionSteps] proves of the steps of the session and stream tables holds of the code
    as it runs: every request, the sweeper and the publication of an event only make such steps,
    if the others do.  A handler remembers a stream across its operations; that nobody else can
    put the stream back into the table is what makes closing it a step. *)
From Stdlib Require Import Ascii String.
From S2P Require Import Prelude GoStrings Paths Manifest Failure Json Lce ToolPolicy Sse Sessions SessionSteps.
From S2P Require Import Store Effects Triples IndexTool RootAdmin Admission Auth McpServer Router.
From S2P Require Import Guarantees AuthProperties Isolation Requests.
Open Scope Z_scope.

(** ** Gaining knowledge *)

(** Started where [I] holds, [m] ends where [J a] holds of its value [a]. *)
Definition gains {A} (I : assertion) (m : M A) (J : A → assertion) : Prop :=
  ∀ w, holds I w → match m w with (Ok a, w') => holds (J a) w' | (Err _, w') => holds I w' end.

Lemma gains_bind {A B} (I : assertion) (J : A → assertion) (K : B → assertion) (m : M A) (f : A → M B) :
  gains I m J → (∀ a s c, J a s c → I s c) → (∀ a, gains (J a) (f a) K) → gains I (m ≫= f) K.
Proof.
  intros Hm HJ Hf w Hw. specialize (Hm w Hw). unfold mbind, M_bind. destruct (m w) as [[a|e] w1]; [|done].
  specialize (Hf a w1 Hm). destruct (f a w1) as [[b|e] w2]; [done|]. by apply (HJ a).
Qed.
Lemma gains_triple {A} (I : assertion) (m : M A) : triple I m (λ _, True) → gains I m (λ _, I).
Proof. intros Hm w Hw. destruct (Hm w Hw) as [Hi _]. by destruct (m w) as [[a|e] w1]. Qed.
Lemma triple_gain {A B} (I : assertion) (J : A → assertion) (m : M A) (f : A → M B) (Q : B → Prop) :
  gains I m J → (∀ a s c, J a s c → I s c) → (∀ a, triple (J a) (f a) Q) → triple I (m ≫= f) Q.
Proof.
  intros Hm HJ Hf w Hw. specialize (Hm w Hw). unfold mbind, M_bind. destruct (m w) as [[a|e] w1]; [|done].
  destruct (Hf a w1 Hm) as [Hi Hq]. split; [|done]. by apply (HJ a).
Qed.

Section sessions.
Context (E : Env).
Notation perUser := (mcpMaxSessionsPerUser (env_config E)).
Notation globalL := (mcpMaxSessions (env_config E)).
Notation moves := (mcp_step perUser globalL).
Notation reach := (mcp_reachable perUser globalL).

(** What stays true whatever steps are made. *)
Definition kept (P : McpRun → Prop) : Prop := ∀ r r', reach r → moves r r' → P r → P r'.

Lemma reach_steps r r' : reach r → rtc moves r r' → reach r'.
Proof. unfold mcp_reachable. intros H1 H2. by etransitivity. Qed.
Lemma kept_steps P r r' : kept P → reach r → rtc moves r r' → P r → P r'.
Proof.
  intros HP Hr Hs. revert Hr. induction Hs as [r|r1 r2 r3 H1 _ IH]; [done|]. intros Hr HPr.
  apply IH; [by eapply reach_steps; [|apply rtc_once]|by eapply HP].
Qed.
Lemma kept_true : kept (λ _, True).
Proof. done. Qed.
Lemma kept_and P Q : kept P → kept Q → kept (λ r, P r ∧ Q r).
Proof. intros HP HQ r r' Hr Hs [H1 H2]. split; [by eapply HP|by eapply HQ]. Qed.

Lemma reach_streams r : reach r → streams_ok r.
Proof.
  intros Hr. apply (mcp_invariant perUser globalL streams_ok _ _ (streams_step perUser globalL) Hr).
  split; simpl; try done. by intros p [s Hs].
Qed.

Definition owns_stream (p : nat) (sid : string) (r : McpRun) : Prop := owner r !! p = Some sid.

Lemma fresh_stream r sid p : reach r → is_Some (owner r !! p) → (register_stream sid r).1.1 ≠ p.
Proof.
  intros Hr Hp. unfold register_stream, registerMCPSSEStream. simpl. intros Heq.
  apply (st_known _ (reach_streams r Hr)), elem_of_dom in Hp. rewrite <- Heq in Hp. by apply is_fresh in Hp.
Qed.
Lemma kept_owns p sid : kept (owns_stream p sid).
Proof.
  intros r r' Hr Hs Ho. unfold owns_stream in *. destruct Hs; try exact Ho.
  simpl. rewrite lookup_insert_ne; [done|]. apply (fresh_stream r sid0 p Hr). by exists sid.
Qed.

Lemma retired_smaller p r t h :
  t ⊆ mcpSSEStreams (run_st r) → retired p r → ∀ sid, mcpSSEStreams (with_streams t h (run_st r)) !! sid ≠ Some p.
Proof. intros Ht [_ Hp] sid H. apply (Hp sid). by eapply lookup_weaken. Qed.
Lemma kept_retired p : kept (retired p).
Proof.
  intros r r' Hr Hs [Ho Hp]. pose proof (conj Ho Hp : retired p r) as Hret. destruct Hs.
  - split; [exact Ho|]. unfold section, on_state, initialize_session. simpl.
    destruct (prepareMCPSessionSlot _ _ _ _ _ _) as [[??] ?]. exact Hp.
  - split; [exact Ho|]. unfold section, on_state, touch_session. simpl. by destruct (touchMCPSession _ _ _ _).
  - split; [exact Ho|]. unfold section, on_state, delete_session. simpl. by repeat case_match.
  - split; [exact Ho|exact Hp].
  - pose proof (fresh_stream r sid p Hr Ho) as Hne. split; [simpl; by rewrite lookup_insert_ne|]. intros sid'. simpl.
    rewrite lookup_insert. case_decide; [intros [= <-]; by apply Hne|apply Hp].
  - split; [exact Ho|]. apply retired_smaller; [|done]. by case_bool_decide; [apply delete_subseteq|].
  - split; [exact Ho|]. apply retired_smaller; [apply delete_subseteq|done].
  - split; [exact Ho|exact Hp].
  - split; [exact Ho|]. unfold section, on_state, send_event. simpl. by repeat case_match.
  - split; [exact Ho|]. unfold section, on_state, receive_event. simpl. by repeat case_match.
  - split; [exact Ho|]. intros sid. simpl. by rewrite lookup_empty.
Qed.

(** ** Assertions about the session tables *)

Definition reached (P : McpRun → Prop) : assertion := λ s _, reach (mcp (s_proc s)) ∧ P (mcp (s_proc s)).
#[export] Instance reached_db P : DbFree (reached P).
Proof. by intros s c d H. Qed.
#[export] Instance reached_redis P : RedisFree (reached P).
Proof. by intros s c d H. Qed.
#[export] Instance reached_logs P : LogsFree (reached P).
Proof. by intros s c d H. Qed.
#[export] Instance reached_proc P : ProcKept (reached P).
Proof. intros s c p Hp [H1 H2]. split; simpl; by rewrite Hp. Qed.

Context (Hothers : ∀ n s, rtc moves (mcp (s_proc s)) (mcp (s_proc (env_step E n s)))).
Context (Huuid : ∀ n, env_uuid E n ≠ "").

Lemma reached_stable P : kept P → stable E (reached P).
Proof.
  intros HP n s c [Hr H]. split; [by eapply reach_steps|by eapply kept_steps].
Qed.

(** A critical section that makes steps. *)
Lemma section_gains {A} (f : McpRun → A * McpRun) P (J : A → McpRun → Prop) :
  kept P → (∀ r, reach r → P r → rtc moves r (f r).2 ∧ J (f r).1 (f r).2) →
  gains (reached P) (mcp_section E f) (λ a, reached (λ r, P r ∧ J a r)).
Proof.
  intros HP Hf w Hw. apply (holds_turn E _ (reached_stable P HP)) in Hw as [Hr Hp].
  destruct (Hf _ Hr Hp) as [Hs HJ]. unfold mcp_section, with_mutex, holds, reached. simpl.
  split; [by eapply reach_steps|]. split; [by eapply kept_steps|exact HJ].
Qed.
Lemma section_steps {A} (f : McpRun → A * McpRun) P :
  kept P → (∀ r, reach r → P r → rtc moves r (f r).2) → triple (reached P) (mcp_section E f) (λ _, True).
Proof.
  intros HP Hf w Hw. pose proof (section_gains f P (λ _ _, True) HP (λ r Hr Hp, conj (Hf r Hr Hp) Logic.I) w Hw) as H.
  destruct (mcp_section E f w) as [[a|e] w1]; [|done]. split; [|done]. destruct H as [H1 [H2 _]]. by split.
Qed.

(** ** The handlers *)

Lemma one_step {A} (f : McpRun → A * McpRun) P :
  kept P → (∀ r, moves r (f r).2) → triple (reached P) (mcp_section E f) (λ _, True).
Proof. intros HP Hf. apply section_steps; [done|]. intros r _ _. by apply rtc_once. Qed.
Lemma reading {A} (f : McpRun → A) P :
  kept P → triple (reached P) (mcp_section E (λ r, (f r, r))) (λ _, True).
Proof. intros HP. apply section_steps; [done|]. intros. apply rtc_refl. Qed.

(** Closing a stream that was taken out of the table. *)
Lemma finish_triple p P : kept P → (∀ r, P r → retired p r) →
  triple (reached P) (mcp_section E (λ r, (tt, finish_stream p r))) (λ _, True).
Proof. intros HP Hp. apply section_steps; [done|]. intros r _ H. apply rtc_once, mcp_finish, Hp, H. Qed.

Definition retires (previous : option nat) (r : McpRun) : Prop := ∀ p, previous = Some p → retired p r.
Lemma kept_retires previous : kept (retires previous).
Proof. intros r r' Hr Hs H p Hp. by eapply kept_retired; [..|apply H]. Qed.

Lemma finish_optional previous P :
  kept P → triple (reached (λ r, P r ∧ retires previous r)) (
    match previous with Some p => mcp_section E (λ r, (tt, finish_stream p r)) | None => mret tt end) (λ _, True).
Proof.
  intros HP. destruct previous as [p|]; [|by apply triple_ret]. apply finish_triple.
  - by apply kept_and, kept_retires.
  - intros r [_ H]. by apply H.
Qed.

Lemma taken_retired sid r : reach r → retires (take_stream sid r).1 (take_stream sid r).2.
Proof.
  intros Hr p Hp. unfold take_stream, closeMCPSSEStream in *. simpl in *. pose proof (st_owner _ (reach_streams r Hr)) as Ho.
  split; [exists sid; by apply Ho|]. intros sid'. simpl. intros [Hne H]%lookup_delete_Some. apply Ho in H, Hp. congruence.
Qed.

Lemma close_session_steps P sid : kept P → triple (reached P) (close_session_stream E sid) (λ _, True).
Proof.
  intros HP. unfold close_session_stream. eapply (triple_gain _ (λ a, reached (λ r, P r ∧ retires a r))).
  - apply section_gains; [done|]. intros r Hr _. split; [apply rtc_once, mcp_take|by apply taken_retired].
  - by intros a s c [H1 [H2 _]].
  - intros previous. by apply (finish_optional previous P).
Qed.
Lemma close_sessions_steps P ids : kept P → triple (reached P) (closeMCPSSEStreams E ids) (λ _, True).
Proof.
  intros HP. induction ids as [|id ids IH]; simpl; [by apply triple_ret|].
  apply triple_bind_any; [by apply close_session_steps|done].
Qed.

Notation any := (reached (λ _, True)).
Lemma any_stable : stable E any.
Proof. apply reached_stable, kept_true. Qed.

Lemma swept_sessions : triple any (sweepExpiredMCPSessions E) (λ _, True).
Proof.
  unfold sweepExpiredMCPSessions. apply triple_bind_any; [apply triple_time_free, any_stable|]. intros now.
  apply triple_bind_any; [|by intros; apply close_sessions_steps]. apply one_step; [done|]. intros r. apply mcp_sweep.
Qed.
Lemma initialized_session user : triple any (handle_initialize E user) (λ _, True).
Proof.
  unfold handle_initialize. apply triple_bind_any; [apply triple_time_free, any_stable|]. intros now.
  apply (triple_bind _ (λ sid, sid ≠ "")); [by apply triple_uuid_New; [apply any_stable|]|]. intros sid Hsid.
  apply triple_bind_any; [apply one_step; [done|]; intros r; by apply mcp_initialize|]. intros ids.
  apply triple_bind_any; [by apply close_sessions_steps|]. intros. by apply triple_ret.
Qed.
Lemma deleted_session c sid : triple any (handleMCPDelete E c sid) (λ _, True).
Proof.
  unfold handleMCPDelete. destruct (str_eqb sid ""); [by apply triple_ret|].
  apply triple_bind_any; [apply one_step; [done|]; intros r; apply mcp_delete|]. intros [|]; [|by apply triple_ret].
  apply triple_bind_any; [by apply close_session_steps|]. intros. by apply triple_ret.
Qed.

(** *** Event streams *)

Lemma unregistered_retired sid p r : reach r → owns_stream p sid r → retired p (unregister_stream sid p r).
Proof.
  intros Hr Ho. pose proof (st_owner _ (reach_streams r Hr)) as Hown. split; [by exists sid|]. intros sid'. simpl.
  case_bool_decide as Hd.
  - intros [Hne H]%lookup_delete_Some. apply Hown in H. unfold owns_stream in Ho. congruence.
  - intros H. pose proof (Hown _ _ H) as H2. unfold owns_stream in Ho. congruence.
Qed.
Lemma close_own_steps sid p : triple (reached (owns_stream p sid)) (close_own_stream E sid p) (λ _, True).
Proof.
  unfold close_own_stream. eapply (triple_gain _ (λ _, reached (λ r, owns_stream p sid r ∧ retired p r))).
  - apply (section_gains _ _ (λ _, retired p)); [apply kept_owns|]. intros r Hr Ho. split; [by apply rtc_once, mcp_unregister|].
    by apply unregistered_retired.
  - by intros _ s c [H1 [H2 _]].
  - intros _. apply finish_triple; [apply kept_and; [apply kept_owns|apply kept_retired]|by intros r [_ H]].
Qed.

Lemma replaced_retired sid r : reach r →
  owns_stream (register_stream sid r).1.1 sid (register_stream sid r).2 ∧
  retires (register_stream sid r).1.2 (register_stream sid r).2.
Proof.
  intros Hr. pose proof (st_owner _ (reach_streams r Hr)) as Ho. split; [apply lookup_insert_eq|].
  intros q Hq. simpl in Hq. pose proof (Ho _ _ Hq) as Hoq.
  pose proof (fresh_stream r sid q Hr (ex_intro _ _ Hoq)) as Hne.
  split; [simpl; rewrite lookup_insert_ne by done; by eexists|]. intros sid'. simpl. rewrite lookup_insert.
  case_decide as Hs; [intros [= H]; by apply Hne|]. intros H. apply Ho in H. congruence.
Qed.

Lemma open_stream_gains sid : gains any (open_stream E sid) (λ p, reached (owns_stream p sid)).
Proof.
  unfold open_stream. eapply (gains_bind _ (λ a : nat * option nat, reached (λ r, True ∧ owns_stream a.1 sid r ∧ retires a.2 r))).
  - apply section_gains; [done|]. intros r Hr _. pose proof (replaced_retired sid r Hr) as H.
    destruct (register_stream sid r) as [[p previous] r'] eqn:Er. split; [|exact H]. apply rtc_once.
    change r' with ((p, previous, r') : nat * option nat * McpRun).2. rewrite <- Er. apply mcp_register.
  - by intros a s c [H _].
  - intros [p previous]. simpl. intros w Hw. unfold mbind, M_bind.
    assert (holds (reached (λ r, owns_stream p sid r ∧ retires previous r)) w) as Hw' by (destruct Hw as [H1 [_ H2]]; by split).
    pose proof (finish_optional previous (owns_stream p sid) (kept_owns p sid)) as Hf.
    set (m := match previous with Some _ => _ | None => _ end) in *. destruct (Hf w Hw') as [[H1 [H2 H3]] _].
    destruct (m w) as [[a|e] w1]; [by split|]. split; [exact H1|]. by split.
Qed.

Lemma loop_steps fuel sid user p written :
  triple (reached (owns_stream p sid)) (sse_loop E fuel sid user p written) (λ _, True).
Proof.
  pose proof (reached_stable _ (kept_owns p sid)) as Hst. pose proof (kept_owns p sid) as Hk.
  assert (∀ f : McpRun → bool, triple (reached (owns_stream p sid)) (mcp_section E (λ r, (f r, r))) (λ _, True)) as Hr
    by (intros; by apply reading).
  assert (triple (reached (owns_stream p sid)) (mcp_section E (section (receive_event p))) (λ _, True)) as Hrec
    by (apply one_step; [done|]; intros r; apply mcp_receive).
  revert written. induction fuel as [|fuel IH]; intros written; simpl; triple_tac.
Qed.

Lemma get_steps c accept sid : triple any (handleMCPGet E c accept sid) (λ _, True).
Proof.
  unfold handleMCPGet. destruct (negb _); [by apply triple_ret|]. destruct (str_eqb sid ""); [by apply triple_ret|].
  apply triple_bind_any; [apply triple_time_free, any_stable|]. intros now.
  apply triple_bind_any; [apply one_step; [done|]; intros r; apply mcp_touch|]. intros valid.
  destruct (negb valid); [by apply triple_ret|].
  eapply triple_gain; [apply open_stream_gains|by intros p s c0 [H _]|]. intros p.
  pose proof (reached_stable _ (kept_owns p sid)) as Hst.
  apply triple_finally; [|apply close_own_steps].
  apply triple_bind_any; [by apply triple_write_client|]. intros ok. destruct (negb ok); [by apply triple_ret|].
  apply triple_bind_any; [by apply triple_polls|]. intros turns.
  apply triple_bind_any; [apply loop_steps|]. intros. by apply triple_ret.
Qed.

Lemma published_event sid payload : triple any (publishMCPSSEEvent E sid payload) (λ _, True).
Proof.
  unfold publishMCPSSEEvent. destruct (maxSSEEvent <? len payload); [by apply triple_ret|].
  eapply (triple_gain _ (λ stream, reached (λ r, True ∧ match stream with Some p => owns_stream p sid r | None => True end))).
  - apply section_gains; [done|]. intros r Hr _. split; [apply rtc_refl|]. simpl.
    destruct (mcpSSEStreams (run_st r) !! sid) as [p|] eqn:Ep; [|done]. by apply (st_owner _ (reach_streams r Hr)).
  - by intros a s c [H _].
  - intros [p|]; [|by apply triple_ret]. intros w [Hr [_ Ho]].
    pose proof (reached_stable _ (kept_owns p sid)) as Hst.
    assert (triple (reached (owns_stream p sid)) (
      n ← select_case E;
      outcome ← mcp_section E (section (send_event (Nat.even n) p payload));
      match outcome with Sent => mret true | StreamDone => mret false | StreamFull => close_own_stream E sid p;; mret false end)
      (λ _, True)) as Hm.
    { apply triple_bind_any; [by apply triple_select_case|]. intros n.
      apply triple_bind_any; [apply one_step; [apply kept_owns|]; intros r; apply mcp_send|]. intros []; try by apply triple_ret.
      apply triple_bind_any; [apply close_own_steps|]. intros. by apply triple_ret. }
    destruct (Hm w (conj Hr Ho)) as [[H1 H2] H3]. split; [|exact H3]. split; [exact H1|]. by split.
Qed.

#[local] Instance sessions_kept : SessionsKept E any.
Proof.
  split; [apply initialized_session| |apply deleted_session|apply get_steps].
  intros. apply one_step; [done|]. intros r. apply mcp_touch.
Qed.

Lemma served_sessions Q strict token x : triple any (serve E Q strict token x) (λ _, True).
Proof.
  pose proof any_stable as Hst. unfold serve. destruct (open_route _); [by apply open_handler_triple; try apply _|].
  apply triple_bind_any; [apply middleware_triple; [done|apply _..]|]. intros [f|ad]; [by apply triple_ret|].
  by eapply (serve_admitted_triple E any Hst); [|reflexivity].
Qed.

End sessions.

(** Alice opens a session. *)
Definition ex_initialize : incoming := {|
  in_request := in_request (ex_incoming "alicekey" "POST" "/mcp" None); in_operation := ""; in_ip := "::1";
  in_client := {| cb_failed := false; cb_len := 60;
                  cb_rpc := Some {| rpc_id := None; rpc_method := "initialize"; rpc_params := None |} |};
  in_save := None; in_version := None; in_root := None; in_deletion := None |}.

