(* ===== verification/Compression.v ===== *)
(** * Response compression (main.go: negotiateEncoding, compressResponse)

    The choice of a content encoding from the header [Accept-Encoding], and the compression of a
    response.  The source ranges over the map [encodingPriority], in an order that Go leaves
    open: [order] is that order.  The three compressors are parameters. *)
From Stdlib Require Import Ascii String SpecFloat.
From S2P Require Import Prelude GoStrings Floats Paths.
Open Scope Z_scope.

Definition compressMinBytes : Z := 1024.
Definition brotliLevel : Z := 4.
Definition encodingPriority : list (string * Z) := [("br", 4); ("gzip", 3); ("deflate", 2); ("identity", 1)].

Fixpoint priority_of (encoding : string) (table : list (string * Z)) : option Z :=
  match table with
  | [] => None
  | (e, p) :: rest => if str_eqb e encoding then Some p else priority_of encoding rest
  end.

#[global] Arguments priority_of : simpl never.

Record candidate := { c_encoding : string; c_quality : spec_float; c_priority : Z }.

Definition one : spec_float := SFone prec64 emax64.
Definition zero : spec_float := S754_zero false.

Section negotiate.
Context (unicode_lower : string → string).

(** Encoding and quality of one element of the header. *)
Definition parse_part (part : string) : string * spec_float :=
  let '(before, after, found) := Cut ";" part in
  let encoding := if found then TrimSpace before else part in
  let quality :=
    if found then
      match strip_prefix "q=" (TrimSpace after) with
      | Some q => default one (ParseFloat q)
      | None => one
      end
    else one in
  (ToLower unicode_lower encoding, quality).

(** The variables of the loop over the header. *)
Record scan := { explicit : gset string; wildcardQuality : spec_float; candidates : list candidate }.
Definition scan0 : scan := {| explicit := ∅; wildcardQuality := SFopp one; candidates := [] |}.

Definition scan_part (st : scan) (raw : string) : scan :=
  let part := TrimSpace raw in
  if str_eqb part "" then st else
  let '(encoding, quality) := parse_part part in
  if str_eqb encoding "*" then
    {| explicit := explicit st; wildcardQuality := quality; candidates := candidates st |}
  else
    let named := {[encoding]} ∪ explicit st in
    {| explicit := named; wildcardQuality := wildcardQuality st;
       candidates :=
         if SFeqb quality zero then candidates st
         else match priority_of encoding encodingPriority with
              | Some prio => candidates st ++ [{| c_encoding := encoding; c_quality := quality; c_priority := prio |}]
              | None => candidates st
              end |}.

Definition scan_header (acceptEncoding : string) : scan := foldl scan_part scan0 (Split "," acceptEncoding).

(** What the wildcard adds, in the order of the range over the map. *)
Definition wildcard_candidates (order : list (string * Z)) (st : scan) : list candidate :=
  if SFltb zero (wildcardQuality st) then
    (λ ep, {| c_encoding := ep.1; c_quality := wildcardQuality st; c_priority := ep.2 |}) <$>
      filter (λ ep, ep.1 ∉ explicit st) order
  else [].

Definition better (c best : candidate) : bool :=
  SFltb (c_quality best) (c_quality c) ||
  (SFeqb (c_quality c) (c_quality best) && (c_priority best <? c_priority c)).

Definition pick (best c : candidate) : candidate := if better c best then c else best.

Definition choose (cs : list candidate) : string :=
  match cs with
  | [] => "identity"
  | first :: rest => c_encoding (foldl pick first rest)
  end.

Definition negotiateEncoding (order : list (string * Z)) (acceptEncoding : string) : string :=
  if str_eqb acceptEncoding "" then "identity" else
  let st := scan_header acceptEncoding in
  choose (candidates st ++ wildcard_candidates order st).
End negotiate.

Section compress.
(** The writers: the compressed data, or an error. *)
Context (brotli : Z → string → option string) (gzip flate : string → option string).

Definition compressResponse (data encoding : string) : string * string :=
  if (len data <? compressMinBytes) || str_eqb encoding "identity" then (data, "identity") else
  let compressed :=
    if str_eqb encoding "br" then brotli brotliLevel data
    else if str_eqb encoding "gzip" then gzip data
    else if str_eqb encoding "deflate" then flate data
    else None in
  match compressed with
  | Some buf => (buf, encoding)
  | None => (data, "identity")
  end.
End compress.

(** ** Comparison of doubles *)

(** Numbers in their order: sign, exponent, mantissa. *)
Definition float_key (f : spec_float) : Z * Z * Z :=
  match f with
  | S754_infinity true => (-2, 0, 0)
  | S754_finite true m e => (-1, - e, - Zpos m)
  | S754_zero _ => (0, 0, 0)
  | S754_finite false m e => (1, e, Zpos m)
  | S754_infinity false => (2, 0, 0)
  | S754_nan => (0, 0, 0)
  end.
Definition is_nan (f : spec_float) : bool := match f with S754_nan => true | _ => false end.

Definition key_lt (a b : Z * Z * Z) : Prop :=
  a.1.1 < b.1.1 ∨ a.1.1 = b.1.1 ∧ (a.1.2 < b.1.2 ∨ a.1.2 = b.1.2 ∧ a.2 < b.2).

Lemma SFltb_key f g : is_nan f = false → is_nan g = false → SFltb f g = true ↔ key_lt (float_key f) (float_key g).
Proof.
  unfold SFltb, key_lt. intros Hf Hg.
  destruct f as [|[]| |[] m e]; destruct g as [|[]| |[] n k]; simpl in *; try discriminate; split; intros H;
    try discriminate; try lia; change (Pos.compare_cont Eq ?a ?b) with (a ?= b)%positive in *;
    destruct (Z.compare_spec e k); try discriminate; try lia; try reflexivity;
    destruct (Pos.compare_spec m n); simpl in *; try discriminate; try lia; reflexivity.
Qed.

Lemma SFeqb_key f g : is_nan f = false → is_nan g = false → SFeqb f g = true ↔ float_key f = float_key g.
Proof.
  unfold SFeqb. intros Hf Hg.
  destruct f as [|[]| |[] m e]; destruct g as [|[]| |[] n k]; simpl in *; try discriminate; split; intros H;
    try discriminate; try reflexivity; change (Pos.compare_cont Eq ?a ?b) with (a ?= b)%positive in *;
    destruct (Z.compare_spec e k); try discriminate; try (injection H; lia); subst;
    destruct (Pos.compare_spec m n); simpl in *; try discriminate; subst; try reflexivity; injection H; lia.
Qed.

Lemma SFltb_nan f g : is_nan f = true ∨ is_nan g = true → SFltb f g = false ∧ SFeqb f g = false.
Proof. intros [H|H]; [destruct f|destruct g; destruct f as [|[]| |[]]]; try discriminate; by split. Qed.

(** [c] does not beat [best]: the order that the loop maximises. *)
Definition weaker (c best : candidate) : Prop := better c best = false.
Definition numeric (c : candidate) : Prop := is_nan (c_quality c) = false.
Definition merit_lt (c d : candidate) : Prop :=
  key_lt (float_key (c_quality c)) (float_key (c_quality d)) ∨
  float_key (c_quality c) = float_key (c_quality d) ∧ c_priority c < c_priority d.

Lemma better_merit c best : numeric c → numeric best → better c best = true ↔ merit_lt best c.
Proof.
  intros Hc Hb. unfold better, merit_lt. rewrite orb_true_iff, andb_true_iff, SFltb_key, SFeqb_key, Z.ltb_lt by done.
  split; intros [H|[H1 H2]]; auto.
Qed.
Lemma weaker_merit c best : numeric c → numeric best → weaker c best ↔ ¬ merit_lt best c.
Proof. intros Hc Hb. unfold weaker. rewrite <- better_merit by done. by destruct (better c best). Qed.

Lemma merit_trichotomy c d : merit_lt c d ∨ merit_lt d c ∨
  (float_key (c_quality c) = float_key (c_quality d) ∧ c_priority c = c_priority d).
Proof.
  unfold merit_lt, key_lt. destruct (float_key (c_quality c)) as [[a1 a2] a3], (float_key (c_quality d)) as [[b1 b2] b3].
  simpl. destruct (decide (a1 = b1)), (decide (a2 = b2)), (decide (a3 = b3)); subst; try lia.
  destruct (Z.lt_trichotomy (c_priority c) (c_priority d)) as [|[|]]; auto 6.
Qed.
Lemma merit_trans c d e : merit_lt c d → merit_lt d e → merit_lt c e.
Proof.
  unfold merit_lt, key_lt. destruct (float_key (c_quality c)) as [[a1 a2] a3], (float_key (c_quality d)) as [[b1 b2] b3],
    (float_key (c_quality e)) as [[k1 k2] k3]. simpl.
  intros [H1|[E1 H1]] [H2|[E2 H2]]; [left; lia|injection E2; left; lia|injection E1; left; lia|].
  right. split; [congruence|lia].
Qed.
Lemma merit_irrefl c : ¬ merit_lt c c.
Proof. unfold merit_lt, key_lt. lia. Qed.

(** The loop keeps the best candidate it has seen. *)
Lemma foldl_pick_best rest best :
  Forall numeric rest → numeric best →
  let r := foldl pick best rest in
  (r = best ∨ r ∈ rest) ∧ numeric r ∧ ¬ merit_lt r best ∧ Forall (λ c, ¬ merit_lt r c) rest.
Proof.
  intros Hr. revert best. induction Hr as [|c rest Hc Hr IH]; intros best Hb; simpl.
  { repeat split; auto using merit_irrefl. }
  assert (Hp : numeric (pick best c) ∧ ¬ merit_lt (pick best c) best ∧ ¬ merit_lt (pick best c) c ∧
               (pick best c = best ∨ pick best c = c)).
  { unfold pick. destruct (better c best) eqn:E.
    - apply better_merit in E; [|done..]. repeat split; auto using merit_irrefl.
      intros H. by apply (merit_irrefl c), (merit_trans c best c).
    - repeat split; auto using merit_irrefl. by apply weaker_merit. }
  destruct Hp as (Hn & Hpb & Hpc & Hor). destruct (IH _ Hn) as (Hin & Hr' & Hrp & Hall).
  assert (Hstep : ∀ x, ¬ merit_lt (pick best c) x → ¬ merit_lt (foldl pick (pick best c) rest) x).
  { intros x Hx H. destruct (merit_trichotomy (pick best c) x) as [|[Hlt|[Hk Hz]]]; [done|..].
    - by apply Hrp, (merit_trans _ x).
    - apply Hrp. unfold merit_lt in *. by rewrite Hk, Hz. }
  split; [|split; [done|split; [by apply Hstep|constructor; auto]]].
  destruct Hin as [->|Hin]; [destruct Hor as [Ho | Ho]; rewrite Ho|]; rewrite ?elem_of_cons; auto.
Qed.

(** ** What a header offers *)

Section offers.
Context (unicode_lower : string → string).

(** The elements of the header, and the quality of the last wildcard. *)
Definition elements_of (h : string) : list (string * spec_float) :=
  parse_part unicode_lower <$> filter (λ part, part ≠ "") (TrimSpace <$> Split "," h).
Definition wildcard_of (els : list (string * spec_float)) : spec_float :=
  foldl (λ w ep, if str_eqb ep.1 "*" then ep.2 else w) (SFopp one) els.

(** The header accepts [enc] with quality [q]: by name, or by a wildcard when it is not named. *)
Definition offered (h enc : string) (q : spec_float) : Prop :=
  is_Some (priority_of enc encodingPriority) ∧
  ((enc, q) ∈ elements_of h ∧ SFeqb q zero = false ∨
   wildcard_of (elements_of h) = q ∧ SFltb zero q = true ∧ ∀ q', (enc, q') ∉ elements_of h).

Definition candidate_of (ep : string * spec_float) : option candidate :=
  if str_eqb ep.1 "*" || SFeqb ep.2 zero then None
  else (λ prio, {| c_encoding := ep.1; c_quality := ep.2; c_priority := prio |}) <$> priority_of ep.1 encodingPriority.

Definition scan_element (st : scan) (ep : string * spec_float) : scan :=
  if str_eqb ep.1 "*" then {| explicit := explicit st; wildcardQuality := ep.2; candidates := candidates st |}
  else {| explicit := {[ep.1]} ∪ explicit st; wildcardQuality := wildcardQuality st;
          candidates := candidates st ++ option_list (candidate_of ep) |}.

Lemma scan_part_element st raw :
  scan_part unicode_lower st raw =
  if str_eqb (TrimSpace raw) "" then st else scan_element st (parse_part unicode_lower (TrimSpace raw)).
Proof.
  unfold scan_part, scan_element, candidate_of. destruct (str_eqb (TrimSpace raw) ""); [done|].
  destruct (parse_part unicode_lower (TrimSpace raw)) as [enc q]. simpl.
  destruct (str_eqb enc "*"); [done|]. simpl. f_equal.
  destruct (SFeqb q zero); cbn [option_list]; [by rewrite app_nil_r|].
  destruct (priority_of enc encodingPriority); cbn [option_list fmap option_fmap option_map]; [done|by rewrite app_nil_r].
Qed.

Lemma scan_parts_elements raws st :
  foldl (scan_part unicode_lower) st raws =
  foldl scan_element st (parse_part unicode_lower <$> filter (λ part, part ≠ "") (TrimSpace <$> raws)).
Proof.
  revert st. induction raws as [|raw raws IH]; intros st; [done|]. cbn [foldl fmap list_fmap].
  rewrite scan_part_element, IH, filter_cons. destruct (str_eqb (TrimSpace raw) "") eqn:E.
  - apply str_eqb_true in E. by rewrite decide_False by (intros H; by apply H).
  - apply str_eqb_false in E. by rewrite decide_True by done.
Qed.

(** The variables after the loop, read off the elements. *)
Lemma foldl_scan_element els st :
  let r := foldl scan_element st els in
  (∀ enc, enc ∈ explicit r ↔ enc ∈ explicit st ∨ enc ≠ "*" ∧ enc ∈ els.*1) ∧
  wildcardQuality r = foldl (λ w ep, if str_eqb ep.1 "*" then ep.2 else w) (wildcardQuality st) els ∧
  candidates r = candidates st ++ omap candidate_of els.
Proof.
  revert st. induction els as [|ep els IH]; intros st; simpl.
  { split; [|split; [done|by rewrite app_nil_r]]. intros enc. rewrite elem_of_nil. tauto. }
  destruct (IH (scan_element st ep)) as (He & Hw & Hc). rewrite Hw, Hc. unfold scan_element in *.
  destruct (str_eqb ep.1 "*") eqn:E; cbn [explicit wildcardQuality candidates] in *.
  - split; [|split; [done|]].
    + intros enc. rewrite He, elem_of_cons. apply str_eqb_true in E. naive_solver.
    + assert (candidate_of ep = None) as -> by (unfold candidate_of; by rewrite E). done.
  - split; [|split; [done|]].
    + intros enc. rewrite He, elem_of_union, elem_of_singleton, elem_of_cons. apply str_eqb_false in E. naive_solver.
    + destruct (candidate_of ep); simpl; by rewrite <- ?app_assoc, ?app_nil_r.
Qed.

Lemma scan_header_spec h :
  let st := scan_header unicode_lower h in
  (∀ enc, enc ∈ explicit st ↔ enc ≠ "*" ∧ enc ∈ (elements_of h).*1) ∧
  wildcardQuality st = wildcard_of (elements_of h) ∧ candidates st = omap candidate_of (elements_of h).
Proof.
  unfold scan_header, elements_of. rewrite scan_parts_elements.
  destruct (foldl_scan_element (parse_part unicode_lower <$> filter (λ part, part ≠ "") (TrimSpace <$> Split "," h)) scan0)
    as (He & Hw & Hc). split; [|by split]. intros enc. rewrite He. set_solver.
Qed.

Lemma priority_of_elem enc p : priority_of enc encodingPriority = Some p ↔ (enc, p) ∈ encodingPriority.
Proof.
  unfold priority_of, encodingPriority. rewrite !elem_of_cons, elem_of_nil. unfold str_eqb. repeat case_bool_decide; naive_solver.
Qed.

(** The candidates are what the header offers. *)
Lemma candidates_offered order h c :
  order ≡ₚ encodingPriority →
  c ∈ candidates (scan_header unicode_lower h) ++ wildcard_candidates order (scan_header unicode_lower h) ↔
  offered h (c_encoding c) (c_quality c) ∧ priority_of (c_encoding c) encodingPriority = Some (c_priority c).
Proof.
  intros Ho. destruct (scan_header_spec h) as (He & Hw & Hc). rewrite elem_of_app, Hc. unfold wildcard_candidates. rewrite Hw.
  set (els := elements_of h) in *. unfold offered. fold els.
  assert (Hstar : priority_of "*" encodingPriority = None) by done.
  assert (Hin : ∀ enc, priority_of enc encodingPriority ≠ None →
    enc ∉ explicit (scan_header unicode_lower h) ↔ ∀ q, (enc, q) ∉ els).
  { intros enc Hp. rewrite He. rewrite list_elem_of_fmap. split; [intros H q Hq; apply H; split; [naive_solver|by exists (enc, q)]|].
    intros H [_ ([e q] & -> & Hq)]. by apply (H q). }
  split.
  - intros [H|H].
    + apply list_elem_of_omap in H as ([enc q] & Hel & Hcand). unfold candidate_of in Hcand. simpl in Hcand.
      destruct (str_eqb enc "*"), (SFeqb q zero) eqn:Ez; try discriminate.
      destruct (priority_of enc encodingPriority) eqn:Ep; [|discriminate]. injection Hcand as <-. simpl. rewrite Ep. eauto 6.
    + destruct (SFltb zero (wildcard_of els)) eqn:El; [|set_solver].
      apply list_elem_of_fmap in H as ([enc p] & -> & H). apply list_elem_of_filter in H as [Hn Hp]. simpl in *.
      rewrite Ho in Hp. apply priority_of_elem in Hp. rewrite Hp. split; [|done]. split; [eauto|]. right.
      split; [done|split; [done|]]. apply Hin; [by rewrite Hp|done].
  - intros [[_ [[Hel Hz]|(Hq & Hlt & Hno)]] Hp].
    + left. apply list_elem_of_omap. exists (c_encoding c, c_quality c). split; [done|]. unfold candidate_of. simpl.
      rewrite Hz, Hp. assert (str_eqb (c_encoding c) "*" = false) as ->; [|by destruct c].
      apply str_eqb_false. intros E. by rewrite E, Hstar in Hp.
    + right. rewrite Hq, Hlt. apply list_elem_of_fmap. exists (c_encoding c, c_priority c). split; [by destruct c|].
      apply list_elem_of_filter. simpl. split; [apply Hin; [by rewrite Hp|done]|]. rewrite Ho. by apply priority_of_elem.
Qed.

(** Whether [enc] with quality [q] is as good as [enc'] with [q'], by quality and then by priority. *)
Definition at_least (enc : string) (q : spec_float) (enc' : string) (q' : spec_float) : bool :=
  SFltb q' q || SFeqb q q' &&
  (default 0 (priority_of enc' encodingPriority) <=? default 0 (priority_of enc encodingPriority)).

(** Whatever the order in which Go walks the map of encodings: the
    negotiated encoding is one that the header offers, by name with a quality that is not 0 or by
    a positive wildcard, and it is as good as everything else the header offers, by quality and
    then by the relay's own preference; it is identity when nothing is offered.  (Qualities that
    are not numbers are excluded: NaN compares with nothing.) *)
Theorem negotiation_best order h :
  order ≡ₚ encodingPriority → Forall (λ ep, is_nan ep.2 = false) (elements_of h) → h ≠ "" →
  let r := negotiateEncoding unicode_lower order h in
  (∃ q, offered h r q ∧ ∀ enc q', offered h enc q' → at_least r q enc q' = true) ∨
  (r = "identity" ∧ ∀ enc q, ¬ offered h enc q).
Proof.
  intros Ho Hn Hh. unfold negotiateEncoding. rewrite (proj2 (str_eqb_false _ _) Hh).
  pose proof (λ c, candidates_offered order h c Ho) as Hc.
  set (cs := candidates _ ++ wildcard_candidates _ _) in *.
  assert (Hoff : ∀ enc q, offered h enc q → ∃ p, priority_of enc encodingPriority = Some p ∧
    {| c_encoding := enc; c_quality := q; c_priority := p |} ∈ cs).
  { intros enc q H. pose proof H as [[p Hp] _]. exists p. split; [done|]. by apply Hc. }
  destruct cs as [|c cs]; simpl.
  { right. split; [done|]. intros enc q H. apply Hoff in H as (p & _ & H). by apply elem_of_nil in H. }
  left. assert (Hnum : Forall numeric (c :: cs)).
  { apply Forall_forall. intros x Hx. apply Hc in Hx as [[_ [[Hx _]|(_ & Hx & _)]] _].
    - rewrite Forall_forall in Hn. by apply (Hn (c_encoding x, c_quality x)).
    - unfold numeric. destruct (c_quality x) as [|[]| |[]]; done. }
  apply Forall_cons in Hnum as [Hnc Hncs].
  destruct (foldl_pick_best cs c Hncs Hnc) as (Hr & Hrn & Hrc & Hrcs). set (r := foldl pick c cs) in *.
  assert (r ∈ c :: cs) as Hin by (rewrite elem_of_cons; tauto).
  apply Hc in Hin as [Hroff Hrp]. exists (c_quality r). split; [done|].
  intros enc q' H. destruct (Hoff _ _ H) as (p & Hp & Hd). set (d := {| c_encoding := enc |}) in Hd.
  assert (Hnm : ¬ merit_lt r d).
  { apply elem_of_cons in Hd as [->|Hd]; [done|]. rewrite Forall_forall in Hrcs. by apply Hrcs. }
  assert (Hdn : numeric d) by (apply elem_of_cons in Hd as [->|Hd]; [done|]; rewrite Forall_forall in Hncs; auto).
  unfold at_least. rewrite Hp, Hrp. simpl. apply orb_true_iff. rewrite andb_true_iff, SFltb_key, SFeqb_key, Z.leb_le by done.
  destruct (merit_trichotomy r d) as [|[[Hlt|[Hk Hlt]]|[Hk Hlt]]]; [done|by left|..]; right; simpl in *; split; try done; lia.
Qed.
End offers.

Definition ex_accept : string := "deflate;q=0.9, gzip;q=0.9, br;q=0, *;q=0.2".

Lemma negotiation_best_witness :
  let r := negotiateEncoding id (reverse encodingPriority) ex_accept in
  r = "gzip" ∧
  ((∃ q, offered id ex_accept r q ∧ ∀ enc q', offered id ex_accept enc q' → at_least r q enc q' = true) ∨
   (r = "identity" ∧ ∀ enc q, ¬ offered id ex_accept enc q)).
Proof.
  split; [vm_compute; reflexivity|].
  apply (negotiation_best id); [apply reverse_Permutation| |discriminate].
  apply (bool_decide_unpack _). vm_compute. exact I.
Defined.

(** ** Compression *)

Section lossless.
Context (brotli : Z → string → option string) (gzip flate : string → option string).
Context (unbrotli gunzip inflate : string → option string).
Context (Hbr : ∀ level d b, brotli level d = Some b → unbrotli b = Some d).
Context (Hgz : ∀ d b, gzip d = Some b → gunzip b = Some d).
Context (Hfl : ∀ d b, flate d = Some b → inflate b = Some d).

(** What a client makes of a body with its Content-Encoding. *)
Definition decoded (r : string * string) : option string :=
  if str_eqb r.2 "identity" then Some r.1
  else if str_eqb r.2 "br" then unbrotli r.1
  else if str_eqb r.2 "gzip" then gunzip r.1
  else if str_eqb r.2 "deflate" then inflate r.1
  else None.

(** The body and its label always match, also when a compressor fails or the encoding is unknown. *)
Lemma compression_lossless data encoding :
  let r := compressResponse brotli gzip flate data encoding in
  decoded r = Some data ∧ (r.2 = "identity" ∨ r.2 = encoding ∧ compressMinBytes ≤ len data).
Proof.
  unfold compressResponse. destruct (len data <? compressMinBytes) eqn:El; [by split; [|left]|].
  apply Z.ltb_ge in El. simpl. destruct (str_eqb encoding "identity") eqn:Ei; [by split; [|left]|].
  destruct (str_eqb encoding "br") eqn:Eb; [|destruct (str_eqb encoding "gzip") eqn:Eg;
    [|destruct (str_eqb encoding "deflate") eqn:Ed; [|by split; [|left]]]];
    match goal with |- context [match ?m with Some _ => _ | None => _ end] => destruct m eqn:E end;
    try (by split; [|left]); (split; [|by right]); unfold decoded; simpl; rewrite Ei, Eb, ?Eg, ?Ed; eauto.
Qed.
End lossless.
