(* ===== verification/Schema.v ===== *)
(** * The catalog of PostgreSQL and the statements of the migrations

    The part of the catalog that the migrations of the relay read and change, and the DDL they
    use: every statement is a function on the catalog that fails where PostgreSQL refuses it.
    Tables and indexes share one name space.  A primary key's index and a sequence are part of
    their table.  What depends on the rows (a unique index over duplicates, the validation of a
    foreign key over orphans) is a failure of the statement that the environment may cause. *)
From Stdlib Require Import Ascii String.
From S2P Require Import Prelude Paths.

(** ** Relations *)

Record column := { c_type : string; c_not_null : bool; c_default : option string }.

(** [confdeltype] of a foreign key. *)
Inductive delete_action := NoAction | Restrict | Cascade | SetNull | SetDefault.
#[export] Instance delete_action_eq_dec : EqDecision delete_action.
Proof. solve_decision. Defined.

Record foreign_key := {
  fk_name : string; fk_columns : list string; fk_table : string; fk_references : list string;
  fk_delete : delete_action; fk_valid : bool
}.

(** Conditions of partial indexes and of CHECK. *)
Inductive condition :=
| CIn (col : string) (values : list string)
| CEq (col value : string)
| CNot (col : string)
| CNonNegative (col : string)
| CAnd (p q : condition).

Record table := {
  t_columns : gmap string column;
  t_primary : list string;
  t_unique : list (list string);
  t_checks : list condition;
  t_keys : list foreign_key
}.

Inductive index_key := Column (name : string) | Descending (name : string) | Constant (text : string).
Record index := {
  i_table : string; i_keys : list index_key; i_unique : bool; i_where : option condition; i_valid : bool
}.

Inductive relation_def := RTable (t : table) | RIndex (i : index).
Abbreviation catalog := (gmap string relation_def).

(** ** Columns that a definition mentions *)

Fixpoint condition_columns (p : condition) : list string :=
  match p with
  | CIn c _ | CEq c _ | CNot c | CNonNegative c => [c]
  | CAnd p q => condition_columns p ++ condition_columns q
  end.
Definition key_columns (k : index_key) : list string :=
  match k with Column c | Descending c => [c] | Constant _ => [] end.
Definition index_columns (i : index) : list string :=
  (i_keys i ≫= key_columns) ++ from_option condition_columns [] (i_where i).

Definition has_column (t : table) (c : string) : bool := bool_decide (is_Some (t_columns t !! c)).
Definition is_key_of (t : table) (cols : list string) : bool :=
  bool_decide (cols = t_primary t) || bool_decide (cols ∈ t_unique t).

Definition table_at (c : catalog) (name : string) : option table :=
  match c !! name with Some (RTable t) => Some t | _ => None end.

(** What a foreign key refers to is there and identifies a row. *)
Definition reference_ok (c : catalog) (k : foreign_key) : bool :=
  match table_at c (fk_table k) with
  | Some t => forallb (has_column t) (fk_references k) && is_key_of t (fk_references k)
  | None => false
  end.

(** ** ALTER TABLE *)

Inductive alteration :=
| AddColumn (name : string) (col : column)      (* ADD COLUMN IF NOT EXISTS *)
| DropNotNull (name : string)
| DropDefault (name : string)
| CascadeKey (col ref refcol name : string)     (* the DO block of migrateErrorDetailsTable *)
| ValidateKeys (ref : string).                  (* VALIDATE of all keys to [ref] that are NOT VALID *)

Definition set_columns (f : gmap string column → gmap string column) (t : table) : table :=
  {| t_columns := f (t_columns t); t_primary := t_primary t; t_unique := t_unique t;
     t_checks := t_checks t; t_keys := t_keys t |}.
Definition set_keys (ks : list foreign_key) (t : table) : table :=
  {| t_columns := t_columns t; t_primary := t_primary t; t_unique := t_unique t;
     t_checks := t_checks t; t_keys := ks |}.

(** The key that the query on pg_constraint finds. *)
Definition key_on (col ref : string) (k : foreign_key) : bool :=
  bool_decide (fk_table k = ref) && bool_decide (col ∈ fk_columns k).
Definition find_key (col ref : string) (t : table) : option foreign_key := List.find (key_on col ref) (t_keys t).

Definition cascading (col ref refcol name : string) : foreign_key :=
  {| fk_name := name; fk_columns := [col]; fk_table := ref; fk_references := [refcol];
     fk_delete := Cascade; fk_valid := false |}.

(** ADD CONSTRAINT: the name must be free and the reference good. *)
Definition add_key (c : catalog) (k : foreign_key) (t : table) : option table :=
  if negb (bool_decide (fk_name k ∈ fk_name <$> t_keys t)) && forallb (has_column t) (fk_columns k) && reference_ok c k
  then Some (set_keys (t_keys t ++ [k]) t) else None.

Definition drop_key (name : string) (t : table) : table :=
  set_keys (filter (λ k, fk_name k ≠ name) (t_keys t)) t.

Definition validate_key (ref : string) (k : foreign_key) : foreign_key :=
  if bool_decide (fk_table k = ref)
  then {| fk_name := fk_name k; fk_columns := fk_columns k; fk_table := fk_table k;
          fk_references := fk_references k; fk_delete := fk_delete k; fk_valid := true |}
  else k.

Definition alter (c : catalog) (a : alteration) (t : table) : option table :=
  match a with
  | AddColumn n col =>
      Some (match t_columns t !! n with Some _ => t | None => set_columns (insert n col) t end)
  | DropNotNull n =>
      match t_columns t !! n with
      | Some col =>
          if bool_decide (n ∈ t_primary t) then None
          else Some (set_columns (insert n {| c_type := c_type col; c_not_null := false; c_default := c_default col |}) t)
      | None => None
      end
  | DropDefault n =>
      match t_columns t !! n with
      | Some col =>
          Some (set_columns (insert n {| c_type := c_type col; c_not_null := c_not_null col; c_default := None |}) t)
      | None => None
      end
  | CascadeKey col ref refcol name =>
      if negb (bool_decide (is_Some (c !! ref))) then None else
      match find_key col ref t with
      | None => add_key c (cascading col ref refcol name) t
      | Some k =>
          if bool_decide (fk_delete k = Cascade) then Some t
          else add_key c (cascading col ref refcol name) (drop_key (fk_name k) t)
      end
  | ValidateKeys ref =>
      if negb (bool_decide (is_Some (c !! ref))) then None
      else Some (set_keys (validate_key ref <$> t_keys t) t)
  end.

(** ** Statements *)

Inductive statement :=
| CreateTable (name : string) (t : table)                     (* IF NOT EXISTS *)
| CreateIndex (name : string) (i : index)                     (* IF NOT EXISTS *)
| DropIndex (name : string)                                   (* IF EXISTS *)
| DropTable (name : string)                                   (* IF EXISTS *)
| AlterTable (if_exists : bool) (name : string) (a : alteration)
| CreateIndexWhere (guard name : string) (i : index)          (* a DO block: only if the relation is there *)
| EnsureIndex (name : string) (i : index).                    (* ensureErrorDetailsRequestIndex *)

Definition create_index (c : catalog) (name : string) (i : index) : option catalog :=
  match c !! name with
  | Some _ => Some c
  | None =>
      match table_at c (i_table i) with
      | Some t => if forallb (has_column t) (index_columns i) then Some (<[name := RIndex i]> c) else None
      | None => None
      end
  end.

Definition refers_to (name : string) (r : relation_def) : bool :=
  match r with RTable t => existsb (λ k, bool_decide (fk_table k = name)) (t_keys t) | RIndex _ => false end.
Definition belongs_to (name : string) (r : relation_def) : bool :=
  match r with RTable _ => false | RIndex i => bool_decide (i_table i = name) end.

Definition exec (s : statement) (c : catalog) : option catalog :=
  match s with
  | CreateTable name t =>
      match c !! name with
      | Some _ => Some c
      | None => if forallb (reference_ok c) (t_keys t) then Some (<[name := RTable t]> c) else None
      end
  | CreateIndex name i => create_index c name i
  | DropIndex name =>
      match c !! name with
      | None => Some c
      | Some (RIndex _) => Some (delete name c)
      | Some (RTable _) => None
      end
  | DropTable name =>
      match c !! name with
      | None => Some c
      | Some (RIndex _) => None
      | Some (RTable _) =>
          if bool_decide (map_Forall (λ n r, n = name ∨ refers_to name r = false) c)
          then Some (filter (λ nr, nr.1 ≠ name ∧ belongs_to name nr.2 = false) c) else None
      end
  | AlterTable if_exists name a =>
      match c !! name with
      | None => if if_exists then Some c else None
      | Some (RIndex _) => None
      | Some (RTable t) => (λ t', <[name := RTable t']> c) <$> alter c a t
      end
  | CreateIndexWhere guard name i =>
      match c !! guard with None => Some c | Some _ => create_index c name i end
  | EnsureIndex name i =>
      match c !! name with
      | Some (RIndex j) => if i_valid j then Some c else create_index (delete name c) name i
      | _ => create_index c name i
      end
  end.

(** One [db.Exec]: the statements of its text run in one implicit transaction. *)
Fixpoint exec_all (ss : list statement) (c : catalog) : option catalog :=
  match ss with
  | [] => Some c
  | s :: rest => match exec s c with Some c' => exec_all rest c' | None => None end
  end.
