(* ===== verification/Migrations.v ===== *)
(** * The migrations (main.go, access_control.go, client_version_policy.go, quota.go,
    modelconfig.go, index_jobs.go)

    The statements that the relay runs against PostgreSQL when it starts, one [call] per
    [db.Exec], in the order of [initDB]. *)
From Stdlib Require Import Ascii String.
From S2P Require Import Prelude Paths Schema.

(** ** Notation for definitions of columns *)

Declare Scope ddl_scope.
Delimit Scope ddl_scope with ddl.

Definition plain (ty : string) : column := {| c_type := ty; c_not_null := false; c_default := None |}.
Definition required (ty : string) : column := {| c_type := ty; c_not_null := true; c_default := None |}.
Definition defaulting (ty d : string) : column := {| c_type := ty; c_not_null := true; c_default := Some d |}.
Definition serial (sequence : string) : column := defaulting "INTEGER" ("nextval(" +:+ sequence +:+ ")").

Notation "n ∷ ty" := (n, plain ty) (at level 60) : ddl_scope.
Notation "n ∷ ty 'NOT' 'NULL'" := (n, required ty) (at level 60, ty at next level) : ddl_scope.
Notation "n ∷ ty 'NOT' 'NULL' 'DEFAULT' d" := (n, defaulting ty d) (at level 60, ty at next level, d at next level) : ddl_scope.
Open Scope ddl_scope.

Definition VARCHAR (n : string) : string := "VARCHAR(" +:+ n +:+ ")".
Definition UUID : string := "UUID".
Definition TEXT : string := "TEXT".
Definition INTEGER : string := "INTEGER".
Definition BIGINT : string := "BIGINT".
Definition BOOLEAN : string := "BOOLEAN".
Definition JSONB : string := "JSONB".
Definition TIMESTAMPTZ : string := "TIMESTAMP WITH TIME ZONE".
Definition NOW : string := "NOW()".
Definition FALSE : string := "FALSE".
Definition empty_text : string := "''".
Definition UNIQUE : bool := true.

Definition relation_of (cols : list (string * column)) (primary : list string) : table :=
  {| t_columns := list_to_map cols; t_primary := primary; t_unique := []; t_checks := []; t_keys := [] |}.
Definition with_checks (cs : list condition) (t : table) : table :=
  {| t_columns := t_columns t; t_primary := t_primary t; t_unique := t_unique t; t_checks := cs; t_keys := t_keys t |}.
Definition with_unique (us : list (list string)) (t : table) : table :=
  {| t_columns := t_columns t; t_primary := t_primary t; t_unique := us; t_checks := t_checks t; t_keys := t_keys t |}.
Definition with_keys (ks : list foreign_key) (t : table) : table :=
  {| t_columns := t_columns t; t_primary := t_primary t; t_unique := t_unique t; t_checks := t_checks t; t_keys := ks |}.

(** [col ... REFERENCES ref(refcol) ON DELETE CASCADE], under the name PostgreSQL gives it. *)
Definition references_cascade (name col ref refcol : string) : foreign_key :=
  {| fk_name := name; fk_columns := [col]; fk_table := ref; fk_references := [refcol];
     fk_delete := Cascade; fk_valid := true |}.

Definition index_on (tbl : string) (keys : list index_key) : index :=
  {| i_table := tbl; i_keys := keys; i_unique := false; i_where := None; i_valid := true |}.
Definition partial_on (tbl : string) (keys : list index_key) (p : condition) : index :=
  {| i_table := tbl; i_keys := keys; i_unique := false; i_where := Some p; i_valid := true |}.
Definition unique_on (tbl : string) (keys : list index_key) (p : condition) : index :=
  {| i_table := tbl; i_keys := keys; i_unique := UNIQUE; i_where := Some p; i_valid := true |}.

(** One [db.Exec]: the text of its error, and its statements. *)
Record call := { failure : string; statements : list statement }.

(** ** initDB (main.go) *)

Definition request_logs_table : table := relation_of
  ["id" ∷ UUID NOT NULL;
   "user_id" ∷ VARCHAR "255" NOT NULL;
   "status" ∷ VARCHAR "20" NOT NULL DEFAULT "'pending'";
   "status_code" ∷ INTEGER;
   "request_path" ∷ VARCHAR "512" NOT NULL;
   "request_method" ∷ VARCHAR "10" NOT NULL;
   "request_timestamp" ∷ TIMESTAMPTZ NOT NULL DEFAULT NOW;
   "response_duration_ms" ∷ BIGINT;
   "client_ip" ∷ VARCHAR "45" NOT NULL;
   "created_at" ∷ TIMESTAMPTZ NOT NULL DEFAULT NOW;
   "updated_at" ∷ TIMESTAMPTZ NOT NULL DEFAULT NOW] ["id"].

Definition migrate_request_logs : call := {|
  failure := "failed to migrate request_logs table: ";
  statements :=
    [CreateTable "request_logs" request_logs_table;
     DropIndex "idx_request_logs_user_id";
     CreateIndex "idx_request_logs_user_id_timestamp"
       (index_on "request_logs" [Column "user_id"; Descending "request_timestamp"]);
     CreateIndex "idx_request_logs_timestamp" (index_on "request_logs" [Column "request_timestamp"]);
     CreateIndex "idx_request_logs_status" (index_on "request_logs" [Column "status"])] |}.

Definition leaderboard_table : table := relation_of
  ["id" ∷ VARCHAR "32" NOT NULL;
   "date_str" ∷ VARCHAR "10" NOT NULL;
   "rank" ∷ INTEGER NOT NULL;
   "user_id" ∷ VARCHAR "255" NOT NULL;
   "request_count" ∷ BIGINT NOT NULL;
   "updated_at" ∷ TIMESTAMPTZ NOT NULL DEFAULT NOW] ["id"].

Definition migrate_leaderboard : call := {|
  failure := "failed to migrate leaderboard table: ";
  statements :=
    [CreateTable "leaderboard" leaderboard_table;
     CreateIndex "idx_leaderboard_date" (index_on "leaderboard" [Column "date_str"]);
     DropIndex "idx_request_logs_codebase_retrieval";
     DropIndex "idx_request_logs_codebase_retrieval_v2";
     DropIndex "idx_request_logs_codebase_retrieval_v3";
     DropIndex "idx_request_logs_codebase_retrieval_v4";
     DropIndex "idx_request_logs_successful_mcp_tools_v5";
     CreateIndex "idx_request_logs_leaderboard_tools_v6"
       (partial_on "request_logs" [Column "request_timestamp"; Column "user_id"]
         (CAnd (CIn "request_path" ["/mcp/tools/call/codebase-retrieval"; "/mcp/tools/call/codebase_enhance_prompt"])
               (CEq "status_code" "200")))] |}.

Definition error_details_table : table := with_keys
  [references_cascade "error_details_request_id_fkey" "request_id" "request_logs" "id"] (relation_of
  [("id", serial "error_details_id_seq");
   "request_id" ∷ UUID NOT NULL;
   "source" ∷ VARCHAR "20" NOT NULL DEFAULT "'proxy'";
   "error" ∷ TEXT NOT NULL;
   "created_at" ∷ TIMESTAMPTZ NOT NULL DEFAULT NOW] ["id"]).

Definition request_id_index : index := index_on "error_details" [Column "request_id"].

Definition migrateErrorDetailsTable : list call :=
  [{| failure := "failed to migrate error_details table: ";
      statements :=
        [CreateTable "error_details" error_details_table;
         AlterTable false "error_details" (CascadeKey "request_id" "request_logs" "id" "error_details_request_id_fkey")] |};
   {| failure := "failed to validate error_details foreign key: ";
      statements := [AlterTable false "error_details" (ValidateKeys "request_logs")] |};
   {| failure := "index error details: ";
      statements := [EnsureIndex "idx_error_details_request_id" request_id_index] |}].

Definition health_checks_table : table := relation_of
  [("id", serial "health_checks_id_seq");
   "status" ∷ VARCHAR "20" NOT NULL;
   "tcp_ping_ms" ∷ INTEGER;
   "codebase_retrieval_ms" ∷ INTEGER;
   "error_message" ∷ TEXT;
   "created_at" ∷ TIMESTAMPTZ NOT NULL DEFAULT NOW;
   "next_check_at" ∷ TIMESTAMPTZ] ["id"].

Definition migrate_health_and_columns : list call :=
  [{| failure := "failed to migrate health_checks table: ";
      statements := [CreateTable "health_checks" health_checks_table] |};
   {| failure := "failed to create health_checks index: ";
      statements := [CreateIndex "idx_health_checks_created_at" (index_on "health_checks" [Column "created_at"])] |};
   {| failure := "failed to migrate api_keys tier column: ";
      statements := [AlterTable true "api_keys" (AddColumn "tier" (defaulting TEXT "'free'"))] |};
   {| failure := "failed to migrate api_keys org columns: ";
      statements := [AlterTable true "api_keys" (AddColumn "org_id" (plain TEXT));
                     AlterTable true "api_keys" (AddColumn "org_role" (plain TEXT))] |};
   {| failure := "failed to migrate request_logs tenant_id column: ";
      statements := [AlterTable false "request_logs" (AddColumn "tenant_id" (plain (VARCHAR "255")))] |}].

(** ** Access control, version policy, model configuration *)

Definition banned_users_table : table := relation_of
  ["user_id" ∷ VARCHAR "255" NOT NULL;
   "reason" ∷ TEXT;
   "created_at" ∷ TIMESTAMPTZ NOT NULL DEFAULT NOW] ["user_id"].

Definition migrateAccessControlTables : list call :=
  [{| failure := "failed to remove retired device access-control tables: ";
      statements := [DropTable "device_alerts"; DropTable "devices"] |};
   {| failure := "failed to migrate access control tables: ";
      statements := [CreateTable "banned_users" banned_users_table] |}].

Definition relay_runtime_settings_table : table := relation_of
  ["key" ∷ TEXT NOT NULL; "value" ∷ TEXT NOT NULL; "updated_at" ∷ TIMESTAMPTZ NOT NULL DEFAULT NOW] ["key"].

Definition migrate_runtime_settings : call := {|
  failure := "failed to migrate client version policy: ";
  statements := [CreateTable "relay_runtime_settings" relay_runtime_settings_table] |}.

Definition user_model_configs_table : table := relation_of
  ["user_id" ∷ VARCHAR "255" NOT NULL; "config_enc" ∷ TEXT NOT NULL;
   "updated_at" ∷ TIMESTAMPTZ NOT NULL DEFAULT NOW] ["user_id"].

Definition migrateModelConfigTables : list call :=
  [{| failure := "failed to migrate user_model_configs table: ";
      statements := [CreateTable "user_model_configs" user_model_configs_table] |}].

(** ** migrateQuotaTables (quota.go) *)

Definition user_quotas_table : table := relation_of
  ["user_id" ∷ VARCHAR "255" NOT NULL;
   "daily_limit" ∷ INTEGER;
   "daily_index_bytes_limit" ∷ BIGINT;
   "updated_at" ∷ TIMESTAMPTZ NOT NULL DEFAULT NOW] ["user_id"].

Definition user_subscriptions_table : table :=
  with_unique [["source_order_id"]] (with_checks
    [CIn "tier" ["free"; "pro"]; CNonNegative "daily_request_limit"; CNonNegative "daily_index_bytes_limit";
     CNonNegative "subaccount_limit"] (relation_of
  ["user_id" ∷ VARCHAR "255" NOT NULL;
   "plan_id" ∷ TEXT NOT NULL;
   "plan_name" ∷ VARCHAR "120" NOT NULL;
   "tier" ∷ TEXT NOT NULL;
   "daily_request_limit" ∷ BIGINT NOT NULL;
   "daily_index_bytes_limit" ∷ BIGINT NOT NULL;
   "subaccount_limit" ∷ INTEGER NOT NULL;
   "starts_at" ∷ TIMESTAMPTZ NOT NULL;
   "expires_at" ∷ TIMESTAMPTZ NOT NULL;
   "source_order_id" ∷ TEXT NOT NULL;
   "updated_at" ∷ TIMESTAMPTZ NOT NULL DEFAULT NOW] ["user_id"])).

Definition org_quotas_table : table := relation_of
  ["org_id" ∷ TEXT NOT NULL;
   "daily_request_limit" ∷ BIGINT NOT NULL DEFAULT "0";
   "daily_index_bytes_limit" ∷ BIGINT NOT NULL DEFAULT "0";
   "updated_at" ∷ TIMESTAMPTZ NOT NULL DEFAULT NOW] ["org_id"].

Definition org_member_quotas_table : table := relation_of
  ["org_id" ∷ TEXT NOT NULL;
   "user_id" ∷ VARCHAR "255" NOT NULL;
   "daily_limit" ∷ INTEGER NOT NULL;
   "updated_at" ∷ TIMESTAMPTZ NOT NULL DEFAULT NOW] ["org_id"; "user_id"].

Definition migrateQuotaTables : list call :=
  [{| failure := "failed to migrate user_quotas table: ";
      statements := [CreateTable "user_quotas" user_quotas_table] |};
   {| failure := "failed to migrate user quota index byte column: ";
      statements := [AlterTable false "user_quotas" (DropNotNull "daily_limit");
                     AlterTable false "user_quotas" (AddColumn "daily_index_bytes_limit" (plain BIGINT))] |};
   {| failure := "failed to migrate user subscriptions table: ";
      statements := [CreateTable "user_subscriptions" user_subscriptions_table] |};
   {| failure := "failed to migrate organization authorization indexes: ";
      statements :=
        [CreateIndexWhere "member" "member_user_org_idx" (index_on "member" [Column "userId"; Column "organizationId"]);
         CreateIndexWhere "member" "member_org_created_idx"
           (index_on "member" [Column "organizationId"; Column "createdAt"; Column "id"])] |};
   {| failure := "failed to create org_quotas table: ";
      statements := [CreateTable "org_quotas" org_quotas_table] |};
   {| failure := "failed to relax org_quotas defaults: ";
      statements := [AlterTable false "org_quotas" (DropNotNull "daily_request_limit");
                     AlterTable false "org_quotas" (DropDefault "daily_request_limit");
                     AlterTable false "org_quotas" (DropNotNull "daily_index_bytes_limit");
                     AlterTable false "org_quotas" (DropDefault "daily_index_bytes_limit")] |};
   {| failure := "failed to migrate org_member_quotas table: ";
      statements := [CreateTable "org_member_quotas" org_member_quotas_table] |}].

(** ** migrateIndexingTables (index_jobs.go) *)

Definition index_workspaces_table : table := relation_of
  ["user_id" ∷ VARCHAR "255" NOT NULL;
   "workspace_id" ∷ VARCHAR "128" NOT NULL;
   "workspace_name" ∷ TEXT NOT NULL DEFAULT empty_text;
   "root_id" ∷ VARCHAR "128" NOT NULL DEFAULT empty_text;
   "branch" ∷ TEXT NOT NULL DEFAULT empty_text;
   "revision" ∷ TEXT NOT NULL DEFAULT empty_text;
   "cloud_revision" ∷ BIGINT NOT NULL DEFAULT "0";
   "indexed_at" ∷ TIMESTAMPTZ NOT NULL DEFAULT NOW] ["user_id"; "workspace_id"].

Definition index_jobs_table : table := relation_of
  ["id" ∷ UUID NOT NULL;
   "user_id" ∷ VARCHAR "255" NOT NULL;
   "workspace_id" ∷ VARCHAR "128" NOT NULL;
   "workspace_name" ∷ TEXT NOT NULL DEFAULT empty_text;
   "root_id" ∷ VARCHAR "128" NOT NULL DEFAULT empty_text;
   "branch" ∷ TEXT NOT NULL DEFAULT empty_text;
   "revision" ∷ TEXT NOT NULL DEFAULT empty_text;
   "mode" ∷ VARCHAR "20" NOT NULL;
   "phase" ∷ VARCHAR "32" NOT NULL DEFAULT "'created'";
   "status" ∷ VARCHAR "20" NOT NULL DEFAULT "'running'";
   "workspace_files" ∷ INTEGER NOT NULL DEFAULT "0";
   "total_files" ∷ INTEGER NOT NULL DEFAULT "0";
   "indexed_files" ∷ INTEGER NOT NULL DEFAULT "0";
   "failed_files" ∷ INTEGER NOT NULL DEFAULT "0";
   "total_chunks" ∷ BIGINT NOT NULL DEFAULT "0";
   "indexed_chunks" ∷ BIGINT NOT NULL DEFAULT "0";
   "chunk_count_fallback" ∷ BOOLEAN NOT NULL DEFAULT FALSE;
   "deleted_count" ∷ INTEGER NOT NULL DEFAULT "0";
   "deletions_sent" ∷ BOOLEAN NOT NULL DEFAULT FALSE;
   "error" ∷ TEXT NOT NULL DEFAULT empty_text;
   "error_code" ∷ VARCHAR "64" NOT NULL DEFAULT empty_text;
   "error_origin" ∷ VARCHAR "32" NOT NULL DEFAULT empty_text;
   "recovery" ∷ VARCHAR "64" NOT NULL DEFAULT empty_text;
   "cloud_revision" ∷ BIGINT NOT NULL DEFAULT "0";
   "started_at" ∷ TIMESTAMPTZ NOT NULL DEFAULT NOW;
   "heartbeat_at" ∷ TIMESTAMPTZ NOT NULL DEFAULT NOW;
   "completed_at" ∷ TIMESTAMPTZ] ["id"].

Definition index_job_files_table : table := with_keys
  [references_cascade "index_job_files_job_id_fkey" "job_id" "index_jobs" "id"] (relation_of
  ["job_id" ∷ UUID NOT NULL;
   "path" ∷ TEXT NOT NULL;
   "hash" ∷ VARCHAR "128" NOT NULL;
   "size" ∷ BIGINT NOT NULL DEFAULT "0";
   "estimated_chunks" ∷ INTEGER NOT NULL DEFAULT "1";
   "needs_index" ∷ BOOLEAN NOT NULL DEFAULT FALSE;
   "indexed" ∷ BOOLEAN NOT NULL DEFAULT FALSE] ["job_id"; "path"]).

Definition indexed_files_table : table := relation_of
  ["user_id" ∷ VARCHAR "255" NOT NULL;
   "workspace_id" ∷ VARCHAR "128" NOT NULL;
   "path" ∷ TEXT NOT NULL;
   "hash" ∷ VARCHAR "128" NOT NULL;
   "size" ∷ BIGINT NOT NULL DEFAULT "0";
   "estimated_chunks" ∷ INTEGER NOT NULL DEFAULT "1";
   "updated_at" ∷ TIMESTAMPTZ NOT NULL DEFAULT NOW] ["user_id"; "workspace_id"; "path"].

Definition index_operation_leases_table : table := with_checks [CIn "mode" ["shared"; "exclusive"]] (relation_of
  ["lease_token" ∷ UUID NOT NULL;
   "user_id" ∷ VARCHAR "255" NOT NULL;
   "resource" ∷ TEXT NOT NULL;
   "mode" ∷ VARCHAR "16" NOT NULL;
   "kind" ∷ VARCHAR "64" NOT NULL;
   "acquired_at" ∷ TIMESTAMPTZ NOT NULL DEFAULT NOW;
   "lease_expires_at" ∷ TIMESTAMPTZ NOT NULL] ["lease_token"]).

Definition root_deletion_jobs_table : table :=
  with_checks [CIn "status" ["queued"; "running"; "succeeded"; "failed"]] (relation_of
  ["id" ∷ UUID NOT NULL;
   "user_id" ∷ VARCHAR "255" NOT NULL;
   "actor_id" ∷ VARCHAR "255" NOT NULL;
   "root_id" ∷ VARCHAR "128" NOT NULL;
   "status" ∷ VARCHAR "16" NOT NULL;
   "attempt_id" ∷ UUID;
   "claim_until" ∷ TIMESTAMPTZ;
   "attempt_count" ∷ INTEGER NOT NULL DEFAULT "0";
   "recovery_required" ∷ BOOLEAN NOT NULL DEFAULT FALSE;
   "next_attempt_at" ∷ TIMESTAMPTZ NOT NULL DEFAULT NOW;
   "deleted_files" ∷ BIGINT NOT NULL DEFAULT "0";
   "error" ∷ TEXT NOT NULL DEFAULT empty_text;
   "created_at" ∷ TIMESTAMPTZ NOT NULL DEFAULT NOW;
   "updated_at" ∷ TIMESTAMPTZ NOT NULL DEFAULT NOW] ["id"]).

Definition platform_config_jobs_table : table :=
  with_checks [CIn "status" ["pending"; "running"; "succeeded"; "rejected"]] (relation_of
  ["id" ∷ UUID NOT NULL;
   "section" ∷ TEXT NOT NULL;
   "embedding_changed" ∷ BOOLEAN NOT NULL;
   "status" ∷ TEXT NOT NULL;
   "attempt_id" ∷ UUID;
   "claim_until" ∷ TIMESTAMPTZ;
   "attempt_count" ∷ INTEGER NOT NULL DEFAULT "0";
   "recovery_required" ∷ BOOLEAN NOT NULL DEFAULT FALSE;
   "next_attempt_at" ∷ TIMESTAMPTZ NOT NULL DEFAULT NOW;
   "error" ∷ TEXT NOT NULL DEFAULT empty_text;
   "result" ∷ JSONB;
   "created_at" ∷ TIMESTAMPTZ NOT NULL DEFAULT NOW;
   "updated_at" ∷ TIMESTAMPTZ NOT NULL DEFAULT NOW] ["id"]).

Definition active_statuses : condition := CIn "status" ["queued"; "running"].

(** The last statement, an UPDATE of rows, is [Startup.backfill_publishing]. *)
Definition migrateIndexingTables : call := {|
  failure := "failed to migrate indexing tables: ";
  statements :=
    [CreateTable "index_workspaces" index_workspaces_table;
     CreateTable "index_jobs" index_jobs_table;
     CreateIndex "idx_index_jobs_workspace"
       (index_on "index_jobs" [Column "user_id"; Column "workspace_id"; Descending "started_at"]);
     CreateIndex "idx_index_jobs_running"
       (partial_on "index_jobs" [Column "status"; Column "heartbeat_at"] (CEq "status" "running"));
     CreateTable "index_job_files" index_job_files_table;
     CreateIndex "idx_index_job_files_pending"
       (index_on "index_job_files" [Column "job_id"; Column "needs_index"; Column "indexed"]);
     CreateTable "indexed_files" indexed_files_table;
     CreateIndex "idx_indexed_files_workspace" (index_on "indexed_files" [Column "user_id"; Column "workspace_id"]);
     CreateTable "index_operation_leases" index_operation_leases_table;
     CreateIndex "idx_index_operation_leases_user"
       (index_on "index_operation_leases" [Column "user_id"; Column "lease_expires_at"]);
     CreateTable "root_deletion_jobs" root_deletion_jobs_table;
     AlterTable false "root_deletion_jobs" (AddColumn "attempt_count" (defaulting INTEGER "0"));
     AlterTable false "root_deletion_jobs" (AddColumn "recovery_required" (defaulting BOOLEAN FALSE));
     AlterTable false "root_deletion_jobs" (AddColumn "next_attempt_at" (defaulting TIMESTAMPTZ NOW));
     CreateIndex "idx_root_deletion_jobs_retry"
       (partial_on "root_deletion_jobs" [Column "next_attempt_at"; Column "created_at"]
          (CAnd active_statuses (CNot "recovery_required")));
     CreateIndex "idx_root_deletion_jobs_active_tenant"
       (unique_on "root_deletion_jobs" [Column "user_id"] active_statuses);
     CreateIndex "idx_root_deletion_jobs_tenant_recent"
       (index_on "root_deletion_jobs" [Column "user_id"; Column "root_id"; Descending "created_at"]);
     CreateIndex "idx_root_deletion_jobs_dispatch"
       (partial_on "root_deletion_jobs" [Column "claim_until"; Column "created_at"] active_statuses);
     CreateIndex "idx_root_deletion_jobs_history"
       (partial_on "root_deletion_jobs" [Column "updated_at"] (CIn "status" ["succeeded"; "failed"]));
     CreateTable "platform_config_jobs" platform_config_jobs_table;
     CreateIndex "idx_platform_config_jobs_active"
       (unique_on "platform_config_jobs" [Constant "TRUE"] (CIn "status" ["pending"; "running"]));
     AlterTable false "index_workspaces" (AddColumn "cloud_revision" (defaulting BIGINT "0"));
     AlterTable false "index_jobs" (AddColumn "cloud_revision" (defaulting BIGINT "0"));
     AlterTable false "index_jobs" (AddColumn "error_code" (defaulting (VARCHAR "64") empty_text));
     AlterTable false "index_jobs" (AddColumn "error_origin" (defaulting (VARCHAR "32") empty_text));
     AlterTable false "index_jobs" (AddColumn "recovery" (defaulting (VARCHAR "64") empty_text));
     AlterTable false "index_jobs" (AddColumn "publishing_since" (plain TIMESTAMPTZ))] |}.

(** ** All calls, in the order of [initDB] *)

Definition calls_before_policy : list call :=
  [migrate_request_logs; migrate_leaderboard] ++ migrateErrorDetailsTable ++ migrate_health_and_columns ++
  migrateAccessControlTables.
Definition calls_after_policy : list call := migrateQuotaTables ++ migrateModelConfigTables.

Definition initDB_calls : list call :=
  calls_before_policy ++ [migrate_runtime_settings] ++ calls_after_policy ++ [migrateIndexingTables].

(** An undisturbed run. *)
Definition migrate_all (c : catalog) : option catalog := exec_all (initDB_calls ≫= statements) c.

(** A new database ends with 18 tables and 18 indexes. *)
Example fresh_database : size <$> migrate_all ∅ = Some 36%nat.
Proof. vm_compute. reflexivity. Qed.
