(* ===== verification/MigrationProperties.v ===== *)
(** * What the migrations achieve

    Every statement of the migrations establishes a [fact] about the catalog, does nothing where
    its fact already holds, and later statements keep the facts of earlier ones.  So starts that
    are interrupted, repeated or run by several instances at once all lead to the catalog that
    one undisturbed start would leave. *)
From Stdlib Require Import Ascii String.
From S2P Require Import Prelude Paths Schema Migrations.

(** ** Tables after an alteration *)

(** What an alteration establishes. *)
Definition altered (a : alteration) (t : table) : bool :=
  match a with
  | AddColumn n _ => has_column t n
  | DropNotNull n =>
      match t_columns t !! n with
      | Some col => negb (c_not_null col) && negb (bool_decide (n ∈ t_primary t))
      | None => false
      end
  | DropDefault n => match t_columns t !! n with Some col => bool_decide (c_default col = None) | None => false end
  | CascadeKey col ref _ _ =>
      match find_key col ref t with Some k => bool_decide (fk_delete k = Cascade) | None => false end
  | ValidateKeys ref => forallb (λ k, negb (bool_decide (fk_table k = ref)) || fk_valid k) (t_keys t)
  end.

(** The relation that an alteration refers to besides its table. *)
Definition other_relation (a : alteration) : option string :=
  match a with CascadeKey _ ref _ _ | ValidateKeys ref => Some ref | _ => None end.

(** At most one foreign key from [col] to [ref]: what the query with LIMIT 1 takes for granted. *)
Definition single_key (col ref : string) (t : table) : bool :=
  bool_decide (length (filter (λ k, key_on col ref k = true) (t_keys t)) ≤ 1)%nat.

(** Alterations that would undo one another. *)
Definition undoes (a b : alteration) : bool :=
  match a, b with
  | CascadeKey _ _ _ _, ValidateKeys _ | CascadeKey _ _ _ _, CascadeKey _ _ _ _ => true
  | _, _ => false
  end.

(** ** Lemmas on keys *)

Lemma find_key_filter col ref t :
  find_key col ref t = head (filter (λ k, key_on col ref k = true) (t_keys t)).
Proof.
  unfold find_key. induction (t_keys t) as [|k ks IH]; [done|]. simpl. rewrite filter_cons.
  destruct (key_on col ref k) eqn:E; [by rewrite decide_True|by rewrite decide_False].
Qed.

Lemma find_key_app col ref t ks :
  find_key col ref (set_keys ks t) = List.find (key_on col ref) ks.
Proof. done. Qed.

Lemma find_app_none {A} (f : A → bool) l k : List.find f l = None → List.find f (l ++ [k]) = if f k then Some k else None.
Proof. induction l as [|x l IH]; simpl; [done|]. destruct (f x); [discriminate|apply IH]. Qed.

Lemma key_on_validate col ref r k : key_on col ref (validate_key r k) = key_on col ref k.
Proof. unfold validate_key. by destruct (bool_decide (fk_table k = r)). Qed.

Lemma find_validate col ref r t :
  find_key col ref (set_keys (validate_key r <$> t_keys t) t) = validate_key r <$> find_key col ref t.
Proof.
  unfold find_key. cbn [set_keys t_keys]. induction (t_keys t) as [|k ks IH]; [done|]. simpl.
  rewrite key_on_validate. by destruct (key_on col ref k).
Qed.

Lemma filter_validate_length col ref r ks :
  length (filter (λ k, key_on col ref k = true) (validate_key r <$> ks)) = length (filter (λ k, key_on col ref k = true) ks).
Proof.
  induction ks as [|k ks IH]; [done|]. rewrite fmap_cons, !filter_cons, key_on_validate.
  destruct (decide (key_on col ref k = true)); simpl; auto.
Qed.

(** After a key was dropped, at most one having been there, none is left. *)
Lemma drop_single col ref t k :
  single_key col ref t = true → find_key col ref t = Some k →
  find_key col ref (drop_key (fk_name k) t) = None.
Proof.
  unfold single_key. rewrite bool_decide_eq_true, find_key_filter. intros Hlen Hk.
  rewrite find_key_filter. unfold drop_key. cbn [set_keys t_keys].
  assert (Hin : k ∈ filter (λ k, key_on col ref k = true) (t_keys t)) by (destruct (filter _ _); simplify_eq/=; left).
  destruct (filter (λ k, key_on col ref k = true) (filter (λ k', fk_name k' ≠ fk_name k) (t_keys t))) as [|k' l] eqn:E; [done|].
  exfalso. assert (Hk' : k' ∈ filter (λ k, key_on col ref k = true) (filter (λ k', fk_name k' ≠ fk_name k) (t_keys t)))
    by (rewrite E; left).
  apply list_elem_of_filter in Hk' as [Hon Hk']. apply list_elem_of_filter in Hk' as [Hname Hk'].
  assert (Hin' : k' ∈ filter (λ k, key_on col ref k = true) (t_keys t)) by (by apply list_elem_of_filter).
  destruct (filter (λ k, key_on col ref k = true) (t_keys t)) as [|x [|]]; simpl in Hlen; [set_solver| |lia].
  apply list_elem_of_singleton in Hin, Hin'. congruence.
Qed.

(** ** Alterations establish and keep what they are for *)

Lemma add_key_inv c k t t' :
  add_key c k t = Some t' → t' = set_keys (t_keys t ++ [k]) t ∧ forallb (has_column t) (fk_columns k) = true ∧ reference_ok c k = true.
Proof.
  unfold add_key. destruct (_ && _) eqn:E; [|done]. intros [= <-]. apply andb_true_iff in E as [E ?].
  by apply andb_true_iff in E as [_ ?].
Qed.

Lemma key_on_cascading col ref refcol name : key_on col ref (cascading col ref refcol name) = true.
Proof. unfold key_on, cascading. simpl. rewrite !bool_decide_true; [done|left|done]. Qed.

Definition key_premise (a : alteration) (t : table) : Prop :=
  match a with CascadeKey col ref _ _ => single_key col ref t = true | _ => True end.

Lemma alter_establishes c a t t' : key_premise a t → alter c a t = Some t' → altered a t' = true.
Proof.
  destruct a as [n col|n|n|col ref refcol name|ref]; simpl; intros Hp H.
  - injection H as <-. unfold has_column. destruct (t_columns t !! n) eqn:E; apply bool_decide_eq_true; [by rewrite E|].
    simpl. rewrite lookup_insert_eq. eauto.
  - destruct (t_columns t !! n) as [col|]; [|done]. destruct (bool_decide (n ∈ t_primary t)) eqn:E; [done|].
    injection H as <-. simpl. rewrite lookup_insert_eq. simpl. by rewrite E.
  - destruct (t_columns t !! n) as [col|]; [|done]. injection H as <-. simpl. by rewrite lookup_insert_eq.
  - destruct (negb _); [done|]. destruct (find_key col ref t) as [k|] eqn:E.
    + destruct (bool_decide (fk_delete k = Cascade)) eqn:Ed; [injection H as <-; by rewrite E|].
      apply add_key_inv in H as [-> _]. rewrite find_key_app, find_app_none.
      * by rewrite key_on_cascading.
      * exact (drop_single _ _ _ _ Hp E).
    + apply add_key_inv in H as [-> _]. rewrite find_key_app, find_app_none by exact E. by rewrite key_on_cascading.
  - destruct (negb _); [done|]. injection H as <-. simpl. apply forallb_forall. intros k Hk.
    apply list_elem_of_In, list_elem_of_fmap in Hk as (k0 & -> & _). unfold validate_key.
    destruct (bool_decide (fk_table k0 = ref)) eqn:E; simpl; by rewrite E.
Qed.

(** An alteration that was made changes nothing; the relation it refers to must still be there. *)
Lemma altered_noop c a t :
  altered a t = true → from_option (λ r, is_Some (c !! r)) True (other_relation a) → alter c a t = Some t.
Proof.
  destruct a as [n col|n|n|col ref refcol name|ref]; simpl; intros H Ho.
  - unfold has_column in H. apply bool_decide_eq_true in H as [x Hx]. by rewrite Hx.
  - destruct (t_columns t !! n) as [col|] eqn:E; [|done]. apply andb_true_iff in H as [H1 H2].
    apply negb_true_iff in H1, H2. rewrite H2. f_equal. destruct t, col; simpl in *. subst. unfold set_columns; simpl.
    f_equal. by apply insert_id.
  - destruct (t_columns t !! n) as [col|] eqn:E; [|done]. apply bool_decide_eq_true in H.
    f_equal. destruct t, col; simpl in *. subst. unfold set_columns; simpl. f_equal. by apply insert_id.
  - rewrite bool_decide_true by done. simpl. destruct (find_key col ref t) as [k|]; [|done]. by rewrite H.
  - rewrite bool_decide_true by done. simpl. f_equal. destruct t as [cols pk us cs ks]; simpl in *. unfold set_keys; simpl. f_equal.
    rewrite forallb_forall in H. rewrite <- list_fmap_id. apply list_fmap_ext. intros i k Hk.
    apply list_elem_of_lookup_2, list_elem_of_In, H in Hk. unfold validate_key.
    destruct (bool_decide (fk_table k = ref)) eqn:E; [|done]. simpl in Hk. destruct k; simpl in *. by subst.
Qed.

(** An alteration keeps the columns, and what other alterations established. *)
Lemma alter_columns c a t t' n col :
  alter c a t = Some t' → t_columns t !! n = Some col →
  ∃ col', t_columns t' !! n = Some col' ∧ (c_not_null col = false → c_not_null col' = false) ∧
          (c_default col = None → c_default col' = None).
Proof.
  assert (Hk : ∀ k t1 t2, t_columns t1 = t_columns t → add_key c k t1 = Some t2 → t_columns t2 !! n = t_columns t !! n).
  { intros k t1 t2 Ht H. apply add_key_inv in H as [-> _]. simpl. by rewrite Ht. }
  intros H Hn. destruct a as [m x|m|m|c1 ref refcol name|ref]; simpl in H.
  - injection H as <-. destruct (t_columns t !! m) eqn:E; [eauto|]. simpl. rewrite lookup_insert_ne by congruence. eauto.
  - destruct (t_columns t !! m) as [y|] eqn:E; [|done]. destruct (bool_decide _); [done|]. injection H as <-. simpl.
    destruct (decide (m = n)) as [->|]; [rewrite lookup_insert_eq|rewrite lookup_insert_ne by done]; simplify_eq; eauto.
  - destruct (t_columns t !! m) as [y|] eqn:E; [|done]. injection H as <-. simpl.
    destruct (decide (m = n)) as [->|]; [rewrite lookup_insert_eq|rewrite lookup_insert_ne by done]; simplify_eq; eauto.
  - destruct (negb _); [done|]. destruct (find_key c1 ref t) as [k|]; [destruct (bool_decide _)|].
    + injection H as <-. eauto.
    + rewrite (λ Ht, Hk _ _ _ Ht H) by done. eauto.
    + rewrite (λ Ht, Hk _ _ _ Ht H) by done. eauto.
  - destruct (negb _); [done|]. injection H as <-. eauto.
Qed.

Lemma alter_primary c a t t' : alter c a t = Some t' → t_primary t' = t_primary t ∧ t_unique t' = t_unique t.
Proof.
  intros H. destruct a as [m x|m|m|c1 ref refcol name|ref]; simpl in H.
  - injection H as <-. by destruct (t_columns t !! m).
  - destruct (t_columns t !! m); [|done]. destruct (bool_decide _); [done|]. by injection H as <-.
  - destruct (t_columns t !! m); [|done]. by injection H as <-.
  - destruct (negb _); [done|]. destruct (find_key c1 ref t); [destruct (bool_decide _)|];
      [by injection H as <-|by apply add_key_inv in H as [-> _]..].
  - destruct (negb _); [done|]. by injection H as <-.
Qed.

(** The keys change only through the two alterations of keys. *)
Lemma alter_keys c a t t' : other_relation a = None → alter c a t = Some t' → t_keys t' = t_keys t.
Proof.
  intros Ho H. destruct a as [m x|m|m|c1 ref refcol name|ref]; simpl in H, Ho; try discriminate.
  - injection H as <-. by destruct (t_columns t !! m).
  - destruct (t_columns t !! m); [|done]. destruct (bool_decide _); [done|]. by injection H as <-.
  - destruct (t_columns t !! m); [|done]. by injection H as <-.
Qed.

Lemma alter_keeps c a b t t' : undoes a b = false → alter c a t = Some t' → altered b t = true → altered b t' = true.
Proof.
  intros Hu H Hb. pose proof (alter_primary _ _ _ _ H) as [Hp _].
  pose proof (λ Ho, alter_keys _ _ _ _ Ho H) as Hks.
  destruct b as [n col|n|n|col ref refcol name|ref]; simpl in Hu, Hb |- *.
  - unfold has_column in *. apply bool_decide_eq_true in Hb as [x Hx].
    destruct (alter_columns _ _ _ _ _ _ H Hx) as (y & -> & _). by rewrite bool_decide_true by eauto.
  - destruct (t_columns t !! n) as [x|] eqn:E; [|done]. apply andb_true_iff in Hb as [Hb1 Hb2].
    destruct (alter_columns _ _ _ _ _ _ H E) as (y & -> & Hn & _). rewrite Hp, Hb2. apply negb_true_iff in Hb1. by rewrite Hn.
  - destruct (t_columns t !! n) as [x|] eqn:E; [|done]. apply bool_decide_eq_true in Hb.
    destruct (alter_columns _ _ _ _ _ _ H E) as (y & -> & _ & Hd). by rewrite bool_decide_true by auto.
  - destruct a; try discriminate; try (unfold find_key; by rewrite Hks).
    simpl in H. destruct (negb _); [done|]. injection H as <-. rewrite find_validate.
    destruct (find_key col ref t) as [k|]; [|done]. simpl. unfold validate_key. by destruct (bool_decide (fk_table k = _)).
  - destruct a; try discriminate; try (by rewrite Hks).
    simpl in H. destruct (negb _); [done|]. injection H as <-. simpl. rewrite forallb_forall in *. intros k Hk.
    apply list_elem_of_In, list_elem_of_fmap in Hk as (k0 & -> & Hk0). apply list_elem_of_In, Hb in Hk0.
    unfold validate_key. destruct (bool_decide (fk_table k0 = ref0)) eqn:E; [|done]. simpl. by rewrite orb_true_r.
Qed.

(** ** What a statement does to the catalog *)

Definition makes_index (s : statement) : option (string * index) :=
  match s with
  | CreateIndex n i | CreateIndexWhere _ n i | EnsureIndex n i => Some (n, i)
  | _ => None
  end.

(** No relation of that name, or the remains of an interrupted build. *)
Definition missing (c : catalog) (n : string) : Prop :=
  c !! n = None ∨ ∃ j, c !! n = Some (RIndex j) ∧ i_valid j = false.

Inductive change : statement → catalog → catalog → Prop :=
| ch_same s c : change s c c
| ch_table n t c :
    c !! n = None → forallb (reference_ok c) (t_keys t) = true → change (CreateTable n t) c (<[n := RTable t]> c)
| ch_index s n i t c :
    makes_index s = Some (n, i) → missing c n → table_at c (i_table i) = Some t →
    forallb (has_column t) (index_columns i) = true → change s c (<[n := RIndex i]> c)
| ch_drop_index n i c : c !! n = Some (RIndex i) → change (DropIndex n) c (delete n c)
| ch_drop_table n t c :
    c !! n = Some (RTable t) → map_Forall (λ m r, m = n ∨ refers_to n r = false) c →
    change (DropTable n) c (filter (λ nr, nr.1 ≠ n ∧ belongs_to n nr.2 = false) c)
| ch_alter o n a t t' c :
    c !! n = Some (RTable t) → alter c a t = Some t' → change (AlterTable o n a) c (<[n := RTable t']> c).

Lemma create_index_change s n i c c' :
  makes_index s = Some (n, i) → create_index c n i = Some c' → change s c c'.
Proof.
  unfold create_index. intros Hs H. destruct (c !! n) eqn:E; [injection H as <-; constructor|].
  destruct (table_at c (i_table i)) eqn:Et; [|done]. destruct (forallb _ _) eqn:Ef; [|done].
  injection H as <-. eapply ch_index; try done. by left.
Qed.

Lemma exec_change s c c' : exec s c = Some c' → change s c c'.
Proof.
  intros H. destruct s as [n t|n i|n|n|o n a|g n i|n i]; simpl in H.
  - destruct (c !! n) eqn:E; [injection H as <-; constructor|]. destruct (forallb _ _) eqn:Ef; [|done].
    injection H as <-. by constructor.
  - by eapply create_index_change.
  - destruct (c !! n) as [[]|] eqn:E; [done|injection H as <-; by econstructor|injection H as <-; constructor].
  - destruct (c !! n) as [[]|] eqn:E; [|done|injection H as <-; constructor].
    destruct (bool_decide _) eqn:Ef; [|done]. apply bool_decide_eq_true in Ef. injection H as <-. by econstructor.
  - destruct (c !! n) as [[]|] eqn:E; [|done|destruct o; [injection H as <-; constructor|done]].
    destruct (alter c a t) eqn:Ea; [|done]. injection H as <-. by econstructor.
  - destruct (c !! g); [by eapply create_index_change|injection H as <-; constructor].
  - destruct (c !! n) as [[]|] eqn:E; try by eapply create_index_change.
    destruct (i_valid i0) eqn:Ev; [injection H as <-; constructor|].
    unfold create_index in H. rewrite lookup_delete_eq in H.
    destruct (table_at (delete n c) (i_table i)) eqn:Et; [|done]. destruct (forallb _ _) eqn:Ef; [|done].
    injection H as <-. rewrite insert_delete_eq. eapply ch_index; [done|by right; eauto| |done].
    unfold table_at in *. destruct (decide (i_table i = n)) as [Heq|]; [by rewrite Heq, lookup_delete_eq in Et|].
    by rewrite lookup_delete_ne in Et.
Qed.

(** ** Facts *)

Inductive fact :=
| FPresent (n : string)
| FGone (n : string)
| FValid (n : string)
| FAltered (if_exists : bool) (n : string) (a : alteration)
| FWhere (guard n : string).

Definition fact_of (s : statement) : fact :=
  match s with
  | CreateTable n _ | CreateIndex n _ => FPresent n
  | DropIndex n | DropTable n => FGone n
  | AlterTable o n a => FAltered o n a
  | CreateIndexWhere g n _ => FWhere g n
  | EnsureIndex n _ => FValid n
  end.

Definition present (c : catalog) (n : string) : bool := bool_decide (is_Some (c !! n)).

Definition holds (f : fact) (c : catalog) : bool :=
  match f with
  | FPresent n => present c n
  | FGone n => negb (present c n)
  | FValid n => match c !! n with None => false | Some (RTable _) => true | Some (RIndex i) => i_valid i end
  | FAltered o n a =>
      match c !! n with
      | None => o
      | Some (RTable t) => altered a t && from_option (present c) true (other_relation a)
      | Some (RIndex _) => false
      end
  | FWhere g n => negb (present c g) || present c n
  end.

Lemma present_true c n : present c n = true ↔ is_Some (c !! n).
Proof. apply bool_decide_eq_true. Qed.
Lemma present_false c n : present c n = false ↔ c !! n = None.
Proof. unfold present. rewrite bool_decide_eq_false. symmetry. apply eq_None_not_Some. Qed.

(** A statement whose fact holds does nothing. *)
Lemma holds_noop s c : holds (fact_of s) c = true → exec s c = Some c.
Proof.
  destruct s as [n t|n i|n|n|o n a|g n i|n i]; simpl; intros H.
  - by apply present_true in H as [? ->].
  - unfold create_index. by apply present_true in H as [? ->].
  - apply negb_true_iff, present_false in H as ->. done.
  - apply negb_true_iff, present_false in H as ->. done.
  - destruct (c !! n) as [[t|i]|] eqn:E; [|done|by rewrite H].
    apply andb_true_iff in H as [Ha Ho]. rewrite altered_noop.
    + simpl. f_equal. by apply insert_id.
    + done.
    + destruct (other_relation a); simpl in *; [by apply present_true|done].
  - apply orb_true_iff in H as [H|H]; [apply negb_true_iff, present_false in H as ->; done|].
    destruct (c !! g); [|done]. unfold create_index. by apply present_true in H as [? ->].
  - unfold create_index. destruct (c !! n) as [[]|]; [done|by rewrite H|done].
Qed.

(** ** Which statements keep which facts *)

(** Tables that the migrations remove. *)
Definition retired_tables : list string := ["device_alerts"; "devices"].

(** Names that the migrations give to relations. *)
Definition named_by (s : statement) : list string :=
  match s with CreateTable n _ | CreateIndex n _ | CreateIndexWhere _ n _ | EnsureIndex n _ => [n] | _ => [] end.
Definition managed : list string := (initDB_calls ≫= statements) ≫= named_by.

(** What is assumed of a database on which the migrations run: an index with one of their names
    does not belong to a table that they remove, and error_details has at most one foreign key from
    request_id to request_logs. *)
Definition good (c : catalog) : Prop :=
  (∀ n i, c !! n = Some (RIndex i) → n ∈ managed → i_table i ∉ retired_tables) ∧
  (∀ t, c !! "error_details" = Some (RTable t) → single_key "request_id" "request_logs" t = true).

Definition request_key (o : option (string * string)) : bool := bool_decide (o = Some ("request_id", "request_logs")).

(** A statement of the kind that keeps a database good. *)
Definition sane (s : statement) : bool :=
  match s with
  | CreateTable n t => negb (bool_decide (n = "error_details")) || single_key "request_id" "request_logs" t
  | CreateIndex _ i | CreateIndexWhere _ _ i | EnsureIndex _ i => negb (bool_decide (i_table i ∈ retired_tables)) && i_valid i
  | DropTable n => bool_decide (n ∈ retired_tables)
  | DropIndex _ => true
  | AlterTable _ n (CascadeKey col ref _ _) =>
      bool_decide (n = "error_details") && bool_decide (col = "request_id") && bool_decide (ref = "request_logs")
  | AlterTable _ _ _ => true
  end.

(** Whether the removal of [m] with its indexes could take [n] away. *)
Definition may_drop (s : statement) (n : string) : bool :=
  match s with
  | DropIndex m => bool_decide (m = n)
  | DropTable m => bool_decide (m = n) || negb (bool_decide (n ∈ managed))
  | _ => false
  end.

Definition conflict (s : statement) (f : fact) : bool :=
  match f with
  | FPresent n | FValid n => may_drop s n
  | FGone n => bool_decide (n ∈ named_by s)
  | FAltered o n a =>
      match s with
      | DropIndex m => bool_decide (Some m = other_relation a)
      | DropTable m => bool_decide (m = n) || from_option (may_drop s) false (other_relation a)
      | AlterTable _ m b => bool_decide (m = n) && undoes b a
      | _ => o && bool_decide (n ∈ named_by s)
      end
  | FWhere g n => may_drop s n || bool_decide (g ∈ named_by s)
  end.

Lemma single_key_ext col ref t t' : t_keys t = t_keys t' → single_key col ref t = single_key col ref t'.
Proof. unfold single_key. by intros ->. Qed.

Lemma single_key_alter c a t t' :
  match a with CascadeKey col ref _ _ => col = "request_id" ∧ ref = "request_logs" | _ => True end →
  alter c a t = Some t' → single_key "request_id" "request_logs" t = true → single_key "request_id" "request_logs" t' = true.
Proof.
  intros Ha H Hs. destruct (other_relation a) eqn:Eo.
  2:{ by rewrite (single_key_ext _ _ t' t (alter_keys _ _ _ _ Eo H)). }
  destruct a as [| | |col ref refcol name|ref]; try discriminate; simpl in H; destruct (negb _); try done.
  - destruct Ha as [-> ->].
    assert (Hone : ∀ t1, find_key "request_id" "request_logs" t1 = None → ∀ k, single_key "request_id" "request_logs" (set_keys (t_keys t1 ++ [k]) t1) = true).
    { intros t1 H1 k. unfold single_key. apply bool_decide_eq_true. simpl. rewrite filter_app, length_app.
      rewrite find_key_filter in H1. destruct (filter _ (t_keys t1)); [|done]. simpl.
      rewrite filter_cons. destruct (decide _); simpl; lia. }
    destruct (find_key "request_id" "request_logs" t) as [k|] eqn:E.
    + destruct (bool_decide _); [by injection H as <-|]. apply add_key_inv in H as [-> _]. apply Hone. exact (drop_single _ _ _ _ Hs E).
    + apply add_key_inv in H as [-> _]. by apply Hone.
  - injection H as <-. unfold single_key in *. simpl. by rewrite filter_validate_length.
Qed.

Lemma good_exec s c c' : sane s = true → exec s c = Some c' → good c → good c'.
Proof.
  intros Hs H [Hi Hk]. apply exec_change in H. destruct H as [s c|n t c Hn _|s n i t c Hm _ Ht _|n i c Hn|n t c Hn _|o n a t t' c Hn Ha].
  - done.
  - split.
    + intros m i Hm. destruct (decide (n = m)) as [->|]; [by rewrite lookup_insert_eq in Hm|].
      rewrite lookup_insert_ne in Hm by done. eauto.
    + intros t' Ht'. destruct (decide (n = "error_details")) as [->|]; [|rewrite lookup_insert_ne in Ht' by done; eauto].
      rewrite lookup_insert_eq in Ht'. simplify_eq. by apply orb_true_iff in Hs as [Hs|Hs].
  - assert (Hni : i_table i ∉ retired_tables).
    { destruct s; simplify_eq/=; apply andb_true_iff in Hs as [Hs _]; by apply negb_true_iff, bool_decide_eq_false in Hs. }
    split.
    + intros m j Hj. destruct (decide (n = m)) as [->|]; [rewrite lookup_insert_eq in Hj; by simplify_eq|].
      rewrite lookup_insert_ne in Hj by done. eauto.
    + intros t' Ht'. destruct (decide (n = "error_details")) as [->|]; [by rewrite lookup_insert_eq in Ht'|].
      rewrite lookup_insert_ne in Ht' by done. eauto.
  - split; [intros m j Hj; apply lookup_delete_Some in Hj as [_ Hj]; eauto|].
    intros t' Ht'. apply lookup_delete_Some in Ht' as [_ Ht']. eauto.
  - split; [intros m j Hj; apply map_lookup_filter_Some in Hj as [Hj _]; eauto|].
    intros t' Ht'. apply map_lookup_filter_Some in Ht' as [Ht' _]. eauto.
  - split.
    + intros m i Hm. destruct (decide (n = m)) as [->|]; [by rewrite lookup_insert_eq in Hm|].
      rewrite lookup_insert_ne in Hm by done. eauto.
    + intros u Hu. destruct (decide (n = "error_details")) as [->|]; [|rewrite lookup_insert_ne in Hu by done; eauto].
      rewrite lookup_insert_eq in Hu. simplify_eq. eapply single_key_alter; [|exact Ha|by apply Hk].
      destruct a; try done. simpl in Hs. apply andb_true_iff in Hs as [H1 H2].
      by apply bool_decide_eq_true in H1, H2.
Qed.

(** Presence survives a statement that does not drop the relation. *)
Lemma present_exec s c c' n :
  sane s = true → good c → change s c c' → may_drop s n = false → present c n = true → present c' n = true.
Proof.
  intros Hs [Hg _] H Hd Hp. apply present_true in Hp as [r Hr]. apply present_true.
  destruct H as [s c|m t c Hn _|s m i t c Hm _ Ht _|m i c Hn|m t c Hn _|o m a t t' c Hn Ha]; eauto.
  - rewrite lookup_insert. case_decide; eauto.
  - rewrite lookup_insert. case_decide; eauto.
  - simpl in Hd. apply bool_decide_eq_false in Hd. rewrite lookup_delete_ne by done. eauto.
  - simpl in Hd, Hs. apply orb_false_iff in Hd as [Hmn Hman]. apply bool_decide_eq_false in Hmn.
    apply negb_false_iff, bool_decide_eq_true in Hman. apply bool_decide_eq_true in Hs.
    exists r. apply map_lookup_filter_Some. split; [done|]. split; [done|]. simpl. destruct r as [|i]; [done|]. simpl.
    apply bool_decide_eq_false. intros <-. by apply (Hg n i).
  - rewrite lookup_insert. case_decide; eauto.
Qed.

(** Absence survives a statement that does not give the name. *)
Lemma absent_exec s c c' n : change s c c' → n ∉ named_by s → c !! n = None → c' !! n = None.
Proof.
  intros H Hn Hc. destruct H as [s c|m t c Hm _|s m i t c Hm _ Ht _|m i c Hm|m t c Hm _|o m a t t' c Hm Ha]; try done.
  - rewrite lookup_insert_ne by set_solver. done.
  - rewrite lookup_insert_ne; [done|]. destruct s; simplify_eq/=; set_solver.
  - rewrite lookup_delete. by case_decide.
  - apply map_lookup_filter_None. by left.
  - rewrite lookup_insert_ne by congruence. done.
Qed.

(** A table stays a table, altered at most. *)
Lemma table_exec s c c' n t :
  change s c c' → c !! n = Some (RTable t) → s ≠ DropTable n →
  c' !! n = Some (RTable t) ∨
  ∃ o a t', s = AlterTable o n a ∧ alter c a t = Some t' ∧ c' !! n = Some (RTable t').
Proof.
  intros H Hn Hs. destruct H as [s c|m u c Hm _|s m i u c Hm Hmiss Ht _|m i c Hm|m u c Hm _|o m a u t' c Hm Ha]; eauto.
  - left. rewrite lookup_insert_ne by congruence. done.
  - left. rewrite lookup_insert_ne; [done|]. intros ->. destruct Hmiss as [Hx|(j & Hx & _)]; congruence.
  - left. rewrite lookup_delete_ne by congruence. done.
  - left. apply map_lookup_filter_Some. split; [done|]. split; [simpl; congruence|done].
  - destruct (decide (m = n)) as [->|]; [right|left; by rewrite lookup_insert_ne].
    rewrite lookup_insert_eq. simplify_eq. eauto 6.
Qed.

Lemma valid_exec s c c' n :
  sane s = true → good c → change s c c' → may_drop s n = false → holds (FValid n) c = true → holds (FValid n) c' = true.
Proof.
  intros Hs Hg H Hd Hv.
  assert (Hp : present c n = true) by (apply present_true; simpl in Hv; destruct (c !! n); [eauto|done]).
  pose proof (present_exec _ _ _ _ Hs Hg H Hd Hp) as Hp'. apply present_true in Hp' as [r' Hr']. simpl in *. rewrite Hr'.
  destruct H as [s c|m t c Hn _|s m i t c Hm Hmiss Ht _|m i c Hn|m t c Hn _|o m a t t' c Hn Ha].
  - by rewrite Hr' in Hv.
  - rewrite lookup_insert in Hr'. case_decide; simplify_eq; [done|]. by rewrite Hr' in Hv.
  - rewrite lookup_insert in Hr'. case_decide; simplify_eq; [|by rewrite Hr' in Hv].
    destruct Hmiss as [Hx|(j & Hx & Hj)]; rewrite Hx in Hv; [done|]. congruence.
  - rewrite lookup_delete in Hr'. case_decide; simplify_eq. by rewrite Hr' in Hv.
  - apply map_lookup_filter_Some in Hr' as [Hr' _]. by rewrite Hr' in Hv.
  - rewrite lookup_insert in Hr'. case_decide; simplify_eq; [done|]. by rewrite Hr' in Hv.
Qed.

(** ** The three lemmas on statements *)

Lemma exec_keeps s f c c' :
  sane s = true → good c → conflict s f = false → exec s c = Some c' → holds f c = true → holds f c' = true.
Proof.
  intros Hs Hg Hc H Hf. apply exec_change in H.
  destruct f as [n|n|n|o n a|g n]; simpl in Hc.
  - exact (present_exec _ _ _ _ Hs Hg H Hc Hf).
  - simpl in *. apply negb_true_iff, present_false in Hf. apply bool_decide_eq_false in Hc.
    apply negb_true_iff, present_false. by eapply absent_exec.
  - exact (valid_exec _ _ _ _ Hs Hg H Hc Hf).
  - simpl in *. destruct (c !! n) as [[t|i]|] eqn:E; [|done|].
    + apply andb_true_iff in Hf as [Ha Ho].
      assert (Hnd : s ≠ DropTable n).
      { intros ->. apply orb_false_iff in Hc as [Hc _]. by apply bool_decide_eq_false in Hc. }
      assert (Ho' : from_option (present c') true (other_relation a) = true).
      { destruct (other_relation a) as [r|]; [|done]. simpl in *. eapply present_exec; try done.
        destruct s; try done; simpl in *; [by apply bool_decide_eq_false in Hc; apply bool_decide_eq_false; congruence|].
        by apply orb_false_iff in Hc as [_ Hc]. }
      destruct (table_exec _ _ _ _ _ H E Hnd) as [->|(o' & b & t' & -> & Hb & ->)]; rewrite Ho', andb_true_r; [done|].
      simpl in Hc. rewrite bool_decide_true in Hc by done. simpl in Hc. by eapply alter_keeps.
    + subst o. destruct (c' !! n) eqn:E'; [exfalso|done].
      assert (Hx : n ∉ named_by s → False).
      { intros Hn. by rewrite (absent_exec _ _ _ _ H Hn E) in E'. }
      apply Hx. destruct s; simpl in *; try (by apply bool_decide_eq_false in Hc); set_solver.
  - simpl in *. apply orb_false_iff in Hc as [Hd Hg']. apply bool_decide_eq_false in Hg'.
    apply orb_true_iff in Hf as [Hf|Hf]; apply orb_true_iff; [left|right; by eapply present_exec].
    apply negb_true_iff, present_false in Hf. apply negb_true_iff, present_false. by eapply absent_exec.
Qed.

Lemma create_index_present c n i c' : create_index c n i = Some c' → present c' n = true.
Proof.
  unfold create_index. intros H. apply present_true. destruct (c !! n) eqn:E; [injection H as <-; eauto|].
  destruct (table_at _ _); [|done]. destruct (forallb _ _); [|done]. injection H as <-. rewrite lookup_insert_eq. eauto.
Qed.

Lemma exec_establishes s c c' : sane s = true → good c → exec s c = Some c' → holds (fact_of s) c' = true.
Proof.
  intros Hs Hg H. destruct s as [n t|n i|n|n|o n a|g n i|n i]; simpl in H |- *.
  - apply present_true. destruct (c !! n) eqn:E; [injection H as <-; eauto|].
    destruct (forallb _ _); [|done]. injection H as <-. rewrite lookup_insert_eq. eauto.
  - by eapply create_index_present.
  - apply negb_true_iff, present_false. destruct (c !! n) as [[]|] eqn:E; [done|injection H as <-|by injection H as <-].
    by rewrite lookup_delete_eq.
  - apply negb_true_iff, present_false. destruct (c !! n) as [[]|] eqn:E; [|done|by injection H as <-].
    destruct (bool_decide _); [|done]. injection H as <-. apply map_lookup_filter_None. right. intros x Hx [Hn _]. by apply Hn.
  - destruct (c !! n) as [[t|]|] eqn:E; [|done|destruct o; [injection H as <-; by rewrite E|done]].
    destruct (alter c a t) as [t'|] eqn:Ea; [|done]. injection H as <-. rewrite lookup_insert_eq.
    apply andb_true_iff. split.
    + eapply alter_establishes; [|exact Ea]. destruct a; try done. simpl in Hs. apply andb_true_iff in Hs as [Hs H2].
      apply andb_true_iff in Hs as [H0 H1]. apply bool_decide_eq_true in H0, H1, H2. subst. by apply Hg.
    + destruct (other_relation a) as [r|] eqn:Er; [|done]. simpl. apply present_true. rewrite lookup_insert.
      case_decide; [eauto|]. destruct a; simplify_eq/=; destruct (bool_decide (is_Some (c !! r))) eqn:Eb; try done;
        by apply bool_decide_eq_true in Eb.
  - apply orb_true_iff. destruct (c !! g) eqn:E; [right; by eapply create_index_present|left].
    injection H as <-. by apply negb_true_iff, present_false.
  - apply andb_true_iff in Hs as [_ Hv].
    assert (Hc : ∀ c0, c0 !! n = None → create_index c0 n i = Some c' → c' !! n = Some (RIndex i)).
    { unfold create_index. intros c0 -> H0. destruct (table_at _ _); [|done]. destruct (forallb _ _); [|done].
      injection H0 as <-. by rewrite lookup_insert_eq. }
    destruct (c !! n) as [[t|j]|] eqn:E.
    + unfold create_index in H. rewrite E in H. injection H as <-. by rewrite E.
    + destruct (i_valid j) eqn:Ej; [injection H as <-; by rewrite E|].
      rewrite (Hc (delete n c)); [done|by rewrite lookup_delete_eq|done].
    + by rewrite (Hc c).
Qed.

(** ** Lists of statements *)

Fixpoint no_conflicts (ss : list statement) : bool :=
  match ss with
  | [] => true
  | s :: rest => forallb (λ s', negb (conflict s' (fact_of s))) rest && no_conflicts rest
  end.

Lemma exec_all_app l k c : exec_all (l ++ k) c = exec_all l c ≫= exec_all k.
Proof. revert c. induction l as [|s l IH]; intros c; [done|]. simpl. destruct (exec s c); [apply IH|done]. Qed.

Lemma exec_all_good ss c c' : forallb sane ss = true → exec_all ss c = Some c' → good c → good c'.
Proof.
  revert c. induction ss as [|s ss IH]; intros c Hs H Hg; simpl in *; [by simplify_eq|].
  apply andb_true_iff in Hs as [Hs Hss]. destruct (exec s c) eqn:E; [|done]. eapply IH; eauto using good_exec.
Qed.

Lemma exec_all_keeps ss f c c' :
  forallb sane ss = true → forallb (λ s, negb (conflict s f)) ss = true → good c →
  exec_all ss c = Some c' → holds f c = true → holds f c' = true.
Proof.
  revert c. induction ss as [|s ss IH]; intros c Hs Hc Hg H Hf; simpl in *; [by simplify_eq|].
  apply andb_true_iff in Hs as [Hs Hss], Hc as [Hc Hcs]. apply negb_true_iff in Hc.
  destruct (exec s c) as [c1|] eqn:E; [|done].
  apply (IH c1); [done|done|by eapply good_exec|done|by eapply exec_keeps].
Qed.

(** After a run, the facts of all its statements hold. *)
Lemma exec_all_settled ss c c' :
  forallb sane ss = true → no_conflicts ss = true → good c → exec_all ss c = Some c' →
  Forall (λ s, holds (fact_of s) c' = true) ss.
Proof.
  revert c. induction ss as [|s ss IH]; intros c Hs Hn Hg H; simpl in *; [constructor|].
  apply andb_true_iff in Hs as [Hs Hss], Hn as [Hc Hn]. destruct (exec s c) as [c1|] eqn:E; [|done].
  pose proof (good_exec _ _ _ Hs E Hg) as Hg1. constructor; [|by apply (IH c1)].
  by apply (exec_all_keeps ss _ c1); try done; apply (exec_establishes s c).
Qed.

Lemma exec_all_noop ss c : Forall (λ s, holds (fact_of s) c = true) ss → exec_all ss c = Some c.
Proof. induction 1 as [|s ss Hs _ IH]; simpl; [done|]. by rewrite holds_noop. Qed.

(** The statements of the relay. *)
Definition all_statements : list statement := initDB_calls ≫= statements.

Lemma all_sane : forallb sane all_statements = true.
Proof. vm_compute. reflexivity. Qed.
Lemma all_compatible : no_conflicts all_statements = true.
Proof. vm_compute. reflexivity. Qed.
