(* ===== verification/SchemaTyping.v ===== *)
(** * The catalog is well formed

    Indexes and keys name relations and columns that exist, primary keys are NOT NULL: a typing
    discipline for catalogs that every statement of the migrations keeps. *)
From Stdlib Require Import Ascii String.
From S2P Require Import Prelude Paths Schema Migrations MigrationProperties.

(** ** Well-formed tables and catalogs *)

Definition not_null_column (t : table) (c : string) : bool :=
  match t_columns t !! c with Some col => c_not_null col | None => false end.

(** Everything in a definition that concerns only the table itself. *)
Definition table_ok (t : table) : bool :=
  forallb (not_null_column t) (t_primary t) &&
  forallb (forallb (has_column t)) (t_unique t) &&
  forallb (λ p, forallb (has_column t) (condition_columns p)) (t_checks t) &&
  forallb (λ k, forallb (has_column t) (fk_columns k)) (t_keys t).

Definition relation_ok (c : catalog) (r : relation_def) : bool :=
  match r with
  | RTable t => table_ok t && forallb (reference_ok c) (t_keys t)
  | RIndex i =>
      match table_at c (i_table i) with Some t => forallb (has_column t) (index_columns i) | None => false end
  end.

Definition well_formed (c : catalog) : Prop := map_Forall (λ _ r, relation_ok c r = true) c.

(** The tables that a statement creates. *)
Definition statement_ok (s : statement) : bool := match s with CreateTable _ t => table_ok t | _ => true end.

(** ** Growing tables *)

(** [t'] has the columns of [t], NOT NULL where they were part of the primary key, and its keys. *)
Record grows (t t' : table) : Prop := {
  grows_columns : ∀ n, has_column t n = true → has_column t' n = true;
  grows_primary : t_primary t' = t_primary t;
  grows_unique : t_unique t' = t_unique t
}.

Lemma grows_refl t : grows t t.
Proof. by split. Qed.

Lemma forallb_impl {A} (f g : A → bool) l : (∀ x, f x = true → g x = true) → forallb f l = true → forallb g l = true.
Proof. intros H. rewrite !forallb_forall. auto. Qed.

Lemma alter_grows c a t t' : alter c a t = Some t' → grows t t'.
Proof.
  intros H. split; [|by eapply alter_primary..]. intros n Hn. unfold has_column in *. rewrite bool_decide_eq_true in *.
  destruct Hn as [col Hc]. destruct (alter_columns _ _ _ _ _ _ H Hc) as (col' & -> & _). eauto.
Qed.

(** References and indexes survive when tables only grow. *)
Definition extends (c c' : catalog) : Prop :=
  ∀ n t, table_at c n = Some t → ∃ t', table_at c' n = Some t' ∧ grows t t'.

Lemma reference_extends c c' k : extends c c' → reference_ok c k = true → reference_ok c' k = true.
Proof.
  unfold reference_ok. intros He. destruct (table_at c (fk_table k)) as [t|] eqn:E; [|done].
  destruct (He _ _ E) as (t' & -> & Hg). unfold is_key_of. rewrite (grows_primary _ _ Hg), (grows_unique _ _ Hg).
  intros H. apply andb_true_iff in H as [H1 ->]. rewrite andb_true_r. eapply forallb_impl, H1. apply Hg.
Qed.

Lemma relation_extends c c' r : extends c c' → relation_ok c r = true → relation_ok c' r = true.
Proof.
  intros He. destruct r as [t|i]; simpl.
  - intros H. apply andb_true_iff in H as [-> H]. simpl. eapply forallb_impl, H. intros k. by apply reference_extends.
  - destruct (table_at c (i_table i)) as [t|] eqn:E; [|done]. destruct (He _ _ E) as (t' & -> & Hg).
    apply forallb_impl, Hg.
Qed.

Lemma extends_insert_new c n r : missing c n → extends c (<[n := r]> c).
Proof.
  intros Hm m t Ht. exists t. split; [|apply grows_refl]. unfold table_at in *. rewrite lookup_insert_ne; [done|].
  intros ->. destruct Hm as [H|(j & H & _)]; by rewrite H in Ht.
Qed.

Lemma extends_alter c n t t' : c !! n = Some (RTable t) → grows t t' → extends c (<[n := RTable t']> c).
Proof.
  intros Hn Hg m u Hu. unfold table_at in *. destruct (decide (n = m)) as [->|].
  - rewrite lookup_insert_eq. rewrite Hn in Hu. simplify_eq. eauto.
  - rewrite lookup_insert_ne by done. exists u. split; [done|apply grows_refl].
Qed.

(** ** Altered tables are well formed *)

Lemma not_null_alter c a t t' n :
  n ∈ t_primary t → alter c a t = Some t' → not_null_column t n = true → not_null_column t' n = true.
Proof.
  unfold not_null_column. intros Hp H Hn. destruct (t_columns t !! n) as [col|] eqn:E; [|done].
  assert (Hk : ∀ k t1 t2, t_columns t1 = t_columns t → add_key c k t1 = Some t2 → t_columns t2 = t_columns t).
  { intros k t1 t2 Ht Ha. by apply add_key_inv in Ha as [-> _]. }
  destruct a as [m x|m|m|c1 ref refcol name|ref]; simpl in H.
  - injection H as <-. destruct (t_columns t !! m) eqn:Em; [by rewrite E|]. simpl.
    rewrite lookup_insert_ne by congruence. by rewrite E.
  - destruct (t_columns t !! m) eqn:Em; [|done]. destruct (bool_decide (m ∈ t_primary t)) eqn:Eb; [done|].
    apply bool_decide_eq_false in Eb. injection H as <-. simpl. rewrite lookup_insert_ne by congruence. by rewrite E.
  - destruct (t_columns t !! m) eqn:Em; [|done]. injection H as <-. simpl. rewrite lookup_insert.
    case_decide; simplify_eq; [done|by rewrite E].
  - destruct (negb _); [done|]. destruct (find_key c1 ref t); [destruct (bool_decide _)|];
      [by injection H as <-; rewrite E|rewrite (λ Ht, Hk _ _ _ Ht H) by done; by rewrite E..].
  - destruct (negb _); [done|]. injection H as <-. simpl. by rewrite E.
Qed.

(** The keys after an alteration: old ones, validated perhaps, and one that was checked. *)
Lemma alter_new_keys c a t t' k :
  alter c a t = Some t' → k ∈ t_keys t' →
  (∃ k0, k0 ∈ t_keys t ∧ fk_columns k = fk_columns k0 ∧ reference_ok c k = reference_ok c k0) ∨
  (forallb (has_column t) (fk_columns k) = true ∧ reference_ok c k = true).
Proof.
  intros H Hk. destruct (other_relation a) eqn:Eo; [|left; exists k; by rewrite <- (alter_keys _ _ _ _ Eo H)].
  destruct a as [| | |c1 ref refcol name|ref]; try done; simpl in H; destruct (negb _); try done.
  - assert (Hadd : ∀ t1 k1, (∀ x, x ∈ t_keys t1 → x ∈ t_keys t) → t_columns t1 = t_columns t → add_key c k1 t1 = Some t' →
      (∃ k0, k0 ∈ t_keys t ∧ fk_columns k = fk_columns k0 ∧ reference_ok c k = reference_ok c k0) ∨
      (forallb (has_column t) (fk_columns k) = true ∧ reference_ok c k = true)).
    { intros t1 k1 Hsub Hcols Ha. apply add_key_inv in Ha as (-> & Hf & Hr). simpl in Hk.
      apply elem_of_app in Hk as [Hk|Hk%list_elem_of_singleton]; [left; exists k; auto|]. right. subst k. split; [|done].
      revert Hf. apply forallb_impl. intros x. unfold has_column. by rewrite Hcols. }
    destruct (find_key c1 ref t) as [k0|]; [destruct (bool_decide _)|].
    + injection H as <-. left. eauto.
    + eapply Hadd, H; [|done]. unfold drop_key. simpl. intros x Hx. by apply list_elem_of_filter in Hx as [_ Hx].
    + eapply Hadd, H; done.
  - injection H as <-. simpl in Hk. apply list_elem_of_fmap in Hk as (k0 & -> & Hk). left. exists k0. split; [done|].
    unfold validate_key. by destruct (bool_decide _).
Qed.

Lemma alter_checks c a t t' : alter c a t = Some t' → t_checks t' = t_checks t.
Proof.
  intros H. destruct a as [m x|m|m|c1 ref refcol name|ref]; simpl in H.
  - injection H as <-. by destruct (t_columns t !! m).
  - destruct (t_columns t !! m); [|done]. destruct (bool_decide _); [done|]. by injection H as <-.
  - destruct (t_columns t !! m); [|done]. by injection H as <-.
  - destruct (negb _); [done|]. destruct (find_key c1 ref t); [destruct (bool_decide _)|];
      [by injection H as <-|by apply add_key_inv in H as [-> _]..].
  - destruct (negb _); [done|]. by injection H as <-.
Qed.

Lemma table_ok_alter c a t t' : alter c a t = Some t' → table_ok t = true → table_ok t' = true.
Proof.
  intros H Ht. pose proof (alter_grows _ _ _ _ H) as Hg. unfold table_ok in *.
  apply andb_true_iff in Ht as [Ht Hk]. apply andb_true_iff in Ht as [Ht Hc]. apply andb_true_iff in Ht as [Hp Hu].
  rewrite (grows_primary _ _ Hg), (grows_unique _ _ Hg), (alter_checks _ _ _ _ H). repeat (apply andb_true_iff; split).
  - rewrite forallb_forall in *. intros n Hn. eapply not_null_alter; [by apply list_elem_of_In|done|auto].
  - eapply forallb_impl, Hu. intros l. apply forallb_impl, Hg.
  - eapply forallb_impl, Hc. intros l. apply forallb_impl, Hg.
  - rewrite forallb_forall in *. intros k Hin. apply list_elem_of_In in Hin.
    destruct (alter_new_keys _ _ _ _ _ H Hin) as [(k0 & Hk0 & -> & _)|[Hf _]].
    + apply list_elem_of_In, Hk in Hk0. revert Hk0. apply forallb_impl, Hg.
    + revert Hf. apply forallb_impl, Hg.
Qed.

(** ** Every statement keeps the catalog well formed *)

Lemma well_formed_insert c n r :
  extends c (<[n := r]> c) → relation_ok (<[n := r]> c) r = true → well_formed c → well_formed (<[n := r]> c).
Proof.
  intros He Hr Hw m r' Hm. rewrite lookup_insert in Hm. case_decide; simplify_eq; [done|].
  eapply relation_extends; [exact He|]. by apply (Hw m).
Qed.

Lemma table_at_delete_index c n i m : c !! n = Some (RIndex i) → table_at (delete n c) m = table_at c m.
Proof.
  intros Hn. unfold table_at. destruct (decide (n = m)) as [->|]; [by rewrite lookup_delete_eq, Hn|by rewrite lookup_delete_ne].
Qed.

Lemma table_at_drop c n m :
  m ≠ n → table_at (filter (λ nr : string * relation_def, nr.1 ≠ n ∧ belongs_to n nr.2 = false) c) m = table_at c m.
Proof.
  intros Hm. unfold table_at. destruct (c !! m) as [[t|i]|] eqn:E.
  - by rewrite (map_lookup_filter_Some_2 _ c m (RTable t) E).
  - destruct (filter _ c !! m) as [r|] eqn:Er; [|done]. apply map_lookup_filter_Some in Er as [Er _]. by simplify_eq.
  - by rewrite map_lookup_filter_None_2 by (by left).
Qed.

Lemma well_formed_exec s c c' : statement_ok s = true → exec s c = Some c' → well_formed c → well_formed c'.
Proof.
  intros Hs H Hw. apply exec_change in H.
  destruct H as [s c|n t c Hn Hk|s n i t c Hm Hmiss Ht Hf|n i c Hn|n t c Hn Href|o n a t t' c Hn Ha].
  - done.
  - assert (He : extends c (<[n := RTable t]> c)) by (apply extends_insert_new; by left).
    apply well_formed_insert; [done| |done]. simpl. simpl in Hs. rewrite Hs. simpl. revert Hk. apply forallb_impl.
    intros k. by apply reference_extends.
  - assert (He : extends c (<[n := RIndex i]> c)) by (by apply extends_insert_new).
    apply well_formed_insert; [done| |done]. eapply relation_extends; [exact He|]. simpl. by rewrite Ht.
  - intros m r Hr. apply lookup_delete_Some in Hr as [_ Hr]. apply (relation_extends c); [|by apply (Hw m)].
    intros x u Hu. exists u. rewrite (table_at_delete_index _ _ _ _ Hn). split; [done|apply grows_refl].
  - intros m r Hr. apply map_lookup_filter_Some in Hr as [Hr [Hne Hb]]. simpl in Hne, Hb. pose proof (Hw m r Hr) as Hok.
    destruct (Href m r Hr) as [|Hno]; [done|]. destruct r as [u|i]; simpl in Hok, Hno, Hb |- *.
    + apply andb_true_iff in Hok as [-> Hok]. simpl. rewrite forallb_forall in *. intros k Hin. specialize (Hok k Hin).
      unfold reference_ok in *. rewrite table_at_drop; [done|]. intros Heq.
      assert (existsb (λ k, bool_decide (fk_table k = n)) (t_keys u) = true) as Hex; [|by rewrite Hno in Hex].
      apply existsb_exists. exists k. split; [done|]. by apply bool_decide_eq_true.
    + apply bool_decide_eq_false in Hb. by rewrite table_at_drop.
  - assert (He : extends c (<[n := RTable t']> c)) by (eapply extends_alter; [done|by eapply alter_grows]).
    pose proof (Hw n _ Hn) as Hok. simpl in Hok. apply andb_true_iff in Hok as [Hto Hkeys].
    apply well_formed_insert; [done| |done]. simpl. rewrite (table_ok_alter _ _ _ _ Ha Hto). simpl.
    rewrite forallb_forall in *. intros k Hin. apply (reference_extends c); [done|].
    apply list_elem_of_In in Hin. destruct (alter_new_keys _ _ _ _ _ Ha Hin) as [(k0 & Hk0 & _ & ->)|[_ Hr]]; [|done].
    by apply Hkeys, list_elem_of_In.
Qed.

Lemma all_statements_ok : forallb statement_ok all_statements = true.
Proof. vm_compute. reflexivity. Qed.

Lemma well_formed_exec_all ss c c' :
  forallb statement_ok ss = true → exec_all ss c = Some c' → well_formed c → well_formed c'.
Proof.
  revert c. induction ss as [|s ss IH]; intros c Hs H Hw; simpl in *; [by simplify_eq|].
  apply andb_true_iff in Hs as [Hs Hss]. destruct (exec s c) as [c1|] eqn:E; [|done]. by eapply IH, well_formed_exec.
Qed.


(** ** A database of an earlier version *)

Definition old_keys : table := relation_of ["id" ∷ TEXT NOT NULL; "user_id" ∷ TEXT NOT NULL]%ddl ["id"].
Definition old_error_details : table := with_keys
  [{| fk_name := "error_details_request_id_fkey"; fk_columns := ["request_id"]; fk_table := "request_logs";
      fk_references := ["id"]; fk_delete := NoAction; fk_valid := true |}] error_details_table.
Definition ex_old : catalog := {[
  "request_logs" := RTable request_logs_table;
  "idx_request_logs_user_id" := RIndex (index_on "request_logs" [Column "user_id"]);
  "error_details" := RTable old_error_details;
  "idx_error_details_request_id" := RIndex {| i_table := "error_details"; i_keys := [Column "request_id"];
    i_unique := false; i_where := None; i_valid := false |};
  "api_keys" := RTable old_keys;
  "org_quotas" := RTable org_quotas_table;
  "devices" := RTable old_keys;
  "idx_devices_user" := RIndex (index_on "devices" [Column "user_id"]);
  "device_alerts" := RTable (with_keys [references_cascade "device_alerts_fkey" "id" "devices" "id"] old_keys)
]}.

Definition ex_new : catalog := default ∅ (migrate_all ex_old).

Lemma ex_old_migrates : exec_all (take (length initDB_calls) initDB_calls ≫= statements) ex_old = Some ex_new.
Proof.
  assert (H : (if migrate_all ex_old then true else false) = true) by (vm_compute; reflexivity).
  rewrite take_ge by done. unfold ex_new. change (migrate_all ex_old = Some (default ∅ (migrate_all ex_old))).
  by destruct (migrate_all ex_old).
Qed.

