(* ===== verification/Startup.v ===== *)
(** * The start of an instance (main.go: initDB, initRedis, the first half of main)

    [Boot] adds the catalog to the state of [M].  A call of the migrations may fail before or
    after it took effect; the build of the index of error_details, which runs outside a
    transaction, may also leave a part of its work behind.  [fleet_step] runs any number of
    starting instances against one database. *)
From Stdlib Require Import Ascii String.
From S2P Require Import Prelude GoStrings Paths Manifest Failure Json Lce Store Effects ClientVersion RequestLogs.
From S2P Require Import Guarantees Schema Migrations MigrationProperties SchemaTyping.

(** ** Interrupted builds *)

Definition invalid (i : index) : index :=
  {| i_table := i_table i; i_keys := i_keys i; i_unique := i_unique i; i_where := i_where i; i_valid := false |}.

(** What a build that did not finish may leave: nothing changed, the old invalid index dropped, or
    the new one there but invalid.  It has dropped or built nothing over a valid index. *)
Inductive interrupted (n : string) (i : index) (c : catalog) : catalog → Prop :=
| int_nothing : interrupted n i c c
| int_dropped : missing c n → interrupted n i c (delete n c)
| int_left : missing c n → interrupted n i c (<[n := RIndex (invalid i)]> c).

(** ** The program *)

Definition Boot (A : Type) : Type := catalog * World → result error A * (catalog * World).

#[export] Instance Boot_ret : MRet Boot := fun A a s => (Ok a, s).
#[export] Instance Boot_bind : MBind Boot := fun A B f m s =>
  match m s with
  | (Ok a, s') => f a s'
  | (Err e, s') => (Err e, s')
  end.

Definition boot_lift {A} (m : M A) : Boot A := fun '(c, w) => let '(r, w') := m w in (r, (c, w')).

(** [fmt.Errorf("prefix: %w", err)] *)
Definition wrapped {A} (prefix : string) (m : Boot A) : Boot A := fun s =>
  match m s with
  | (Ok a, s') => (Ok a, s')
  | (Err e, s') => (Err (Errorf (prefix +:+ error_text e)), s')
  end.

Section boot.
Context (E : Env) (strconv_Quote : string → string).
(** What an interrupted build leaves behind. *)
Context (leftover : nat → string → index → catalog → catalog).

Definition is_build (ss : list statement) : option (string * index) :=
  match ss with [EnsureIndex n i] => Some (n, i) | _ => None end.

(** One [db.Exec] with its statements on the catalog and on the rows. *)
Definition db_Exec (k : call) (rows : DB → DB) : Boot unit := fun '(c, w) =>
  let w1 := turn E w in
  let failed c' w' := (Err (Errorf (failure k +:+ error_text ErrDB)), (c', w')) in
  match env_fault E (ticks w) with
  | FailBefore => failed c w1
  | FailCommit =>
      match is_build (statements k) with
      | Some (n, i) => failed (leftover (ticks w) n i c) w1
      | None => failed c w1
      end
  | f =>
      match exec_all (statements k) c with
      | None => failed c w1
      | Some c' =>
          let w2 := put_shared (with_db (rows (s_db (shared w1))) (shared w1)) w1 in
          match f with NoFault => (Ok tt, (c', w2)) | _ => failed c' w2 end
      end
  end.

Fixpoint run_calls (ks : list call) : Boot unit :=
  match ks with
  | [] => mret tt
  | k :: rest => db_Exec k id;; run_calls rest
  end.

(** [UPDATE index_jobs SET publishing_since = heartbeat_at WHERE phase = 'publishing' AND
    publishing_since IS NULL] *)
Definition backfill_job (j : index_job) : index_job :=
  let p := prog j in
  if bool_decide (phase p = Publishing) && bool_decide (publishing_since p = None)
  then {| meta := meta j; fail := fail j;
          prog := {| phase := phase p; status := status p; indexed_count := indexed_count p;
                     failed_files := failed_files p; total_chunks := total_chunks p; indexed_chunks := indexed_chunks p;
                     chunk_count_fallback := chunk_count_fallback p; deletions_sent := deletions_sent p;
                     cloud_revision := cloud_revision p; heartbeat_at := heartbeat_at p;
                     completed_at := completed_at p; publishing_since := Some (heartbeat_at p) |} |}
  else j.
Definition backfill_publishing : DB → DB := set_jobs (fmap backfill_job).

(** [db.Ping] and [redisClient.Ping] *)
Definition ping (prefix : string) : Boot unit := db_Exec {| failure := prefix; statements := [] |} id.

Definition policy_prefix : string := failure migrate_runtime_settings.

Definition initDB : Boot unit :=
  ping "";;
  run_calls calls_before_policy;;
  wrapped policy_prefix (boot_lift (check_configured_version E strconv_Quote));;
  db_Exec migrate_runtime_settings id;;
  wrapped policy_prefix (boot_lift (load_stored_version E strconv_Quote));;
  run_calls calls_after_policy;;
  db_Exec migrateIndexingTables backfill_publishing.

Definition initRedis : Boot unit := ping "failed to connect to Redis: ".

(** [main] up to the workers: a failure of the statistics is only logged. *)
Definition start_up : Boot unit :=
  initDB;;
  initRedis;;
  boot_lift (ignore (updateLeaderboardContext E)).
End boot.

(** ** Instances that start together *)

(** The catalog, and how many calls each starting instance has made. *)
Record fleet := { f_catalog : catalog; f_calls : gmap nat nat }.

Inductive fleet_step : fleet → fleet → Prop :=
| fleet_boot id c m : m !! id = None → fleet_step {| f_catalog := c; f_calls := m |} {| f_catalog := c; f_calls := <[id := O]> m |}
| fleet_call id p k c c' m :
    m !! id = Some p → initDB_calls !! p = Some k → exec_all (statements k) c = Some c' →
    fleet_step {| f_catalog := c; f_calls := m |} {| f_catalog := c'; f_calls := <[id := S p]> m |}
| fleet_die id p c m :
    m !! id = Some p → fleet_step {| f_catalog := c; f_calls := m |} {| f_catalog := c; f_calls := delete id m |}
| fleet_reply_lost id p k c c' m :
    m !! id = Some p → initDB_calls !! p = Some k → exec_all (statements k) c = Some c' →
    fleet_step {| f_catalog := c; f_calls := m |} {| f_catalog := c'; f_calls := delete id m |}
| fleet_build_interrupted id p k n i c c' m :
    m !! id = Some p → initDB_calls !! p = Some k → is_build (statements k) = Some (n, i) → interrupted n i c c' →
    fleet_step {| f_catalog := c; f_calls := m |} {| f_catalog := c'; f_calls := delete id m |}.

(** ** Starting instances converge *)

Definition mentioned (f : fact) : list string :=
  match f with
  | FPresent n | FGone n | FValid n => [n]
  | FAltered _ n a => n :: option_list (other_relation a)
  | FWhere g n => [g; n]
  end.

Lemma holds_ext f c c1 : (∀ m, m ∈ mentioned f → c !! m = c1 !! m) → holds f c = holds f c1.
Proof.
  intros H. destruct f as [n|n|n|o n a|g n]; simpl in *; unfold present; rewrite ?H by set_solver; try done.
  destruct (c1 !! n) as [[]|]; try done. f_equal. destruct (other_relation a) as [r|] eqn:E; [|done].
  simpl. unfold present. by rewrite H by set_solver.
Qed.

(** Only the build itself speaks of its index. *)
Definition statements_before (h : nat) : list statement := take h initDB_calls ≫= statements.
Definition build_private (h : nat) : bool :=
  match initDB_calls !! h ≫= (λ k, is_build (statements k)) with
  | Some (n, i) => forallb (λ s, negb (bool_decide (n ∈ mentioned (fact_of s)))) (statements_before h) &&
                   negb (bool_decide (i_table i ∈ retired_tables)) && negb (bool_decide (n = "error_details"))
  | None => true
  end.
Lemma builds_private : forallb build_private (seq 0 (length initDB_calls)) = true.
Proof. vm_compute. reflexivity. Qed.

Lemma build_private_at h k n i :
  initDB_calls !! h = Some k → is_build (statements k) = Some (n, i) →
  Forall (λ s, n ∉ mentioned (fact_of s)) (statements_before h).
Proof.
  intros Hk Hb. pose proof builds_private as H. rewrite forallb_forall in H.
  specialize (H h). unfold build_private in H. rewrite Hk in H. simpl in H. rewrite Hb in H.
  assert (Hin : In h (seq 0 (length initDB_calls))).
  { apply in_seq. apply lookup_lt_Some in Hk. lia. }
  apply H, andb_true_iff in Hin as [Hin _]. apply andb_true_iff in Hin as [Hin _].
  apply Forall_forall. intros s Hs. rewrite forallb_forall in Hin. apply list_elem_of_In, Hin in Hs.
  by apply negb_true_iff, bool_decide_eq_false in Hs.
Qed.

Lemma is_build_statement ss n i : is_build ss = Some (n, i) → ss = [EnsureIndex n i].
Proof. destruct ss as [|[] []]; simpl; congruence. Qed.

(** The catalog [c] stands where an undisturbed run stands after [h] calls, but for what an
    interrupted build may have left. *)
Definition damaged (n : string) (c1 c : catalog) : Prop :=
  missing c1 n ∧ (c = delete n c1 ∨ ∃ j, i_valid j = false ∧ c = <[n := RIndex j]> c1).

Definition progress (c0 : catalog) (h : nat) (c : catalog) : Prop :=
  ∃ c1, exec_all (statements_before h) c0 = Some c1 ∧
  (c = c1 ∨ ∃ k n i, initDB_calls !! h = Some k ∧ is_build (statements k) = Some (n, i) ∧ damaged n c1 c).

Lemma statements_before_S h k :
  initDB_calls !! h = Some k → statements_before (S h) = statements_before h ++ statements k.
Proof.
  intros Hk. unfold statements_before. rewrite (take_S_r _ _ _ Hk), bind_app. simpl. by rewrite app_nil_r.
Qed.

Lemma before_all h : (∃ k, all_statements = statements_before h ++ k).
Proof.
  exists (drop h initDB_calls ≫= statements). unfold all_statements, statements_before.
  by rewrite <- bind_app, take_drop.
Qed.

Lemma no_conflicts_app l k : no_conflicts (l ++ k) = true → no_conflicts l = true.
Proof.
  induction l as [|s l IH]; simpl; [done|]. intros H. apply andb_true_iff in H as [H1 H2].
  rewrite forallb_app in H1. apply andb_true_iff in H1 as [-> _]. by rewrite IH.
Qed.

Lemma before_settled c0 h c1 :
  good c0 → exec_all (statements_before h) c0 = Some c1 → Forall (λ s, holds (fact_of s) c1 = true) (statements_before h).
Proof.
  intros Hg H. destruct (before_all h) as [k Hk]. pose proof all_sane as Hs. pose proof all_compatible as Hc.
  rewrite Hk in Hs, Hc. rewrite forallb_app in Hs. apply andb_true_iff in Hs as [Hs _].
  eapply exec_all_settled; eauto using no_conflicts_app.
Qed.

(** Damage does not touch the facts of earlier calls. *)
Lemma progress_settled c0 h c :
  good c0 → progress c0 h c → Forall (λ s, holds (fact_of s) c = true) (statements_before h).
Proof.
  intros Hg (c1 & H1 & Hc). pose proof (before_settled _ _ _ Hg H1) as Hs.
  destruct Hc as [->|(k & n & i & Hk & Hb & _ & Hd)]; [done|].
  pose proof (build_private_at _ _ _ _ Hk Hb) as Hp. rewrite Forall_forall in *. intros s Hin.
  rewrite <- (Hs s Hin). apply holds_ext. intros m Hm.
  assert (n ≠ m) by (intros ->; by apply (Hp s)).
  destruct Hd as [->|(j & _ & ->)]; [by rewrite lookup_delete_ne|by rewrite lookup_insert_ne].
Qed.

(** A build over the remains of another gives what it would have given before. *)
Lemma ensure_missing n i c : missing c n →
  exec (EnsureIndex n i) c =
  match table_at (delete n c) (i_table i) with
  | Some t => if forallb (has_column t) (index_columns i) then Some (<[n := RIndex i]> c) else None
  | None => None
  end.
Proof.
  intros Hm. simpl. unfold create_index. destruct Hm as [H|(j & H & Hj)].
  - by rewrite H, delete_id.
  - rewrite H, Hj, lookup_delete_eq. destruct (table_at _ _); [|done]. by rewrite insert_delete_eq.
Qed.

Lemma damaged_missing n c1 c : damaged n c1 c → missing c n.
Proof. intros [_ [->|(j & Hj & ->)]]; [left; by rewrite lookup_delete_eq|right; exists j; by rewrite lookup_insert_eq]. Qed.

Lemma ensure_damaged n i c1 c : damaged n c1 c → exec (EnsureIndex n i) c = exec (EnsureIndex n i) c1.
Proof.
  intros Hd. pose proof (damaged_missing _ _ _ Hd) as Hm. destruct Hd as [Hm1 Hd]. rewrite !ensure_missing by done.
  destruct Hd as [->|(j & _ & ->)]; [by rewrite delete_delete_eq, insert_delete_eq|by rewrite delete_insert_eq, insert_insert_eq].
Qed.

Lemma damaged_again n c1 c j :
  damaged n c1 c → i_valid j = false → damaged n c1 (delete n c) ∧ damaged n c1 (<[n := RIndex j]> c).
Proof.
  intros [Hm Hd] Hj. split; (split; [done|]); destruct Hd as [->|(j' & _ & ->)].
  - left. apply delete_delete_eq.
  - left. apply delete_insert_eq.
  - right. exists j. split; [done|]. apply insert_delete_eq.
  - right. exists j. split; [done|]. apply insert_insert_eq.
Qed.

(** A call at or before the mark. *)
Lemma progress_call c0 h c p k c' :
  good c0 → progress c0 h c → (p ≤ h)%nat → initDB_calls !! p = Some k → exec_all (statements k) c = Some c' →
  ∃ h', (h ≤ h' ∧ S p ≤ h')%nat ∧ progress c0 h' c'.
Proof.
  intros Hg Hp Hle Hk He. destruct (decide (p = h)) as [->|Hne].
  - exists (S h). split; [lia|]. destruct Hp as (c1 & H1 & Hc). exists c'. split; [|by left].
    rewrite (statements_before_S _ _ Hk), exec_all_app, H1. cbn [mbind option_bind].
    destruct Hc as [->|(k' & n & i & Hk' & Hb & Hd)]; [done|]. simplify_eq.
    apply is_build_statement in Hb. rewrite Hb in He |- *. cbn [exec_all] in *. by rewrite <- (ensure_damaged n i c1 c Hd).
  - exists h. split; [lia|]. assert (c' = c) as ->; [|done].
    pose proof (progress_settled _ _ _ Hg Hp) as Hs. rewrite exec_all_noop in He; [by simplify_eq|].
    rewrite Forall_forall in Hs |- *. intros s Hin. apply Hs. unfold statements_before.
    apply list_elem_of_bind. exists k. split; [done|]. apply list_elem_of_lookup. exists p. by rewrite lookup_take_lt by lia.
Qed.

Lemma progress_interrupted c0 h c p k n i c' :
  good c0 → progress c0 h c → (p ≤ h)%nat → initDB_calls !! p = Some k → is_build (statements k) = Some (n, i) →
  interrupted n i c c' → progress c0 h c'.
Proof.
  intros Hg Hp Hle Hk Hb Hi. destruct (decide (p = h)) as [->|Hne].
  - destruct Hp as (c1 & H1 & Hc). exists c1. split; [done|].
    destruct Hi as [|Hm|Hm]; [done|..]; right; exists k, n, i; (split; [done|]; split; [done|]).
    all: destruct Hc as [->|(k' & n' & i' & Hk' & Hb' & Hd)]; [|simplify_eq; by destruct (damaged_again _ _ _ (invalid i') Hd eq_refl)].
    + by split; [|left].
    + split; [done|]. right. by exists (invalid i).
  - assert (c' = c) as ->; [|done]. pose proof (progress_settled _ _ _ Hg Hp) as Hs. rewrite Forall_forall in Hs.
    assert (Hv : holds (FValid n) c = true).
    { apply (Hs (EnsureIndex n i)). unfold statements_before. apply list_elem_of_bind. exists k.
      rewrite (is_build_statement _ _ _ Hb). split; [left|]. apply list_elem_of_lookup. exists p. by rewrite lookup_take_lt by lia. }
    simpl in Hv. destruct Hi as [|[H|(j & H & Hj)]|[H|(j & H & Hj)]]; [done|..]; rewrite H in Hv; congruence.
Qed.

Lemma fleet_progress c0 s :
  good c0 → rtc fleet_step {| f_catalog := c0; f_calls := ∅ |} s →
  ∃ h, progress c0 h (f_catalog s) ∧ map_Forall (λ _ p, p ≤ h)%nat (f_calls s).
Proof.
  intros Hg. apply (rtc_ind_r (λ s, ∃ h, progress c0 h (f_catalog s) ∧ map_Forall (λ _ p, p ≤ h)%nat (f_calls s))).
  { exists O. split; [exists c0; by split; [|left]|]. apply map_Forall_empty. }
  intros s1 s2 _ Hstep (h & Hp & Hm).
  destruct Hstep as [id c m Hn|id p k c c' m Hn Hk He|id p c m Hn|id p k c c' m Hn Hk He|id p k n i c c' m Hn Hk Hb Hi]; simpl in *.
  - exists h. split; [done|]. apply map_Forall_insert_2; [lia|done].
  - destruct (progress_call _ _ _ _ _ _ Hg Hp (Hm _ _ Hn) Hk He) as (h' & Hh & Hp'). exists h'. split; [done|].
    apply map_Forall_insert_2; [lia|]. eapply map_Forall_impl; [exact Hm|]. simpl. intros; lia.
  - exists h. split; [done|]. by apply map_Forall_delete.
  - destruct (progress_call _ _ _ _ _ _ Hg Hp (Hm _ _ Hn) Hk He) as (h' & Hh & Hp'). exists h'. split; [done|].
    apply map_Forall_delete. eapply map_Forall_impl; [exact Hm|]. simpl. intros; lia.
  - exists h. split; [|by apply map_Forall_delete].
    exact (progress_interrupted _ _ _ _ _ _ _ _ Hg Hp (Hm _ _ Hn) Hk Hb Hi).
Qed.

(** [C8] Any number of instances may start on one database at once, in any
    interleaving of their calls, and any of them may die at any point: before a call, after it
    took effect, or in the middle of the index build, and be started again.  When an instance has
    made all its calls, the catalog is exactly the one that a single undisturbed start would have
    left on the original database. *)
Theorem starts_converge c0 s id :
  good c0 → rtc fleet_step {| f_catalog := c0; f_calls := ∅ |} s →
  f_calls s !! id = Some (length initDB_calls) → migrate_all c0 = Some (f_catalog s).
Proof.
  intros Hg Hs Hid. destruct (fleet_progress _ _ Hg Hs) as (h & (c1 & H1 & Hc) & Hm). apply Hm in Hid.
  assert (Hall : statements_before h = all_statements) by (unfold statements_before; by rewrite take_ge).
  rewrite Hall in H1. destruct Hc as [->|(k & n & i & Hk & _)]; [done|]. apply lookup_lt_Some in Hk. lia.
Qed.

(** A start of the program is a path of the fleet. *)
Section one_start.
Context (E : Env) (Q : string → string) (leftover : nat → string → index → catalog → catalog).
Context (Hleft : ∀ t n i c, interrupted n i c (leftover t n i c)).
Abbreviation at_call c p := {| f_catalog := c; f_calls := {[ 0%nat := p ]} |}.
Abbreviation dead c := {| f_catalog := c; f_calls := ∅ |}.

(** [m], run from call [p] on, makes the calls up to [q] or dies on the way. *)
Definition makes_calls {A} (p q : nat) (m : Boot A) : Prop := ∀ c w,
  match m (c, w) with
  | (Ok _, (c', _)) => rtc fleet_step (at_call c p) (at_call c' q)
  | (Err _, (c', _)) => rtc fleet_step (at_call c p) (dead c')
  end.

Lemma dies c p : fleet_step (at_call c p) (dead c).
Proof. rewrite <- (delete_singleton_eq 0%nat p). eapply fleet_die. apply lookup_singleton_eq. Qed.

Lemma makes_bind A B p q r (m : Boot A) (f : A → Boot B) :
  makes_calls p q m → (∀ a, makes_calls q r (f a)) → makes_calls p r (m ≫= f).
Proof.
  intros Hm Hf c w. unfold mbind, Boot_bind. specialize (Hm c w). destruct (m (c, w)) as [[a|e] [c1 w1]]; [|done].
  specialize (Hf a c1 w1). destruct (f a (c1, w1)) as [[b|e] [c2 w2]]; by etrans.
Qed.

Lemma makes_exec p k rows : initDB_calls !! p = Some k → makes_calls p (S p) (db_Exec E leftover k rows).
Proof.
  intros Hk c w. unfold db_Exec. pose proof (lookup_singleton_eq (M:=gmap nat) 0%nat p) as Hp.
  destruct (env_fault E (ticks w)).
  - destruct (exec_all (statements k) c) as [c'|] eqn:He; [|apply rtc_once, dies].
    apply rtc_once. rewrite <- (insert_singleton_eq 0%nat (S p) p). by eapply fleet_call.
  - apply rtc_once, dies.
  - destruct (is_build (statements k)) as [[n i]|] eqn:Hb; [|apply rtc_once, dies].
    apply rtc_once. rewrite <- (delete_singleton_eq 0%nat p). by eapply fleet_build_interrupted.
  - destruct (exec_all (statements k) c) as [c'|] eqn:He; [|apply rtc_once, dies].
    apply rtc_once. rewrite <- (delete_singleton_eq 0%nat p). by eapply fleet_reply_lost.
Qed.

Lemma makes_run p ks :
  (∀ i k, ks !! i = Some k → initDB_calls !! (p + i)%nat = Some k) → makes_calls p (p + length ks) (run_calls E leftover ks).
Proof.
  revert p. induction ks as [|k ks IH]; intros p Hks; simpl.
  { intros c w. simpl. rewrite Nat.add_0_r. reflexivity. }
  eapply makes_bind; [apply makes_exec; rewrite <- (Nat.add_0_r p); by apply (Hks 0%nat)|]. intros _.
  replace (p + S (length ks))%nat with (S p + length ks)%nat by lia. apply IH.
  intros i k' Hk'. replace (S p + i)%nat with (p + S i)%nat by lia. by apply Hks.
Qed.

(** Steps that leave the catalog alone. *)
Lemma makes_none A p (m : Boot A) : (∀ c w, (m (c, w)).2.1 = c) → makes_calls p p m.
Proof.
  intros H c w. specialize (H c w). destruct (m (c, w)) as [[a|e] [c' w']]; simpl in H; subst; [reflexivity|apply rtc_once, dies].
Qed.

Lemma ping_catalog prefix c w : ((ping E leftover prefix (c, w)).2).1 = c.
Proof. unfold ping, db_Exec. simpl. by destruct (env_fault E (ticks w)). Qed.
Lemma lift_catalog A prefix (m : M A) c w : ((wrapped prefix (boot_lift m) (c, w)).2).1 = c.
Proof. unfold wrapped, boot_lift. by destruct (m w) as [[]]. Qed.

(** One start of the program, with whatever faults, is a path of [fleet_step]: when [initDB]
    succeeds it has made all its calls. *)
Lemma initDB_makes_calls : makes_calls 0 (length initDB_calls) (initDB E Q leftover).
Proof.
  unfold initDB. eapply makes_bind; [apply makes_none, ping_catalog|intros _].
  eapply makes_bind; [apply (makes_run 0 calls_before_policy)|intros _].
  { intros i k Hk. unfold initDB_calls. by apply lookup_app_l_Some. }
  eapply makes_bind; [apply makes_none, lift_catalog|intros _].
  eapply makes_bind; [by apply makes_exec|intros _].
  eapply makes_bind; [apply makes_none, lift_catalog|intros _].
  eapply makes_bind; [apply (makes_run (S (length calls_before_policy)) calls_after_policy)|intros _; by apply makes_exec].
  intros i k Hk. do 13 (destruct i as [|i]; [simpl in Hk; simplify_eq; reflexivity|]). discriminate.
Qed.
End one_start.


(** ** What a start leaves behind *)

Lemma migrated_facts c c' : good c → migrate_all c = Some c' → Forall (λ s, holds (fact_of s) c' = true) all_statements.
Proof. intros Hg H. eapply exec_all_settled; eauto using all_sane, all_compatible. Qed.

Definition cascade_statement : statement :=
  AlterTable false "error_details" (CascadeKey "request_id" "request_logs" "id" "error_details_request_id_fkey").
Definition validate_statement : statement := AlterTable false "error_details" (ValidateKeys "request_logs").

Lemma find_some_elem {A} (f : A → bool) l x : List.find f l = Some x → x ∈ l ∧ f x = true.
Proof. intros H. apply find_some in H as [H1 H2]. by rewrite list_elem_of_In. Qed.

(** After a successful start, on a new database or on one of any
    earlier version, error_details refers to request_logs through a validated foreign key that
    deletes the details with their request log, and the index on request_id is there and valid,
    also if the key was created without the cascade or the build of the index was once
    interrupted. *)
Theorem error_details_cascade c c' :
  good c → migrate_all c = Some c' →
  (∃ t k, c' !! "error_details" = Some (RTable t) ∧ find_key "request_id" "request_logs" t = Some k ∧
          fk_delete k = Cascade ∧ fk_valid k = true) ∧
  holds (FValid "idx_error_details_request_id") c' = true.
Proof.
  intros Hg H. pose proof (migrated_facts _ _ Hg H) as Hf. rewrite Forall_forall in Hf.
  assert (H1 : cascade_statement ∈ all_statements) by (apply list_elem_of_lookup; exists 14%nat; reflexivity).
  assert (H2 : validate_statement ∈ all_statements) by (apply list_elem_of_lookup; exists 15%nat; reflexivity).
  assert (H3 : EnsureIndex "idx_error_details_request_id" request_id_index ∈ all_statements)
    by (apply list_elem_of_lookup; exists 16%nat; reflexivity).
  apply Hf in H1, H2, H3. split; [|exact H3]. clear H3 Hf. simpl in H1, H2.
  destruct (c' !! "error_details") as [[t|]|]; [|done..]. exists t.
  apply andb_true_iff in H1 as [H1 _], H2 as [H2 _].
  destruct (find_key "request_id" "request_logs" t) as [k|] eqn:E; [|done]. exists k.
  apply bool_decide_eq_true in H1. repeat split; [done|].
  apply find_some_elem in E as [Hin Hon]. rewrite forallb_forall in H2. apply list_elem_of_In, H2 in Hin.
  unfold key_on in Hon. apply andb_true_iff in Hon as [Hr _]. by rewrite Hr in Hin.
Qed.

(** *** Columns of upgraded databases *)

(** The columns that a statement gives to table [n] of an old database. *)
Definition adds_column (n col : string) (s : statement) : bool :=
  match s with AlterTable _ m (AddColumn c0 _) => bool_decide (m = n) && bool_decide (c0 = col) | _ => false end.
(** Columns that the program never adds to an existing table. *)
Definition original_column (n col : string) : bool := negb (existsb (adds_column n col) all_statements).

Definition columns_of (t : table) : list string := (map_to_list (t_columns t)).*1.

Lemma columns_of_has t col : col ∈ columns_of t ↔ has_column t col = true.
Proof.
  unfold columns_of, has_column. rewrite bool_decide_eq_true, list_elem_of_fmap. split.
  - intros ([n x] & -> & H). apply elem_of_map_to_list in H. eauto.
  - intros [x Hx]. exists (col, x). split; [done|]. by apply elem_of_map_to_list.
Qed.

Definition column_fact (o : bool) (n col : string) : fact := FAltered o n (AddColumn col (plain TEXT)).

Lemma column_fact_holds n col c :
  holds (column_fact false n col) c = true ↔ ∃ t, c !! n = Some (RTable t) ∧ has_column t col = true.
Proof.
  simpl. destruct (c !! n) as [[t|]|]; rewrite ?andb_true_r; split; try done; try (intros (u & ? & ?); by simplify_eq); eauto.
Qed.

(** Up to the statement that creates table [n]. *)
Fixpoint split_create (n : string) (ss : list statement) : option (list statement * table * list statement) :=
  match ss with
  | [] => None
  | CreateTable m t :: rest =>
      if bool_decide (m = n) then Some ([], t, rest)
      else match split_create n rest with Some (pre, u, post) => Some (CreateTable m t :: pre, u, post) | None => None end
  | s :: rest => match split_create n rest with Some (pre, u, post) => Some (s :: pre, u, post) | None => None end
  end.

Lemma split_create_spec n ss pre t post : split_create n ss = Some (pre, t, post) → ss = pre ++ CreateTable n t :: post.
Proof.
  revert pre t post. induction ss as [|s ss IH]; intros pre t post H; [done|].
  destruct s; simpl in H; try case_bool_decide; simplify_eq/=; try done;
    destruct (split_create n ss) as [[[? ?] ?]|] eqn:E; simplify_eq/=; f_equal; by apply IH.
Qed.

(** That nothing before disturbs an old table, and nothing after a column. *)
Definition column_kept (n col : string) : bool :=
  match split_create n all_statements with
  | Some (pre, t, post) =>
      forallb (λ s, negb (conflict s (column_fact true n col))) pre &&
      forallb (λ s, negb (conflict s (column_fact false n col))) post && has_column t col
  | None => false
  end.

Lemma column_kept_ok n col c c' :
  good c → column_kept n col = true → holds (column_fact true n col) c = true → migrate_all c = Some c' →
  holds (column_fact false n col) c' = true.
Proof.
  unfold column_kept. intros Hg Hk Hc H. destruct (split_create n all_statements) as [[[pre t] post]|] eqn:Es; [|done].
  apply split_create_spec in Es. apply andb_true_iff in Hk as [Hk Ht]. apply andb_true_iff in Hk as [Hpre Hpost].
  pose proof all_sane as Hs. rewrite Es, forallb_app in Hs. apply andb_true_iff in Hs as [Hs1 Hs2].
  simpl forallb in Hs2. apply andb_true_iff in Hs2 as [Hs2 Hs3].
  unfold migrate_all in H. fold all_statements in H. rewrite Es, exec_all_app in H.
  destruct (exec_all pre c) as [c1|] eqn:E1; [|done]. cbn [mbind option_bind] in H.
  pose proof (exec_all_good _ _ _ Hs1 E1 Hg) as Hg1. pose proof (exec_all_keeps _ _ _ _ Hs1 Hpre Hg E1 Hc) as Hc1.
  cbn [exec_all] in H. destruct (exec (CreateTable n t) c1) as [c2|] eqn:E2; [|done].
  eapply (exec_all_keeps post); [done|done|exact (good_exec (CreateTable n t) _ _ Hs2 E2 Hg1)|done|].
  apply column_fact_holds. cbn [exec] in E2. destruct (c1 !! n) as [r|] eqn:En.
  - injection E2 as <-. simpl in Hc1. rewrite En in Hc1. destruct r as [u|]; [|done]. apply andb_true_iff in Hc1 as [Hc1 _]. eauto.
  - destruct (forallb (reference_ok c1) (t_keys t)); [|done]. injection E2 as <-. exists t. by rewrite lookup_insert_eq.
Qed.

(** A column of the schema is original, or added by a statement, and in both cases kept. *)
Definition fresh : catalog := default ∅ (migrate_all ∅).
Definition fresh_columns : list (string * string) :=
  map_to_list fresh ≫= (λ nr, match nr.2 with RTable t => (pair nr.1) <$> columns_of t | RIndex _ => [] end).
Definition column_covered (nc : string * string) : bool :=
  if original_column nc.1 nc.2 then column_kept nc.1 nc.2
  else existsb (λ s, match s with AlterTable false m (AddColumn c0 _) => bool_decide (m = nc.1) && bool_decide (c0 = nc.2)
                     | _ => false end) all_statements.
Lemma all_columns_covered : forallb column_covered fresh_columns = true.
Proof. vm_compute. reflexivity. Qed.


(** *** The witnesses *)

Definition good_check (c : catalog) : bool :=
  bool_decide (map_Forall (λ n r, match r with
      | RIndex i => negb (bool_decide (n ∈ managed)) || negb (bool_decide (i_table i ∈ retired_tables))
      | RTable _ => true
      end = true) c) &&
  match c !! "error_details" with Some (RTable t) => single_key "request_id" "request_logs" t | _ => true end.
Lemma good_check_ok c : good_check c = true → good c.
Proof.
  unfold good_check. intros H. apply andb_true_iff in H as [H1 H2]. apply bool_decide_eq_true in H1. split.
  - intros n i Hn Hm. specialize (H1 n _ Hn). simpl in H1. rewrite bool_decide_true in H1 by done.
    by apply negb_true_iff, bool_decide_eq_false in H1.
  - intros t Ht. by rewrite Ht in H2.
Qed.

Lemma good_old : good ex_old.
Proof. apply good_check_ok. vm_compute. reflexivity. Qed.

Lemma ex_old_migrated : migrate_all ex_old = Some ex_new.
Proof. exact ex_old_migrates. Qed.

(** Calls that an instance makes one after the other. *)
Lemma fleet_run id ks p c c' m :
  (∀ i k, ks !! i = Some k → initDB_calls !! (p + i)%nat = Some k) → m !! id = Some p →
  exec_all (ks ≫= statements) c = Some c' →
  rtc fleet_step {| f_catalog := c; f_calls := m |} {| f_catalog := c'; f_calls := <[id := (p + length ks)%nat]> m |}.
Proof.
  revert p c m. induction ks as [|k ks IH]; intros p c m Hks Hm He; simpl in *.
  { simplify_eq. rewrite Nat.add_0_r, insert_id by done. reflexivity. }
  rewrite exec_all_app in He. destruct (exec_all (statements k) c) as [c1|] eqn:E1; [|done].
  eapply rtc_l; [eapply fleet_call; [done| |exact E1]; rewrite <- (Nat.add_0_r p); by apply (Hks 0%nat)|].
  replace (p + S (length ks))%nat with (S p + length ks)%nat by lia.
  rewrite <- (insert_insert_eq m id (S p + length ks)%nat (S p)). apply IH; [|by rewrite lookup_insert_eq|done].
  intros i k' Hk'. replace (S p + i)%nat with (p + S i)%nat by lia. by apply Hks.
Qed.

Lemma interrupted_then_complete :
  ∃ m, rtc fleet_step {| f_catalog := ex_old; f_calls := ∅ |} {| f_catalog := ex_new; f_calls := m |} ∧
       m !! 1%nat = Some (length initDB_calls).
Proof.
  eexists. split.
  - eapply rtc_l; [by apply (fleet_boot 0)|]. eapply rtc_l; [by eapply (fleet_die 0)|].
    eapply rtc_l; [by apply (fleet_boot 1)|]. apply (fleet_run 1 initDB_calls 0); [done|by rewrite lookup_insert_eq|].
    exact ex_old_migrated.
  - by rewrite lookup_insert_eq.
Qed.

Lemma starts_converge_witness :
  ∃ s, rtc fleet_step {| f_catalog := ex_old; f_calls := ∅ |} s ∧ migrate_all ex_old = Some (f_catalog s).
Proof.
  destruct interrupted_then_complete as (m & Hm & H1). eexists. split; [exact Hm|].
  exact (starts_converge ex_old _ 1 good_old Hm H1).
Defined.

Lemma error_details_cascade_witness :
  (∃ t k, ex_new !! "error_details" = Some (RTable t) ∧ find_key "request_id" "request_logs" t = Some k ∧
          fk_delete k = Cascade ∧ fk_valid k = true) ∧
  holds (FValid "idx_error_details_request_id") ex_new = true.
Proof. exact (error_details_cascade ex_old ex_new good_old ex_old_migrated). Defined.

Definition old_complete (c : catalog) : bool :=
  forallb (λ nc, negb (original_column nc.1 nc.2) ||
    match c !! nc.1 with None => true | Some (RTable u) => has_column u nc.2 | Some (RIndex _) => false end) fresh_columns.

Lemma old_complete_ok c m r x :
  old_complete c = true → c !! m = Some r → (m, x) ∈ fresh_columns → original_column m x = true →
  ∃ u, r = RTable u ∧ has_column u x = true.
Proof.
  unfold old_complete. intros H Hr Hin Ho. rewrite forallb_forall in H. apply list_elem_of_In, H in Hin.
  cbn [fst snd] in Hin. rewrite Ho, Hr in Hin. destruct r; [eauto|done].
Qed.


(** ** The program's own start *)

Lemma boot_bind_ok {A B} (m : Boot A) (f : A → Boot B) s b s' :
  (m ≫= f) s = (Ok b, s') → ∃ a s1, m s = (Ok a, s1) ∧ f a s1 = (Ok b, s').
Proof. unfold mbind, Boot_bind. destruct (m s) as [[a|] s1]; [eauto|done]. Qed.

(** Every publishing job has the date from which its recovery counts. *)
Definition publications_dated (d : DB) : Prop :=
  map_Forall (λ _ j, phase (prog j) = Publishing → is_Some (publishing_since (prog j))) (index_jobs d).

Lemma backfill_dates d : publications_dated (backfill_publishing d).
Proof.
  intros id j Hj. unfold backfill_publishing in Hj. cbn [set_jobs index_jobs] in Hj.
  rewrite lookup_fmap in Hj. destruct (index_jobs d !! id) as [j0|]; [|done]. injection Hj as <-.
  unfold backfill_job. destruct (bool_decide (phase (prog j0) = Publishing)) eqn:Ep; simpl.
  - destruct (bool_decide (publishing_since (prog j0) = None)) eqn:En; simpl; [eauto|].
    apply bool_decide_eq_false, not_eq_None_Some in En. eauto.
  - apply bool_decide_eq_false in Ep. done.
Qed.

(** The statement leaves all other jobs alone. *)
Lemma backfill_only_publishing d id j :
  index_jobs d !! id = Some j → phase (prog j) ≠ Publishing ∨ is_Some (publishing_since (prog j)) →
  index_jobs (backfill_publishing d) !! id = Some j.
Proof.
  intros Hj Hor. unfold backfill_publishing. cbn [set_jobs index_jobs]. rewrite lookup_fmap, Hj. simpl. f_equal.
  unfold backfill_job. destruct Hor as [Hp|[x Hx]].
  - by rewrite bool_decide_false.
  - rewrite (bool_decide_false (publishing_since (prog j) = None)) by congruence. by rewrite andb_false_r.
Qed.

Lemma db_Exec_ok E leftover k rows c w c' w' :
  db_Exec E leftover k rows (c, w) = (Ok tt, (c', w')) →
  exec_all (statements k) c = Some c' ∧ s_db (shared w') = rows (s_db (shared (turn E w))).
Proof.
  unfold db_Exec. destruct (env_fault E (ticks w)); try done.
  - destruct (exec_all (statements k) c); [|done]. intros H. by injection H as <- <-.
  - by destruct (is_build _) as [[]|].
  - by destruct (exec_all (statements k) c).
Qed.

(** [C19] When [initDB] reports success, whatever calls failed in earlier starts
    of which this database bears the traces and whatever the others did to the rows meanwhile, the
    catalog is the one of an undisturbed migration and every publishing job has the date from
    which its recovery counts. *)
Theorem successful_start E Q leftover c w c' w' :
  (∀ t n i c, interrupted n i c (leftover t n i c)) → good c →
  initDB E Q leftover (c, w) = (Ok tt, (c', w')) →
  migrate_all c = Some c' ∧ publications_dated (s_db (shared w')).
Proof.
  intros Hl Hg H. split.
  - pose proof (initDB_makes_calls E Q leftover Hl c w) as Hp. rewrite H in Hp.
    destruct (fleet_progress c {| f_catalog := c'; f_calls := {[0%nat := length initDB_calls]} |} Hg) as (h & (c1 & H1 & Hc) & Hm).
    { eapply rtc_l; [by apply (fleet_boot 0)|]. exact Hp. }
    specialize (Hm 0%nat (length initDB_calls) ltac:(apply lookup_singleton_eq)). cbv beta in Hm.
    assert (Hall : statements_before h = all_statements) by (unfold statements_before; by rewrite take_ge).
    rewrite Hall in H1. destruct Hc as [Hc|(k & n & i & Hk & _)]; [simpl in Hc; by rewrite Hc|]. apply lookup_lt_Some in Hk. lia.
  - unfold initDB in H. do 6 apply boot_bind_ok in H as (? & [] & _ & H).
    apply db_Exec_ok in H as [_ ->]. apply backfill_dates.
Qed.

Definition undamaged (t : nat) (n : string) (i : index) (c : catalog) : catalog := c.

Lemma successful_start_witness :
  let r := initDB ex_env no_unicode undamaged (ex_old, (ex_world empty_db)) in
  r.1 = Ok tt ∧ migrate_all ex_old = Some r.2.1 ∧ publications_dated (s_db (shared r.2.2)).
Proof.
  cbv zeta.
  assert (Ho : (initDB ex_env no_unicode undamaged (ex_old, (ex_world empty_db))).1 = Ok tt) by (vm_compute; reflexivity).
  split; [exact Ho|].
  eapply (successful_start ex_env no_unicode undamaged ex_old (ex_world empty_db)); [intros; constructor|exact good_old|].
  destruct (initDB ex_env no_unicode undamaged (ex_old, (ex_world empty_db))) as [r [c w]]. simpl in Ho. by rewrite Ho.
Defined.
