(* ===== verification/IndexBuild.v ===== *)
(** * Building an index while others start (error_details_migration.go)

    [ensureErrorDetailsRequestIndex] step by step, for any number of instances that start at
    once.  CREATE INDEX CONCURRENTLY cannot run in a transaction: it enters the index as invalid,
    fills it and then marks it valid, and an interruption leaves it invalid.  The function
    therefore works under a session-level advisory lock, which the server releases with the
    session. *)
From Stdlib Require Import Ascii String.
From S2P Require Import Prelude.

(** Where an instance is in the function. *)
Inductive build_pc :=
| Waiting                        (* SELECT pg_advisory_lock(1163149510) *)
| Locked                         (* before the query for an invalid index *)
| Inspected (found : bool)       (* its answer *)
| Ready                          (* before CREATE INDEX CONCURRENTLY IF NOT EXISTS *)
| Building                       (* the server fills the index *)
| Built                          (* before the deferred unlock, without an error *)
| Leaving                        (* before the deferred unlock, with an error *)
| Succeeded.                     (* nil was returned *)

#[export] Instance build_pc_eq_dec : EqDecision build_pc.
Proof. solve_decision. Defined.

(** The lock is held from its acquisition to the deferred unlock. *)
Definition critical (pc : build_pc) : bool :=
  match pc with Waiting | Succeeded => false | _ => true end.

(** The entry of the index in pg_index ([Some valid], or none), the session that holds the lock,
    and the instances. *)
Record build_state := { b_entry : option bool; b_lock : option nat; b_pcs : gmap nat build_pc }.

Definition goto (s : nat) (pc : build_pc) (st : build_state) : build_state :=
  {| b_entry := b_entry st; b_lock := b_lock st; b_pcs := <[s := pc]> (b_pcs st) |}.
Definition set_entry (e : option bool) (st : build_state) : build_state :=
  {| b_entry := e; b_lock := b_lock st; b_pcs := b_pcs st |}.
Definition set_lock (l : option nat) (st : build_state) : build_state :=
  {| b_entry := b_entry st; b_lock := l; b_pcs := b_pcs st |}.
(** The session ends: its instance is gone and its lock is free. *)
Definition end_session (s : nat) (st : build_state) : build_state :=
  {| b_entry := b_entry st; b_lock := if bool_decide (b_lock st = Some s) then None else b_lock st;
     b_pcs := delete s (b_pcs st) |}.

Definition pc_at (st : build_state) (s : nat) (pc : build_pc) : Prop := b_pcs st !! s = Some pc.

(** One step of the code of instance [s]. *)
Inductive build_step (s : nat) (st : build_state) : build_state → Prop :=
| step_call : b_pcs st !! s = None → build_step s st (goto s Waiting st)
| step_lock : pc_at st s Waiting → b_lock st = None → build_step s st (goto s Locked (set_lock (Some s) st))
| step_inspect : pc_at st s Locked → build_step s st (goto s (Inspected (bool_decide (b_entry st = Some false))) st)
| step_drop : pc_at st s (Inspected true) → build_step s st (goto s Ready (set_entry None st))
| step_keep : pc_at st s (Inspected false) → build_step s st (goto s Ready st)
| step_exists v : pc_at st s Ready → b_entry st = Some v → build_step s st (goto s Built st)
| step_enter : pc_at st s Ready → b_entry st = None → build_step s st (goto s Building (set_entry (Some false) st))
| step_validate : pc_at st s Building → build_step s st (goto s Built (set_entry (Some true) st))
| step_unlock : pc_at st s Built → build_step s st (goto s Succeeded (set_lock None st))
| step_return_error : pc_at st s Leaving → build_step s st (end_session s st).

(** A statement fails or its context ends; the process or its connection dies. *)
Inductive build_fault (s : nat) (st : build_state) : build_state → Prop :=
| fault_error pc : pc_at st s pc → pc = Locked ∨ (∃ b, pc = Inspected b) ∨ pc = Ready ∨ pc = Building →
    build_fault s st (goto s Leaving st)
| fault_crash pc : pc_at st s pc → pc ≠ Succeeded → build_fault s st (end_session s st).

Definition any_step (st st' : build_state) : Prop := ∃ s, build_step s st st' ∨ build_fault s st st'.

(** How far an instance is from the end of the function. *)
Definition rank (pc : build_pc) : nat :=
  match pc with
  | Waiting => 6 | Locked => 5 | Inspected _ => 4 | Ready => 3 | Building => 2 | Built | Leaving => 1 | Succeeded => 0
  end.
Definition rank_at (st : build_state) (s : nat) : nat := from_option rank 0%nat (b_pcs st !! s).

(** ** The invariant *)

(** What an instance knows of the entry. *)
Definition local_ok (pc : build_pc) (e : option bool) : Prop :=
  match pc with
  | Inspected found => found = bool_decide (e = Some false)
  | Ready => e ≠ Some false
  | Building => e = Some false
  | Built | Succeeded => e = Some true
  | Waiting | Locked | Leaving => True
  end.

Record build_inv (st : build_state) : Prop := {
  inv_lock : ∀ s pc, pc_at st s pc → critical pc = true → b_lock st = Some s;
  inv_held : ∀ s, b_lock st = Some s → ∃ pc, pc_at st s pc ∧ critical pc = true;
  inv_local : ∀ s pc, pc_at st s pc → local_ok pc (b_entry st)
}.

Definition start (e : option bool) : build_state := {| b_entry := e; b_lock := None; b_pcs := ∅ |}.

Lemma start_inv e : build_inv (start e).
Proof. by split; unfold pc_at; simpl; intros; simplify_map_eq. Qed.

(** Whoever is not the holder has not begun or has succeeded. *)
Lemma outsider st s s' pc :
  build_inv st → b_lock st = Some s → s ≠ s' → pc_at st s' pc → pc = Waiting ∨ pc = Succeeded.
Proof.
  intros H Hl Hne Hpc. destruct (critical pc) eqn:Ec; [|destruct pc; try done; auto].
  pose proof (inv_lock _ H _ _ Hpc Ec). congruence.
Qed.

Lemma outsider_local st s s' pc e' :
  build_inv st → b_lock st = Some s → s ≠ s' → pc_at st s' pc → (b_entry st = Some true → e' = Some true) → local_ok pc e'.
Proof.
  intros H Hl Hne Hpc He. pose proof (inv_local _ H _ _ Hpc) as Ho.
  destruct (outsider _ _ _ _ H Hl Hne Hpc) as [->| ->]; [done|]. by apply He.
Qed.

(** The holder of the lock moves, and gives the lock back when it leaves the critical section. *)
Lemma holder_moves st s pc' e' :
  build_inv st → b_lock st = Some s → (b_entry st = Some true → e' = Some true) → local_ok pc' e' →
  build_inv {| b_entry := e'; b_lock := if critical pc' then Some s else None; b_pcs := <[s := pc']> (b_pcs st) |}.
Proof.
  intros H Hl He Hok. split; unfold pc_at; simpl.
  - intros s' pc Hpc Hc. rewrite lookup_insert in Hpc. case_decide; simplify_eq; [by rewrite Hc|].
    destruct (outsider _ _ _ _ H Hl ltac:(done) Hpc) as [->| ->]; done.
  - intros s' Hs'. destruct (critical pc') eqn:Ec; [|done]. simplify_eq. exists pc'. by rewrite lookup_insert_eq.
  - intros s' pc Hpc. rewrite lookup_insert in Hpc. case_decide; simplify_eq; [done|]. by eapply outsider_local.
Qed.

Lemma holder_ends st s : build_inv st → b_lock st = Some s → build_inv (end_session s st).
Proof.
  intros H Hl. unfold end_session. rewrite bool_decide_true by done. split; unfold pc_at; simpl.
  - intros s' pc Hpc Hc. apply lookup_delete_Some in Hpc as [Hne Hpc].
    destruct (outsider _ _ _ _ H Hl Hne Hpc) as [->| ->]; done.
  - done.
  - intros s' pc Hpc. apply lookup_delete_Some in Hpc as [Hne Hpc]. by apply (inv_local _ H s').
Qed.

Lemma waiting_ends st s : build_inv st → pc_at st s Waiting → build_inv (end_session s st).
Proof.
  intros H Hw. unfold end_session. rewrite bool_decide_false.
  2:{ intros Hl. destruct (inv_held _ H _ Hl) as (pc & Hpc & Hc). unfold pc_at in *. by simplify_eq. }
  split; unfold pc_at; simpl.
  - intros s' pc Hpc. apply lookup_delete_Some in Hpc as [_ Hpc]. by apply (inv_lock _ H).
  - intros s' Hl. destruct (inv_held _ H _ Hl) as (pc & Hpc & Hc). exists pc. split; [|done].
    rewrite lookup_delete_ne; [done|]. intros ->. unfold pc_at in *. by simplify_eq.
  - intros s' pc Hpc. apply lookup_delete_Some in Hpc as [_ Hpc]. by apply (inv_local _ H s').
Qed.

Lemma enters st s : build_inv st → b_pcs st !! s = None → build_inv (goto s Waiting st).
Proof.
  intros H Hn. split; unfold pc_at, goto; simpl.
  - intros s' pc Hpc Hc. rewrite lookup_insert in Hpc. case_decide; simplify_eq. by apply (inv_lock _ H s' pc).
  - intros s' Hl. destruct (inv_held _ H _ Hl) as (pc & Hpc & Hc). exists pc. split; [|done].
    unfold pc_at in *. rewrite lookup_insert_ne by congruence. done.
  - intros s' pc Hpc. rewrite lookup_insert in Hpc. case_decide; simplify_eq; [done|]. by apply (inv_local _ H s').
Qed.

Lemma acquires st s : build_inv st → pc_at st s Waiting → b_lock st = None → build_inv (goto s Locked (set_lock (Some s) st)).
Proof.
  intros H Hw Hl. split; unfold pc_at, goto, set_lock; simpl.
  - intros s' pc Hpc Hc. rewrite lookup_insert in Hpc. case_decide; simplify_eq; [done|].
    pose proof (inv_lock _ H s' pc Hpc Hc). congruence.
  - intros s' [= <-]. exists Locked. by rewrite lookup_insert_eq.
  - intros s' pc Hpc. rewrite lookup_insert in Hpc. case_decide; simplify_eq; [done|]. by apply (inv_local _ H s').
Qed.

(** A move of an instance in the critical section, in the form of the steps. *)
Ltac holder H Hpc :=
  pose proof (inv_lock _ H _ _ Hpc eq_refl) as Hl; pose proof (inv_local _ H _ _ Hpc) as Ho; simpl in Ho.

Lemma goto_holder st s pc' :
  build_inv st → b_lock st = Some s → critical pc' = true → local_ok pc' (b_entry st) → build_inv (goto s pc' st).
Proof. intros H Hl Hc Hok. pose proof (holder_moves st s pc' (b_entry st) H Hl id Hok) as Hm. rewrite Hc in Hm. by rewrite <- Hl in Hm. Qed.

Lemma step_inv s st st' : build_step s st st' → build_inv st → build_inv st'.
Proof.
  intros Hstep H. destruct Hstep as [Hn|Hpc Hfree|Hpc|Hpc|Hpc|v Hpc Hv|Hpc Hv|Hpc|Hpc|Hpc].
  - by apply enters.
  - by apply acquires.
  - holder H Hpc. by apply goto_holder.
  - holder H Hpc. symmetry in Ho. apply bool_decide_eq_true in Ho.
    pose proof (holder_moves st s Ready None H Hl) as Hm. simpl in Hm. rewrite <- Hl in Hm. apply Hm; [|done]. by rewrite Ho.
  - holder H Hpc. symmetry in Ho. apply bool_decide_eq_false in Ho. by apply goto_holder.
  - holder H Hpc. apply goto_holder; [done..|]. simpl. rewrite Hv in *. by destruct v.
  - holder H Hpc. pose proof (holder_moves st s Building (Some false) H Hl) as Hm. simpl in Hm. rewrite <- Hl in Hm.
    apply Hm; [|done]. by rewrite Hv.
  - holder H Hpc. pose proof (holder_moves st s Built (Some true) H Hl) as Hm. simpl in Hm. rewrite <- Hl in Hm. by apply Hm.
  - holder H Hpc. exact (holder_moves st s Succeeded (b_entry st) H Hl id Ho).
  - holder H Hpc. by apply holder_ends.
Qed.

Lemma fault_inv s st st' : build_fault s st st' → build_inv st → build_inv st'.
Proof.
  intros [pc Hpc Hor|pc Hpc Hne] H.
  - assert (Hc : critical pc = true) by (destruct Hor as [->|[[b ->]|[->| ->]]]; done).
    pose proof (inv_lock _ H _ _ Hpc Hc). by apply goto_holder.
  - destruct (critical pc) eqn:Ec; [apply holder_ends; [done|exact (inv_lock _ H _ _ Hpc Ec)]|].
    destruct pc; try done. by apply waiting_ends.
Qed.

Lemma reachable_inv e st : rtc any_step (start e) st → build_inv st.
Proof.
  apply (rtc_ind_r (λ st, build_inv st)); [apply start_inv|].
  intros st1 st2 _ [s [Hs|Hs]] IH; [by eapply step_inv|by eapply fault_inv].
Qed.

(** Only the holder of the lock changes the entry, and never a valid one. *)
Lemma entry_changes s st st' :
  build_inv st → build_step s st st' ∨ build_fault s st st' →
  b_entry st' = b_entry st ∨ b_entry st ≠ Some true ∧ b_lock st = Some s.
Proof.
  intros H [Hs|Hs]; [|left; by destruct Hs].
  destruct Hs as [Hn|Hpc Hfree|Hpc|Hpc|Hpc|v Hpc Hv|Hpc Hv|Hpc|Hpc|Hpc]; simpl; auto; right; holder H Hpc.
  - symmetry in Ho. apply bool_decide_eq_true in Ho. by rewrite Ho.
  - by rewrite Hv.
  - by rewrite Ho.
Qed.

(** The holder of the lock can always go on. *)
Lemma holder_goes_on st s pc :
  pc_at st s pc → critical pc = true → ∃ st', build_step s st st' ∧ (rank_at st' s < rank pc)%nat.
Proof.
  intros Hx Hc. unfold rank_at. destruct pc as [| |[]| | | | |]; try done.
  - eexists. split; [by apply step_inspect|]. simpl. rewrite lookup_insert_eq. simpl. lia.
  - eexists. split; [by apply step_drop|]. simpl. rewrite lookup_insert_eq. simpl. lia.
  - eexists. split; [by apply step_keep|]. simpl. rewrite lookup_insert_eq. simpl. lia.
  - destruct (b_entry st) as [v|] eqn:Ee; eexists; (split; [by first [by eapply step_exists|by apply step_enter]|]);
      simpl; rewrite lookup_insert_eq; simpl; lia.
  - eexists. split; [by apply step_validate|]. simpl. rewrite lookup_insert_eq. simpl. lia.
  - eexists. split; [by apply step_unlock|]. simpl. rewrite lookup_insert_eq. simpl. lia.
  - eexists. split; [by apply step_return_error|]. simpl. rewrite lookup_delete_eq. simpl. lia.
Qed.

(** [C20] However many instances start at once, and wherever they fail or
    crash: (1) no statement of one instance drops the index while another is building it; (2) a
    valid index is never touched again; (3) an instance for which the function returned without an
    error leaves a valid index, also when it found the remains of an interrupted build; (4) nobody
    is locked out: while an instance is in the function, the code of some instance has a step that
    brings it nearer to its end. *)
Theorem index_build_exclusive e st :
  rtc any_step (start e) st →
  (∀ s s' st', build_step s st st' → pc_at st s' Building → s ≠ s' → b_entry st' = Some false) ∧
  (∀ st', any_step st st' → b_entry st = Some true → b_entry st' = Some true) ∧
  (∀ s, pc_at st s Succeeded → b_entry st = Some true) ∧
  (∀ s pc, pc_at st s pc → pc ≠ Succeeded → ∃ s' st', build_step s' st st' ∧ (rank_at st' s' < rank_at st s')%nat).
Proof.
  intros Hr. pose proof (reachable_inv _ _ Hr) as H. split; [|split; [|split]].
  - intros s s' st' Hs Hb Hne. holder H Hb. destruct (entry_changes s st st' H (or_introl Hs)) as [->|[_ Hl']]; [done|]. congruence.
  - intros st' [s Hs] Ht. destruct (entry_changes s st st' H Hs) as [->|[Hn _]]; [done|]. by destruct Hn.
  - intros s Hs. exact (inv_local _ H _ _ Hs).
  - intros s pc Hpc Hne. destruct (b_lock st) as [h|] eqn:El.
    + destruct (inv_held _ H _ El) as (ph & Hh & Hc). destruct (holder_goes_on _ _ _ Hh Hc) as (st' & Hst & Hrk).
      exists h, st'. split; [done|]. unfold rank_at at 2. by rewrite Hh.
    + destruct (critical pc) eqn:Ec; [by rewrite (inv_lock _ H _ _ Hpc Ec) in El|]. destruct pc; try done.
      exists s, (goto s Locked (set_lock (Some s) st)). split; [by apply step_lock|].
      unfold rank_at. rewrite Hpc. simpl. rewrite lookup_insert_eq. simpl. lia.
Qed.

(** An interrupted build, then a start that repairs it while a third waits. *)
Definition ex_after_crash : build_state :=
  {| b_entry := Some true; b_lock := None; b_pcs := {[ 2%nat := Succeeded; 3%nat := Waiting ]} |}.

Lemma ex_after_crash_reached : rtc any_step (start None) ex_after_crash.
Proof.
  eapply rtc_l; [exists 1%nat; left; by apply step_call|]. eapply rtc_l; [exists 1%nat; left; by apply step_lock|].
  eapply rtc_l; [exists 1%nat; left; by apply step_inspect|]. eapply rtc_l; [exists 1%nat; left; by apply step_keep|].
  eapply rtc_l; [exists 1%nat; left; by apply step_enter|].
  eapply rtc_l; [exists 1%nat; right; by apply (fault_crash 1 _ Building)|].
  eapply rtc_l; [exists 2%nat; left; by apply step_call|]. eapply rtc_l; [exists 2%nat; left; by apply step_lock|].
  eapply rtc_l; [exists 3%nat; left; by apply step_call|].
  eapply rtc_l; [exists 2%nat; left; by apply step_inspect|]. eapply rtc_l; [exists 2%nat; left; by apply step_drop|].
  eapply rtc_l; [exists 2%nat; left; by apply step_enter|]. eapply rtc_l; [exists 2%nat; left; by apply step_validate|].
  eapply rtc_l; [exists 2%nat; left; by apply step_unlock|].
  match goal with |- rtc _ ?x ?y => replace x with y; [reflexivity|] end. vm_compute. reflexivity.
Qed.

Lemma index_build_exclusive_witness :
  b_entry ex_after_crash = Some true ∧
  ∃ s' st', build_step s' ex_after_crash st' ∧ (rank_at st' s' < rank_at ex_after_crash s')%nat.
Proof.
  destruct (index_build_exclusive None ex_after_crash ex_after_crash_reached) as (_ & _ & H3 & H4).
  split; [apply (H3 2%nat); reflexivity|]. apply (H4 3%nat Waiting); [reflexivity|discriminate].
Defined.
