(* ===== verification/Lifecycle.v ===== *)
(** * The process (main.go: main and the schedulers; server_lifecycle.go)

    The goroutines of one instance after its start: the workers, the handlers of requests, the
    background writes of the request log, and main, which serves until the context ends and then
    takes the process down.  [process_step] interleaves them.  A worker or a handler runs an
    [operation]; [E] is the rest of the world during it. *)
From Stdlib Require Import Ascii String.
From S2P Require Import Prelude GoStrings Paths Manifest Failure Json Lce ToolPolicy Sse Sessions SessionSteps.
From S2P Require Import Store Effects Leases QuotaLimits Quota IndexStatements IndexJobs IndexTool RootDeletion.
From S2P Require Import PlatformConfig RootAdmin Admission Auth Console RequestLogs McpServer Router Settings.
From S2P Require Import System Refinement Guarantees Isolation.

(** ** The workers *)

(** [startRootDeletionWorkers] starts [rootDeletionWorkerCount] loops beside its own and returns
    when all have returned: here each is a worker. *)
Inductive worker :=
| LeaderboardScheduler | HealthScheduler | MCPSessionSweeper | IndexJobSweeper
| RootDeletionWorker (i : nat) | RootDeletionPruner | PlatformConfigWorker | RequestLogReconciler | DebugServer.
#[export] Instance worker_eq_dec : EqDecision worker.
Proof. solve_decision. Defined.

Definition rootDeletionWorkerCount : nat := 2.
Definition started_workers : list worker :=
  [LeaderboardScheduler; HealthScheduler; MCPSessionSweeper; IndexJobSweeper] ++
  (RootDeletionWorker <$> seq 0 rootDeletionWorkerCount) ++
  [RootDeletionPruner; PlatformConfigWorker; RequestLogReconciler; DebugServer].

(** The loop of a worker: whether it works before its first tick, whether it looks at its context
    before it works, and what it does in one round.  The rows that others have locked and the
    answers of the probes are arbitrary. *)
Record scheduler := { at_once : bool; checks_ctx : bool; does : list operation → Prop }.

Definition startLeaderboardScheduler : scheduler :=
  {| at_once := false; checks_ctx := false; does := λ ops, ops = [OpLeaderboard] |}.
Definition startHealthScheduler : scheduler :=
  {| at_once := true; checks_ctx := false; does := λ ops, ∃ liveness failed, ops = [OpHealth liveness failed] |}.
Definition startMCPSessionSweeper : scheduler :=
  {| at_once := false; checks_ctx := false; does := λ ops, ops = [OpSweepSessions] |}.
Definition startIndexJobSweeper : scheduler :=
  {| at_once := true; checks_ctx := false; does := λ ops, ∃ locked, ops = [OpSweep locked; OpReconcile] |}.
Definition startRootDeletionWorkers : scheduler :=
  {| at_once := true; checks_ctx := true; does := λ ops, ∃ locked, ops = [OpDeletionWorker locked] |}.
Definition root_deletion_pruner : scheduler :=
  {| at_once := false; checks_ctx := false; does := λ ops, ∃ locked, ops = [OpPruneDeletions locked] |}.
Definition startPlatformConfigWorker : scheduler :=
  {| at_once := true; checks_ctx := true; does := λ ops, ∃ locked, ops = [OpConfigWorker locked] |}.
Definition startRequestLogReconciler : scheduler :=
  {| at_once := true; checks_ctx := false; does := λ ops, ops = [OpReconcileLogs] |}.
(** It serves profiles and metrics, which change nothing. *)
Definition debug_server : scheduler := {| at_once := false; checks_ctx := false; does := λ _, False |}.

Definition scheduler_of (k : worker) : scheduler :=
  match k with
  | LeaderboardScheduler => startLeaderboardScheduler | HealthScheduler => startHealthScheduler
  | MCPSessionSweeper => startMCPSessionSweeper | IndexJobSweeper => startIndexJobSweeper
  | RootDeletionWorker _ => startRootDeletionWorkers | RootDeletionPruner => root_deletion_pruner
  | PlatformConfigWorker => startPlatformConfigWorker | RequestLogReconciler => startRequestLogReconciler
  | DebugServer => debug_server
  end.
Definition works_at_once (k : worker) : bool := at_once (scheduler_of k).
Definition checks_context (k : worker) : bool := checks_ctx (scheduler_of k).
Definition round (k : worker) : list operation → Prop := does (scheduler_of k).

Inductive phase_of_worker := Fresh | Working (todo : list operation) | Selecting | Stopped.

(** ** The process *)

Inductive main_pc :=
| MServing           (* the select of serveUntilCancelled *)
| MClosing           (* the streams are closed, before server.Shutdown *)
| MShutdown          (* server.Shutdown waits for the handlers *)
| MReturned          (* serveUntilCancelled returned: the deferred function, before cancel() *)
| MWaiting           (* workers.Wait() *)
| MDraining          (* requestLogWrites.drain(), the admission is closed *)
| MDrained           (* before redisClient.Close() *)
| MRedisClosed       (* before db.Close() *)
| MExited.

Record process := {
  p_world : World;
  p_cancelled : bool;                       (* the context of main *)
  p_main : main_pc;
  p_workers : worker → phase_of_worker;
  p_listening : bool;                       (* whether the server accepts connections *)
  p_handlers : gmap nat incoming;           (* the requests in work *)
  p_abandoned : bool;                       (* the server returned while handlers may run *)
  p_writes : backgroundWrites;
  p_accepted : nat;                         (* writes that were admitted *)
  p_completed : nat;                        (* and those that have finished *)
  p_redis : bool; p_db : bool               (* whether the clients are open *)
}.

Definition set_world (w : World) (p : process) : process := {|
  p_world := w; p_cancelled := p_cancelled p; p_main := p_main p; p_workers := p_workers p;
  p_listening := p_listening p; p_handlers := p_handlers p; p_abandoned := p_abandoned p; p_writes := p_writes p;
  p_accepted := p_accepted p; p_completed := p_completed p; p_redis := p_redis p; p_db := p_db p |}.
Definition set_cancelled (p : process) : process := {|
  p_world := p_world p; p_cancelled := true; p_main := p_main p; p_workers := p_workers p;
  p_listening := p_listening p; p_handlers := p_handlers p; p_abandoned := p_abandoned p; p_writes := p_writes p;
  p_accepted := p_accepted p; p_completed := p_completed p; p_redis := p_redis p; p_db := p_db p |}.
Definition set_main (pc : main_pc) (p : process) : process := {|
  p_world := p_world p; p_cancelled := p_cancelled p; p_main := pc; p_workers := p_workers p;
  p_listening := p_listening p; p_handlers := p_handlers p; p_abandoned := p_abandoned p; p_writes := p_writes p;
  p_accepted := p_accepted p; p_completed := p_completed p; p_redis := p_redis p; p_db := p_db p |}.
Definition set_worker (k : worker) (ph : phase_of_worker) (p : process) : process := {|
  p_world := p_world p; p_cancelled := p_cancelled p; p_main := p_main p;
  p_workers := λ k', if decide (k = k') then ph else p_workers p k';
  p_listening := p_listening p; p_handlers := p_handlers p; p_abandoned := p_abandoned p; p_writes := p_writes p;
  p_accepted := p_accepted p; p_completed := p_completed p; p_redis := p_redis p; p_db := p_db p |}.
Definition set_server (listening abandoned : bool) (p : process) : process := {|
  p_world := p_world p; p_cancelled := p_cancelled p; p_main := p_main p; p_workers := p_workers p;
  p_listening := listening; p_handlers := p_handlers p; p_abandoned := abandoned; p_writes := p_writes p;
  p_accepted := p_accepted p; p_completed := p_completed p; p_redis := p_redis p; p_db := p_db p |}.
Definition set_handlers (h : gmap nat incoming) (p : process) : process := {|
  p_world := p_world p; p_cancelled := p_cancelled p; p_main := p_main p; p_workers := p_workers p;
  p_listening := p_listening p; p_handlers := h; p_abandoned := p_abandoned p; p_writes := p_writes p;
  p_accepted := p_accepted p; p_completed := p_completed p; p_redis := p_redis p; p_db := p_db p |}.
Definition set_writes (w : backgroundWrites) (accepted completed : nat) (p : process) : process := {|
  p_world := p_world p; p_cancelled := p_cancelled p; p_main := p_main p; p_workers := p_workers p;
  p_listening := p_listening p; p_handlers := p_handlers p; p_abandoned := p_abandoned p; p_writes := w;
  p_accepted := accepted; p_completed := completed; p_redis := p_redis p; p_db := p_db p |}.
Definition set_clients (redis db : bool) (p : process) : process := {|
  p_world := p_world p; p_cancelled := p_cancelled p; p_main := p_main p; p_workers := p_workers p;
  p_listening := p_listening p; p_handlers := p_handlers p; p_abandoned := p_abandoned p; p_writes := p_writes p;
  p_accepted := p_accepted p; p_completed := p_completed p; p_redis := redis; p_db := db |}.

(** The process when main reaches [serveUntilCancelled]. *)
Definition started (w : World) : process := {|
  p_world := w; p_cancelled := false; p_main := MServing; p_workers := λ _, Fresh; p_listening := true;
  p_handlers := ∅; p_abandoned := false; p_writes := {| bw_closed := false; bw_active := 0 |};
  p_accepted := 0; p_completed := 0; p_redis := true; p_db := true |}.

(** The critical section that [serveUntilCancelled] runs over the event streams. *)
Definition close_streams (w : World) : World :=
  let s := shared w in
  put_shared (with_proc (set_mcp (on_state close_all (mcp (s_proc s))) (s_proc s)) s) w.

Section process.
Context (E : Env) (strconv_Quote : string → string) (strict : list (string * json) → index_call) (metricsToken : string).

Definition perform (op : operation) (p : process) : process := set_world (run_operation E op (p_world p)).2 p.

(** One step of a worker. *)
Inductive worker_step (k : worker) (p : process) : process → Prop :=
| work_first ops :
    p_workers p k = Fresh → works_at_once k = true → checks_context k = false ∨ p_cancelled p = false →
    round k ops → worker_step k p (set_worker k (Working ops) p)
| work_wait : p_workers p k = Fresh → works_at_once k = false → worker_step k p (set_worker k Selecting p)
| work_not_begun :
    p_workers p k = Fresh → checks_context k = true → p_cancelled p = true → worker_step k p (set_worker k Stopped p)
| work_operation op ops :
    p_workers p k = Working (op :: ops) → worker_step k p (set_worker k (Working ops) (perform op p))
| work_done : p_workers p k = Working [] → worker_step k p (set_worker k Selecting p)
| work_tick ops :                            (* a select with two ready cases may take either *)
    p_workers p k = Selecting → checks_context k = false ∨ p_cancelled p = false → round k ops →
    worker_step k p (set_worker k (Working ops) p)
| work_stop : p_workers p k = Selecting → p_cancelled p = true → k ≠ DebugServer → worker_step k p (set_worker k Stopped p)
| debug_stop :                               (* its own serveUntilCancelled closes the streams, too *)
    p_workers p k = Selecting → p_cancelled p = true → k = DebugServer →
    worker_step k p (set_worker k Stopped (set_world (close_streams (p_world p)) p))
| debug_failed : p_workers p k = Selecting → k = DebugServer → worker_step k p (set_worker k Stopped p).

(** Requests and the writes they start. *)
Inductive request_step (p : process) : process → Prop :=
| request_begins id x :
    p_listening p = true → p_handlers p !! id = None → request_step p (set_handlers (<[id := x]> (p_handlers p)) p)
| request_writes id x :                      (* requestLogWrites.run *)
    p_handlers p !! id = Some x →
    request_step p (set_writes (bw_run (p_writes p)).2
                      (if (bw_run (p_writes p)).1 then S (p_accepted p) else p_accepted p) (p_completed p) p)
| request_ends id x :
    p_handlers p !! id = Some x →
    request_step p (set_handlers (delete id (p_handlers p)) (perform (OpServe strconv_Quote strict metricsToken x) p))
| write_ends : (0 < bw_active (p_writes p))%nat →
    request_step p (set_writes (bw_done (p_writes p)) (p_accepted p) (S (p_completed p)) p).

Definition all_stopped (p : process) : Prop := Forall (λ k, p_workers p k = Stopped) started_workers.

(** One step of main. *)
Inductive main_step (p : process) : process → Prop :=
| main_serve_failed :                        (* ListenAndServe returned *)
    p_main p = MServing → main_step p (set_main MReturned (set_server false true p))
| main_close_streams :
    p_main p = MServing → p_cancelled p = true →
    main_step p (set_main MClosing (set_world (close_streams (p_world p)) p))
| main_shutdown : p_main p = MClosing → main_step p (set_main MShutdown (set_server false (p_abandoned p) p))
| main_shut_down : p_main p = MShutdown → p_handlers p = ∅ → main_step p (set_main MReturned p)
| main_shutdown_timeout :                    (* after 20 seconds: server.Close() *)
    p_main p = MShutdown → main_step p (set_main MReturned (set_server false true p))
| main_cancel : p_main p = MReturned → main_step p (set_main MWaiting (set_cancelled p))
| main_seal :
    p_main p = MWaiting → all_stopped p →
    main_step p (set_main MDraining (set_writes (bw_seal (p_writes p)) (p_accepted p) (p_completed p) p))
| main_drained : p_main p = MDraining → bw_active (p_writes p) = 0%nat → main_step p (set_main MDrained p)
| main_close_redis : p_main p = MDrained → main_step p (set_main MRedisClosed (set_clients false (p_db p) p))
| main_close_db : p_main p = MRedisClosed → main_step p (set_main MExited (set_clients false false p)).

Inductive process_step (p : process) : process → Prop :=
| signal_received : process_step p (set_cancelled p)
| a_worker k p' : k ∈ started_workers → worker_step k p p' → process_step p p'
| a_request p' : request_step p p' → process_step p p'
| the_main p' : main_step p p' → process_step p p'.

(** ** What holds at every moment *)

Definition stage (pc : main_pc) : nat :=
  match pc with
  | MServing => 0 | MClosing => 1 | MShutdown => 2 | MReturned => 3 | MWaiting => 4 | MDraining => 5
  | MDrained => 6 | MRedisClosed => 7 | MExited => 8
  end.

Record orderly (p : process) : Prop := {
  o_listening : (2 ≤ stage (p_main p))%nat → p_listening p = false;
  o_handlers : (3 ≤ stage (p_main p))%nat → p_abandoned p = false → p_handlers p = ∅;
  o_cancelled : (4 ≤ stage (p_main p))%nat → p_cancelled p = true;
  o_workers : (5 ≤ stage (p_main p))%nat → all_stopped p ∧ bw_closed (p_writes p) = true;
  o_writes : (6 ≤ stage (p_main p))%nat → bw_active (p_writes p) = 0%nat;
  o_redis : p_redis p = false → (7 ≤ stage (p_main p))%nat;
  o_db : p_db p = false → (8 ≤ stage (p_main p))%nat;
  o_exited : (8 ≤ stage (p_main p))%nat → p_db p = false;
  o_count : p_accepted p = (p_completed p + bw_active (p_writes p))%nat
}.

Lemma started_orderly w : orderly (started w).
Proof. split; simpl; try lia; done. Qed.

(** A worker that has stopped stays so, and workers touch nothing of main's. *)
Lemma worker_step_frame k p p' : worker_step k p p' →
  p_main p' = p_main p ∧ p_cancelled p' = p_cancelled p ∧ p_listening p' = p_listening p ∧
  p_handlers p' = p_handlers p ∧ p_abandoned p' = p_abandoned p ∧ p_writes p' = p_writes p ∧
  p_accepted p' = p_accepted p ∧ p_completed p' = p_completed p ∧ p_redis p' = p_redis p ∧ p_db p' = p_db p ∧
  (∀ k', k' ≠ k → p_workers p' k' = p_workers p k') ∧ p_workers p k ≠ Stopped.
Proof.
  intros H.
  assert (Hn : p_workers p k ≠ Stopped) by (destruct H; congruence).
  destruct H; simpl; repeat split; try done; intros k' Hk; by rewrite decide_False.
Qed.

Lemma all_stopped_worker k p p' : k ∈ started_workers → worker_step k p p' → all_stopped p → False.
Proof.
  intros Hk H Ha. destruct (worker_step_frame _ _ _ H) as (_&_&_&_&_&_&_&_&_&_&_& Hn).
  unfold all_stopped in Ha. rewrite Forall_forall in Ha. by apply Hn, Ha.
Qed.

Lemma worker_orderly k p p' : k ∈ started_workers → worker_step k p p' → orderly p → orderly p'.
Proof.
  intros Hk H Ho. destruct (worker_step_frame _ _ _ H) as (E1&E2&E3&E4&E5&E6&E7&E8&E9&E10&_&_).
  split; rewrite ?E1, ?E2, ?E3, ?E4, ?E5, ?E6, ?E7, ?E8, ?E9, ?E10; try apply Ho.
  intros Hs. destruct (o_workers _ Ho Hs) as [Ha _]. by destruct (all_stopped_worker _ _ _ Hk H Ha).
Qed.

Lemma request_orderly p p' : request_step p p' → orderly p → orderly p'.
Proof.
  intros [id x Hl Hn|id x Hx|id x Hx|Hw] [H1 H2 H3 H4 H5 H6 H7 H9 H8]; split; simpl; try done.
  - intros Hs. rewrite H1 in Hl by lia. done.
  - intros Hs. destruct (H4 Hs) as [Ha Hc]. split; [done|]. unfold bw_run. by rewrite Hc.
  - intros Hs. destruct (H4 ltac:(lia)) as [Ha Hc]. unfold bw_run. rewrite Hc. simpl. auto.
  - unfold bw_run. destruct (bw_closed (p_writes p)); simpl; lia.
  - intros Hs Hab. rewrite (H2 Hs Hab) in Hx. done.
  - intros Hs. rewrite H5 by lia. done.
  - lia.
Qed.

Lemma main_orderly p p' : main_step p p' → orderly p → orderly p'.
Proof.
  intros H [H1 H2 H3 H4 H5 H6 H7 H9 H8].
  destruct H as [Hm|Hm Hc|Hm|Hm Hh|Hm|Hm|Hm Ha|Hm Ha|Hm|Hm]; rewrite Hm in *; simpl in *;
    split; simpl in *; try done; try lia; intros;
    try (by auto with lia); try (exfalso; (apply H6 in H || apply H7 in H); lia); auto with lia.
Qed.

Lemma step_orderly p p' : process_step p p' → orderly p → orderly p'.
Proof.
  intros [|k p1 Hk Hs|p1 Hs|p1 Hs] Ho.
  - destruct Ho; split; simpl; done.
  - by eapply worker_orderly.
  - by eapply request_orderly.
  - by eapply main_orderly.
Qed.

Lemma reachable_orderly w p : rtc process_step (started w) p → orderly p.
Proof.
  apply (rtc_ind_r (λ p, orderly p)); [apply started_orderly|]. intros p1 p2 _ Hs IH. by eapply step_orderly.
Qed.


(** ** The process can always end *)

(** [p'] differs from [p] only in its workers and its world. *)
Definition only_workers (p p' : process) : Prop :=
  p_main p' = p_main p ∧ p_cancelled p' = p_cancelled p ∧ p_handlers p' = p_handlers p ∧
  p_abandoned p' = p_abandoned p ∧ p_writes p' = p_writes p.
#[local] Instance only_workers_preorder : PreOrder only_workers.
Proof. split; [by intros p|]. unfold only_workers. intros p q r. naive_solver congruence. Qed.

Lemma worker_only k p p' : worker_step k p p' → only_workers p p'.
Proof. intros H. apply worker_step_frame in H as (?&?&?&?&?&?&_). by repeat split. Qed.

(** One more worker stops; those that have stopped stay. *)
Lemma finish_round k ops p :
  k ∈ started_workers → p_workers p k = Working ops → ∃ p', rtc process_step p p' ∧ only_workers p p' ∧
  p_workers p' k = Selecting ∧ ∀ k', k' ≠ k → p_workers p' k' = p_workers p k'.
Proof.
  intros Hk. revert p. induction ops as [|op ops IH]; intros p Hp.
  - exists (set_worker k Selecting p). assert (Hs : worker_step k p (set_worker k Selecting p)) by (by apply work_done).
    split; [by apply rtc_once, (a_worker p k)|]. split; [by eapply worker_only|]. simpl. rewrite decide_True by done.
    split; [done|]. intros k' Hk'. by rewrite decide_False.
  - set (p1 := set_worker k (Working ops) (perform op p)).
    assert (Hs : worker_step k p p1) by (by apply work_operation).
    destruct (IH p1) as (p' & Hr & Ho & Hsel & Hothers); [simpl; by rewrite decide_True|].
    exists p'. split; [eapply rtc_l; [by apply (a_worker p k)|done]|]. split; [etrans; [by eapply worker_only|done]|].
    split; [done|]. intros k' Hk'. rewrite Hothers by done. simpl. by rewrite decide_False.
Qed.

Lemma stop_selecting k p :
  k ∈ started_workers → p_workers p k = Selecting → p_cancelled p = true → ∃ p', process_step p p' ∧ only_workers p p' ∧
  p_workers p' k = Stopped ∧ ∀ k', k' ≠ k → p_workers p' k' = p_workers p k'.
Proof.
  intros Hk Hp Hc.
  assert (Hs : ∃ p', worker_step k p p' ∧ p_workers p' k = Stopped).
  { destruct (decide (k = DebugServer)).
    - eexists. split; [by apply debug_stop|]. simpl. by rewrite decide_True.
    - eexists. split; [by apply work_stop|]. simpl. by rewrite decide_True. }
  destruct Hs as (p' & Hs & Hstop). exists p'. split; [by apply (a_worker p k)|]. split; [by eapply worker_only|]. split; [done|].
  by apply worker_step_frame in Hs as (_&_&_&_&_&_&_&_&_&_& Ho & _).
Qed.

Lemma has_round k : k ≠ DebugServer → ∃ ops, round k ops.
Proof. destruct k; intros Hk; try done; unfold round; simpl; eauto. Unshelve. all: exact None || exact ∅. Qed.

Lemma stop_worker k p :
  k ∈ started_workers → p_cancelled p = true → ∃ p', rtc process_step p p' ∧ only_workers p p' ∧
  p_workers p' k = Stopped ∧ ∀ k', k' ≠ k → p_workers p' k' = p_workers p k'.
Proof.
  intros Hk Hc.
  assert (Hsel : ∀ p1, p_workers p1 k = Selecting → rtc process_step p p1 → only_workers p p1 →
    (∀ k', k' ≠ k → p_workers p1 k' = p_workers p k') → ∃ p', rtc process_step p p' ∧ only_workers p p' ∧
    p_workers p' k = Stopped ∧ ∀ k', k' ≠ k → p_workers p' k' = p_workers p k').
  { intros p1 H1 Hr Ho Hk1. destruct (stop_selecting k p1 Hk H1) as (p' & Hs & Ho' & Hst & Hk').
    { destruct Ho as (_ & -> & _). done. }
    exists p'. split; [by eapply rtc_r|]. split; [by etrans|]. split; [done|]. intros x Hx. by rewrite Hk', Hk1. }
  assert (Hwork : ∀ p1 ops, p_workers p1 k = Working ops → rtc process_step p p1 → only_workers p p1 →
    (∀ k', k' ≠ k → p_workers p1 k' = p_workers p k') → ∃ p', rtc process_step p p' ∧ only_workers p p' ∧
    p_workers p' k = Stopped ∧ ∀ k', k' ≠ k → p_workers p' k' = p_workers p k').
  { intros p1 ops H1 Hr Ho Hk1. destruct (finish_round k ops p1 Hk H1) as (p2 & Hr2 & Ho2 & Hs2 & Hk2).
    apply (Hsel p2); [done|by etrans|by etrans|]. intros x Hx. by rewrite Hk2, Hk1. }
  destruct (p_workers p k) as [|ops| |] eqn:Ep.
  - destruct (works_at_once k) eqn:Ew; [destruct (checks_context k) eqn:Ecc|].
    + assert (Hs : worker_step k p (set_worker k Stopped p)) by (by apply work_not_begun).
      exists (set_worker k Stopped p). split; [by apply rtc_once, (a_worker p k)|]. split; [by eapply worker_only|].
      simpl. rewrite decide_True by done. split; [done|]. intros k' Hk'. by rewrite decide_False.
    + destruct (has_round k) as [ops Hops]; [by intros ->|].
      assert (Hs : worker_step k p (set_worker k (Working ops) p)) by (apply work_first; auto).
      eapply (Hwork (set_worker k (Working ops) p)); [simpl; by rewrite decide_True|by apply rtc_once, (a_worker p k)|
        by eapply worker_only|]. intros k' Hk'. simpl. by rewrite decide_False.
    + assert (Hs : worker_step k p (set_worker k Selecting p)) by (by apply work_wait).
      apply (Hsel (set_worker k Selecting p)); [simpl; by rewrite decide_True|by apply rtc_once, (a_worker p k)|
        by eapply worker_only|]. intros k' Hk'. simpl. by rewrite decide_False.
  - by apply (Hwork p ops).
  - by apply (Hsel p).
  - by exists p.
Qed.

Lemma stop_workers l p :
  (∀ k, k ∈ l → k ∈ started_workers) → p_cancelled p = true →
  ∃ p', rtc process_step p p' ∧ only_workers p p' ∧ Forall (λ k, p_workers p' k = Stopped) l ∧
        (∀ k, p_workers p k = Stopped → p_workers p' k = Stopped).
Proof.
  revert p. induction l as [|k l IH]; intros p Hl Hc; [by exists p|].
  destruct (stop_worker k p) as (p1 & Hr & Ho & Hs & Hk); [apply Hl; left|done|].
  destruct (IH p1) as (p2 & Hr2 & Ho2 & Hs2 & Hk2); [intros x Hx; apply Hl; by right|by destruct Ho as (_ & -> & _)|].
  exists p2. split; [by etrans|]. split; [by etrans|]. split; [constructor; auto|].
  intros x Hx. apply Hk2. destruct (decide (x = k)) as [->|]; [done|]. by rewrite Hk.
Qed.

(** Handlers and writes finish. *)
Lemma finish_handlers n p :
  size (p_handlers p) = n → ∃ p', rtc process_step p p' ∧ p_handlers p' = ∅ ∧ p_main p' = p_main p ∧
  p_cancelled p' = p_cancelled p ∧ p_abandoned p' = p_abandoned p.
Proof.
  revert p. induction n as [|n IH]; intros p Hn; [exists p; apply map_size_empty_inv in Hn; by rewrite Hn|].
  destruct (map_choose (p_handlers p)) as (id & x & Hx); [by intros H0; rewrite H0, map_size_empty in Hn|].
  destruct (IH (set_handlers (delete id (p_handlers p)) (perform (OpServe strconv_Quote strict metricsToken x) p)))
    as (p' & Hr & Hh & Hrest); [simpl; rewrite map_size_delete_Some by eauto; lia|].
  exists p'. split; [eapply rtc_l; [by eapply a_request, request_ends|done]|]. done.
Qed.

Lemma finish_writes n p :
  bw_active (p_writes p) = n → ∃ p', rtc process_step p p' ∧ bw_active (p_writes p') = 0%nat ∧ p_main p' = p_main p ∧
  p_abandoned p' = p_abandoned p.
Proof.
  revert p. induction n as [|n IH]; intros p Hn; [by exists p|].
  destruct (IH (set_writes (bw_done (p_writes p)) (p_accepted p) (S (p_completed p)) p)) as (p' & Hr & Hh & Hrest);
    [simpl; by rewrite Hn|].
  exists p'. split; [eapply rtc_l; [apply a_request, write_ends; lia|done]|]. done.
Qed.

(** Main goes on to the end. *)
Lemma exit_from_drained p :
  p_main p = MDrained → ∃ p', rtc process_step p p' ∧ p_main p' = MExited ∧ p_abandoned p' = p_abandoned p.
Proof.
  intros Hm. exists (set_main MExited (set_clients false false (set_main MRedisClosed (set_clients false (p_db p) p)))).
  split; [|done]. eapply rtc_l; [by apply the_main, main_close_redis|]. by apply rtc_once, the_main, main_close_db.
Qed.

Lemma exit_from_draining p :
  p_main p = MDraining → ∃ p', rtc process_step p p' ∧ p_main p' = MExited ∧ p_abandoned p' = p_abandoned p.
Proof.
  intros Hm. destruct (finish_writes (bw_active (p_writes p)) p eq_refl) as (p4 & Hr4 & Hz & Hm4 & Hab4).
  destruct (exit_from_drained (set_main MDrained p4)) as (p' & Hr' & Hm' & Ha'); [done|].
  exists p'. split; [|split; [done|by rewrite Ha']]. etrans; [exact Hr4|].
  eapply rtc_l; [apply the_main, main_drained; [by rewrite Hm4|done]|done].
Qed.

Lemma exit_from_waiting p :
  p_main p = MWaiting → p_cancelled p = true →
  ∃ p', rtc process_step p p' ∧ p_main p' = MExited ∧ p_abandoned p' = p_abandoned p.
Proof.
  intros Hm Hc. destruct (stop_workers started_workers p) as (p2 & Hr2 & (Hm2 & _ & _ & Hab2 & _) & Hs2 & _); [done..|].
  set (p3 := set_main MDraining (set_writes (bw_seal (p_writes p2)) (p_accepted p2) (p_completed p2) p2)).
  assert (Hp3 : process_step p2 p3) by (apply the_main, main_seal; [by rewrite Hm2|done]).
  destruct (exit_from_draining p3) as (p' & Hr' & Hm' & Ha'); [done|].
  exists p'. split; [etrans; [exact Hr2|by eapply rtc_l]|]. split; [done|]. by rewrite Ha'.
Qed.

Lemma exit_from_returned p :
  p_main p = MReturned → ∃ p', rtc process_step p p' ∧ p_main p' = MExited ∧ p_abandoned p' = p_abandoned p.
Proof.
  intros Hm. destruct (exit_from_waiting (set_main MWaiting (set_cancelled p))) as (p' & Hr & Hp); [done..|].
  exists p'. split; [|done]. eapply rtc_l; [by apply the_main, main_cancel|done].
Qed.


(** ** The tables of the process *)

Lemma perform_db op p : env_respects (rtc step) E → rtc step (db_of (p_world p)) (db_of (p_world (perform op p))).
Proof. intros HE. exact (operation_steps E op HE (p_world p)). Qed.

Lemma process_step_db p p' :
  env_respects (rtc step) E → process_step p p' → rtc step (db_of (p_world p)) (db_of (p_world p')).
Proof.
  intros HE [|k p1 Hk Hs|p1 Hs|p1 Hs]; [reflexivity|..].
  - destruct Hs; try reflexivity. by apply perform_db.
  - destruct Hs; try reflexivity. by apply perform_db.
  - destruct Hs; reflexivity.
Qed.

End process.

(** ** Witnesses *)

Abbreviation ex_step := (process_step ex_env no_unicode ex_strict "").
Abbreviation ex_started := (started (ex_world empty_db)).

(** An instance whose index sweeper has worked once and which was then told to stop. *)
Lemma ex_life : ∃ p, rtc ex_step ex_started p ∧ p_main p = MExited ∧ p_abandoned p = false.
Proof.
  set (p1 := set_worker IndexJobSweeper (Working [OpSweep ∅; OpReconcile]) ex_started).
  set (p2 := set_worker IndexJobSweeper (Working [OpReconcile]) (perform ex_env (OpSweep ∅) p1)).
  set (p3 := set_main MClosing (set_world (close_streams (p_world p2)) (set_cancelled p2))).
  set (p4 := set_main MReturned (set_main MShutdown (set_server false false p3))).
  destruct (exit_from_returned ex_env no_unicode ex_strict "" p4 eq_refl) as (p & Hr & Hm & Ha).
  exists p. split; [|by split].
  assert (Hk : IndexJobSweeper ∈ started_workers) by (apply list_elem_of_In; simpl; auto 6).
  eapply rtc_l; [apply (a_worker _ _ _ _ _ IndexJobSweeper p1 Hk); by apply work_first; [| |left|exists ∅]|].
  eapply rtc_l; [apply (a_worker _ _ _ _ _ IndexJobSweeper p2 Hk); by apply work_operation|].
  eapply rtc_l; [apply signal_received|].
  eapply rtc_l; [apply the_main; by apply main_close_streams|].
  eapply rtc_l; [apply the_main; by apply main_shutdown|].
  eapply rtc_l; [apply the_main; by apply main_shut_down|]. exact Hr.
Qed.



