(* ===== verification/Metrics.v ===== *)
(** * Metrics (metrics.go, quota.go)

    The Prometheus series of the relay and the places that change them: the middleware around
    every request, the version gate, calls of LCE, the recovery of publications, and index bytes.
    Every distinct tuple of label values is a series that lives as long as the process, so the
    labels must come from a fixed set. *)
From Stdlib Require Import Ascii String SpecFloat.
From S2P Require Import Prelude GoStrings Floats Paths Manifest Failure Json Lce ToolPolicy Sse Sessions SessionSteps.
From S2P Require Import Store Effects Leases ClientVersion QuotaLimits Quota IndexStatements IndexJobs IndexTool.
From S2P Require Import RootDeletion PlatformConfig RootAdmin Admission Auth Console RequestLogs McpServer Router Settings.
Open Scope Z_scope.

(** ** Series *)

(** Counters by their label values; a histogram as the list of what it observed. *)
Record metrics := {
  metricPublicationRecovery : gmap string N;
  metricHTTPRequests : gmap (string * string * string) N;      (* path, method, status *)
  metricHTTPDuration : gmap string (list Z);
  metricVersionGate : gmap string N;
  metricLCEDuration : gmap string (list Z);
  metricLCEErrors : gmap string N;
  metricIndexBytes : spec_float
}.

Definition no_metrics : metrics := {|
  metricPublicationRecovery := ∅; metricHTTPRequests := ∅; metricHTTPDuration := ∅; metricVersionGate := ∅;
  metricLCEDuration := ∅; metricLCEErrors := ∅; metricIndexBytes := S754_zero false |}.

(** [WithLabelValues(k).Inc()] and [WithLabelValues(k).Observe(d)] *)
Definition Inc {K} `{Countable K} (k : K) (m : gmap K N) : gmap K N := <[k := (default 0 (m !! k) + 1)%N]> m.
Definition Observe (k : string) (d : Z) (m : gmap string (list Z)) : gmap string (list Z) :=
  <[k := default [] (m !! k) ++ [d]]> m.

(** [metricPublicationRecovery.WithLabelValues(result).Inc()], with overdue or deferred *)
Definition recordPublicationRecovery (result : string) (m : metrics) : metrics := {|
  metricPublicationRecovery := Inc result (metricPublicationRecovery m); metricHTTPRequests := metricHTTPRequests m;
  metricHTTPDuration := metricHTTPDuration m; metricVersionGate := metricVersionGate m;
  metricLCEDuration := metricLCEDuration m; metricLCEErrors := metricLCEErrors m; metricIndexBytes := metricIndexBytes m |}.

Definition recordVersionGate (result : string) (m : metrics) : metrics :=
  if str_eqb result "" then m else {|
  metricPublicationRecovery := metricPublicationRecovery m; metricHTTPRequests := metricHTTPRequests m;
  metricHTTPDuration := metricHTTPDuration m; metricVersionGate := Inc result (metricVersionGate m);
  metricLCEDuration := metricLCEDuration m; metricLCEErrors := metricLCEErrors m; metricIndexBytes := metricIndexBytes m |}.

Definition observeLCECall (tool : string) (duration : Z) (failed : bool) (m : metrics) : metrics := {|
  metricPublicationRecovery := metricPublicationRecovery m; metricHTTPRequests := metricHTTPRequests m;
  metricHTTPDuration := metricHTTPDuration m; metricVersionGate := metricVersionGate m;
  metricLCEDuration := Observe tool duration (metricLCEDuration m);
  metricLCEErrors := if failed then Inc tool (metricLCEErrors m) else metricLCEErrors m;
  metricIndexBytes := metricIndexBytes m |}.

(** [metricIndexBytes.Add(float64(n))] *)
Definition add_index_bytes (n : Z) (m : metrics) : metrics := {|
  metricPublicationRecovery := metricPublicationRecovery m; metricHTTPRequests := metricHTTPRequests m;
  metricHTTPDuration := metricHTTPDuration m; metricVersionGate := metricVersionGate m;
  metricLCEDuration := metricLCEDuration m; metricLCEErrors := metricLCEErrors m;
  metricIndexBytes := SFadd prec64 emax64 (metricIndexBytes m) (binary_normalize prec64 emax64 n 0 false) |}.

(** ** chargeIndexBytes (quota.go) *)

(** The line that is logged about a decision, if any. *)
Definition charge_event (tenant org tier : string) (bytes : Z) (d : indexQuotaDecision) : option (string * list string) :=
  let common := ["user_id"; tenant; "tenant"; tenant; "org"; org; "tier"; normalizeTier tier; "bytes"; FormatInt bytes] in
  if iq_Unavailable d then Some ("index_quota_unavailable", common)
  else if iq_Allowed d then None
  else Some ("index_quota_rejected", common ++ ["used"; FormatInt (iq_Used d); "limit"; FormatInt (iq_Limit d)]).

Definition charge_metrics (d : indexQuotaDecision) (m : metrics) : metrics :=
  if iq_Allowed d && (0 <? iq_Charged d) then add_index_bytes (iq_Charged d) m else m.

Definition chargeIndexBytes (E : Env) (tenant org tier : string) (bytes : Z) (m : metrics)
    : M (indexQuotaDecision * option (string * list string) * metrics) :=
  d ← chargeIndexBytesQuota E tenant org tier bytes;
  mret (d, charge_event tenant org tier bytes d, charge_metrics d m).

(** ** The middleware *)

(** The route template that gin reports; the empty text where no route matched. *)
Definition FullPath (r : route) : string :=
  match r with
  | Metrics => "/metrics" | Healthz => "/healthz"
  | GetModelConfig | SaveModelConfig => "/internal/platform-model-config"
  | GetVersionPolicy | SaveVersionPolicy => "/internal/client-version-policy"
  | McpPost | McpDelete | McpGet => "/mcp"
  | ClearIndex => "/mcp/clear-index" | TenantStats => "/mcp/tenant-stats" | ListRoots => "/mcp/roots"
  | DismissRootFailure => "/mcp/dismiss-root-failure" | DeleteRoot => "/mcp/delete-root"
  | CreateRootDeletion | ListRootDeletions => "/mcp/root-deletions"
  | NoRoute => ""
  end.

(** [c.Writer.Status()] after a response. *)
Definition post_status (r : post_reply) : Z :=
  match r with
  | Refused f => http_code (rf_http f)
  | HttpError status _ _ => status
  | Accepted => 202
  | Initialized _ | ToolList _ | ToolCalled _ => 200
  end.
Definition console_status (r : console_reply) : Z :=
  match r with ConsoleHttp h => http_code h | ConsoleOperation status _ | ConsoleData status _ => status end.
(** A stream whose client went away had been answered with 200. *)
Definition Status (a : response) : Z :=
  match a with
  | RHttp h | RRoots h _ | RDeletion h _ | RDeletions h _ => http_code h
  | RRefused f => http_code (rf_http f)
  | RConsole c => console_status c
  | RPost p => post_status p
  | RStatus status => status
  | RStream status _ => if status =? 499 then 200 else status
  | RMetrics => 200
  end.

(** The context value that the handler has set; a request that was refused has not reached it. *)
Definition context_path (r : route) (x : incoming) (a : response) : string :=
  match a with RRefused _ => "" | _ => logged_path r x end.

(** A panic unwinds through the middleware, which then counts nothing; the recovery around it
    answers 500 without a body. *)
Definition panicked (a : response) : bool :=
  match a with RHttp h => (http_code h =? http_code stats_panic) && bool_decide (http_body h = []) | _ => false end.

Definition metricsMiddleware (token : string) (x : incoming) (a : response) (duration : Z) (m : metrics) : metrics :=
  if panicked a then m else
  let q := in_request x in
  let r := find_route (routes token) (q_method q) (q_path q) in
  let path := metricsPathLabel (context_path r x a) (FullPath r) in {|
  metricPublicationRecovery := metricPublicationRecovery m;
  metricHTTPRequests := Inc (path, q_method q, FormatInt (Status a)) (metricHTTPRequests m);
  metricHTTPDuration := Observe path duration (metricHTTPDuration m);
  metricVersionGate := metricVersionGate m; metricLCEDuration := metricLCEDuration m;
  metricLCEErrors := metricLCEErrors m; metricIndexBytes := metricIndexBytes m |}.

(** Requests one after the other, each with its response and duration. *)
Definition count_requests (token : string) (served : list (incoming * response * Z)) (m : metrics) : metrics :=
  foldl (λ m s, metricsMiddleware token s.1.1 s.1.2 s.2 m) m served.

(** ** The labels of paths *)

Definition route_templates : list string :=
  ["/metrics"; "/healthz"; "/internal/platform-model-config"; "/internal/client-version-policy"; "/mcp";
   "/mcp/clear-index"; "/mcp/tenant-stats"; "/mcp/roots"; "/mcp/dismiss-root-failure"; "/mcp/delete-root";
   "/mcp/root-deletions"].
Definition path_labels : list string :=
  "unmatched" :: "/mcp/session/terminate" :: "/mcp/session/listen" :: route_templates ++ request_paths.

Lemma FullPath_template r : FullPath r = "" ∨ FullPath r ∈ route_templates.
Proof. destruct r; simpl; [right; set_solver..|by left]. Qed.

Lemma logged_path_label r x : logged_path r x = "" ∨ logged_path r x ∈ path_labels.
Proof.
  unfold logged_path, path_labels. destruct r; try (by left); [|right; set_solver|right; set_solver].
  destruct (_ || _); [by left|]. destruct (cb_rpc (in_client x)) as [rpc|]; [|by left].
  right. pose proof (request_path_bounded rpc). rewrite !elem_of_cons, elem_of_app. auto 6.
Qed.

Lemma path_label_bounded r x a : metricsPathLabel (context_path r x a) (FullPath r) ∈ path_labels.
Proof.
  unfold metricsPathLabel.
  assert (Hc : context_path r x a = "" ∨ context_path r x a ∈ path_labels)
    by (unfold context_path; destruct a; auto using logged_path_label).
  destruct (negb (str_eqb (context_path r x a) "")) eqn:E1.
  { apply negb_true_iff, str_eqb_false in E1. by destruct Hc. }
  destruct (negb (str_eqb (FullPath r) "")) eqn:E2; [|left].
  apply negb_true_iff, str_eqb_false in E2. destruct (FullPath_template r) as [|H]; [done|].
  unfold path_labels. rewrite !elem_of_cons, elem_of_app. auto 6.
Qed.

(** ** Counting *)

(** The sum over all series of a counter. *)
Definition total {K} `{Countable K} (m : gmap K N) : N := map_fold (λ _ n acc, n + acc)%N 0%N m.

Lemma total_insert_new {K} `{Countable K} (m : gmap K N) k n : m !! k = None → total (<[k := n]> m) = (n + total m)%N.
Proof. intros Hk. unfold total. apply map_fold_insert_L; [intros; lia|done]. Qed.

Lemma total_Inc {K} `{Countable K} (k : K) (m : gmap K N) : total (Inc k m) = (total m + 1)%N.
Proof.
  unfold Inc. destruct (m !! k) as [n|] eqn:E; simpl.
  - rewrite <- (insert_delete_eq m k), total_insert_new by apply lookup_delete_eq.
    rewrite <- (insert_id m k n E) at 2. rewrite <- (insert_delete_eq m k n), total_insert_new by apply lookup_delete_eq. lia.
  - rewrite total_insert_new by done. lia.
Qed.

Lemma count_requests_app token l k m : count_requests token (l ++ k) m = count_requests token k (count_requests token l m).
Proof. unfold count_requests. by rewrite foldl_app. Qed.

(** [C37] Whatever clients send, in the right or the wrong order and to any
    path: the counter of requests adds up to the number of requests that were answered without a
    panic, with one observed duration for each, and the path labels of all series are taken from a fixed list of route
    templates and published tools; a path of a client never becomes a label. *)
Theorem request_metrics_exact token served :
  let m := count_requests token served no_metrics in
  let counted := filter (λ s, panicked s.1.2 = false) served in
  total (metricHTTPRequests m) = N.of_nat (length counted) ∧
  (∀ path method status, is_Some (metricHTTPRequests m !! (path, method, status)) → path ∈ path_labels) ∧
  (∀ path, is_Some (metricHTTPDuration m !! path) → path ∈ path_labels) ∧
  (map_fold (λ _ l n, length l + n) 0 (metricHTTPDuration m) = length counted)%nat.
Proof.
  cbv zeta. induction served as [|[[x a] d] served IH] using rev_ind; [|rewrite count_requests_app].
  { repeat split; try done; intros; simplify_map_eq; by destruct H. }
  set (m := count_requests token served no_metrics) in *. destruct IH as (H1 & H2 & H3 & H4).
  rewrite filter_app, length_app. unfold count_requests, metricsMiddleware. cbn [foldl fst snd].
  rewrite filter_cons, filter_nil. cbn [fst snd]. destruct (panicked a); cbn -[Inc Observe path_labels filter].
  { rewrite Nat.add_0_r. by split. }
  set (r := find_route _ _ _). pose proof (path_label_bounded r x a) as Hp.
  set (path := metricsPathLabel _ _) in *. split; [|split; [|split]].
  - rewrite total_Inc, H1. simpl. lia.
  - intros p me st [n Hn]. unfold Inc in Hn. rewrite lookup_insert in Hn. case_decide; [by simplify_eq|eauto].
  - intros p [n Hn]. unfold Observe in Hn. rewrite lookup_insert in Hn. case_decide; [by simplify_eq|eauto].
  - rewrite <- H4. clear H4. unfold Observe.
    destruct (metricHTTPDuration m !! path) as [l|] eqn:E; simpl.
    + rewrite <- (insert_delete_eq _ path), map_fold_insert_L; [|intros; lia|apply lookup_delete_eq].
      rewrite <- (insert_id (metricHTTPDuration m) path l E) at 2. rewrite <- (insert_delete_eq (metricHTTPDuration m) path l).
      rewrite map_fold_insert_L; [|intros; lia|apply lookup_delete_eq]. rewrite length_app. simpl. lia.
    + rewrite map_fold_insert_L; [simpl; lia|intros; lia|done].
Qed.

(** ** The label of the method *)

(** A request that matches no route, with method [method]. *)
Definition stray (x : incoming) (method : string) : incoming := {|
  in_request := {| q_method := method; q_path := "/"; q_authorization := q_authorization (in_request x);
                   q_client_version := q_client_version (in_request x); q_console_token := q_console_token (in_request x);
                   q_session := q_session (in_request x); q_accept := q_accept (in_request x) |};
  in_operation := in_operation x; in_ip := in_ip x; in_client := in_client x; in_save := in_save x;
  in_version := in_version x; in_root := in_root x; in_deletion := in_deletion x |}.

Lemma stray_unrouted token method : find_route (routes token) method "/" = NoRoute.
Proof. unfold routes. destruct (str_eqb token ""); simpl; by rewrite ?andb_false_r. Qed.

(** [C38] The method, too, is a label, and it is taken as the client sent
    it: requests to a path without a route, which need no key, make a new series of
    relay_http_requests_total for every new method. *)
Theorem method_label_unbounded token x a d methods :
  panicked a = false → NoDup methods →
  let m := metricHTTPRequests (count_requests token ((λ method, (stray x method, a, d)) <$> methods) no_metrics) in
  size m = length methods ∧ ∀ me, me ∈ methods → is_Some (m !! ("unmatched", me, FormatInt (Status a))).
Proof.
  intros Ha Hnd.
  assert (H : let m := metricHTTPRequests (count_requests token ((λ method, (stray x method, a, d)) <$> methods) no_metrics) in
    size m = length methods ∧ (∀ me, me ∈ methods → is_Some (m !! ("unmatched", me, FormatInt (Status a)))) ∧
    ∀ p me s, is_Some (m !! (p, me, s)) → me ∈ methods); [|by destruct H as (? & ? & _)].
  revert Hnd. induction methods as [|me methods IH] using rev_ind; intros Hnd.
  { split; [done|]. split; [intros me Hme; by apply elem_of_nil in Hme|]. intros p me s [n Hn]. done. }
  apply NoDup_app in Hnd as (Hnd & Hnew & _). destruct (IH Hnd) as (Hs & Hall & Hk). clear IH.
  rewrite fmap_app, count_requests_app. set (m := count_requests token _ no_metrics) in *.
  unfold count_requests, metricsMiddleware. cbn [foldl fst snd fmap list_fmap]. rewrite Ha. cbn -[Inc Observe routes metricsPathLabel]. rewrite stray_unrouted.
  assert (metricsPathLabel (context_path NoRoute (stray x me) a) (FullPath NoRoute) = "unmatched") as ->
    by (unfold context_path; by destruct a).
  assert (Hfresh : metricHTTPRequests m !! ("unmatched", me, FormatInt (Status a)) = None).
  { apply eq_None_not_Some. intros Hsome. apply (Hnew me); [by eapply Hk|by left]. }
  unfold Inc. split; [|split].
  - rewrite map_size_insert_None, Hs, length_app by done. simpl. lia.
  - intros me' Hme. apply elem_of_app in Hme as [Hme|Hme]; [|apply list_elem_of_singleton in Hme as ->; rewrite lookup_insert_eq; eauto].
    rewrite lookup_insert. case_decide; eauto.
  - intros p me' s. rewrite lookup_insert. case_decide; simplify_eq; [set_solver|]. intros Hsome. apply elem_of_app. left. by eapply Hk.
Qed.

Lemma method_label_unbounded_witness :
  let x := {| in_request := {| q_method := ""; q_path := ""; q_authorization := ""; q_client_version := "";
                q_console_token := ""; q_session := ""; q_accept := "" |};
              in_operation := ""; in_ip := ""; in_client := {| cb_failed := false; cb_len := 0; cb_rpc := None |};
              in_save := None; in_version := None; in_root := None; in_deletion := None |} in
  size (metricHTTPRequests (count_requests "" ((λ method, (stray x method, RStatus 401, 1)) <$> ["A1"; "A2"; "A3"]) no_metrics))
  = 3%nat.
Proof.
  intros x. exact (proj1 (method_label_unbounded "" x (RStatus 401) 1 ["A1"; "A2"; "A3"] eq_refl ltac:(repeat constructor; set_solver))).
Defined.
