(* ===== verification/Transport.v ===== *)
(** * Handlers over the real client of LCE

    The handlers call LCE through [callTool] of [Effects], where the environment decides the
    reply.  Here the environment decides as the client of main.go does: each call goes through
    [LceClient.callToolWithTimeout], with its sessions, signatures and retries, and a call of the
    configuration endpoint through [platform_call].  What was proved for all environments holds
    for this one; in addition, what goes over the wire is known. *)
From Stdlib Require Import Ascii String.
From S2P Require Import Prelude GoStrings Paths Manifest Failure Json Utf8 Lce ToolPolicy Sse Sessions SessionSteps.
From S2P Require Import Store Effects Base64 TenantAssertion LceClient QuotaLimits Quota IndexStatements IndexJobs.
From S2P Require Import IndexTool RootDeletion PlatformConfig RootAdmin Admission Auth Console RequestLogs McpServer Router.
From S2P Require Import Triples Sha256 Settings Guarantees AuthProperties ControlProperties Isolation Requests.
Open Scope Z_scope.

(** ** The configuration endpoint (platform_model_config.go) *)

Definition maxPlatformModelConfigBody : Z := Z.shiftl 64 10.

Record platform_request := {
  pr_method : string; pr_url : string; pr_token : string; pr_content_type : option string; pr_body : string
}.

(** What [Do] gives: an error, or the status and the body, which may break off with an error. *)
Definition platform_response : Type := result string (Z * (string * option string)).

(** [io.ReadAll(io.LimitReader(body, n))]: an error behind the limit is not seen. *)
Definition read_limited (n : nat) (body : string * option string) : result string string :=
  let '(bytes, broken) := body in
  match broken with
  | Some e => if (String.length bytes <? n)%nat then Err e else Ok (String.substring 0 n bytes)
  | None => Ok (String.substring 0 n bytes)
  end.

(** [callLCEPlatformConfig]: the requests that are sent, and the result.  [bad_url] is the error of
    [http.NewRequestWithContext]. *)
Definition platform_call (cfg : settings) (bad_url : string → option string) (Do : platform_request → platform_response)
    (method : string) (body : option json) : list platform_request * result string (string * Z) :=
  if str_eqb (TrimSpace (lcePlatformConfigToken cfg)) "" then ([], Err "LCE platform config token is not configured")
  else match bad_url (lcePlatformConfigURL cfg) with
  | Some e => ([], Err e)
  | None =>
      let req := {| pr_method := method; pr_url := lcePlatformConfigURL cfg; pr_token := lcePlatformConfigToken cfg;
                    pr_content_type := (λ _, "application/json") <$> body; pr_body := from_option marshal "" body |} in
      ([req], match Do req with
              | Err e => Err e
              | Ok (status, body) =>
                  match read_limited (Z.to_nat (maxPlatformModelConfigBody + 1)) body with
                  | Err e => Err e
                  | Ok data => if maxPlatformModelConfigBody <? len data
                               then Err "LCE platform config response too large" else Ok (data, status)
                  end
              end)
  end.

(** Only the request for the current configuration has no body; it is a GET. *)
Definition method_and_body (body : list (string * json)) : string * option json :=
  match body with [] => ("GET", None) | _ => ("POST", Some (JObj body)) end.

(** ** The environment over the wire *)

(** The surroundings and the state of the client at each operation of a handler; between two of
    them the other requests of the process use it. *)
Record transport := {
  t_lce : nat → LceClient.Lce;
  t_client : nat → mcpClient;
  t_unmarshal : string → option json;
  t_settings : settings;
  t_bad_url : string → option string;
  t_platform : nat → platform_request → platform_response
}.

Section transport.
Context (T : transport).

Definition client_call (n : nat) (req : lce_request) : result error (string * bool) * CWorld :=
  callToolWithTimeout (t_unmarshal T) (t_lce T n) (lr_tool req) (lr_args req)
    {| client := t_client T n; tick := 0; sent := [] |}.

(** What [callToolWithTimeout] returns to the handlers. *)
Definition transport_reply (n : nat) (req : lce_request) : lce_reply :=
  match (client_call n req).1 with
  | Ok (text, isError) => Ok {| Content := {| raw := text; decoded := t_unmarshal T text |}; IsError := isError |}
  | Err e => Err (error_text e)
  end.

(** The HTTP requests of a call, with their replies. *)
Definition on_wire (n : nat) (req : lce_request) : list (http_out * http_reply) := sent (client_call n req).2.

Definition platform_exchange (n : nat) (body : list (string * json)) : list platform_request * result string (string * Z) :=
  let '(method, body) := method_and_body body in platform_call (t_settings T) (t_bad_url T) (t_platform T n) method body.
Definition platform_sent (n : nat) (body : list (string * json)) : list platform_request := (platform_exchange n body).1.
Definition platform_reply (n : nat) (body : list (string * json)) : result string (Z * content) :=
  match (platform_exchange n body).2 with
  | Ok (data, status) => Ok (status, {| raw := data; decoded := t_unmarshal T data |})
  | Err e => Err e
  end.

Definition transported (E : Env) : Env := {|
  env_now := env_now E; env_fault := env_fault E; env_uuid := env_uuid E; env_lce := transport_reply;
  env_step := env_step E; env_polls := env_polls E; env_config := env_config E; env_platform := platform_reply;
  env_try_lock := env_try_lock E; env_uuid_parse := env_uuid_parse E; env_uuid_Validate := env_uuid_Validate E;
  env_tools := env_tools E; env_select := env_select E; env_write := env_write E; env_canceled := env_canceled E;
  env_gcm_Open := env_gcm_Open E; env_unicode_lower := env_unicode_lower E; env_unicode_upper := env_unicode_upper E |}.

(** Every instance signs with [secret], at times that the assertion can express. *)
Record signing (secret : string) : Prop := {
  sg_secret : ∀ n, lce_signer (t_lce T n) = Some secret;
  sg_time : ∀ n k, in_int64 (lce_now (t_lce T n) k + tenantAssertionTTL) = true
}.

(** An HTTP request that carries the call [req], signed for tenant [u]. *)
Definition carries (secret u : string) (req : lce_request) (q : http_out) : Prop :=
  (∃ id, rq_body q = marshalMCPToolCallBody id (lr_tool req) (lr_args req)) ∧
  ∃ token p, rq_authorization q = "Bearer " +:+ token ∧ verify secret token = Some p ∧ Tenant p = u.


(** ** The secret decides what the relay may do *)

Lemma platform_exchange_sent n body q :
  q ∈ platform_sent n body → pr_token q = lcePlatformConfigToken (t_settings T) ∧ TrimSpace (pr_token q) ≠ "".
Proof.
  unfold platform_sent, platform_exchange, platform_call. destruct (method_and_body body) as [m b].
  destruct (str_eqb (TrimSpace _) "") eqn:E; [by intros H%elem_of_nil|]. apply str_eqb_false in E.
  destruct (t_bad_url T _); [by intros H%elem_of_nil|]. cbn [fst]. intros ->%list_elem_of_singleton. done.
Qed.

Lemma platform_reply_ok n body status c :
  platform_reply n body = Ok (status, c) → len (raw c) ≤ maxPlatformModelConfigBody ∧ ∃ q, platform_sent n body = [q].
Proof.
  unfold platform_reply, platform_sent, platform_exchange, platform_call. destruct (method_and_body body) as [m b].
  destruct (str_eqb (TrimSpace _) ""); [done|]. destruct (t_bad_url T _); [done|]. cbn [fst snd].
  destruct (t_platform T n _) as [[st bd]|]; [|done]. destruct (read_limited _ bd) as [data|]; [|done].
  destruct (maxPlatformModelConfigBody <? len data) eqn:E; [done|]. intros [= <- <-]. apply Z.ltb_ge in E. eauto.
Qed.

(** Without an answer of LCE nothing is saved. *)
Lemma unreachable_saves_nothing E q r w :
  (∀ n body status c, env_platform E n body ≠ Ok (status, c)) →
  (∀ n s, platform_config_jobs (s_db (env_step E n s)) = platform_config_jobs (s_db s)) → sr_Action r ≠ "recover" →
  platform_config_jobs (db_of (handleSavePlatformModelConfig E q (Some r) w).2) = platform_config_jobs (db_of w).
Proof.
  intros Hno HE Hr. destruct (triple_handle E r (platform_config_jobs (db_of w)) HE q Hr w) as [H _]; [by left|].
  destruct H as [H|(id & row & _ & (_ & _ & (n & b & data & op & Hp & _) & _) & _)]; [exact H|]. by apply Hno in Hp.
Qed.

(** [C26] What LCE_TENANT_ASSERTION_SECRET decides.  Every request to the
    configuration endpoint of LCE carries the token that is derived from the secret, and an answer
    that is used has at most 64 KiB and belongs to exactly one such request.  Without the secret the
    relay listens on a loopback address only, sends no configuration request at all, and no save
    from the console, whatever its token, adds a configuration job. *)
Theorem config_calls_guarded Getenv ParseDuration SplitHostPort IsLoopbackIP offset E :
  loadConfig Getenv ParseDuration SplitHostPort IsLoopbackIP offset = Ok (t_settings T) →
  (∀ n s, platform_config_jobs (s_db (env_step E n s)) = platform_config_jobs (s_db s)) →
  let secret := Getenv "LCE_TENANT_ASSERTION_SECRET" in
  (∀ n body q, q ∈ platform_sent n body →
     secret ≠ "" ∧ pr_token q = sha256_hex ("lce-platform-model-config-auth:" +:+ secret)) ∧
  (∀ n body status c, env_platform (transported E) n body = Ok (status, c) →
     len (raw c) ≤ maxPlatformModelConfigBody ∧ ∃ q, platform_sent n body = [q]) ∧
  (secret = "" →
     isLoopbackServerAddr SplitHostPort IsLoopbackIP (serverAddr (t_settings T)) = true ∧
     (∀ n body, platform_sent n body = []) ∧
     ∀ q r w, sr_Action r ≠ "recover" →
       platform_config_jobs (db_of (handleSavePlatformModelConfig (transported E) q (Some r) w).2)
       = platform_config_jobs (db_of w)).
Proof.
  intros Hl HE. cbv zeta. pose proof (unsigned_only_on_loopback _ _ _ _ _ _ Hl) as [Hlo _].
  destruct (loadConfig_token _ _ _ _ _ _ Hl) as [Htok Hsig].
  assert (Hnone : Getenv "LCE_TENANT_ASSERTION_SECRET" = "" → ∀ n body, platform_sent n body = []).
  { intros Hs n body. destruct (platform_sent n body) as [|q l] eqn:Eq; [done|].
    destruct (platform_exchange_sent n body q) as [Ht Hne]; [rewrite Eq; by left|]. by rewrite Ht, Htok, Hs in Hne. }
  split; [|split].
  - intros n body q Hq. destruct (decide (Getenv "LCE_TENANT_ASSERTION_SECRET" = "")) as [Hs|Hs].
    { rewrite (Hnone Hs) in Hq. by apply elem_of_nil in Hq. }
    apply platform_exchange_sent in Hq as [-> _]. rewrite Htok. apply str_eqb_false in Hs as Hs'. by rewrite Hs'.
  - intros n body status c. apply platform_reply_ok.
  - intros Hs. rewrite (Hsig Hs) in Hlo. split; [exact Hlo|]. split; [by apply Hnone|]. intros q r w.
    apply unreachable_saves_nothing; [|exact HE]. intros n body status c H.
    apply platform_reply_ok in H as [_ [q' Hq]]. by rewrite (Hnone Hs) in Hq.
Qed.
End transport.

(** Alice clears her index over the client of the examples: LCE has lost the session, so the call
    is sent twice, both times signed for alice. *)
Definition ex_getenv_local (key : string) : string := "".
Definition ex_loaded : result error settings := loadConfig ex_getenv_local (λ _, None) (λ _, Some "127.0.0.1") (str_eqb "127.0.0.1") 28800.
Definition ex_settings : settings := Eval vm_compute in
  match ex_loaded with
  | Ok s => s
  | Err _ => {| serverAddr := ""; lceMCPURL := ""; lceHealthURL := ""; lcePlatformConfigURL := "";
                lcePlatformConfigToken := ""; tenantAssertions := None; trustedProxies := []; debugCapturePaths := ∅;
                debugCaptureMaxBytes := 0; configured_min_version := ""; relay_config := ex_config |}
  end.
Definition ex_transport : transport := {|
  t_lce := λ _, ex_lce 99 (Some ex_secret); t_client := λ _, client ex_client; t_unmarshal := ex_unmarshal;
  t_settings := ex_settings; t_bad_url := λ _, None; t_platform := λ _ _, Ok (200, ("{}", None)) |}.

Lemma ex_signing : signing ex_transport ex_secret.
Proof. split; reflexivity. Qed.


(** A relay for development, without the secret: the console of the examples saves nothing. *)
Lemma config_calls_guarded_witness :
  isLoopbackServerAddr (λ _, Some "127.0.0.1") (str_eqb "127.0.0.1") (serverAddr ex_settings) = true ∧
  (∀ n body, platform_sent ex_transport n body = []) ∧
  platform_config_jobs (db_of (handleSavePlatformModelConfig (transported ex_transport ex_console) ex_save_http
                                 (Some ex_save) (ex_world empty_db)).2) = ∅.
Proof.
  destruct (config_calls_guarded ex_transport ex_getenv_local (λ _, None) (λ _, Some "127.0.0.1") (str_eqb "127.0.0.1") 28800
              ex_console) as (_ & _ & H); [vm_compute; reflexivity|reflexivity|].
  destruct (H eq_refl) as (H1 & H2 & H3). split; [exact H1|]. split; [exact H2|]. apply H3. discriminate.
Defined.
